(* ===== verification/_CoqProject ===== *)
-Q . S2P
Prelude.v
CMachine.v
Align.v
VmSpec.v
RefKernel.v
Mremap.v
MremapLemmas.v
MremapTests.v
MremapOracle.v
Libc.v
TestMck.v
Ledger.v
TestMckProofs.v
MremapSuite.v
Drv.v
DrvProofs.v
DrvFiles.v
DevTests.v
Lv07.v
Lv07Proofs.v
FileMap.v
Lv11.v
Lv09.v
FileMapProofs.v
LargePages.v
Procs.v
ProcSpec.v
Ptrace.v
Script.v
PtraceProofs.v
PtraceRuns.v
Rlimit.v
RlimitProofs.v
MemFile.v
MemFileProofs.v
Identity.v
IdentityProofs.v
Sched.v
SchedProofs.v
Affinity.v
AffinityProofs.v
AffinityRuns.v
LargeMem.v
LargeMemProofs.v
Fork.v
Exec.v
ForkRuns.v
WaitAll.v
ForkProofs.v
Time.v
TimeProofs.v
MemSys.v
MemSysProofs.v
ProcDump.v
ProcDumpProofs.v
SigMachine.v
Signals.v
SignalProofs.v
Tasks.v
CpuTests.v
Threads.v
TaskRuns.v
TaskProofs.v
PvM.v
PvMProofs.v
