(* ===== verification/Prelude.v ===== *)
(** * Verification of the McKernel test set (ostest)

    The repository is a test set for an operating system: programs that call the kernel and judge
    what it replies, a harness that runs them, and a Linux driver that gives some of them a device to
    map.  A test set is correct when its verdicts can be trusted.  So the theorems go in two
    directions: on a kernel that behaves as documented a test passes, and a test that passes, on a
    kernel about which nothing is assumed, has seen what it is meant to see.  Beside that stand the
    usual obligations of C programs: no leak on any path, no access out of bounds, no hang.

    ** The parts and their files

    - Prelude.v: notations, tactics and lemmas that all files share.
    - CMachine.v: the machine.  A C function is a [prog], a tree of the requests it makes (system
      calls, loads and stores of memory the kernel manages, output) with the C code in between as
      ordinary functions of the replies.  [exec] runs it on a kernel (class [Kernel]); the relation
      [run] runs it on arbitrary replies and records them as a trace.  Local variables are Rocq
      variables; integers keep their width through [u64], [s32] and so on; [errno] is state.
    - Align.v: the page size and alignment macros of test_mck.h and arch_test_mck.h.
    - VmSpec.v, RefKernel.v: the interface between the kernel and the memory tests (class
      [VmKernel], laws of mmap, munmap, mremap, sigaction and of memory), and an executable kernel
      that meets it.
    - Mremap.v: src/src/test_mck/src/mremap_mmap_anon/, helpers and test cases under the names of
      the source.  MremapLemmas.v and MremapTests.v: every test case passes on every [VmKernel].
      MremapOracle.v: what a passing test case has seen.  MremapSuite.v: the arguments of the suite,
      and the suite run by the harness.
    - Libc.v: strtoll, strtoul, atoi, getopt and getopt_long.
    - TestMck.v, TestMckProofs.v: the harness src/src/test_mck/src/test_mck.c.
    - Ledger.v: the descriptors, mappings and strings a process holds after a trace, where munmap gives
      back a mapping only when it succeeds; [keeps p h h'] says that [p], started holding [h], returns
      holding [h'] on every reply, [settles] that it does unless it says otherwise.
    - Drv.v: the driver src/src/test_drv/ (test_mck_drv.c and its two devices), operations in a
      state monad over the variables of the module.  DrvProofs.v: load and unload.  DrvFiles.v:
      device files and procfs files.
    - DevTests.v: src/src/test_mck/src/mmap_dev/, the tests of the driver's devices.
    - Lv07.v, Lv07Proofs.v: src/src/lv07_read-write_with-glibc/, threads that take turns, as a step
      relation whose label sequences are the interleavings.
    - FileMap.v, Lv11.v, Lv09.v, FileMapProofs.v: src/src/lv11_copy_on_write/ and
      src/src/lv09_syscall_page_fault_forwqarding/, strings in mapped files.
    - LargePages.v: src/src/lv14_large_pages/ and lv15_map_anon.c, lv15_map_file.c of
      src/src/lv15_continuous_execution/.
    - Procs.v: several processes.  A [world] is a table of programs, each with its [errno], on a
      process kernel (class [ProcKernel]: a system call takes effect, blocks, forks or ends its
      process); [step] lets any one of them move.  [always] and [may] are the outcomes over all
      interleavings, [explore] and [search] decide them.  ProcSpec.v: the documented kernel as an
      executable specification [Spec] of the requests that the tests make, with handlers, SA_RESTART and
      EINTR; any other request is [Unspecified].  Class [ProcLaws]: a kernel that answers like [Spec] what
      is specified; the verdicts of tests that make no other request carry over to it.
    - Ptrace.v: src/src/test_mck/src/ptrace/ and its stubs in arch/x86/arch_test_ptrace.c.
      Script.v: scripts, what a trace must contain, and rules to show that a program's runs follow
      one.  PtraceProofs.v: the script of each ptrace test.  PtraceRuns.v: the verdicts.
    - Rlimit.v, RlimitProofs.v: src/src/test_mck/src/getrlimit/ and setrlimit/.
    - MemFile.v, MemFileProofs.v: src/src/test_mck/src/mmap_file/, mmap_locked/, mmap_populate/,
      madvise/, mprotect/ and mincore/.
    - Identity.v, IdentityProofs.v: the 14 suites on user and group identities, setuid/ to
      setfsgid/.  The proofs start with the specification of credentials(7).
    - Sched.v, SchedProofs.v: the seven suites sched_setparam/ to sched_get_priority_min/.
    - Affinity.v: sched_setaffinity/, sched_getaffinity/, get_cpu_id/ and src/src/show_affinity/, with
      CPU sets as blocks of memory.  AffinityProofs.v: the specification of the two calls and the
      verdicts.  AffinityRuns.v: what holds on any kernel, and what show_affinity prints.
    - LargeMem.v, LargeMemProofs.v: mem_large_page/, mem_limits/ and mem_stack_limits/.
    - Fork.v: fork/, wait4/, waitid/, getppid/, setpgid/, kill/ and gettid/000.  Exec.v: execve/,
      fork_execve/, vfork/ and setpgid/004.  ForkRuns.v: their verdicts in every interleaving, and the
      vector of arguments given to execve.  WaitAll.v: waitid/002 with any number of children, by an
      invariant with a measure.  ForkProofs.v: what a passing run of waitid and kill shows.
    - Time.v: the suites on clocks, timers, sleeps, times and resource usage, enosys/ and readlinkat/.
      TimeProofs.v: a specification of the clock, and the verdicts on every kernel that meets it.
    - MemSys.v: msync/, remap_file_pages/, mlock/ to munlockall/, nfo/ and page_fault_forwording/.
      MemSysProofs.v: what remap_file_pages/000 can see of a kernel, and what msync/000 gives back.
    - SigMachine.v: programs with signal handlers.  A signal is delivered between two requests; the
      handlers are programs, too.  Signals.v: the twelve suites on signals, rt_sigaction/ to pause/, with
      src/src/lv12_signal/ and lv15_kill_process.c.  SignalProofs.v: signal(7) as a specification, and
      what the tests do and print on every kernel that meets it.
    - Tasks.v: ProcSpec.v extended by threads, CPUs and masks, limits, timers and files, as [TaskSpec] with
      the class [TaskLaws]; between two looks at its CPU the scheduler may move a task ([drift]).
      CpuTests.v: sched_setaffinity 008 to 010, sched_getaffinity 005 and 006, sched_yield/,
      cpu_proc_limits/.  Threads.v: the tests that start threads, in gettid/, tls/, nfo/,
      pthread_getaffinity/, pthread_setaffinity/, cpu_thread_limits/, sched_setaffinity/, getrusage/,
      tgkill/ and tkill/.  TaskRuns.v: their verdicts in every interleaving.  TaskProofs.v: what they show
      on any kernel.
    - PvM.v, PvMProofs.v: process_vm_readv/ and process_vm_writev/, with the harness that the child runs.
    - ProcDump.v: procfs/, tests that show files of /proc.  ProcDumpProofs.v: a specification of those
      files, and what each test prints on it.

    ** How they interact

    The harness (TestMck.v) takes a table of test cases, each a record with setup, run and teardown;
    MremapSuite.v and DevTests.v give the records of their suites, and [harness_runs_mremap_suite]
    composes command line, harness, suite and kernel.  The pattern that DevTests.v demands of a
    device page is the one DrvProofs.v proves the driver to keep and DrvFiles.v proves it to serve.
    The procfs theorems are about what the installation script reads to make the device nodes.
    The processes of a ptrace test meet in the kernel only; [world_refines_run] takes the part of the
    test process in any interleaving to a [run], so what is proved of runs holds in the world.
    A signal handler is the change it makes to the static variables of its process; the kernel of
    ProcSpec.v applies it when it delivers the signal.  The program that execve puts in the place of a
    process is known by the status it leaves with.  Where handlers make requests of their own they are
    programs, which the machine of SigMachine.v runs when the kernel delivers a signal.
    A documented kernel is a class with laws ([VmKernel], [RlimitKernel], [CredKernel], ...) or a partial
    function [sstep] from requests to replies: a kernel [Meets] it when it replies the same, and then
    [sexec_exec] takes a run on the specification to the kernel.

    ** What the groups of theorems show

    - Verdicts: [mremap_suite_passes], [harness_runs_mremap_suite], [lv14_tests_pass] (a right kernel
      passes); [mremap_suite_oracle], [data_check_exact], [devmap_pass_sees_pattern] (a pass means
      what it says); [main_runs_chosen], [main_exit_status], [plain_command_line] (the harness runs
      what it was asked to and reports it).
      Of the system call suites: [ptrace_verdicts], [setrlimit_verdicts], [getrlimit_verdicts],
      [mmap_file_outcomes] give the verdict of every test case on a documented kernel, also where it
      is not a pass; so do [fork_verdicts], [exec_verdicts], [vfork_verdicts], [identity_refines], [sched_verdicts] and [affinity_verdicts], which also give
      the state the test case leaves; [ptrace_world_evidence], [setrlimit_pass_evidence],
      [memory_pass_evidence] and [large_page_pass_evidence] say what a passing test case has seen on
      any kernel, [mem_limits_allocations] what it has allocated; [kill_pass_evidence] and
      [waitid_pass_evidence] say it of the process suites.  [time_tests_verdicts] and
      [gettimeofday_verdict] are the verdicts of the tests on time, also where the C library touches an
      address that is not mapped and the test dies of SIGSEGV; [migration_verdicts], [cpu_test_verdicts],
      [thread_verdicts] and [threads_pass] are those of the tests on CPUs and threads, and
      [process_vm_verdicts] those of the tests on the memory of another process; [remap_000_verdict] says on which
      kernels remap_file_pages/000 passes, [remap_000_even_pass] what a pass means with the sizes in use.
    - Signals: [rt_sigaction_verdicts], [siginfo_000_verdict], [signal_tests_pass] and
      [signal_programs_print]; [sigaltstack_001_verdict] says what sigaltstack/001 does not see, and
      [siginfo_001_waits] when siginfo/001 never ends.
    - Output: [procfs_memory_shown], [procfs_auxv_shown], [procfs_pagemap_shown] and
      [procfs_text_shown] say what the reader of the procfs suite gets to see; the examples behind them
      are the lines of src/log/run_test_x86_log.txt.
    - Resources: [load_unload_balanced], [failed_load_no_leak], [create_temp_file_no_leak],
      [devmap_pass_no_leak], [affinity_sets_freed], and, unless a munmap fails, [filemap_no_leak],
      [large_pages_no_leak], [mmap_case_no_leak] and [msync_000_no_leak]; the exceptions are
      [lv15_map_file_holds_file] and the error paths of [filemap_descriptor_ledger].
    - Driver function: [setup_registers], [setup_result_spec], [dev2_serves_pages],
      [dev2_ioctl_resets], [procfs_names_devices], [procfs_read_all].
    - Concurrency: [turns_in_order] (order, no deadlock, termination in every interleaving) and
      [open_failure_hangs]; [ptrace_verdicts] (no deadlock where tracing is permitted) and
      [ptrace_refused_hangs]; [waitid_002_passes] (any number of children); [tls_001_counts] (the
      variable of a thread, whatever the other threads do).
    - Bounds and integers: [string_read_bounds], [lv11_write_in_bounds], [fill_buf_bounds], [argv_block_fits],
      [create_temp_file_size], [test_mck_strtoul_values], [align_down_greatest], [align_up_least].
    - Arguments and contents: [mremap_arguments_roundtrip], [mmap_dev_setup_args],
      [lv11_parse_argument], [lv11_write_success], [lv11_prints_string], [show_affinity_prints].
    - Defects of the code, as plain theorems: [alloc_failure_releases_unowned],
      [mmap_dev_hides_error], [lv09_missing_string], [negative_cpus_clear_everything],
      [large_page_vacuous], [small_stack_prints_pointer], [second_sync_does_not_wait],
      [setpgid_004_race], [setpgid_003_next_group], [getrusage_never_passes],
      [readlinkat_ignores_errors].

    ** Parameters, fuel and bounds

    The kernel is the parameter of [exec] (with the laws of [VmKernel] where a theorem needs them)
    and of [run] (any replies).  Its room is [avail]: the memory theorems ask for nine large ranges
    or 5 GiB.  The replies of Linux to the driver are the record [Drv.env].  [strerror], the text of
    [%p] and the table of test cases are arguments.  A printed string is read with [fuel]; the
    theorems hold for each value of it, and [lv11_prints_string] shows that one more than the length
    of the string is enough.  Loops over C counters are structural on the number of iterations left
    ([reset_loop], [access_loop], [data_check_loop]), which their callers start at a bound the code
    cannot exceed.  The status file of setfsuid is read with fuel; [identity_refines] asks for more
    than the kernel has lines in it.  The loops of mem_limits have fuel and say when it is out;
    [mem_limits_allocations] shows how much is enough.  The number of steps of lv07 is bounded in [turns_in_order].  The interleavings of
    a ptrace test, and of the tests in the tables of ForkRuns.v, are explored to depth 100, and
    [explore] fails when that is not the end: so the proofs by computation show that it is.  A loop in
    which a process waits for a variable has fuel and is regarded as killed when it runs out:
    [fork_verdicts] holds for any fuel of the locks, which are never found taken, and gives the kill
    suite a child that looks three times; [kill_pass_evidence] holds for any fuel.  The file of
    [remap_000_verdict] has less than 2^43 bytes, so that its pages can be counted by an [int].

    ** What is not modelled, and the plan

    Of the test cases: msync/001, whose thread changes a file that the test has mapped, too;
    cpu_thread_limits/001, which is floating point; fpregs and the registers of sched_setaffinity on
    SPARC, which are inline assembly or empty on x86; force_exit, popen, system, coredump, env, ipc,
    set_tid_address and getcpu; the body of setitimer/003, which is under #if 0.  Of the programs:
    socket_TP, and those of one statement.  The scripts, the templates and the text of kernel messages
    (printk) carry no logic of the program.  Output is a list of texts of each process: that fork copies
    what stdio has not written yet, and that [_exit] drops it, is not modelled.

    The specifications of kernels fix what no verdict depends on: [sleep] and the timer of Tasks.v are over
    at once, and the numbers in the reply of getrusage are zeros; memory is there for every mapping.

    Next, in this order: msync/001 on a specification of shared files, set_tid_address and getcpu on the
    tasks of Tasks.v, and more than one thread or child where a theorem now has one, by an invariant as in
    WaitAll.v. *)
From Stdlib Require Export Ascii.
From stdpp Require Export base strings list gmap numbers pretty.
From Stdlib Require Export ZArith Lia.

#[global] Open Scope Z_scope.

(** ** Notations of the development *)

Declare Scope mck_scope.
Delimit Scope mck_scope with mck.
#[global] Open Scope mck_scope.

(** C's [a | b] and [a & b] on integers. *)
Notation "a .| b" := (Z.lor a b) (at level 50, left associativity) : mck_scope.
Notation "a .& b" := (Z.land a b) (at level 45, left associativity) : mck_scope.

(** The byte address [a] lies in the [len] bytes that start at [lo]. *)
Definition in_range (lo len a : Z) : bool := (lo <=? a) && (a <? lo + len).

(** ** Machine integers

    C's fixed-width integers are kept as [Z]; [wrap_u w] and [wrap_s w] are the conversions to a
    [w]-bit unsigned and two's-complement signed type. *)
Definition wrap_u (w x : Z) : Z := x mod 2 ^ w.
Definition wrap_s (w x : Z) : Z := (x + 2 ^ (w - 1)) mod 2 ^ w - 2 ^ (w - 1).
Abbreviation u8 := (wrap_u 8).
Abbreviation u32 := (wrap_u 32).
Abbreviation u64 := (wrap_u 64).
Abbreviation s32 := (wrap_s 32).
Abbreviation s64 := (wrap_s 64).

(** ** Tactics *)

Create HintDb mck.
Create Rewrite HintDb mck.

(** Turns the boolean tests of the code into the propositions they decide. *)
Ltac b2p :=
  repeat match goal with
  | H : _ && _ = true |- _ => apply andb_true_iff in H; destruct H
  | H : _ || _ = false |- _ => apply orb_false_iff in H; destruct H
  | H : negb _ = true |- _ => apply negb_true_iff in H
  | H : negb _ = false |- _ => apply negb_false_iff in H
  | H : (_ =? _) = true |- _ => apply Z.eqb_eq in H
  | H : (_ =? _) = false |- _ => apply Z.eqb_neq in H
  | H : (_ <? _) = true |- _ => apply Z.ltb_lt in H
  | H : (_ <? _) = false |- _ => apply Z.ltb_ge in H
  | H : (_ <=? _) = true |- _ => apply Z.leb_le in H
  | H : (_ <=? _) = false |- _ => apply Z.leb_gt in H
  end.

(** Case analysis on the scrutinee of a [match] or [if] of the goal. *)
Ltac split_match :=
  match goal with
  | |- context [match ?x with _ => _ end] =>
      lazymatch x with context [match _ with _ => _ end] => fail | _ => destruct x eqn:? end
  end.

(** The same for a hypothesis. *)
Ltac split_match_in H :=
  match type of H with
  | context [match ?x with _ => _ end] =>
      lazymatch x with context [match _ with _ => _ end] => fail | _ => destruct x eqn:? end
  end.

(** ** Arithmetic *)

Lemma wrap_u_small w x : 0 <= x < 2 ^ w -> wrap_u w x = x.
Proof. intros H. unfold wrap_u. apply Z.mod_small; lia. Qed.

Lemma wrap_u_range w x : 0 <= w -> 0 <= wrap_u w x < 2 ^ w.
Proof. intros H. unfold wrap_u. apply Z.mod_pos_bound. apply Z.pow_pos_nonneg; lia. Qed.

Lemma wrap_u_add_l w a b : wrap_u w (wrap_u w a + b) = wrap_u w (a + b).
Proof. unfold wrap_u. apply Zplus_mod_idemp_l. Qed.

Lemma wrap_s_small w x : 0 < w -> - 2 ^ (w - 1) <= x < 2 ^ (w - 1) -> wrap_s w x = x.
Proof.
  intros Hw H. unfold wrap_s.
  assert (2 ^ w = 2 * 2 ^ (w - 1)) as E.
  { rewrite <- Z.pow_succ_r by lia. f_equal; lia. }
  rewrite Z.mod_small; lia.
Qed.

Lemma wrap_s_range w x : 0 < w -> - 2 ^ (w - 1) <= wrap_s w x < 2 ^ (w - 1).
Proof.
  intros Hw. unfold wrap_s.
  assert (2 ^ w = 2 * 2 ^ (w - 1)) as E.
  { rewrite <- Z.pow_succ_r by lia. f_equal; lia. }
  assert (0 < 2 ^ (w - 1)) by (apply Z.pow_pos_nonneg; lia).
  pose proof (Z.mod_pos_bound (x + 2 ^ (w - 1)) (2 ^ w)). lia.
Qed.

Lemma in_range_spec lo len a : in_range lo len a = true <-> lo <= a < lo + len.
Proof. unfold in_range. rewrite andb_true_iff, Z.leb_le, Z.ltb_lt. lia. Qed.

Lemma in_range_false lo len a : in_range lo len a = false <-> ~ (lo <= a < lo + len).
Proof. rewrite <- in_range_spec. destruct (in_range lo len a); naive_solver. Qed.

Lemma in_range_in lo len a : lo <= a < lo + len -> in_range lo len a = true.
Proof. apply in_range_spec. Qed.

Lemma in_range_out lo len a : ~ (lo <= a < lo + len) -> in_range lo len a = false.
Proof. apply in_range_false. Qed.

(** Decides the range tests of the goal by [lia], or by cases where [lia] cannot. *)
Ltac range_cases :=
  repeat match goal with
  | |- context [in_range ?lo ?len ?a] =>
      first [ rewrite (in_range_in lo len a) by lia
            | rewrite (in_range_out lo len a) by lia
            | let E := fresh "Hr" in
              destruct (in_range lo len a) eqn:E;
              [apply in_range_spec in E | apply in_range_false in E] ]
  end.

(** ** Lists *)

Lemma nth_error_lookup {A} (l : list A) i : nth_error l i = l !! i.
Proof. revert i. induction l as [|x l IH]; intros [|i]; simpl; auto. Qed.

(** The first element that satisfies a test, which is what a search loop with [break] returns. *)
Lemma find_split {A} (f : A -> bool) l x :
  List.find f l = Some x <->
  exists l1 l2, l = l1 ++ x :: l2 /\ f x = true /\ Forall (fun y => f y = false) l1.
Proof.
  split.
  - induction l as [|y l IH]; simpl; [done|]. destruct (f y) eqn:E.
    + intros [= ->]. exists [], l. repeat split; auto.
    + intros H. destruct (IH H) as (l1 & l2 & -> & Hx & Hl). exists (y :: l1), l2.
      repeat split; auto.
  - intros (l1 & l2 & -> & Hx & Hl). induction Hl as [|y l1 Hy Hl IH]; simpl.
    + by rewrite Hx.
    + by rewrite Hy.
Qed.

#[export] Hint Resolve in_range_in in_range_out : mck.
#[export] Hint Rewrite wrap_u_small using lia : mck.
