(* ===== verification/CMachine.v ===== *)
(** * The C machine the test programs run on

    A C function of the repository becomes a [prog]: a finite tree of the requests it makes of the
    kernel and of the memory the kernel manages, with the C code between two requests as ordinary
    Rocq functions of the replies.  The kernel is code the repository only calls, so it is a
    parameter: the class [Kernel] gives it a state type and a step function, and [exec] runs a
    program against it.  The relation [run] runs a program against arbitrary replies, for the
    properties that hold whatever the kernel does. *)
From S2P Require Import Prelude.
#[local] Open Scope Z_scope.

(** ** Constants of the C environment (Linux, x86_64) *)

Definition EPERM : Z := 1.
Definition ENOENT : Z := 2.
Definition ESRCH : Z := 3.
Definition EIO : Z := 5.
Definition EBADF : Z := 9.
Definition ECHILD : Z := 10.
Definition EAGAIN : Z := 11.
Definition EACCES : Z := 13.
Definition EINVAL : Z := 22.
Definition ENOMEM : Z := 12.
Definition ENOSYS : Z := 38.
Definition EFAULT : Z := 14.
Definition EINTR : Z := 4.
Definition EPIPE : Z := 32.
Definition ERANGE : Z := 34.
Definition SIGTRAP : Z := 5.
Definition SIGBUS : Z := 7.
Definition SIGKILL : Z := 9.
Definition SIGSTOP : Z := 19.
Definition SIGSEGV : Z := 11.
Definition SIGUSR2 : Z := 12.
Definition SIGPIPE : Z := 13.
Definition SIGCHLD : Z := 17.
Definition SA_SIGINFO : Z := 0x00000004.
Definition SA_RESTART : Z := 0x10000000.
Definition SA_RESETHAND : Z := 0x80000000.
Definition PROT_NONE : Z := 0x0.
Definition PROT_READ : Z := 0x1.
Definition PROT_WRITE : Z := 0x2.
Definition PROT_EXEC : Z := 0x4.
Definition MAP_SHARED : Z := 0x01.
Definition MAP_PRIVATE : Z := 0x02.
Definition MAP_FIXED : Z := 0x10.
Definition MAP_ANONYMOUS : Z := 0x20.
Definition MREMAP_MAYMOVE : Z := 1.
Definition MREMAP_FIXED : Z := 2.
Definition MS_SYNC : Z := 4.
Definition O_RDONLY : Z := 0.
Definition O_WRONLY : Z := 1.
Definition O_RDWR : Z := 2.
Definition O_CREAT : Z := 0x40.
Definition EXIT_SUCCESS : Z := 0.
Definition EXIT_FAILURE : Z := 1.

(** Pointers are 64-bit addresses; [MAP_FAILED] is [(void * )-1] and [NULL] is 0. *)
Definition MAP_FAILED : Z := 2 ^ 64 - 1.
Definition NULL : Z := 0.

(** ** Requests and replies *)

(** What a signal does: the default action (the process is killed), or the handler the program
    installed, named by the C function. *)
Inductive disposition : Set :=
| SIG_DFL
| SIG_HANDLER (fn : string).

(** A memory access yields its value or raises a signal with the disposition it has. *)
Inductive access (A : Set) : Set :=
| Ok (a : A)
| Fault (sig : Z) (d : disposition).
Arguments Ok {A} a.
Arguments Fault {A} sig d.

(** The parts of [siginfo_t] the programs use. *)
Record siginfo := Siginfo { si_signo : Z; si_errno : Z; si_code : Z; si_addr : Z }.

(** The action of a signal; a signal set is a number whose bit [sig - 1] stands for [sig]. *)
Record sigact := Sigact { sa_handler : disposition; sa_flags : Z; sa_mask : Z }.

(** The requests of ptrace(2), with the values handed over: an address, a word, options, a siginfo.
    [PTRACE_PEEK DATA] is PTRACE_PEEKDATA, and so on. *)
Inductive ptrace_area : Set := TEXT | DATA | USER.
Inductive ptrace_req : Set :=
| PTRACE_TRACEME
| PTRACE_PEEK (area : ptrace_area) (addr : Z)
| PTRACE_POKE (area : ptrace_area) (addr data : Z)
| PTRACE_CONT
| PTRACE_KILL
| PTRACE_SINGLESTEP
| PTRACE_GETFPREGS
| PTRACE_ATTACH
| PTRACE_DETACH
| PTRACE_SYSCALL
| PTRACE_SETOPTIONS (options : Z)
| PTRACE_GETEVENTMSG
| PTRACE_GETSIGINFO
| PTRACE_SETSIGINFO (info : siginfo).

(** What a request stores in the caller's memory: the word read, [swd] of the floating point
    registers, the event message, a siginfo. *)
Definition ptrace_out (req : ptrace_req) : Set :=
  match req with
  | PTRACE_PEEK _ _ | PTRACE_GETFPREGS | PTRACE_GETEVENTMSG => Z
  | PTRACE_GETSIGINFO => siginfo
  | _ => unit
  end.

(** What is left there when the request fails: nothing the programs look at. *)
Definition no_out (req : ptrace_req) : ptrace_out req :=
  match req with
  | PTRACE_PEEK _ _ | PTRACE_GETFPREGS | PTRACE_GETEVENTMSG => 0
  | PTRACE_GETSIGINFO => Siginfo 0 0 0 0
  | _ => tt
  end.

(** User or group identities. *)
Inductive id_kind : Set := UID | GID.

(** What a loop that only looks at a variable, [while (...) cpu_pause()], waits for. *)
Inductive awaited : Set := NONZERO | EQUALS (v : Z) | NOTHING.

Inductive cmd : Set :=
| SYS_mmap (addr len prot flags fd off : Z)
| SYS_munmap (addr len : Z)
| SYS_mremap (addr old_len new_len flags new_addr : Z)
| SYS_msync (addr len flags : Z)
| SYS_rt_sigaction (sig : Z) (fn : string) (flags : Z)
| SYS_open (path : string) (flags : Z)
| SYS_close (fd : Z)
| SYS_stat (path : string)
| SYS_lseek (fd off whence : Z)
| SYS_write (fd : Z) (data : list Z)
| SYS_fsync (fd : Z)
| SYS_unlink (path : string)
| SYS_ioctl (fd request : Z)
| SYS_fork
| SYS_vfork
| SYS_execve (path : string) (argv : list string)
| SYS_wait4 (pid options : Z)
| SYS_kill (pid sig : Z)
| SYS_ptrace (req : ptrace_req) (pid : Z)
| SYS_getpid
| SYS_getppid
| SYS_gettid
| SYS_getpgid (pid : Z)
| SYS_setpgid (pid pgid : Z)
| SYS_waitid (idtype id options : Z)
| SYS_pipe
| SYS_read (fd len : Z)
| SYS_fstat (fd : Z)
| SYS_getrlimit (resource : Z)
| SYS_setrlimit (resource cur max : Z)
| SYS_mprotect (addr len prot : Z)
| SYS_madvise (addr len advice : Z)
| SYS_mincore (addr len : Z) (valid_vec : bool)
| SYS_shmget (key size flags : Z)
| SYS_shmat (id addr flags : Z)
| SYS_shmdt (addr : Z)
| SYS_shmctl (id op : Z)
| SYS_get_id (k : id_kind) (effective : bool)
| SYS_getresid (k : id_kind)
| SYS_setid (k : id_kind) (id : Z)
| SYS_setreid (k : id_kind) (rid eid : Z)
| SYS_setresid (k : id_kind) (rid eid sid : Z)
| SYS_setfsid (k : id_kind) (fsid : Z)
| SYS_sched_setscheduler (pid policy priority : Z)
| SYS_sched_getscheduler (pid : Z)
| SYS_sched_setparam (pid priority : Z)
| SYS_sched_getparam (pid : Z)
| SYS_sched_rr_get_interval (pid : Z)
| SYS_sched_get_priority (max : bool) (policy : Z)
| SYS_sched_setaffinity (pid size : Z) (mask : option Z)
| SYS_sched_getaffinity (pid size : Z) (valid_mask : bool)
| SYS_getcpu
| SYS_get_cpu_id
| SYS_getrusage (who : Z) (valid : bool)
| SYS_clock (resolution : bool) (id : Z) (valid : bool)
| SYS_gettimeofday
| SYS_settimeofday (sec usec : Z)
| SYS_getitimer (which : Z) (valid : bool)
| SYS_setitimer (which : Z) (new : option (Z * Z * (Z * Z))) (old : option bool)
| SYS_nanosleep (req : option (Z * Z))
| SYS_times (valid : bool)
| SYS_rt_sigprocmask (how : Z) (set : list Z)
| SYS_sigaction (sig : Z) (act : option sigact)
| SYS_sigprocmask (how : Z) (set : option Z)
| SYS_tgkill (pid tid sig : Z)
| SYS_tkill (tid sig : Z)
| SYS_sigpending (valid : bool)
| SYS_sigqueueinfo (pid sig : Z) (info : siginfo)
| SYS_sigtimedwait (words : list Z)
| SYS_sigsuspend (mask : Z)
| SYS_sigaltstack (sp flags size : Z)
| SYS_pause
| SYS_signalfd4 (fd mask size flags : Z)
| SYS_fcntl (fd op : Z)
| SYS_readlinkat (path : string) (size : Z)
| SYS_mlock (addr len : Z)
| SYS_munlock (addr len : Z)
| SYS_mlockall (flags : Z)
| SYS_munlockall
| SYS_remap_file_pages (addr len prot pgoff flags : Z)
| SYS_unimplemented (nr : Z)
| LIBC_time
| LIBC_alarm (sec : Z)
| LIBC_sync
| LIBC_pthread_create
| LIBC_pthread_join
| LIBC_pthread_kill (sig : Z)
| LIBC_thread_start
| LIBC_thread_end (value : Z + string)
| LIBC_thread_join (tid : Z)
| LIBC_calloc (size : Z)
| SYS_sched_yield
| SYS_process_vm (write : bool) (pid local remote len : Z)
| TLS_address (a : Z)
| VAR_await (a : Z) (w : awaited)
| LOCAL_address
| FILE_fopen (path mode : string)
| FILE_fgets (fp size : Z)
| FILE_fclose (fp : Z)
| FILE_fscanf_long (fp : Z)
| FILE_fprintf (fp : Z) (text : string)
| LIBC_raise (sig : Z)
| LIBC_sleep (usec : Z)
| LIBC_sem_init (sem pshared value : Z)
| LIBC_sem_wait (sem : Z)
| LIBC_sem_post (sem : Z)
| LIBC_sem_destroy (sem : Z)
| LIBC_feraiseexcept (excepts : Z)
| LIBC_feclearexcept (excepts : Z)
| VAR_load (a : Z)
| VAR_store (a v : Z)
| LIBC_asprintf (text : string)
| LIBC_free (text : string)
| LIBC_malloc (size : Z)
| LIBC_release (p : Z)
| LIBC_sbrk (increment : Z)
| LIBC_brk (addr : Z)
| LIBC_mkstemp (template : string)
| MEM_load (a : Z)
| MEM_store (a v : Z)
| MEM_set (a v len : Z)
| OUT (text : string)
| ERR (text : string).

(** A system call replies with the kernel's register value (a result, or [-errno]); [stat] and
    [fstat] also fill [st_size], [wait4] the status of the process it names, [waitid] its number,
    [pipe] the two descriptors, [read] the bytes, [getrlimit] the two limits, [mincore] the vector
    ([valid_vec]: it was given one it can write), [ptrace] what its request yields; a
    semaphore is accessed through its address; [getresid] yields the real, effective and saved
    identity, [sched_getparam] the priority, [sched_rr_get_interval] seconds and nanoseconds; a CPU
    mask is the number whose bits are the CPUs, or an address that is no mask; [fopen] and [fgets]
    can reply NULL, [fscanf] of a [%ld] may find no number; [execve] replies an error, or the status
    with which the program that takes the place of the caller will leave; the calls on time yield a
    time, as seconds and nanoseconds or microseconds, the timers an interval and a value, [getrusage]
    its fields, [readlinkat] the bytes of the link ([valid], [old]: they were given an address they can
    write; the old value of a timer may also be left out); [VAR_load] and [VAR_store] are accesses to a
    static variable that another process or a signal handler can change; [malloc] yields an address and
    the number that the bytes found there form, or nothing, and [LIBC_release] is [free] of an address;
    [SYS_sigaction] and [SYS_sigprocmask] yield the old action and mask; [LOCAL_address] is the address of
    a local variable of the function that runs;
    [LIBC_thread_start] is [pthread_create]: it replies the number of the new thread to the caller and 0
    to the thread, which goes on with the same program ([pthread_create] below); a thread ends with a
    pointer, a number or a message, which [LIBC_thread_join] yields; [TLS_address] is where the calling
    thread has its copy of the thread variable at [a]; [VAR_await] is a loop that looks at the variable
    at [a] until it has the value awaited, and yields this value: the loop changes nothing, so that all
    its rounds are one request, which is answered when the loop is over;
    [SYS_process_vm] is process_vm_readv(2) or process_vm_writev(2) with one element on each side;
    [asprintf] yields the allocated string, or nothing when memory is short; [mkstemp] also yields the
    template with its six characters replaced. *)
Definition reply (c : cmd) : Set :=
  match c with
  | SYS_stat _ | SYS_fstat _ | SYS_wait4 _ _ | SYS_waitid _ _ _ => Z * Z
  | SYS_pipe | SYS_getrlimit _ => Z * (Z * Z)
  | SYS_read _ _ | SYS_mincore _ _ _ => Z * list Z
  | SYS_getresid _ => Z * (Z * Z * Z)
  | SYS_sched_getparam _ | SYS_sched_getaffinity _ _ _ => Z * Z
  | SYS_sched_rr_get_interval _ | SYS_clock _ _ _ | SYS_gettimeofday | SYS_nanosleep _ => Z * (Z * Z)
  | SYS_getitimer _ _ | SYS_setitimer _ _ _ => Z * (Z * Z * (Z * Z))
  | SYS_getrusage _ _ => Z * list Z
  | SYS_sigaction _ _ => Z * sigact
  | SYS_sigprocmask _ _ => Z * Z
  | SYS_readlinkat _ _ => Z * string
  | FILE_fopen _ _ | FILE_fscanf_long _ => option Z
  | FILE_fgets _ _ => option string
  | SYS_ptrace req _ => Z * ptrace_out req
  | LIBC_sem_init _ _ _ | LIBC_sem_wait _ | LIBC_sem_post _ | LIBC_sem_destroy _ => access Z
  | LIBC_thread_end _ => unit
  | LIBC_thread_join _ => Z * (Z + string)
  | LIBC_calloc _ => option Z
  | VAR_store _ _ => unit
  | LIBC_asprintf _ => option string
  | LIBC_malloc _ => option (Z * Z)
  | LIBC_mkstemp _ => Z * string
  | LIBC_free _ | LIBC_release _ | LIBC_sync | FILE_fprintf _ _ | OUT _ | ERR _ => unit
  | MEM_load _ => access Z
  | MEM_store _ _ | MEM_set _ _ _ => access unit
  | _ => Z
  end.

(** The reply to a request that is not implemented (ENOSYS), or that has no result. *)
Definition no_reply (c : cmd) : reply c :=
  match c with
  | SYS_stat _ | SYS_fstat _ | SYS_wait4 _ _ | SYS_waitid _ _ _ => (-38, 0)
  | SYS_pipe | SYS_getrlimit _ => (-38, (0, 0))
  | SYS_read _ _ | SYS_mincore _ _ _ => (-38, [])
  | SYS_getresid _ => (-38, (0, 0, 0))
  | SYS_sched_getparam _ | SYS_sched_getaffinity _ _ _ => (-38, 0)
  | SYS_sched_rr_get_interval _ | SYS_clock _ _ _ | SYS_gettimeofday | SYS_nanosleep _ => (-38, (0, 0))
  | SYS_getitimer _ _ | SYS_setitimer _ _ _ => (-38, (0, 0, (0, 0)))
  | SYS_getrusage _ _ => (-38, [])
  | SYS_sigaction _ _ => (-38, Sigact SIG_DFL 0 0)
  | SYS_sigprocmask _ _ => (-38, 0)
  | SYS_readlinkat _ _ => (-38, ""%string)
  | FILE_fopen _ _ | FILE_fgets _ _ | FILE_fscanf_long _ => None
  | SYS_ptrace req _ => (-38, no_out req)
  | LIBC_sem_init _ _ _ | LIBC_sem_wait _ | LIBC_sem_post _ | LIBC_sem_destroy _ => Ok (-38)
  | LIBC_thread_end _ => tt
  | LIBC_thread_join _ => (-38, inl 0)
  | LIBC_calloc _ => None
  | LIBC_asprintf t => Some t
  | LIBC_malloc _ => None
  | LIBC_mkstemp t => (-38, t)
  | MEM_load _ => Ok 0
  | MEM_store _ _ | MEM_set _ _ _ => Ok tt
  | LIBC_free _ | LIBC_release _ | LIBC_sync | FILE_fprintf _ _ | OUT _ | ERR _ | VAR_store _ _ => tt
  | _ => -38
  end.

(** ** Programs *)

Inductive prog (A : Type) : Type :=
| Ret (a : A)
| Exit (status : Z)
| Trap (sig : Z) (d : disposition)
| GetErrno (k : Z -> prog A)
| SetErrno (e : Z) (k : prog A)
| Vis (c : cmd) (k : reply c -> prog A).
Arguments Ret {A} a.
Arguments Exit {A} status.
Arguments Trap {A} sig d.
Arguments GetErrno {A} k.
Arguments SetErrno {A} e k.
Arguments Vis {A} c k.

Fixpoint bind {A B} (p : prog A) (f : A -> prog B) : prog B :=
  match p with
  | Ret a => f a
  | Exit n => Exit n
  | Trap s d => Trap s d
  | GetErrno k => GetErrno (fun e => bind (k e) f)
  | SetErrno e k => SetErrno e (bind k f)
  | Vis c k => Vis c (fun r => bind (k r) f)
  end.

#[global] Instance prog_mret : MRet prog := @Ret.
#[global] Instance prog_mbind : MBind prog := fun A B f p => bind p f.

Definition trigger (c : cmd) : prog (reply c) := Vis c Ret.

(** How a program ends: it returns, it calls [exit], or a signal stops it. *)
Inductive outcome (A : Type) : Type :=
| Returned (a : A)
| Exited (status : Z)
| Signalled (sig : Z) (d : disposition).
Arguments Returned {A} a.
Arguments Exited {A} status.
Arguments Signalled {A} sig d.

(** ** Execution against a kernel *)

Class Kernel := {
  kstate : Type;
  kstep : forall c : cmd, kstate -> reply c * kstate
}.

(** The machine: the C variable [errno] and the kernel's state. *)
Record mach `{Kernel} := Mach { errno : Z; kern : kstate }.
Arguments Mach {_} errno kern.

Fixpoint exec `{Kernel} {A} (p : prog A) (m : mach) : outcome A * mach :=
  match p with
  | Ret a => (Returned a, m)
  | Exit n => (Exited n, m)
  | Trap s d => (Signalled s d, m)
  | GetErrno k => exec (k (errno m)) m
  | SetErrno e k => exec k (Mach e (kern m))
  | Vis c k => let '(r, s) := kstep c (kern m) in exec (k r) (Mach (errno m) s)
  end.

(** ** Execution against arbitrary replies *)

Definition event : Set := {c : cmd & reply c}.
Definition ev (c : cmd) (r : reply c) : event := existT c r.

(** [run p e tr o e']: from [errno = e] the program [p] can exchange the requests and replies [tr]
    with its environment and end with [o], leaving [errno = e'].  It follows the tree, so a case
    analysis of a run is a computation. *)
Fixpoint run {A} (p : prog A) (e : Z) (tr : list event) (o : outcome A) (e' : Z) : Prop :=
  match p with
  | Ret a => tr = [] /\ o = Returned a /\ e' = e
  | Exit n => tr = [] /\ o = Exited n /\ e' = e
  | Trap s d => tr = [] /\ o = Signalled s d /\ e' = e
  | GetErrno k => run (k e) e tr o e'
  | SetErrno e1 k => run k e1 tr o e'
  | Vis c k => exists r tr', tr = ev c r :: tr' /\ run (k r) e tr' o e'
  end.

(** ** The C library's wrappers *)

(** The system call convention: a reply in [-4095 .. -1] is an error, which sets [errno] and makes
    the wrapper return -1. *)
Definition is_error (r : Z) : bool := (-4095 <=? r) && (r <=? -1).
Definition syscall_ret (r : Z) : prog Z :=
  if is_error r then SetErrno (- r) (Ret (-1)) else Ret r.

(** The same for a wrapper that returns a pointer. *)
Definition syscall_ptr (r : Z) : prog Z := r ← syscall_ret r; Ret (u64 r).

Definition mmap (addr len prot flags fd off : Z) : prog Z :=
  r ← trigger (SYS_mmap addr len prot flags fd off); syscall_ptr r.
Definition munmap (addr len : Z) : prog Z := r ← trigger (SYS_munmap addr len); syscall_ret r.
Definition mremap (addr old_len new_len flags new_addr : Z) : prog Z :=
  r ← trigger (SYS_mremap addr old_len new_len flags new_addr); syscall_ptr r.
Definition msync (addr len flags : Z) : prog Z :=
  r ← trigger (SYS_msync addr len flags); syscall_ret r.
Definition sigaction (sig : Z) (fn : string) (flags : Z) : prog Z :=
  r ← trigger (SYS_rt_sigaction sig fn flags); syscall_ret r.
Definition open (path : string) (flags : Z) : prog Z :=
  r ← trigger (SYS_open path flags); syscall_ret r.
Definition close (fd : Z) : prog Z := r ← trigger (SYS_close fd); syscall_ret r.
Definition lseek (fd off whence : Z) : prog Z :=
  r ← trigger (SYS_lseek fd off whence); syscall_ret r.
Definition write (fd : Z) (data : list Z) : prog Z :=
  r ← trigger (SYS_write fd data); syscall_ret r.
Definition fsync (fd : Z) : prog Z := r ← trigger (SYS_fsync fd); syscall_ret r.
Definition unlink (path : string) : prog Z := r ← trigger (SYS_unlink path); syscall_ret r.
Definition ioctl (fd request : Z) : prog Z := r ← trigger (SYS_ioctl fd request); syscall_ret r.

(** [stat] returns its status and the [st_size] it filled in. *)
Definition stat (path : string) : prog (Z * Z) :=
  '(r, st_size) ← trigger (SYS_stat path); r ← syscall_ret r; Ret (r, st_size).

Definition fstat (fd : Z) : prog (Z * Z) :=
  '(r, st_size) ← trigger (SYS_fstat fd); r ← syscall_ret r; Ret (r, st_size).
Definition read (fd len : Z) : prog (Z * list Z) :=
  '(r, data) ← trigger (SYS_read fd len); r ← syscall_ret r; Ret (r, data).
Definition mprotect (addr len prot : Z) : prog Z :=
  r ← trigger (SYS_mprotect addr len prot); syscall_ret r.
Definition madvise (addr len advice : Z) : prog Z :=
  r ← trigger (SYS_madvise addr len advice); syscall_ret r.
Definition mincore (addr len : Z) (valid_vec : bool) : prog (Z * list Z) :=
  '(r, vec) ← trigger (SYS_mincore addr len valid_vec); r ← syscall_ret r; Ret (r, vec).

(** The end of the data segment, and shared memory; [sbrk] and [shmat] return pointers. *)
Definition sbrk (increment : Z) : prog Z := r ← trigger (LIBC_sbrk increment); syscall_ptr r.
Definition brk (addr : Z) : prog Z := r ← trigger (LIBC_brk addr); syscall_ret r.
Definition shmget (key size flags : Z) : prog Z := r ← trigger (SYS_shmget key size flags); syscall_ret r.
Definition shmat (id addr flags : Z) : prog Z := r ← trigger (SYS_shmat id addr flags); syscall_ptr r.
Definition shmdt (addr : Z) : prog Z := r ← trigger (SYS_shmdt addr); syscall_ret r.
Definition shmctl (id op : Z) : prog Z := r ← trigger (SYS_shmctl id op); syscall_ret r.

(** [getrlimit] returns its status and the soft and hard limit it filled in. *)
Definition getrlimit (resource : Z) : prog (Z * (Z * Z)) :=
  '(r, lim) ← trigger (SYS_getrlimit resource); r ← syscall_ret r; Ret (r, lim).
Definition setrlimit (resource cur max : Z) : prog Z :=
  r ← trigger (SYS_setrlimit resource cur max); syscall_ret r.

(** [mkstemp] returns the descriptor and the template it rewrote. *)
Definition mkstemp (template : string) : prog (Z * string) :=
  '(r, path) ← trigger (LIBC_mkstemp template); r ← syscall_ret r; Ret (r, path).

Definition resume {A : Set} (r : access A) : prog A :=
  match r with Ok a => Ret a | Fault s d => Trap s d end.

(** One byte is loaded, stored, or [len] bytes are set with [memset]. *)
Definition load (a : Z) : prog Z := r ← trigger (MEM_load a); resume r.
Definition store (a v : Z) : prog unit := r ← trigger (MEM_store a v); resume r.
Definition memset (a v len : Z) : prog unit := r ← trigger (MEM_set a v len); resume r.

(** Processes. *)
Definition fork : prog Z := r ← trigger SYS_fork; syscall_ret r.
Definition vfork : prog Z := r ← trigger SYS_vfork; syscall_ret r.
Definition kill (pid sig : Z) : prog Z := r ← trigger (SYS_kill pid sig); syscall_ret r.
Definition getpid : prog Z := trigger SYS_getpid.
Definition getppid : prog Z := trigger SYS_getppid.
Definition gettid : prog Z := trigger SYS_gettid.
Definition getpgid (pid : Z) : prog Z := r ← trigger (SYS_getpgid pid); syscall_ret r.
Definition setpgid (pid pgid : Z) : prog Z := r ← trigger (SYS_setpgid pid pgid); syscall_ret r.
Definition waitid (idtype id options : Z) : prog (Z * Z) :=
  '(r, si_pid) ← trigger (SYS_waitid idtype id options); r ← syscall_ret r; Ret (r, si_pid).

(** [pipe] yields the read end and the write end. *)
Definition pipe : prog (Z * (Z * Z)) :=
  '(r, fds) ← trigger SYS_pipe; r ← syscall_ret r; Ret (r, fds).
Definition raise (sig : Z) : prog Z := r ← trigger (LIBC_raise sig); syscall_ret r.
Definition wait4 (pid options : Z) : prog (Z * Z) :=
  '(r, status) ← trigger (SYS_wait4 pid options); r ← syscall_ret r; Ret (r, status).

(** [execve] returns only when it fails. *)
Definition execve (path : string) (argv : list string) : prog Z :=
  r ← trigger (SYS_execve path argv); if is_error r then syscall_ret r else Exit r.
Definition wait : prog (Z * Z) := wait4 (-1) 0.

(** The status of a child, as <sys/wait.h> takes it apart. *)
Definition WEXITSTATUS (status : Z) : Z := Z.shiftr (status .& 0xff00) 8.
Definition WTERMSIG (status : Z) : Z := status .& 0x7f.
Definition WSTOPSIG (status : Z) : Z := WEXITSTATUS status.
Definition WIFEXITED (status : Z) : bool := WTERMSIG status =? 0.
Definition WIFSTOPPED (status : Z) : bool := status .& 0xff =? 0x7f.
Definition WIFSIGNALED (status : Z) : bool := 0 <? Z.shiftr (wrap_s 8 ((status .& 0x7f) + 1)) 1.

(** glibc's [ptrace]; a PEEK request returns the word itself and clears [errno] when it succeeds. *)
Definition ptrace (req : ptrace_req) (pid : Z) : prog (Z * ptrace_out req) :=
  '(r, out) ← trigger (SYS_ptrace req pid); r ← syscall_ret r; Ret (r, out).
Definition ptrace_peek (area : ptrace_area) (pid addr : Z) : prog Z :=
  '(r, word) ← trigger (SYS_ptrace (PTRACE_PEEK area addr) pid);
  if is_error r then SetErrno (- r) (Ret (-1)) else SetErrno 0 (Ret (s64 word)).

(** Semaphores; an access through a bad address is a fault. *)
Definition sem_ret (r : access Z) : prog Z := r ← resume r; syscall_ret r.
Definition sem_init (sem pshared value : Z) : prog Z :=
  r ← trigger (LIBC_sem_init sem pshared value); sem_ret r.
Definition sem_wait (sem : Z) : prog Z := r ← trigger (LIBC_sem_wait sem); sem_ret r.
Definition sem_post (sem : Z) : prog Z := r ← trigger (LIBC_sem_post sem); sem_ret r.
Definition sem_destroy (sem : Z) : prog Z := r ← trigger (LIBC_sem_destroy sem); sem_ret r.

(** Identities: [getuid], [geteuid], [getgid], [getegid] cannot fail; [setfsuid] and [setfsgid]
    reply with the old identity. *)
Definition get_id (k : id_kind) (effective : bool) : prog Z := trigger (SYS_get_id k effective).
Definition getresid (k : id_kind) : prog (Z * (Z * Z * Z)) :=
  '(r, ids) ← trigger (SYS_getresid k); r ← syscall_ret r; Ret (r, ids).
Definition setid (k : id_kind) (id : Z) : prog Z := r ← trigger (SYS_setid k id); syscall_ret r.
Definition setreid (k : id_kind) (rid eid : Z) : prog Z := r ← trigger (SYS_setreid k rid eid); syscall_ret r.
Definition setresid (k : id_kind) (rid eid sid : Z) : prog Z :=
  r ← trigger (SYS_setresid k rid eid sid); syscall_ret r.
Definition setfsid (k : id_kind) (fsid : Z) : prog Z := r ← trigger (SYS_setfsid k fsid); syscall_ret r.

(** Scheduling. *)
Definition sched_setscheduler (pid policy priority : Z) : prog Z :=
  r ← trigger (SYS_sched_setscheduler pid policy priority); syscall_ret r.
Definition sched_getscheduler (pid : Z) : prog Z := r ← trigger (SYS_sched_getscheduler pid); syscall_ret r.
Definition sched_setparam (pid priority : Z) : prog Z := r ← trigger (SYS_sched_setparam pid priority); syscall_ret r.
Definition sched_getparam (pid : Z) : prog (Z * Z) :=
  '(r, priority) ← trigger (SYS_sched_getparam pid); r ← syscall_ret r; Ret (r, priority).
Definition sched_rr_get_interval (pid : Z) : prog (Z * (Z * Z)) :=
  '(r, time) ← trigger (SYS_sched_rr_get_interval pid); r ← syscall_ret r; Ret (r, time).
Definition sched_get_priority_max (policy : Z) : prog Z := r ← trigger (SYS_sched_get_priority true policy); syscall_ret r.
Definition sched_get_priority_min (policy : Z) : prog Z := r ← trigger (SYS_sched_get_priority false policy); syscall_ret r.
Definition sched_setaffinity (pid size : Z) (mask : option Z) : prog Z :=
  r ← trigger (SYS_sched_setaffinity pid size mask); syscall_ret r.

(** The kernel replies with the number of bytes it stored, of [size]; glibc clears the others and
    returns 0.  [old] is what the mask holds, and what it keeps behind [size] and after an error. *)
Definition sched_getaffinity (pid size : Z) (old : option Z) : prog (Z * Z) :=
  '(r, mask) ← trigger (SYS_sched_getaffinity pid size (if old then true else false));
  r ← syscall_ret r;
  let old := default 0 old in
  if r =? -1 then Ret (-1, old)
  else Ret (0, Z.lor (Z.land mask (Z.ones (8 * Z.min r size))) (Z.ldiff old (Z.ones (8 * size)))).
Definition sched_getcpu : prog Z := r ← trigger SYS_getcpu; syscall_ret r.

(** Streams. *)
Definition fopen (path mode : string) : prog (option Z) := trigger (FILE_fopen path mode).
Definition fgets (fp size : Z) : prog (option string) := trigger (FILE_fgets fp size).
Definition fscanf_long (fp : Z) : prog (option Z) := trigger (FILE_fscanf_long fp).
Definition fclose (fp : Z) : prog Z := trigger (FILE_fclose fp).
Definition fprintf (fp : Z) (text : string) : prog unit := trigger (FILE_fprintf fp text).
Definition malloc (size : Z) : prog (option (Z * Z)) := trigger (LIBC_malloc size).
Definition free (p : Z) : prog unit := trigger (LIBC_release p).

Definition var_load (a : Z) : prog Z := trigger (VAR_load a).
Definition var_store (a v : Z) : prog unit := trigger (VAR_store a v).

Definition printf (text : string) : prog unit := trigger (OUT text).
Definition fprintf_stderr (text : string) : prog unit := trigger (ERR text).
Definition exit {A} (status : Z) : prog A := Exit status.
Definition get_errno : prog Z := GetErrno Ret.
Definition set_errno (e : Z) : prog unit := SetErrno e (Ret tt).

(** A character constant: its code, [char] being unsigned ([-funsigned-char] in the Makefile). *)
Definition chr (a : Ascii.ascii) : Z := Z.of_N (Ascii.N_of_ascii a).
#[global] Arguments chr a%_char.

(** ** Test verdicts

    A test function returns [const char*]: [NULL] when it passes, a message when it fails. *)
Abbreviation verdict := (option string).

(** [tp_assert(test, msg)] returns [msg] from the enclosing function when [test] is false. *)
Definition tp_assert (test : bool) (msg : verdict) (rest : prog verdict) : prog verdict :=
  if test then rest else Ret msg.
Notation "'TP_ASSERT' t , m ;; k" := (tp_assert t m k)
  (at level 100, t at level 99, m at level 99, k at level 200, right associativity) : mck_scope.

Definition is_NULL (msg : verdict) : bool := match msg with None => true | Some _ => false end.

(** ** Laws of execution *)

Section exec.
Context `{Kernel}.

Lemma exec_bind {A B} (p : prog A) (f : A -> prog B) m :
  exec (bind p f) m =
  match exec p m with
  | (Returned a, m') => exec (f a) m'
  | (Exited n, m') => (Exited n, m')
  | (Signalled s d, m') => (Signalled s d, m')
  end.
Proof.
  revert m. induction p as [a|n|s d|k IH|e k IH|c k IH]; intros m; simpl; auto.
  destruct (kstep c (kern m)) as [r s]. apply IH.
Qed.

(** The form used when the first program is known to return. *)
Lemma exec_mbind {A B} (p : prog A) (f : A -> prog B) m a m' :
  exec p m = (Returned a, m') -> exec (p ≫= f) m = exec (f a) m'.
Proof. intros E. unfold mbind, prog_mbind. by rewrite exec_bind, E. Qed.

Lemma exec_mbind_exit {A B} (p : prog A) (f : A -> prog B) m n m' :
  exec p m = (Exited n, m') -> exec (p ≫= f) m = (Exited n, m').
Proof. intros E. unfold mbind, prog_mbind. by rewrite exec_bind, E. Qed.

Lemma exec_mbind_trap {A B} (p : prog A) (f : A -> prog B) m s d m' :
  exec p m = (Signalled s d, m') -> exec (p ≫= f) m = (Signalled s d, m').
Proof. intros E. unfold mbind, prog_mbind. by rewrite exec_bind, E. Qed.

(** Every execution against a kernel is a run, so what holds of all runs holds of every kernel. *)
Lemma exec_run {A} (p : prog A) m :
  exists tr, run p (errno m) tr (exec p m).1 (errno (exec p m).2).
Proof.
  revert m. induction p as [a|n|s d|k IH|e k IH|c k IH]; intros m; simpl; eauto.
  - apply (IH (Mach e (kern m))).
  - destruct (kstep c (kern m)) as [r s]. destruct (IH r (Mach (errno m) s)) as [tr Htr]. eauto.
Qed.

(** A system call that succeeds leaves [errno] alone and returns the kernel's value. *)
Lemma exec_syscall c (conv : reply c -> prog Z) m r s v :
  kstep c (kern m) = (r, s) -> conv r = Ret v ->
  exec (trigger c ≫= conv) m = (Returned v, Mach (errno m) s).
Proof. intros E Hv. cbn. rewrite E. cbn. by rewrite Hv. Qed.

Lemma exec_mmap addr len prot flags fd off m r s :
  kstep (SYS_mmap addr len prot flags fd off) (kern m) = (r, s) -> 0 <= r < 2 ^ 64 ->
  exec (mmap addr len prot flags fd off) m = (Returned r, Mach (errno m) s).
Proof.
  intros E Hr. apply (exec_syscall _ _ _ _ _ _ E). unfold syscall_ptr, syscall_ret, is_error.
  replace (r <=? -1) with false by lia. rewrite andb_false_r. cbn. by rewrite wrap_u_small.
Qed.

Lemma exec_mremap addr o n fl na m r s :
  kstep (SYS_mremap addr o n fl na) (kern m) = (r, s) -> 0 <= r < 2 ^ 64 ->
  exec (mremap addr o n fl na) m = (Returned r, Mach (errno m) s).
Proof.
  intros E Hr. apply (exec_syscall _ _ _ _ _ _ E). unfold syscall_ptr, syscall_ret, is_error.
  replace (r <=? -1) with false by lia. rewrite andb_false_r. cbn. by rewrite wrap_u_small.
Qed.

(** A failing one sets [errno] and returns [MAP_FAILED]. *)
Lemma exec_mremap_error addr o n fl na m e s :
  kstep (SYS_mremap addr o n fl na) (kern m) = (- e, s) -> 1 <= e <= 4095 ->
  exec (mremap addr o n fl na) m = (Returned MAP_FAILED, Mach e s).
Proof.
  intros E He. unfold mremap, trigger, mbind, prog_mbind. cbn. rewrite E.
  unfold syscall_ptr, syscall_ret, is_error.
  replace ((-4095 <=? - e) && (- e <=? -1)) with true by lia. cbn.
  by rewrite Z.opp_involutive.
Qed.

Lemma exec_munmap addr len m s :
  kstep (SYS_munmap addr len) (kern m) = (0, s) ->
  exec (munmap addr len) m = (Returned 0, Mach (errno m) s).
Proof. intros E. by apply (exec_syscall _ _ _ _ _ _ E). Qed.

Lemma exec_sigaction sig fn fl m s :
  kstep (SYS_rt_sigaction sig fn fl) (kern m) = (0, s) ->
  exec (sigaction sig fn fl) m = (Returned 0, Mach (errno m) s).
Proof. intros E. by apply (exec_syscall _ _ _ _ _ _ E). Qed.

Lemma exec_load a m v s :
  kstep (MEM_load a) (kern m) = (Ok v, s) -> exec (load a) m = (Returned v, Mach (errno m) s).
Proof. intros E. cbn. by rewrite E. Qed.

Lemma exec_load_fault a m sig d s :
  kstep (MEM_load a) (kern m) = (Fault sig d, s) ->
  exec (load a) m = (Signalled sig d, Mach (errno m) s).
Proof. intros E. cbn. by rewrite E. Qed.

Lemma exec_store a v m s :
  kstep (MEM_store a v) (kern m) = (Ok tt, s) ->
  exec (store a v) m = (Returned tt, Mach (errno m) s).
Proof. intros E. cbn. by rewrite E. Qed.

Lemma exec_memset a v n m s :
  kstep (MEM_set a v n) (kern m) = (Ok tt, s) ->
  exec (memset a v n) m = (Returned tt, Mach (errno m) s).
Proof. intros E. cbn. by rewrite E. Qed.

End exec.

(** ** Kernels that behave like a specification

    [sstep] says what the requests it knows do to the state [S] that matters to the tests; [sexec] runs
    a program on it, and yields nothing when the program makes a request that is not known.  A kernel
    [Meets] the specification when its replies are those of [sstep] on what [view] shows of its state. *)
Section spec.
Context {S : Type} (sstep : forall c : cmd, S -> option (reply c * S)).

Fixpoint sexec {A} (p : prog A) (e : Z) (s : S) : option (outcome A * Z * S) :=
  match p with
  | Ret a => Some (Returned a, e, s)
  | Exit n => Some (Exited n, e, s)
  | Trap sig d => Some (Signalled sig d, e, s)
  | GetErrno k => sexec (k e) e s
  | SetErrno e1 k => sexec k e1 s
  | Vis c k => '(r, s) ← sstep c s; sexec (k r) e s
  end.

(** The wrappers on a reply that is not an error. *)
Lemma syscall_ret_nonneg r : 0 <= r -> syscall_ret r = Ret r.
Proof. intros Hr. unfold syscall_ret, is_error. by replace (r <=? -1) with false by lia; rewrite andb_false_r. Qed.
Lemma syscall_ptr_nonneg r : 0 <= r < 2 ^ 64 -> syscall_ptr r = Ret r.
Proof. intros Hr. unfold syscall_ptr. rewrite syscall_ret_nonneg by lia. simpl. by rewrite wrap_u_small. Qed.
Lemma syscall_ret_error r : is_error r = true -> syscall_ret r = SetErrno (- r) (Ret (-1)).
Proof. unfold syscall_ret. by intros ->. Qed.

Class Meets `{Kernel} (view : kstate -> S) :=
  meets : forall c s r t, sstep c (view s) = Some (r, t) -> exists s', kstep c s = (r, s') /\ view s' = t.

Lemma sexec_exec `{Meets} {A} (p : prog A) e s o e' t :
  sexec p e (view s) = Some (o, e', t) -> exists s', exec p (Mach e s) = (o, Mach e' s') /\ view s' = t.
Proof.
  revert e s. induction p as [a|n|sig d|k IH|e1 k IH|c k IH]; intros e s; simpl.
  1-3: intros [= <- <- <-]; eauto.
  - apply IH.
  - apply IH.
  - destruct (sstep c (view s)) as [[r t1]|] eqn:Es; [|done]. simpl.
    destruct (meets c s r t1 Es) as (s1 & -> & <-). apply IH.
Qed.

Lemma sexec_bind {A B} (p : prog A) (f : A -> prog B) e s a e1 s1 :
  sexec p e s = Some (Returned a, e1, s1) -> sexec (p ≫= f) e s = sexec (f a) e1 s1.
Proof.
  revert e s. induction p as [b|n|sig d|k IH|e2 k IH|c k IH]; intros e s; simpl; try done.
  - by intros [= -> -> ->].
  - apply IH.
  - apply IH.
  - destruct (sstep c s) as [[r s2]|]; [|done]. simpl. apply IH.
Qed.

End spec.

(** ** Programs that return

    [returns p s Q]: from the kernel state [s], whatever [errno] is, [p] returns a value [a] and
    leaves a kernel state [s'] with [Q a s']. *)
Section returns.
Context `{Kernel}.

Definition returns {A} (p : prog A) (s : kstate) (Q : A -> kstate -> Prop) : Prop :=
  forall e, exists a e' s', exec p (Mach e s) = (Returned a, Mach e' s') /\ Q a s'.

Lemma returns_ret {A} (a : A) s (Q : A -> kstate -> Prop) : Q a s -> returns (Ret a) s Q.
Proof. intros HQ e. by exists a, e, s. Qed.

Lemma returns_mono {A} (p : prog A) s (Q Q' : A -> kstate -> Prop) :
  returns p s Q -> (forall a s', Q a s' -> Q' a s') -> returns p s Q'.
Proof. intros Hp HQ e. destruct (Hp e) as (a & e' & s' & E & Ha). exists a, e', s'. auto. Qed.

Lemma returns_bind {A B} (p : prog A) (k : A -> prog B) s (Q : B -> kstate -> Prop) :
  returns p s (fun a s' => returns (k a) s' Q) -> returns (p ≫= k) s Q.
Proof.
  intros Hp e. destruct (Hp e) as (a & e' & s' & E & Hk). destruct (Hk e') as (b & e2 & s2 & E2 & HQ).
  exists b, e2, s2. split; [|done]. by rewrite (exec_mbind _ _ _ _ _ E).
Qed.

Lemma returns_trigger c s r s' (Q : reply c -> kstate -> Prop) :
  kstep c s = (r, s') -> Q r s' -> returns (trigger c) s Q.
Proof. intros E HQ e. exists r, e, s'. split; [|done]. cbn. by rewrite E. Qed.

Lemma returns_get_errno s (Q : Z -> kstate -> Prop) : (forall e, Q e s) -> returns get_errno s Q.
Proof. intros HQ e. by exists e, e, s. Qed.

Lemma returns_syscall_ret r s (Q : Z -> kstate -> Prop) :
  Q (if is_error r then -1 else r) s -> returns (syscall_ret r) s Q.
Proof.
  intros HQ e. unfold syscall_ret. destruct (is_error r); [by exists (-1), (- r), s|by exists r, e, s].
Qed.

End returns.

(** ** Test cases that return

    [ends obs p s ok fin]: from [s] the test case [p] returns; it passes when [ok], and leaves a state
    of which [obs] is [fin]. *)
Section ends.
Context `{Kernel} {X : Type} (obs : kstate -> X).

Definition ends (p : prog verdict) (s : kstate) (ok : bool) (fin : X) : Prop :=
  returns p s (fun v s' => (v = None <-> ok = true) /\ obs s' = fin).

Lemma ends_returned v s ok fin : (v = None <-> ok = true) -> obs s = fin -> ends (Ret v) s ok fin.
Proof. intros. by apply returns_ret. Qed.

Lemma ends_bind {A} (p : prog A) (k : A -> prog verdict) s (Q : A -> kstate -> Prop) ok fin :
  returns p s Q -> (forall a s', Q a s' -> ends (k a) s' ok fin) -> ends (p ≫= k) s ok fin.
Proof. intros Hp Hk. apply returns_bind, (returns_mono _ _ _ _ Hp), Hk. Qed.

(** A test of the code against a case of the verdict. *)
Lemma ends_assert (b : bool) msg k s ok fin :
  (b = true -> ends k s ok fin) -> (b = false -> ok = false /\ obs s = fin) ->
  ends (TP_ASSERT b, Some msg ;; k) s ok fin.
Proof. intros Hk Hb. destruct b; [by apply Hk|]. destruct Hb as [-> <-]; [done|]. by apply ends_returned. Qed.

(** One that is known to hold. *)
Lemma ends_assert_true (b : bool) msg k s ok fin :
  b = true -> ends k s ok fin -> ends (TP_ASSERT b, msg ;; k) s ok fin.
Proof. by intros ->. Qed.

End ends.

(** ** Runs of composed programs *)

Lemma run_bind {A B} (p : prog A) (f : A -> prog B) e tr o e' :
  run (bind p f) e tr o e' <->
  (exists a e1 tr1 tr2, run p e tr1 (Returned a) e1 /\ run (f a) e1 tr2 o e' /\ tr = tr1 ++ tr2) \/
  (exists n, run p e tr (Exited n) e' /\ o = Exited n) \/
  (exists s d, run p e tr (Signalled s d) e' /\ o = Signalled s d).
Proof.
  revert e tr. induction p as [a|n|s d|k IH|e1 k IH|c k IH]; intros e tr; simpl;
    [naive_solver..| |].
  - apply IH.
  - setoid_rewrite IH. split.
    + intros (r & tr' & -> & [(a & e1 & tr1 & tr2 & H1 & H2 & ->)|Hx]); [left|naive_solver].
      exists a, e1, (ev c r :: tr1), tr2. naive_solver.
    + intros [(a & e1 & tr1 & tr2 & (r & tr' & -> & H1) & H2 & ->)|Hx]; [|naive_solver].
      exists r, (tr' ++ tr2). naive_solver.
Qed.

(** A composed program that returns has returned from its first part. *)
Lemma run_bind_returned {A B} (p : prog A) (f : A -> prog B) e tr b e' :
  run (p ≫= f) e tr (Returned b) e' ->
  exists a e1 tr1 tr2, run p e tr1 (Returned a) e1 /\ run (f a) e1 tr2 (Returned b) e' /\ tr = tr1 ++ tr2.
Proof. intros H. apply run_bind in H. naive_solver. Qed.

(** A run of a test function is refuted or cut at each [tp_assert]. *)
Lemma run_tp_assert test msg rest e tr o e' :
  run (tp_assert test msg rest) e tr o e' ->
  (test = true /\ run rest e tr o e') \/ (test = false /\ tr = [] /\ o = Returned msg /\ e' = e).
Proof. destruct test; simpl; naive_solver. Qed.

#[global] Instance disposition_eq_dec : EqDecision disposition.
Proof. solve_decision. Defined.
#[global] Instance siginfo_eq_dec : EqDecision siginfo.
Proof. solve_decision. Defined.
#[global] Instance sigact_eq_dec : EqDecision sigact.
Proof. solve_decision. Defined.
#[global] Instance ptrace_area_eq_dec : EqDecision ptrace_area.
Proof. solve_decision. Defined.
#[global] Instance ptrace_req_eq_dec : EqDecision ptrace_req.
Proof. solve_decision. Defined.
#[global] Instance id_kind_eq_dec : EqDecision id_kind.
Proof. solve_decision. Defined.
#[global] Instance awaited_eq_dec : EqDecision awaited.
Proof. solve_decision. Defined.
#[global] Instance cmd_eq_dec : EqDecision cmd.
Proof. solve_decision. Defined.

(** Two events are equal only when their replies are. *)
Lemma ev_inj c r r' : ev c r = ev c r' -> r = r'.
Proof. apply (Eqdep_dec.inj_pair2_eq_dec _ cmd_eq_dec). Qed.

(** A run whose first reply is known. *)
Lemma run_vis {A} c (k : reply c -> prog A) e r tr o e' :
  run (Vis c k) e (ev c r :: tr) o e' <-> run (k r) e tr o e'.
Proof.
  split; [|by exists r, tr]. intros (r' & tr' & E & H).
  assert (ev c r = ev c r' /\ tr = tr') as [E1 ->] by (by split; congruence).
  apply ev_inj in E1 as ->. done.
Qed.

(** What a wrapper returns for a reply, and the [errno] it leaves. *)
Definition ret_int (r : Z) : Z := if is_error r then -1 else r.
Definition ret_ptr (r : Z) : Z := u64 (ret_int r).
Definition errno_after (e r : Z) : Z := if is_error r then - r else e.

(** The reply of the request decides what the wrapper returns. *)
Ltac follow_wrapper :=
  let r := fresh "r" in let tr' := fresh "tr'" in let H := fresh "H" in
  intros (r & tr' & -> & H); exists r, tr'; split; [done|];
  unfold ret_ptr, ret_int, errno_after, syscall_ptr, syscall_ret in *; cbn in H; by destruct (is_error r).

Section wrappers.
Context {A : Type} (k : Z -> prog A) (e : Z) (tr : list event) (o : outcome A) (e' : Z).

Lemma run_open path fl :
  run (open path fl ≫= k) e tr o e' ->
  exists r tr', tr = ev (SYS_open path fl) r :: tr' /\ run (k (ret_int r)) (errno_after e r) tr' o e'.
Proof. follow_wrapper. Qed.

Lemma run_close fd :
  run (close fd ≫= k) e tr o e' ->
  exists r tr', tr = ev (SYS_close fd) r :: tr' /\ run (k (ret_int r)) (errno_after e r) tr' o e'.
Proof. follow_wrapper. Qed.

Lemma run_munmap a len :
  run (munmap a len ≫= k) e tr o e' ->
  exists r tr', tr = ev (SYS_munmap a len) r :: tr' /\ run (k (ret_int r)) (errno_after e r) tr' o e'.
Proof. follow_wrapper. Qed.

Lemma run_msync a len fl :
  run (msync a len fl ≫= k) e tr o e' ->
  exists r tr', tr = ev (SYS_msync a len fl) r :: tr' /\ run (k (ret_int r)) (errno_after e r) tr' o e'.
Proof. follow_wrapper. Qed.

Lemma run_ioctl fd req :
  run (ioctl fd req ≫= k) e tr o e' ->
  exists r tr', tr = ev (SYS_ioctl fd req) r :: tr' /\ run (k (ret_int r)) (errno_after e r) tr' o e'.
Proof. follow_wrapper. Qed.

Lemma run_mmap addr len prot flags fd off :
  run (mmap addr len prot flags fd off ≫= k) e tr o e' ->
  exists r tr', tr = ev (SYS_mmap addr len prot flags fd off) r :: tr' /\
    run (k (ret_ptr r)) (errno_after e r) tr' o e'.
Proof. follow_wrapper. Qed.

End wrappers.

Lemma run_stat {A} (k : Z * Z -> prog A) e tr o e' path :
  run (stat path ≫= k) e tr o e' ->
  exists r sz tr', tr = ev (SYS_stat path) (r, sz) :: tr' /\
    run (k (ret_int r, sz)) (errno_after e r) tr' o e'.
Proof.
  intros ([r sz] & tr' & -> & H). exists r, sz, tr'. split; [done|].
  unfold ret_int, errno_after, syscall_ret in *. cbn in H. by destruct (is_error r).
Qed.

(** A wrapper that did not return -1 passed the reply on. *)
Lemma ret_int_ok r : (ret_int r =? -1) = false -> is_error r = false /\ ret_int r = r.
Proof. unfold ret_int. by destruct (is_error r). Qed.

Lemma ret_ptr_ok r : (ret_ptr r =? MAP_FAILED) = false -> is_error r = false /\ ret_ptr r = u64 r.
Proof. unfold ret_ptr, ret_int. by destruct (is_error r). Qed.
