(* ===== verification/Align.v ===== *)
(** * Page sizes and alignment macros (src/src/test_mck/src/test_mck.h, arch_test_mck.h)

    The macros work on 64-bit unsigned integers; every addition, subtraction and complement wraps. *)
From S2P Require Import Prelude.
#[local] Open Scope Z_scope.

Module Align.

(** [#define align_down(addr, size)  ((addr)&(~((size)-1)))] *)
Definition align_down (addr size : Z) : Z := addr .& u64 (Z.lnot (u64 (size - 1))).

(** [#define align_up(addr, size)    align_down((addr) + (size) - 1, size)] *)
Definition align_up (addr size : Z) : Z := align_down (u64 (u64 (addr + size) - 1)) size.

(** The shifts of arch/x86/include/arch_test_mck.h and the sizes of test_mck.h. *)
Definition PAGE_SHIFT : Z := 12.
Definition LARGE_PAGE_SHIFT : Z := 21.
Definition LARGEST_PAGE_SHIFT : Z := 30.
Definition PAGE_SIZE : Z := Z.shiftl 1 PAGE_SHIFT.
Definition PAGE_OFFSET : Z := PAGE_SIZE - 1.
Definition PAGE_MASK : Z := u64 (Z.lnot PAGE_OFFSET).
Definition LARGE_PAGE_SIZE : Z := Z.shiftl 1 LARGE_PAGE_SHIFT.
Definition LARGE_PAGE_OFFSET : Z := LARGE_PAGE_SIZE - 1.
Definition LARGE_PAGE_MASK : Z := u64 (Z.lnot LARGE_PAGE_OFFSET).
Definition LARGEST_PAGE_SIZE : Z := Z.shiftl 1 LARGEST_PAGE_SHIFT.
Definition LARGEST_PAGE_OFFSET : Z := LARGEST_PAGE_SIZE - 1.
Definition LARGEST_PAGE_MASK : Z := u64 (Z.lnot LARGEST_PAGE_OFFSET).
Definition PAGE_ALIGN (addr : Z) : Z := align_up addr PAGE_SIZE.
Definition LARGE_PAGE_ALIGN (addr : Z) : Z := align_up addr LARGE_PAGE_SIZE.
Definition LARGEST_PAGE_ALIGN (addr : Z) : Z := align_up addr LARGEST_PAGE_SIZE.

Definition MMAP_START_ADDR : Z := 0x00002AAAAAA00000.
Definition MMAP_END_ADDR : Z := 0x0000800000000000.
Definition MMAP_AREA_SIZE : Z := MMAP_END_ADDR - MMAP_START_ADDR.

(** ** Lemmas *)

(** The mask of a power of two: the complement of its low bits, within 64 bits. *)
Lemma mask_ones k : 0 <= k <= 64 -> u64 (Z.lnot (u64 (2 ^ k - 1))) = Z.shiftl (Z.ones (64 - k)) k.
Proof.
  intros Hk. assert (2 ^ k <= 2 ^ 64) by (apply Z.pow_le_mono_r; lia).
  assert (0 < 2 ^ k) by (apply Z.pow_pos_nonneg; lia).
  rewrite (wrap_u_small 64 (2 ^ k - 1)) by lia.
  rewrite Z.shiftl_mul_pow2, Z.ones_equiv, <- Z.sub_1_r, Z.mul_sub_distr_r by lia.
  rewrite <- Z.pow_add_r by lia. replace (64 - k + k) with 64 by lia.
  unfold wrap_u. rewrite <- (Z_mod_plus_full _ 1). unfold Z.lnot.
  rewrite Z.mod_small; lia.
Qed.

Lemma land_high_bits a k :
  0 <= k <= 64 -> 0 <= a < 2 ^ 64 -> a .& Z.shiftl (Z.ones (64 - k)) k = a - a mod 2 ^ k.
Proof.
  intros Hk Ha.
  transitivity (Z.shiftl (Z.shiftr a k) k).
  - apply Z.bits_inj'. intros n Hn. rewrite Z.land_spec, !Z.shiftl_spec by lia.
    destruct (Z.lt_ge_cases n k) as [Hnk|Hnk].
    { rewrite !(Z.testbit_neg_r _ (n - k)) by lia. apply andb_false_r. }
    rewrite Z.shiftr_spec, Z.testbit_ones_nonneg by lia. replace (n - k + k) with n by lia.
    destruct (Z.lt_ge_cases n 64) as [H64|H64].
    { replace (n - k <? 64 - k) with true by lia. apply andb_true_r. }
    rewrite <- (Z.mod_small a (2 ^ 64)) by lia. by rewrite Z.mod_pow2_bits_high by lia.
  - rewrite Z.shiftl_mul_pow2, Z.shiftr_div_pow2 by lia.
    pose proof (Z.div_mod a (2 ^ k)). assert (0 < 2 ^ k) by (apply Z.pow_pos_nonneg; lia). lia.
Qed.

Lemma align_down_eq addr k :
  0 <= k <= 64 -> 0 <= addr < 2 ^ 64 -> align_down addr (2 ^ k) = addr - addr mod 2 ^ k.
Proof. intros Hk Ha. unfold align_down. by rewrite mask_ones, land_high_bits by lia. Qed.

Lemma align_up_eq addr k :
  0 <= k < 64 -> 0 <= addr < 2 ^ 64 ->
  let x := u64 (addr + 2 ^ k - 1) in align_up addr (2 ^ k) = x - x mod 2 ^ k.
Proof.
  intros Hk Ha x. unfold align_up.
  replace (u64 (u64 (addr + 2 ^ k) - 1)) with x
    by (unfold x, wrap_u; by rewrite Zminus_mod_idemp_l).
  apply align_down_eq; [lia|]. by apply wrap_u_range.
Qed.

(** A multiple of [s] is between [a] and [a + s - 1] only if it is the rounding of the latter. *)
Lemma round_up_bounds a s : 0 < s -> a <= a + s - 1 - (a + s - 1) mod s < a + s.
Proof. intros Hs. pose proof (Z.mod_pos_bound (a + s - 1) s Hs). lia. Qed.

Lemma round_up_divides a s : 0 < s -> (s | a - a mod s).
Proof. intros Hs. exists (a / s). pose proof (Z.div_mod a s). lia. Qed.

(** ** Theorems *)

(** [align_down] clears the low bits: for a power of two [size] it is the greatest multiple of
    [size] that is not above [addr]. *)
Theorem align_down_greatest addr k :
  0 <= k <= 64 -> 0 <= addr < 2 ^ 64 ->
  (2 ^ k | align_down addr (2 ^ k)) /\
  align_down addr (2 ^ k) <= addr < align_down addr (2 ^ k) + 2 ^ k.
Proof.
  intros Hk Ha. rewrite align_down_eq by lia.
  assert (0 < 2 ^ k) by (apply Z.pow_pos_nonneg; lia).
  pose proof (Z.mod_pos_bound addr (2 ^ k)). split; [by apply round_up_divides|lia].
Qed.

Lemma align_down_greatest_witness :
  (2 ^ 12 | align_down 0x12345 (2 ^ 12)) /\
  align_down 0x12345 (2 ^ 12) <= 0x12345 < align_down 0x12345 (2 ^ 12) + 2 ^ 12.
Proof. apply (align_down_greatest 0x12345 12); lia. Defined.

(** [align_up] is the least multiple of [size] that is not below [addr] as long as that multiple
    fits 64 bits; above the last multiple the sum wraps and the macro returns 0. *)
Theorem align_up_least addr k :
  0 <= k < 64 -> 0 <= addr < 2 ^ 64 ->
  if addr <=? 2 ^ 64 - 2 ^ k
  then (2 ^ k | align_up addr (2 ^ k)) /\ addr <= align_up addr (2 ^ k) < addr + 2 ^ k
  else align_up addr (2 ^ k) = 0.
Proof.
  intros Hk Ha. pose proof (align_up_eq addr k Hk Ha) as E; simpl in E. rewrite E.
  assert (0 < 2 ^ k) by (apply Z.pow_pos_nonneg; lia).
  assert (2 ^ k < 2 ^ 64) by (apply Z.pow_lt_mono_r; lia).
  destruct (addr <=? 2 ^ 64 - 2 ^ k) eqn:Hb; b2p.
  - rewrite wrap_u_small by lia. split; [by apply round_up_divides|by apply round_up_bounds].
  - replace (u64 (addr + 2 ^ k - 1)) with (addr + 2 ^ k - 1 - 2 ^ 64).
    + rewrite Z.mod_small; lia.
    + unfold wrap_u. apply Zmod_unique with 1; lia.
Qed.

Lemma align_up_least_witness :
  (2 ^ 21 | align_up 0x12345 (2 ^ 21)) /\ 0x12345 <= align_up 0x12345 (2 ^ 21) < 0x12345 + 2 ^ 21.
Proof. apply (align_up_least 0x12345 21); lia. Defined.

End Align.
