(* ===== verification/VmSpec.v ===== *)
(** * What the memory tests rely on of the kernel

    The class [VmKernel] is the interface between the kernel and the tests that exercise its virtual
    memory: an abstract view of the address space, one cell per byte, and the behaviour that
    mmap(2), munmap(2), mremap(2), sigaction(2) and signal(7) document for the calls the tests make.
    The theorems about the tests are proved against this interface; RefKernel.v discharges it with
    an executable kernel. *)
From S2P Require Import Prelude CMachine Align.
Import Align.
#[local] Open Scope Z_scope.

(** One byte of an address space: its protection, whether its mapping is shared, whether an object
    lies behind it (a shared mapping that [mremap] grew past its object has none there), its value. *)
Record cell := Cell { c_prot : Z; c_shared : bool; c_backed : bool; c_val : Z }.

Definition readable (c : cell) : bool := negb (c_prot c .& PROT_READ =? 0).
Definition writable (c : cell) : bool := negb (c_prot c .& PROT_WRITE =? 0).

(** A byte of a fresh anonymous mapping. *)
Definition fresh_cell (prot : Z) (shared : bool) : cell := Cell prot shared true 0.

(** A byte that [mremap] added to a mapping: private anonymous memory is extended, a shared object
    is not. *)
Definition grown_cell (prot : Z) (shared : bool) : cell := Cell prot shared (negb shared) 0.

Definition set_val (v : Z) (c : cell) : cell := Cell (c_prot c) (c_shared c) (c_backed c) v.

(** The flags of an anonymous mapping. *)
Definition share_flag (shared : bool) : Z := if shared then MAP_SHARED else MAP_PRIVATE.

(** Page-aligned ranges inside the user's part of the address space. *)
Definition user_range (addr len : Z) : Prop :=
  (PAGE_SIZE | addr) /\ (PAGE_SIZE | len) /\ 0 < addr /\ 0 < len /\ addr + len <= MMAP_END_ADDR.

Definition free_range (view : Z -> option cell) (addr len : Z) : Prop :=
  forall a, addr <= a < addr + len -> view a = None.

(** All bytes of the range belong to one mapping. *)
Definition one_mapping (view : Z -> option cell) (addr len prot : Z) (shared : bool) : Prop :=
  forall a, addr <= a < addr + len ->
  exists c, view a = Some c /\ c_prot c = prot /\ c_shared c = shared.

(** The address space after [mremap] has moved [old] bytes at [addr] to [new] bytes at [dst]. *)
Definition remapped (view : Z -> option cell) (addr old new dst prot : Z) (shared : bool)
    (a : Z) : option cell :=
  if in_range dst new a then
    if a - dst <? old then view (addr + (a - dst)) else Some (grown_cell prot shared)
  else if in_range addr old a then None
  else view a.

Class VmKernel (K : Kernel) := {
  vm : kstate -> Z -> option cell;
  sigd : kstate -> Z -> disposition;
  (** Bytes that can still be mapped, wherever the kernel chooses to put them. *)
  avail : kstate -> Z;

  load_ok s a c :
    vm s a = Some c -> readable c = true -> c_backed c = true ->
    exists s', kstep (MEM_load a) s = (Ok (c_val c), s') /\
      (forall x, vm s' x = vm s x) /\ (forall g, sigd s' g = sigd s g) /\ avail s <= avail s';
  load_unmapped s a :
    vm s a = None ->
    exists s', kstep (MEM_load a) s = (Fault SIGSEGV (sigd s SIGSEGV), s');
  load_unbacked s a c :
    vm s a = Some c -> readable c = true -> c_backed c = false ->
    exists s', kstep (MEM_load a) s = (Fault SIGBUS (sigd s SIGBUS), s');
  store_ok s a c v :
    vm s a = Some c -> writable c = true -> c_backed c = true ->
    exists s', kstep (MEM_store a v) s = (Ok tt, s') /\
      (forall x, vm s' x = if x =? a then Some (set_val v c) else vm s x) /\
      (forall g, sigd s' g = sigd s g) /\ avail s <= avail s';
  memset_ok s a v len :
    0 <= len ->
    (forall x, a <= x < a + len ->
      exists c, vm s x = Some c /\ writable c = true /\ c_backed c = true) ->
    exists s', kstep (MEM_set a v len) s = (Ok tt, s') /\
      (forall x, vm s' x = if in_range a len x then set_val v <$> vm s x else vm s x) /\
      (forall g, sigd s' g = sigd s g) /\ avail s <= avail s';

  mmap_anon s len prot shared :
    (PAGE_SIZE | len) -> 0 < len <= avail s ->
    exists r s', kstep (SYS_mmap 0 len prot (share_flag shared .| MAP_ANONYMOUS) (-1) 0) s = (r, s') /\
      user_range r len /\ free_range (vm s) r len /\
      (forall x, vm s' x = if in_range r len x then Some (fresh_cell prot shared) else vm s x) /\
      (forall g, sigd s' g = sigd s g) /\ avail s - len <= avail s';
  mmap_fixed s addr len prot shared :
    user_range addr len -> (forall x, addr <= x < addr + len -> vm s x <> None) ->
    exists s', kstep (SYS_mmap addr len prot (MAP_ANONYMOUS .| MAP_FIXED .| share_flag shared) (-1) 0) s
                 = (addr, s') /\
      (forall x, vm s' x = if in_range addr len x then Some (fresh_cell prot shared) else vm s x) /\
      (forall g, sigd s' g = sigd s g) /\ avail s <= avail s';
  munmap_ok s addr len :
    user_range addr len ->
    exists s', kstep (SYS_munmap addr len) s = (0, s') /\
      (forall x, vm s' x = if in_range addr len x then None else vm s x) /\
      (forall g, sigd s' g = sigd s g) /\ avail s <= avail s';

  mremap_shrink s addr old new na :
    (PAGE_SIZE | addr) -> (PAGE_SIZE | old) -> (PAGE_SIZE | new) ->
    0 < addr < MMAP_END_ADDR -> vm s addr <> None -> 0 < new <= old ->
    exists s', kstep (SYS_mremap addr old new 0 na) s = (addr, s') /\
      (forall x, vm s' x = if in_range (addr + new) (old - new) x then None else vm s x) /\
      (forall g, sigd s' g = sigd s g);
  mremap_grow s addr old new na prot shared :
    user_range addr old -> user_range addr new -> old < new -> new - old <= avail s ->
    one_mapping (vm s) addr old prot shared -> free_range (vm s) (addr + old) (new - old) ->
    exists s', kstep (SYS_mremap addr old new 0 na) s = (addr, s') /\
      (forall x, vm s' x = remapped (vm s) addr old new addr prot shared x) /\
      (forall g, sigd s' g = sigd s g);
  mremap_blocked s addr old new na prot shared b :
    user_range addr old -> (PAGE_SIZE | new) -> old < new ->
    one_mapping (vm s) addr old prot shared ->
    addr + old <= b < addr + new -> vm s b <> None ->
    exists s', kstep (SYS_mremap addr old new 0 na) s = (- ENOMEM, s') /\
      (forall x, vm s' x = vm s x) /\ (forall g, sigd s' g = sigd s g);
  mremap_maymove s addr old new na prot shared :
    user_range addr old -> (PAGE_SIZE | new) -> old < new <= avail s ->
    one_mapping (vm s) addr old prot shared ->
    exists r s', kstep (SYS_mremap addr old new MREMAP_MAYMOVE na) s = (r, s') /\
      user_range r new /\
      (r = addr /\ free_range (vm s) (addr + old) (new - old) \/ free_range (vm s) r new) /\
      (forall x, vm s' x = remapped (vm s) addr old new r prot shared x) /\
      (forall g, sigd s' g = sigd s g);
  mremap_overlap s addr old new na b :
    user_range addr old -> user_range na new ->
    addr <= b < addr + old -> na <= b < na + new ->
    exists s', kstep (SYS_mremap addr old new (MREMAP_MAYMOVE .| MREMAP_FIXED) na) s = (- EINVAL, s') /\
      (forall x, vm s' x = vm s x) /\ (forall g, sigd s' g = sigd s g);
  mremap_to s addr len na prot shared :
    user_range addr len -> user_range na len -> (addr + len <= na \/ na + len <= addr) ->
    one_mapping (vm s) addr len prot shared ->
    exists s', kstep (SYS_mremap addr len len (MREMAP_MAYMOVE .| MREMAP_FIXED) na) s = (na, s') /\
      (forall x, vm s' x = remapped (vm s) addr len len na prot shared x) /\
      (forall g, sigd s' g = sigd s g);

  sigaction_ok s sig fn :
    sig = SIGSEGV \/ sig = SIGBUS ->
    exists s', kstep (SYS_rt_sigaction sig fn (SA_RESETHAND .| SA_SIGINFO)) s = (0, s') /\
      sigd s' sig = SIG_HANDLER fn /\ (forall x, vm s' x = vm s x) /\ avail s <= avail s';
  out_ok s text :
    exists s', kstep (OUT text) s = (tt, s') /\
      (forall x, vm s' x = vm s x) /\ (forall g, sigd s' g = sigd s g) /\ avail s <= avail s'
}.
