(* ===== verification/RefKernel.v ===== *)
(** * An executable kernel that meets the virtual memory interface

    The address space is a function from addresses to cells; new mappings are placed one after the
    other above everything mapped so far.  It shows that the hypotheses of the memory theorems can
    hold, and runs the tests inside Rocq. *)
From S2P Require Import Prelude CMachine Align VmSpec.
Import Align.
#[local] Open Scope Z_scope.

Module RefKernel.

(** [cells] is consulted below the frontier only: nothing is mapped from page [frontier] up. *)
Record state := State {
  cells : Z -> option cell;
  frontier : positive;
  handlers : Z -> disposition
}.

Definition limit (s : state) : Z := Z.pos (frontier s) * PAGE_SIZE.
Definition view (s : state) (a : Z) : option cell := if a <? limit s then cells s a else None.
Definition space (s : state) : Z := MMAP_END_ADDR - limit s.

Definition init : state := State (fun _ => None) 1 (fun _ => SIG_DFL).

(** The state with another address space, whose pages end below [top] (a page boundary). *)
Definition with_view (s : state) (v : Z -> option cell) (top : Z) : state :=
  State v (Z.to_pos (Z.max (Z.pos (frontier s)) (top / PAGE_SIZE))) (handlers s).

Definition all_in (f : Z -> bool) (a len : Z) : bool := forallb f (seqZ a len).
Definition is_free (s : state) (a : Z) : bool := match view s a with None => true | _ => false end.
Definition can_write (s : state) (a : Z) : bool :=
  match view s a with Some c => writable c && c_backed c | None => false end.

(** The protection and sharing of the mapping that holds an address. *)
Definition mode_at (s : state) (a : Z) : Z * bool :=
  match view s a with Some c => (c_prot c, c_shared c) | None => (0, false) end.

Definition fault {A : Set} (s : state) (sig : Z) : access A * state := (Fault sig (handlers s sig), s).

Definition do_load (a : Z) (s : state) : access Z * state :=
  match view s a with
  | None => fault s SIGSEGV
  | Some c =>
      if negb (readable c) then fault s SIGSEGV
      else if c_backed c then (Ok (c_val c), s) else fault s SIGBUS
  end.

Definition do_set (a v len : Z) (s : state) : access unit * state :=
  if all_in (can_write s) a len
  then (Ok tt, with_view s (fun x => if in_range a len x then set_val v <$> view s x else view s x) 0)
  else fault s SIGSEGV.

Definition do_mmap (addr len prot flags : Z) (s : state) : Z * state :=
  let shared := negb (flags .& MAP_SHARED =? 0) in
  let put r := with_view s (fun x => if in_range r len x then Some (fresh_cell prot shared) else view s x)
                 (r + len) in
  if negb (flags .& MAP_FIXED =? 0) then (addr, put addr)
  else if len <=? space s then (limit s, put (limit s))
  else (- ENOMEM, s).

Definition do_munmap (addr len : Z) (s : state) : Z * state :=
  (0, with_view s (fun x => if in_range addr len x then None else view s x) 0).

Definition do_mremap (addr old new flags na : Z) (s : state) : Z * state :=
  let '(prot, shared) := mode_at s addr in
  let move r := (r, with_view s (remapped (view s) addr old new r prot shared) (r + new)) in
  if negb (flags .& MREMAP_FIXED =? 0) then
    if (addr <? na + new) && (na <? addr + old) then (- EINVAL, s) else move na
  else if new <=? old then
    (addr, with_view s (fun x => if in_range (addr + new) (old - new) x then None else view s x) 0)
  else if all_in (is_free s) (addr + old) (new - old) then move addr
  else if negb (flags .& MREMAP_MAYMOVE =? 0) then
    if new <=? space s then move (limit s) else (- ENOMEM, s)
  else (- ENOMEM, s).

Definition step (c : cmd) (s : state) : reply c * state :=
  match c return reply c * state with
  | SYS_mmap addr len prot flags _ _ => do_mmap addr len prot flags s
  | SYS_munmap addr len => do_munmap addr len s
  | SYS_mremap addr old new flags na => do_mremap addr old new flags na s
  | SYS_rt_sigaction sig fn _ =>
      (0, State (cells s) (frontier s) (fun g => if g =? sig then SIG_HANDLER fn else handlers s g))
  | MEM_load a => do_load a s
  | MEM_store a v => do_set a v 1 s
  | MEM_set a v len => do_set a v len s
  | c => (no_reply c, s)
  end.

#[export] Instance kernel : Kernel := { kstate := state; kstep := step }.

(** ** The interface *)

Lemma all_in_spec f a len : all_in f a len = true <-> forall x, a <= x < a + len -> f x = true.
Proof.
  unfold all_in. rewrite forallb_forall. setoid_rewrite <- list_elem_of_In.
  setoid_rewrite elem_of_seqZ. naive_solver.
Qed.

Lemma limit_with_view s v top :
  limit (with_view s v top) = Z.max (limit s) (top / PAGE_SIZE * PAGE_SIZE).
Proof.
  unfold limit, with_view. cbn [frontier]. rewrite Z2Pos.id by lia.
  change PAGE_SIZE with 4096. lia.
Qed.

(** The new address space is the one given, provided it is empty from the frontier up. *)
Lemma view_with_view s v top :
  (PAGE_SIZE | top) -> (forall x, limit s <= x -> top <= x -> v x = None) ->
  forall x, view (with_view s v top) x = v x.
Proof.
  intros [q ->] Hv x. unfold view at 1. rewrite limit_with_view, Z.div_mul by (by vm_compute).
  destruct (x <? _) eqn:E; [done|]. b2p. symmetry. apply Hv; lia.
Qed.

Lemma view_high s x : limit s <= x -> view s x = None.
Proof. intros Hx. unfold view. by replace (x <? limit s) with false by lia. Qed.

Lemma view_low s x : view s x <> None -> x < limit s.
Proof. intros Hx. destruct (Z.lt_ge_cases x (limit s)); [done|]. by rewrite view_high in Hx. Qed.

Lemma space_keep s v : space s <= space (with_view s v 0).
Proof.
  unfold space. rewrite limit_with_view, Z.div_0_l by done. unfold limit.
  change PAGE_SIZE with 4096. lia.
Qed.

Lemma limit_pos s : 0 < limit s /\ (PAGE_SIZE | limit s).
Proof. split; [unfold limit; change PAGE_SIZE with 4096; lia|]. by exists (Z.pos (frontier s)). Qed.

#[local] Arguments with_view : simpl never.
#[local] Hint Resolve space_keep Z.divide_0_r : core.

(** A range of a mapping lies below the frontier. *)
Lemma mapped_below s addr len :
  0 < len -> (forall x, addr <= x < addr + len -> view s x <> None) -> addr + len <= limit s.
Proof. intros Hl Hx. enough (addr + len - 1 < limit s) by lia. apply view_low, Hx. lia. Qed.

Lemma one_mapping_some v addr len prot shared :
  one_mapping v addr len prot shared -> forall x, addr <= x < addr + len -> v x <> None.
Proof. intros H x Hx. destruct (H x Hx) as (c & -> & _). done. Qed.

Lemma mode_at_mapping s addr len prot shared :
  one_mapping (view s) addr len prot shared -> 0 < len -> mode_at s addr = (prot, shared).
Proof.
  intros H Hl. unfold mode_at. destruct (H addr) as (c & -> & <- & <-); [lia|done].
Qed.

(** What lies at or above the frontier and the destination is unmapped after a move. *)
Lemma remapped_high s addr old new r prot shared x :
  limit s <= x -> r + new <= x -> remapped (view s) addr old new r prot shared x = None.
Proof.
  intros H1 H2. unfold remapped. rewrite (in_range_out r) by lia.
  destruct (in_range addr old x); [done|by apply view_high].
Qed.

Lemma do_set_ok s a v len :
  (forall x, a <= x < a + len -> exists c, view s x = Some c /\ writable c = true /\ c_backed c = true) ->
  exists s', do_set a v len s = (Ok tt, s') /\
    (forall x, view s' x = if in_range a len x then set_val v <$> view s x else view s x) /\
    (forall g, handlers s' g = handlers s g) /\ space s <= space s'.
Proof.
  intros Hc. unfold do_set. replace (all_in _ _ _) with true.
  - eexists; split; [done|]. split; [|done || auto]. apply view_with_view; [done|].
    intros x Hx _. rewrite !view_high by done. by destruct (in_range a len x).
  - symmetry. apply all_in_spec. intros x Hx. unfold can_write.
    destruct (Hc x Hx) as (c & -> & -> & ->). done.
Qed.

Lemma do_mmap_put s r len prot shared :
  (PAGE_SIZE | r + len) ->
  let v := fun x => if in_range r len x then Some (fresh_cell prot shared) else view s x in
  forall x, view (with_view s v (r + len)) x = v x.
Proof.
  intros Hp v. apply view_with_view; [done|]. intros x H1 H2. unfold v.
  rewrite in_range_out by lia. by apply view_high.
Qed.

Lemma do_move_view s addr old new r prot shared :
  (PAGE_SIZE | r + new) ->
  forall x, view (with_view s (remapped (view s) addr old new r prot shared) (r + new)) x
            = remapped (view s) addr old new r prot shared x.
Proof. intros Hp. apply view_with_view; [done|]. intros x. apply remapped_high. Qed.

(** Destructs [user_range] hypotheses and supplies the divisibility facts a page range gives. *)
Ltac ranges :=
  repeat match goal with
  | H : user_range _ _ |- _ => destruct H as (? & ? & ? & ? & ?)
  end;
  try match goal with |- (_ | _ + _) => by apply Z.divide_add_r end.

Lemma flags_shared sh : negb ((share_flag sh .| MAP_ANONYMOUS) .& MAP_SHARED =? 0) = sh.
Proof. by destruct sh. Qed.

Lemma flags_fixed sh :
  negb ((MAP_ANONYMOUS .| MAP_FIXED .| share_flag sh) .& MAP_SHARED =? 0) = sh /\
  negb ((MAP_ANONYMOUS .| MAP_FIXED .| share_flag sh) .& MAP_FIXED =? 0) = true.
Proof. by destruct sh. Qed.

Lemma flags_anon sh : negb ((share_flag sh .| MAP_ANONYMOUS) .& MAP_FIXED =? 0) = false.
Proof. by destruct sh. Qed.

Lemma mmap_anon_ok s len prot shared :
  (PAGE_SIZE | len) -> 0 < len <= space s ->
  exists r s', do_mmap 0 len prot (share_flag shared .| MAP_ANONYMOUS) s = (r, s') /\
    user_range r len /\ free_range (view s) r len /\
    (forall x, view s' x = if in_range r len x then Some (fresh_cell prot shared) else view s x) /\
    (forall g, handlers s' g = handlers s g) /\ space s - len <= space s'.
Proof.
  intros Hp Hl. destruct (limit_pos s) as [Hpos Hdiv]. unfold do_mmap.
  rewrite flags_anon, flags_shared. replace (len <=? space s) with true by lia.
  exists (limit s). eexists. split; [done|]. split; [|split; [|split; [|split]]].
  - unfold user_range, space in *. repeat split; auto; lia.
  - intros x Hx. apply view_high. lia.
  - apply do_mmap_put. by apply Z.divide_add_r.
  - done.
  - unfold space. rewrite limit_with_view. destruct Hdiv as [q Hq], Hp as [q' Hq'].
    rewrite Hq, Hq', <- Z.mul_add_distr_r, Z.div_mul by done. lia.
Qed.

Lemma mmap_fixed_ok s addr len prot shared :
  user_range addr len -> (forall x, addr <= x < addr + len -> view s x <> None) ->
  exists s', do_mmap addr len prot (MAP_ANONYMOUS .| MAP_FIXED .| share_flag shared) s = (addr, s') /\
    (forall x, view s' x = if in_range addr len x then Some (fresh_cell prot shared) else view s x) /\
    (forall g, handlers s' g = handlers s g) /\ space s <= space s'.
Proof.
  intros Hu Hm. unfold do_mmap. destruct (flags_fixed shared) as [-> ->].
  eexists; split; [done|]. split; [|split; [done|]].
  - apply do_mmap_put. ranges.
  - destruct Hu as ([q ->] & [q' ->] & ? & ? & ?). apply mapped_below in Hm; [|done].
    unfold space. rewrite limit_with_view, <- Z.mul_add_distr_r, Z.div_mul by done. lia.
Qed.

Lemma cut_ok s addr len v :
  (forall x, v x = if in_range addr len x then None else view s x) ->
  forall x, view (with_view s v 0) x = v x.
Proof.
  intros Hv. apply view_with_view; [done|]. intros x Hx _. rewrite Hv.
  destruct (in_range addr len x); [done|by apply view_high].
Qed.

#[export] Program Instance vm_kernel : VmKernel kernel := {
  vm := view; sigd := handlers; avail := space
}.
Next Obligation.
  intros s a c Hv Hr Hb. cbn. unfold do_load. rewrite Hv, Hr, Hb. cbn.
  eexists; split; [done|]. auto using Z.le_refl.
Qed.
Next Obligation. intros s a Hv. cbn. unfold do_load. rewrite Hv. by eexists. Qed.
Next Obligation.
  intros s a c Hv Hr Hb. cbn. unfold do_load. rewrite Hv, Hr, Hb. by eexists.
Qed.
Next Obligation.
  intros s a c v Hv Hw Hb. destruct (do_set_ok s a v 1) as (s' & E & Hx & Hs).
  { intros x Hx. replace x with a by lia. eauto. }
  exists s'. split; [done|]. split; [|done]. intros x. rewrite Hx.
  destruct (x =? a) eqn:Ea; b2p; [subst; rewrite in_range_in by lia; by rewrite Hv|].
  by rewrite in_range_out by lia.
Qed.
Next Obligation. intros s a v len _ Hc. by apply do_set_ok. Qed.
Next Obligation. apply mmap_anon_ok. Qed.
Next Obligation. apply mmap_fixed_ok. Qed.
Next Obligation.
  intros s addr len Hu. cbn. eexists; split; [done|]. split; [|auto].
  intros x. by rewrite (cut_ok s addr len).
Qed.
Next Obligation.
  intros s addr old new na _ _ _ _ _ Hn. cbn. unfold do_mremap.
  destruct (mode_at s addr) as [pr sh]. cbn. replace (new <=? old) with true by lia.
  eexists; split; [done|]. split; [|done]. intros x. by rewrite (cut_ok s (addr + new) (old - new)).
Qed.
Next Obligation.
  intros s addr old new na prot shared Hu Hu' Hlt Ha Hm Hf. cbn. unfold do_mremap.
  rewrite (mode_at_mapping _ _ _ _ _ Hm) by (ranges; lia). cbn.
  replace (new <=? old) with false by lia. replace (all_in _ _ _) with true.
  - eexists; split; [done|]. split; [|done]. apply do_move_view. ranges.
  - symmetry. apply all_in_spec. intros x Hx. unfold is_free. by rewrite Hf.
Qed.
Next Obligation.
  intros s addr old new na prot shared b Hu Hp Hlt Hm Hb Hv. cbn. unfold do_mremap.
  rewrite (mode_at_mapping _ _ _ _ _ Hm) by (ranges; lia). cbn.
  replace (new <=? old) with false by lia. replace (all_in _ _ _) with false; [by eexists|].
  symmetry. apply not_true_iff_false. rewrite all_in_spec. intros Hall.
  specialize (Hall b). unfold is_free in Hall. destruct (view s b); [|done].
  discriminate Hall. lia.
Qed.
Next Obligation.
  intros s addr old new na prot shared Hu Hp Hlt Hm. cbn. unfold do_mremap.
  rewrite (mode_at_mapping _ _ _ _ _ Hm) by (ranges; lia). cbn.
  replace (new <=? old) with false by lia. replace (new <=? space s) with true by lia.
  destruct (limit_pos s) as [Hpos Hdiv].
  destruct (all_in (is_free s) (addr + old) (new - old)) eqn:E.
  - rewrite all_in_spec in E. exists addr. eexists; split; [done|].
    assert (free_range (view s) (addr + old) (new - old)) as Hf.
    { intros x Hx. specialize (E x Hx). unfold is_free in E. by destruct (view s x). }
    split; [|split; [by left|split; [|done]]].
    + pose proof (mapped_below s addr old) as Hb. unfold space in Hlt. ranges.
      unfold user_range. repeat split; auto; [lia|].
      enough (addr + old <= limit s) by lia. apply Hb; [done|]. by eapply one_mapping_some.
    + apply do_move_view. ranges.
  - exists (limit s). eexists; split; [done|]. split; [|split; [|split; [|done]]].
    + unfold user_range, space in *. ranges. repeat split; auto; lia.
    + right. intros x Hx. apply view_high. lia.
    + apply do_move_view. by apply Z.divide_add_r.
Qed.
Next Obligation.
  intros s addr old new na b Hu Hu' H1 H2. cbn. unfold do_mremap.
  destruct (mode_at s addr) as [pr sh]. cbn.
  replace ((addr <? na + new) && (na <? addr + old)) with true by lia. by eexists.
Qed.
Next Obligation.
  intros s addr len na prot shared Hu Hu' Hd Hm. cbn. unfold do_mremap.
  rewrite (mode_at_mapping _ _ _ _ _ Hm) by (ranges; lia). cbn.
  replace ((addr <? na + len) && (na <? addr + len)) with false by lia.
  eexists; split; [done|]. split; [|done]. apply do_move_view. ranges.
Qed.
Next Obligation.
  intros s sig fn Hs. cbn. eexists; split; [done|]. cbn. rewrite Z.eqb_refl.
  split; [done|]. split; [done|]. unfold space, limit. cbn. lia.
Qed.
Next Obligation. intros s text. cbn. exists s. auto using Z.le_refl. Qed.

End RefKernel.
