(* ===== verification/Mremap.v ===== *)
(** * The mremap_mmap_anon test suite (src/src/test_mck/src/mremap_mmap_anon/)

    The suite lays out anonymous mappings side by side, calls [mremap] on one of them and checks the
    result, the error number, the contents and the accessibility of the moved memory.  Its 68 test
    cases are 17 scenarios (test numbers x00 to x16) in four families: private (0xx) and shared
    (1xx) mappings of four pages, private (2xx) and shared (3xx) mappings of a large page.  Each
    scenario is one definition with the family's [RANGE] (the macro MREMAP_RANGE_SIZE or
    MREMAP_RANGE_LARGE_SIZE in the parameter table) and [.shared] flag as arguments, and each test
    case is that scenario at its family's arguments.  Scenarios 03 and 05 have a variant of their own
    in the shared families. *)
From S2P Require Import Prelude CMachine Align.
Import Align.
#[local] Open Scope Z_scope.

Module Mremap.

(** ** testsuite.h *)

Definition MREMAP_RANGE_SIZE : Z := PAGE_SIZE * 4.
Definition MREMAP_RANGE_LARGE_SIZE : Z := align_up LARGE_PAGE_SIZE MREMAP_RANGE_SIZE.

Record mremap_mmap_anon_param := Param {
  addr : Z;     (* [OUT] mapping address *)
  size : Z;     (* [IN] mmap size *)
  nopage : Z;   (* [IN] free space flag: 0 use space, 1 free space *)
  shared : Z;   (* [IN] 0 private, 1 shared *)
  prot : Z      (* [IN] mmap prot *)
}.

Definition set_addr (a : Z) (p : mremap_mmap_anon_param) : mremap_mmap_anon_param :=
  Param a (size p) (nopage p) (shared p) (prot p).

(** The initialisers of the parameter tables: fields that are not named are 0. *)
Definition used (sz pr sh : Z) : mremap_mmap_anon_param := Param 0 sz 0 sh pr.
Definition unused (sz : Z) : mremap_mmap_anon_param := Param 0 sz 1 0 0.

(** [params[k].addr] and [params[k].size]. *)
Definition addr_of (ps : list mremap_mmap_anon_param) (k : nat) : Z := default 0 (addr <$> ps !! k).
Definition size_of (ps : list mremap_mmap_anon_param) (k : nat) : Z := default 0 (size <$> ps !! k).

(** ** mremap_mmap_anon.c *)

Definition mremap_mmap_anon_signal_handler (sig : Z) : prog unit := exit 0.

Definition mremap_mmap_anon_setup_signal_handler (signum : Z) : prog verdict :=
  r ← sigaction signum "mremap_mmap_anon_signal_handler" (SA_RESETHAND .| SA_SIGINFO);
  if negb (0 =? r) then Ret (Some "sigaction(SIGSEGV) error.") else Ret None.

(** The first loop sums the sizes, and gives up when the sum wraps. *)
Fixpoint total_size_loop (ps : list mremap_mmap_anon_param) (total_size : Z)
    : option Z * list mremap_mmap_anon_param :=
  match ps with
  | [] => (Some total_size, [])
  | p :: ps =>
      let sum := u64 (total_size + size p) in
      if sum <? total_size then (None, p :: ps)
      else let '(r, ps) := total_size_loop ps sum in (r, set_addr MAP_FAILED p :: ps)
  end.

(** The second loop gives every parameter its place in the reserved space. *)
Fixpoint format_loop (i : Z) (a : Z) (ps : list mremap_mmap_anon_param)
    : prog (Z * list mremap_mmap_anon_param) :=
  match ps with
  | [] => Ret (i, [])
  | p :: ps =>
      let p := set_addr a p in
      let next a := '(r, ps) ← format_loop (i + 1) (u64 (a + size p)) ps; Ret (r, p :: ps) in
      if negb (nopage p =? 0) then
        r ← munmap a (size p);
        if negb (0 =? r) then Ret (i, p :: ps) else next a
      else
        let flags := MAP_ANONYMOUS .| MAP_FIXED in
        let flags := if negb (shared p =? 0) then flags .| MAP_SHARED else flags .| MAP_PRIVATE in
        a ← mmap a (size p) (prot p) flags (-1) 0;
        if a =? MAP_FAILED then Ret (i, p :: ps)
        else if negb (prot p .& PROT_WRITE =? 0) then
          let ch := u8 (chr "0" + i) in
          memset a ch (size p);; next a
        else next a
  end.

(** Returns the number of parameters laid out, and the parameter table with its addresses. *)
Definition mremap_mmap_anon (params : list mremap_mmap_anon_param)
    : prog (Z * list mremap_mmap_anon_param) :=
  match total_size_loop params 0 with
  | (None, params) => Ret (0, params)
  | (Some total_size, params) =>
      a ← mmap 0 total_size PROT_NONE (MAP_SHARED .| MAP_ANONYMOUS) (-1) 0;
      if a =? MAP_FAILED then Ret (0, params) else format_loop 0 a params
  end.

(** The [len] bytes at [a] are compared with [exp], up to the first one that differs. *)
Fixpoint data_check_loop (n : nat) (a exp : Z) : prog verdict :=
  match n with
  | O => Ret None
  | S n =>
      b ← load a;
      if negb (b =? exp) then Ret (Some "data check error.") else data_check_loop n (u64 (a + 1)) exp
  end.

Definition mremap_mmap_anon_data_check (a len exp : Z) : prog verdict :=
  data_check_loop (Z.to_nat len) a exp.

Definition mremap_mmap_anon_access_check (a len : Z) : prog verdict :=
  if a =? NULL then Ret (Some "invalid address")
  else if len <=? 0 then Ret None
  else
    store a (chr "A");;
    ch ← load a;
    TP_ASSERT ch =? chr "A", Some "first page access error";;
    let last := u64 (a + (len - 1)) in
    store last (chr "Z");;
    ch ← load last;
    TP_ASSERT ch =? chr "Z", Some "last page access error";;
    memset a (chr "0") len;;
    Ret None.

(** ** The scenarios *)

Abbreviation RW := (PROT_READ .| PROT_WRITE).

(** x00: same size. *)
Definition scenario00 (RANGE sh : Z) : prog verdict :=
  let params := [used RANGE RW sh; used RANGE PROT_NONE sh] in
  let pcount := Z.of_nat (length params) in
  let old_size := size_of params 0 in
  let new_size := old_size in
  '(maps, params) ← mremap_mmap_anon params;
  TP_ASSERT maps =? pcount, Some "mmap error.";;
  let a := addr_of params 0 in
  set_errno 0;;
  remap ← mremap a old_size new_size 0 0;
  TP_ASSERT negb (remap =? MAP_FAILED), Some "mremap error.";;
  errno ← get_errno;
  TP_ASSERT errno =? 0, Some "invalid errno.";;
  msg ← mremap_mmap_anon_data_check remap old_size (chr "0");
  TP_ASSERT is_NULL msg, msg;;
  msg ← mremap_mmap_anon_access_check remap new_size;
  TP_ASSERT is_NULL msg, msg;;
  Ret None.

(** x01: a size near the end of the address space, the same before and after. *)
Definition scenario01 (RANGE sh : Z) : prog verdict :=
  let params := [used RANGE RW sh; used RANGE PROT_NONE sh] in
  let pcount := Z.of_nat (length params) in
  let old_size := 0xffffffffffffe000 in
  let new_size := 0xffffffffffffe000 in
  '(maps, params) ← mremap_mmap_anon params;
  TP_ASSERT maps =? pcount, Some "mmap error.";;
  let a := addr_of params 0 in
  set_errno 0;;
  remap ← mremap a old_size new_size 0 0;
  TP_ASSERT negb (remap =? MAP_FAILED), Some "mremap error.";;
  errno ← get_errno;
  TP_ASSERT errno =? 0, Some "invalid errno.";;
  msg ← mremap_mmap_anon_data_check remap (size_of params 0) (chr "0");
  TP_ASSERT is_NULL msg, msg;;
  msg ← mremap_mmap_anon_access_check remap (size_of params 0);
  TP_ASSERT is_NULL msg, msg;;
  Ret None.

(** x02: shrink by a page. *)
Definition scenario02 (RANGE sh : Z) : prog verdict :=
  let params := [used (RANGE * 2) RW sh; used RANGE PROT_NONE sh] in
  let pcount := Z.of_nat (length params) in
  let old_size := size_of params 0 in
  let new_size := u64 (old_size - PAGE_SIZE) in
  '(maps, params) ← mremap_mmap_anon params;
  TP_ASSERT maps =? pcount, Some "mmap error.";;
  let a := addr_of params 0 in
  set_errno 0;;
  remap ← mremap a old_size new_size 0 0;
  TP_ASSERT negb (remap =? MAP_FAILED), Some "mremap error.";;
  errno ← get_errno;
  TP_ASSERT errno =? 0, Some "invalid errno.";;
  msg ← mremap_mmap_anon_data_check remap new_size (chr "0");
  TP_ASSERT is_NULL msg, msg;;
  msg ← mremap_mmap_anon_access_check remap new_size;
  TP_ASSERT is_NULL msg, msg;;
  Ret None.

(** x03 (private): grow into the free space that follows. *)
Definition scenario03 (RANGE sh : Z) : prog verdict :=
  let params := [used RANGE RW sh; unused RANGE; used RANGE PROT_NONE sh] in
  let pcount := Z.of_nat (length params) in
  let old_size := size_of params 0 in
  let new_size := u64 (old_size + size_of params 1) in
  '(maps, params) ← mremap_mmap_anon params;
  TP_ASSERT maps =? pcount, Some "mmap error.";;
  let a := addr_of params 0 in
  set_errno 0;;
  remap ← mremap a old_size new_size 0 0;
  TP_ASSERT negb (remap =? MAP_FAILED), Some "mremap error.";;
  errno ← get_errno;
  TP_ASSERT errno =? 0, Some "invalid errno.";;
  msg ← mremap_mmap_anon_data_check remap old_size (chr "0");
  TP_ASSERT is_NULL msg, msg;;
  msg ← mremap_mmap_anon_access_check remap new_size;
  TP_ASSERT is_NULL msg, msg;;
  Ret None.

(** x03 (shared): the same growth; the part past the object raises SIGBUS. *)
Definition scenario03s (RANGE sh : Z) : prog verdict :=
  let params := [used RANGE RW sh; unused RANGE; used RANGE PROT_NONE sh] in
  let pcount := Z.of_nat (length params) in
  let old_size := size_of params 0 in
  let new_size := u64 (old_size + size_of params 1) in
  '(maps, params) ← mremap_mmap_anon params;
  TP_ASSERT maps =? pcount, Some "mmap error.";;
  let a := addr_of params 0 in
  set_errno 0;;
  remap ← mremap a old_size new_size 0 0;
  TP_ASSERT negb (remap =? MAP_FAILED), Some "mremap error.";;
  errno ← get_errno;
  TP_ASSERT errno =? 0, Some "invalid errno.";;
  msg ← mremap_mmap_anon_data_check remap old_size (chr "0");
  TP_ASSERT is_NULL msg, msg;;
  msg ← mremap_mmap_anon_setup_signal_handler SIGBUS;
  TP_ASSERT is_NULL msg, msg;;
  _ch ← load (u64 (remap + old_size));
  Ret (Some "signal handling error").

(** x04: growth into used space, without permission to move. *)
Definition scenario04 (RANGE sh : Z) : prog verdict :=
  let params := [used RANGE RW sh; used RANGE PROT_NONE sh] in
  let pcount := Z.of_nat (length params) in
  let old_size := size_of params 0 in
  let new_size := u64 (old_size + size_of params 1) in
  '(maps, params) ← mremap_mmap_anon params;
  TP_ASSERT maps =? pcount, Some "mmap error.";;
  let a := addr_of params 0 in
  set_errno 0;;
  remap ← mremap a old_size new_size 0 0;
  TP_ASSERT remap =? MAP_FAILED, Some "mremap error.";;
  errno ← get_errno;
  TP_ASSERT errno =? ENOMEM, Some "invalid errno.";;
  Ret None.

(** x05 (private): growth that has to move. *)
Definition scenario05 (RANGE sh : Z) : prog verdict :=
  let params := [used RANGE RW sh; used RANGE PROT_NONE sh] in
  let pcount := Z.of_nat (length params) in
  let old_size := size_of params 0 in
  let new_size := u64 (old_size + size_of params 1) in
  '(maps, params) ← mremap_mmap_anon params;
  TP_ASSERT maps =? pcount, Some "mmap error.";;
  let a := addr_of params 0 in
  set_errno 0;;
  remap ← mremap a old_size new_size MREMAP_MAYMOVE 0;
  TP_ASSERT negb (remap =? MAP_FAILED), Some "mremap error.";;
  errno ← get_errno;
  TP_ASSERT errno =? 0, Some "invalid errno.";;
  msg ← mremap_mmap_anon_data_check remap old_size (chr "0");
  TP_ASSERT is_NULL msg, msg;;
  msg ← mremap_mmap_anon_access_check remap new_size;
  TP_ASSERT is_NULL msg, msg;;
  Ret None.

(** x05 (shared): the same; the part past the object raises SIGBUS. *)
Definition scenario05s (RANGE sh : Z) : prog verdict :=
  let params := [used RANGE RW sh; used RANGE PROT_NONE sh] in
  let pcount := Z.of_nat (length params) in
  let old_size := size_of params 0 in
  let new_size := u64 (old_size + size_of params 1) in
  '(maps, params) ← mremap_mmap_anon params;
  TP_ASSERT maps =? pcount, Some "mmap error.";;
  let a := addr_of params 0 in
  set_errno 0;;
  remap ← mremap a old_size new_size MREMAP_MAYMOVE 0;
  TP_ASSERT negb (remap =? MAP_FAILED), Some "mremap error.";;
  errno ← get_errno;
  TP_ASSERT errno =? 0, Some "invalid errno.";;
  msg ← mremap_mmap_anon_data_check remap old_size (chr "0");
  TP_ASSERT is_NULL msg, msg;;
  msg ← mremap_mmap_anon_setup_signal_handler SIGBUS;
  TP_ASSERT is_NULL msg, msg;;
  _ch ← load (u64 (remap + old_size));
  Ret (Some "signal handling error").

(** x06: move to a free place. *)
Definition scenario06 (RANGE sh : Z) : prog verdict :=
  let params := [used RANGE RW sh; unused RANGE; used RANGE PROT_NONE sh] in
  let pcount := Z.of_nat (length params) in
  let old_size := size_of params 0 in
  let new_size := old_size in
  '(maps, params) ← mremap_mmap_anon params;
  TP_ASSERT maps =? pcount, Some "mmap error.";;
  let a := addr_of params 0 in
  let naddr := addr_of params 1 in
  set_errno 0;;
  remap ← mremap a old_size new_size (MREMAP_MAYMOVE .| MREMAP_FIXED) naddr;
  TP_ASSERT remap =? naddr, Some "mremap error.";;
  errno ← get_errno;
  TP_ASSERT errno =? 0, Some "invalid errno.";;
  msg ← mremap_mmap_anon_data_check remap old_size (chr "0");
  TP_ASSERT is_NULL msg, msg;;
  msg ← mremap_mmap_anon_access_check remap new_size;
  TP_ASSERT is_NULL msg, msg;;
  Ret None.

(** x07: move over the first half of a used place. *)
Definition scenario07 (RANGE sh : Z) : prog verdict :=
  let params := [used RANGE RW sh; used RANGE PROT_NONE sh;
                 used (RANGE * 2) RW sh; used RANGE PROT_NONE sh] in
  let pcount := Z.of_nat (length params) in
  let old_size := size_of params 0 in
  let new_size := old_size in
  '(maps, params) ← mremap_mmap_anon params;
  TP_ASSERT maps =? pcount, Some "mmap error.";;
  let a := addr_of params 0 in
  let naddr := addr_of params 2 in
  set_errno 0;;
  remap ← mremap a old_size new_size (MREMAP_MAYMOVE .| MREMAP_FIXED) naddr;
  TP_ASSERT remap =? naddr, Some "mremap error.";;
  errno ← get_errno;
  TP_ASSERT errno =? 0, Some "invalid errno.";;
  msg ← mremap_mmap_anon_data_check remap old_size (chr "0");
  TP_ASSERT is_NULL msg, msg;;
  msg ← mremap_mmap_anon_data_check (u64 (addr_of params 2 + new_size))
           (u64 (size_of params 2 - new_size)) (chr "2");
  TP_ASSERT is_NULL msg, msg;;
  msg ← mremap_mmap_anon_access_check remap new_size;
  TP_ASSERT is_NULL msg, msg;;
  Ret None.

(** x08: growth over both neighbours: the ranges overlap. *)
Definition scenario08 (RANGE sh : Z) : prog verdict :=
  let params := [used RANGE PROT_NONE sh; used RANGE PROT_READ sh; used RANGE RW sh;
                 used RANGE PROT_READ sh; used RANGE PROT_NONE sh] in
  let pcount := Z.of_nat (length params) in
  let old_size := size_of params 2 in
  let new_size := u64 (u64 (size_of params 1 + size_of params 2) + size_of params 3) in
  '(maps, params) ← mremap_mmap_anon params;
  TP_ASSERT maps =? pcount, Some "mmap error.";;
  let a := addr_of params 2 in
  let naddr := addr_of params 1 in
  set_errno 0;;
  remap ← mremap a old_size new_size (MREMAP_MAYMOVE .| MREMAP_FIXED) naddr;
  TP_ASSERT remap =? MAP_FAILED, Some "mremap error.";;
  errno ← get_errno;
  TP_ASSERT errno =? EINVAL, Some "invalid errno.";;
  Ret None.

(** x09: shrink to a page inside the old range. *)
Definition scenario09 (RANGE sh : Z) : prog verdict :=
  let params := [used RANGE PROT_NONE sh; used (RANGE * 2) RW sh; used RANGE PROT_NONE sh] in
  let pcount := Z.of_nat (length params) in
  let old_size := size_of params 1 in
  let new_size := PAGE_SIZE in
  '(maps, params) ← mremap_mmap_anon params;
  TP_ASSERT maps =? pcount, Some "mmap error.";;
  let a := addr_of params 1 in
  let naddr := u64 (addr_of params 1 + PAGE_SIZE) in
  set_errno 0;;
  remap ← mremap a old_size new_size (MREMAP_MAYMOVE .| MREMAP_FIXED) naddr;
  TP_ASSERT remap =? MAP_FAILED, Some "mremap error.";;
  errno ← get_errno;
  TP_ASSERT errno =? EINVAL, Some "invalid errno.";;
  Ret None.

(** x10: move downwards over the head of the old range. *)
Definition scenario10 (RANGE sh : Z) : prog verdict :=
  let params := [used RANGE PROT_NONE sh; unused RANGE; used (RANGE * 2) RW sh; used RANGE PROT_NONE sh] in
  let pcount := Z.of_nat (length params) in
  let old_size := size_of params 2 in
  let new_size := old_size in
  '(maps, params) ← mremap_mmap_anon params;
  TP_ASSERT maps =? pcount, Some "mmap error.";;
  let a := addr_of params 2 in
  let naddr := addr_of params 1 in
  set_errno 0;;
  remap ← mremap a old_size new_size (MREMAP_MAYMOVE .| MREMAP_FIXED) naddr;
  TP_ASSERT remap =? MAP_FAILED, Some "mremap error.";;
  errno ← get_errno;
  TP_ASSERT errno =? EINVAL, Some "invalid errno.";;
  Ret None.

(** x11: move upwards over the tail of the old range. *)
Definition scenario11 (RANGE sh : Z) : prog verdict :=
  let params := [used RANGE PROT_NONE sh; used (RANGE * 2) RW sh; unused RANGE; used RANGE PROT_NONE sh] in
  let pcount := Z.of_nat (length params) in
  let old_size := size_of params 1 in
  let new_size := old_size in
  '(maps, params) ← mremap_mmap_anon params;
  TP_ASSERT maps =? pcount, Some "mmap error.";;
  let a := addr_of params 1 in
  let naddr := u64 (addr_of params 1 + PAGE_SIZE) in
  set_errno 0;;
  remap ← mremap a old_size new_size (MREMAP_MAYMOVE .| MREMAP_FIXED) naddr;
  TP_ASSERT remap =? MAP_FAILED, Some "mremap error.";;
  errno ← get_errno;
  TP_ASSERT errno =? EINVAL, Some "invalid errno.";;
  Ret None.

(** x12: move to the free place just below. *)
Definition scenario12 (RANGE sh : Z) : prog verdict :=
  let params := [used RANGE PROT_NONE sh; unused RANGE; used RANGE RW sh; used RANGE PROT_NONE sh] in
  let pcount := Z.of_nat (length params) in
  let old_size := size_of params 2 in
  let new_size := old_size in
  '(maps, params) ← mremap_mmap_anon params;
  TP_ASSERT maps =? pcount, Some "mmap error.";;
  let a := addr_of params 2 in
  let naddr := addr_of params 1 in
  set_errno 0;;
  remap ← mremap a old_size new_size (MREMAP_MAYMOVE .| MREMAP_FIXED) naddr;
  TP_ASSERT remap =? naddr, Some "mremap error.";;
  errno ← get_errno;
  TP_ASSERT errno =? 0, Some "invalid errno.";;
  msg ← mremap_mmap_anon_data_check remap old_size (chr "2");
  TP_ASSERT is_NULL msg, msg;;
  msg ← mremap_mmap_anon_access_check remap new_size;
  TP_ASSERT is_NULL msg, msg;;
  Ret None.

(** x13: move to the free place just above. *)
Definition scenario13 (RANGE sh : Z) : prog verdict :=
  let params := [used RANGE PROT_NONE sh; used RANGE RW sh; unused RANGE; used RANGE PROT_NONE sh] in
  let pcount := Z.of_nat (length params) in
  let old_size := size_of params 1 in
  let new_size := old_size in
  '(maps, params) ← mremap_mmap_anon params;
  TP_ASSERT maps =? pcount, Some "mmap error.";;
  let a := addr_of params 1 in
  let naddr := addr_of params 2 in
  set_errno 0;;
  remap ← mremap a old_size new_size (MREMAP_MAYMOVE .| MREMAP_FIXED) naddr;
  TP_ASSERT remap =? naddr, Some "mremap error.";;
  errno ← get_errno;
  TP_ASSERT errno =? 0, Some "invalid errno.";;
  msg ← mremap_mmap_anon_data_check remap old_size (chr "1");
  TP_ASSERT is_NULL msg, msg;;
  msg ← mremap_mmap_anon_access_check remap new_size;
  TP_ASSERT is_NULL msg, msg;;
  Ret None.

(** x14: shrink, then touch the part that was cut off. *)
Definition scenario14 (RANGE sh : Z) : prog verdict :=
  let params := [used (RANGE * 2) RW sh; used RANGE PROT_NONE sh] in
  let pcount := Z.of_nat (length params) in
  let old_size := size_of params 0 in
  let new_size := u64 (old_size - PAGE_SIZE) in
  '(maps, params) ← mremap_mmap_anon params;
  TP_ASSERT maps =? pcount, Some "mmap error.";;
  let a := addr_of params 0 in
  set_errno 0;;
  remap ← mremap a old_size new_size 0 0;
  TP_ASSERT negb (remap =? MAP_FAILED), Some "mremap error.";;
  errno ← get_errno;
  TP_ASSERT errno =? 0, Some "invalid errno.";;
  msg ← mremap_mmap_anon_data_check remap new_size (chr "0");
  TP_ASSERT is_NULL msg, msg;;
  msg ← mremap_mmap_anon_setup_signal_handler SIGSEGV;
  TP_ASSERT is_NULL msg, msg;;
  _ch ← load (u64 (remap + new_size));
  Ret (Some "signal handling error").

(** x15: growth that has to move, then touch the old place. *)
Definition scenario15 (RANGE sh : Z) : prog verdict :=
  let params := [used RANGE RW sh; used RANGE PROT_NONE sh] in
  let pcount := Z.of_nat (length params) in
  let old_size := size_of params 0 in
  let new_size := u64 (old_size + size_of params 1) in
  '(maps, params) ← mremap_mmap_anon params;
  TP_ASSERT maps =? pcount, Some "mmap error.";;
  let a := addr_of params 0 in
  set_errno 0;;
  remap ← mremap a old_size new_size MREMAP_MAYMOVE 0;
  TP_ASSERT negb (remap =? MAP_FAILED), Some "mremap error.";;
  errno ← get_errno;
  TP_ASSERT errno =? 0, Some "invalid errno.";;
  msg ← mremap_mmap_anon_data_check remap old_size (chr "0");
  TP_ASSERT is_NULL msg, msg;;
  msg ← mremap_mmap_anon_setup_signal_handler SIGSEGV;
  TP_ASSERT is_NULL msg, msg;;
  _ch ← load (addr_of params 0);
  Ret (Some "signal handling error").

(** x16: move to a free place, then touch the old one. *)
Definition scenario16 (RANGE sh : Z) : prog verdict :=
  let params := [used RANGE RW sh; unused RANGE; used RANGE PROT_NONE sh] in
  let pcount := Z.of_nat (length params) in
  let old_size := size_of params 0 in
  let new_size := old_size in
  '(maps, params) ← mremap_mmap_anon params;
  TP_ASSERT maps =? pcount, Some "mmap error.";;
  let a := addr_of params 0 in
  let naddr := addr_of params 1 in
  set_errno 0;;
  remap ← mremap a old_size new_size (MREMAP_MAYMOVE .| MREMAP_FIXED) naddr;
  TP_ASSERT remap =? naddr, Some "mremap error.";;
  errno ← get_errno;
  TP_ASSERT errno =? 0, Some "invalid errno.";;
  msg ← mremap_mmap_anon_data_check remap old_size (chr "0");
  TP_ASSERT is_NULL msg, msg;;
  msg ← mremap_mmap_anon_setup_signal_handler SIGSEGV;
  TP_ASSERT is_NULL msg, msg;;
  _ch ← load (addr_of params 0);
  Ret (Some "signal handling error").

(** ** The test cases *)

Definition mremap_mmap_anon000 : prog verdict := scenario00 MREMAP_RANGE_SIZE 0.
Definition mremap_mmap_anon001 : prog verdict := scenario01 MREMAP_RANGE_SIZE 0.
Definition mremap_mmap_anon002 : prog verdict := scenario02 MREMAP_RANGE_SIZE 0.
Definition mremap_mmap_anon003 : prog verdict := scenario03 MREMAP_RANGE_SIZE 0.
Definition mremap_mmap_anon004 : prog verdict := scenario04 MREMAP_RANGE_SIZE 0.
Definition mremap_mmap_anon005 : prog verdict := scenario05 MREMAP_RANGE_SIZE 0.
Definition mremap_mmap_anon006 : prog verdict := scenario06 MREMAP_RANGE_SIZE 0.
Definition mremap_mmap_anon007 : prog verdict := scenario07 MREMAP_RANGE_SIZE 0.
Definition mremap_mmap_anon008 : prog verdict := scenario08 MREMAP_RANGE_SIZE 0.
Definition mremap_mmap_anon009 : prog verdict := scenario09 MREMAP_RANGE_SIZE 0.
Definition mremap_mmap_anon010 : prog verdict := scenario10 MREMAP_RANGE_SIZE 0.
Definition mremap_mmap_anon011 : prog verdict := scenario11 MREMAP_RANGE_SIZE 0.
Definition mremap_mmap_anon012 : prog verdict := scenario12 MREMAP_RANGE_SIZE 0.
Definition mremap_mmap_anon013 : prog verdict := scenario13 MREMAP_RANGE_SIZE 0.
Definition mremap_mmap_anon014 : prog verdict := scenario14 MREMAP_RANGE_SIZE 0.
Definition mremap_mmap_anon015 : prog verdict := scenario15 MREMAP_RANGE_SIZE 0.
Definition mremap_mmap_anon016 : prog verdict := scenario16 MREMAP_RANGE_SIZE 0.

Definition mremap_mmap_anon100 : prog verdict := scenario00 MREMAP_RANGE_SIZE 1.
Definition mremap_mmap_anon101 : prog verdict := scenario01 MREMAP_RANGE_SIZE 1.
Definition mremap_mmap_anon102 : prog verdict := scenario02 MREMAP_RANGE_SIZE 1.
Definition mremap_mmap_anon103 : prog verdict := scenario03s MREMAP_RANGE_SIZE 1.
Definition mremap_mmap_anon104 : prog verdict := scenario04 MREMAP_RANGE_SIZE 1.
Definition mremap_mmap_anon105 : prog verdict := scenario05s MREMAP_RANGE_SIZE 1.
Definition mremap_mmap_anon106 : prog verdict := scenario06 MREMAP_RANGE_SIZE 1.
Definition mremap_mmap_anon107 : prog verdict := scenario07 MREMAP_RANGE_SIZE 1.
Definition mremap_mmap_anon108 : prog verdict := scenario08 MREMAP_RANGE_SIZE 1.
Definition mremap_mmap_anon109 : prog verdict := scenario09 MREMAP_RANGE_SIZE 1.
Definition mremap_mmap_anon110 : prog verdict := scenario10 MREMAP_RANGE_SIZE 1.
Definition mremap_mmap_anon111 : prog verdict := scenario11 MREMAP_RANGE_SIZE 1.
Definition mremap_mmap_anon112 : prog verdict := scenario12 MREMAP_RANGE_SIZE 1.
Definition mremap_mmap_anon113 : prog verdict := scenario13 MREMAP_RANGE_SIZE 1.
Definition mremap_mmap_anon114 : prog verdict := scenario14 MREMAP_RANGE_SIZE 1.
Definition mremap_mmap_anon115 : prog verdict := scenario15 MREMAP_RANGE_SIZE 1.
Definition mremap_mmap_anon116 : prog verdict := scenario16 MREMAP_RANGE_SIZE 1.

Definition mremap_mmap_anon200 : prog verdict := scenario00 MREMAP_RANGE_LARGE_SIZE 0.
Definition mremap_mmap_anon201 : prog verdict := scenario01 MREMAP_RANGE_LARGE_SIZE 0.
Definition mremap_mmap_anon202 : prog verdict := scenario02 MREMAP_RANGE_LARGE_SIZE 0.
Definition mremap_mmap_anon203 : prog verdict := scenario03 MREMAP_RANGE_LARGE_SIZE 0.
Definition mremap_mmap_anon204 : prog verdict := scenario04 MREMAP_RANGE_LARGE_SIZE 0.
Definition mremap_mmap_anon205 : prog verdict := scenario05 MREMAP_RANGE_LARGE_SIZE 0.
Definition mremap_mmap_anon206 : prog verdict := scenario06 MREMAP_RANGE_LARGE_SIZE 0.
Definition mremap_mmap_anon207 : prog verdict := scenario07 MREMAP_RANGE_LARGE_SIZE 0.
Definition mremap_mmap_anon208 : prog verdict := scenario08 MREMAP_RANGE_LARGE_SIZE 0.
Definition mremap_mmap_anon209 : prog verdict := scenario09 MREMAP_RANGE_LARGE_SIZE 0.
Definition mremap_mmap_anon210 : prog verdict := scenario10 MREMAP_RANGE_LARGE_SIZE 0.
Definition mremap_mmap_anon211 : prog verdict := scenario11 MREMAP_RANGE_LARGE_SIZE 0.
Definition mremap_mmap_anon212 : prog verdict := scenario12 MREMAP_RANGE_LARGE_SIZE 0.
Definition mremap_mmap_anon213 : prog verdict := scenario13 MREMAP_RANGE_LARGE_SIZE 0.
Definition mremap_mmap_anon214 : prog verdict := scenario14 MREMAP_RANGE_LARGE_SIZE 0.
Definition mremap_mmap_anon215 : prog verdict := scenario15 MREMAP_RANGE_LARGE_SIZE 0.
Definition mremap_mmap_anon216 : prog verdict := scenario16 MREMAP_RANGE_LARGE_SIZE 0.

Definition mremap_mmap_anon300 : prog verdict := scenario00 MREMAP_RANGE_LARGE_SIZE 1.
Definition mremap_mmap_anon301 : prog verdict := scenario01 MREMAP_RANGE_LARGE_SIZE 1.
Definition mremap_mmap_anon302 : prog verdict := scenario02 MREMAP_RANGE_LARGE_SIZE 1.
Definition mremap_mmap_anon303 : prog verdict := scenario03s MREMAP_RANGE_LARGE_SIZE 1.
Definition mremap_mmap_anon304 : prog verdict := scenario04 MREMAP_RANGE_LARGE_SIZE 1.
Definition mremap_mmap_anon305 : prog verdict := scenario05s MREMAP_RANGE_LARGE_SIZE 1.
Definition mremap_mmap_anon306 : prog verdict := scenario06 MREMAP_RANGE_LARGE_SIZE 1.
Definition mremap_mmap_anon307 : prog verdict := scenario07 MREMAP_RANGE_LARGE_SIZE 1.
Definition mremap_mmap_anon308 : prog verdict := scenario08 MREMAP_RANGE_LARGE_SIZE 1.
Definition mremap_mmap_anon309 : prog verdict := scenario09 MREMAP_RANGE_LARGE_SIZE 1.
Definition mremap_mmap_anon310 : prog verdict := scenario10 MREMAP_RANGE_LARGE_SIZE 1.
Definition mremap_mmap_anon311 : prog verdict := scenario11 MREMAP_RANGE_LARGE_SIZE 1.
Definition mremap_mmap_anon312 : prog verdict := scenario12 MREMAP_RANGE_LARGE_SIZE 1.
Definition mremap_mmap_anon313 : prog verdict := scenario13 MREMAP_RANGE_LARGE_SIZE 1.
Definition mremap_mmap_anon314 : prog verdict := scenario14 MREMAP_RANGE_LARGE_SIZE 1.
Definition mremap_mmap_anon315 : prog verdict := scenario15 MREMAP_RANGE_LARGE_SIZE 1.
Definition mremap_mmap_anon316 : prog verdict := scenario16 MREMAP_RANGE_LARGE_SIZE 1.

(** The run functions with their test numbers. *)
Definition mremap_mmap_anon_tests : list (Z * prog verdict) :=
  [(0, mremap_mmap_anon000); (1, mremap_mmap_anon001); (2, mremap_mmap_anon002);
   (3, mremap_mmap_anon003); (4, mremap_mmap_anon004); (5, mremap_mmap_anon005);
   (6, mremap_mmap_anon006); (7, mremap_mmap_anon007); (8, mremap_mmap_anon008);
   (9, mremap_mmap_anon009); (10, mremap_mmap_anon010); (11, mremap_mmap_anon011);
   (12, mremap_mmap_anon012); (13, mremap_mmap_anon013); (14, mremap_mmap_anon014);
   (15, mremap_mmap_anon015); (16, mremap_mmap_anon016);
   (100, mremap_mmap_anon100); (101, mremap_mmap_anon101); (102, mremap_mmap_anon102);
   (103, mremap_mmap_anon103); (104, mremap_mmap_anon104); (105, mremap_mmap_anon105);
   (106, mremap_mmap_anon106); (107, mremap_mmap_anon107); (108, mremap_mmap_anon108);
   (109, mremap_mmap_anon109); (110, mremap_mmap_anon110); (111, mremap_mmap_anon111);
   (112, mremap_mmap_anon112); (113, mremap_mmap_anon113); (114, mremap_mmap_anon114);
   (115, mremap_mmap_anon115); (116, mremap_mmap_anon116);
   (200, mremap_mmap_anon200); (201, mremap_mmap_anon201); (202, mremap_mmap_anon202);
   (203, mremap_mmap_anon203); (204, mremap_mmap_anon204); (205, mremap_mmap_anon205);
   (206, mremap_mmap_anon206); (207, mremap_mmap_anon207); (208, mremap_mmap_anon208);
   (209, mremap_mmap_anon209); (210, mremap_mmap_anon210); (211, mremap_mmap_anon211);
   (212, mremap_mmap_anon212); (213, mremap_mmap_anon213); (214, mremap_mmap_anon214);
   (215, mremap_mmap_anon215); (216, mremap_mmap_anon216);
   (300, mremap_mmap_anon300); (301, mremap_mmap_anon301); (302, mremap_mmap_anon302);
   (303, mremap_mmap_anon303); (304, mremap_mmap_anon304); (305, mremap_mmap_anon305);
   (306, mremap_mmap_anon306); (307, mremap_mmap_anon307); (308, mremap_mmap_anon308);
   (309, mremap_mmap_anon309); (310, mremap_mmap_anon310); (311, mremap_mmap_anon311);
   (312, mremap_mmap_anon312); (313, mremap_mmap_anon313); (314, mremap_mmap_anon314);
   (315, mremap_mmap_anon315); (316, mremap_mmap_anon316)].

(** Scenarios 14 to 16, and the shared variants of 03 and 05, pass by leaving the process from the
    signal handler with status 0. *)
Definition ends_by_signal (n : Z) : bool :=
  let k := n mod 100 in
  (14 <=? k) || (((k =? 3) || (k =? 5)) && negb (n / 100 mod 2 =? 0)).

(** ** A test case as a process

    A handler installed with SA_RESETHAND runs once: if it returned, the access would be repeated,
    raise the signal again and meet the default action. *)
Definition signal_handlers (fn : string) (sig : Z) : prog unit :=
  if String.eqb fn "mremap_mmap_anon_signal_handler" then mremap_mmap_anon_signal_handler sig
  else Ret tt.

Definition run_with_signals `{Kernel} {A} (p : prog A) (m : mach) : outcome A * mach :=
  match exec p m with
  | (Signalled sig (SIG_HANDLER fn), m) =>
      match exec (signal_handlers fn sig) m with
      | (Exited n, m) => (Exited n, m)
      | (_, m) => (Signalled sig SIG_DFL, m)
      end
  | om => om
  end.

End Mremap.
