(* ===== verification/MremapLemmas.v ===== *)
(** * Lemmas about the helpers of the mremap_mmap_anon suite

    The helpers are specified against the interface [VmKernel]: what [mremap_mmap_anon] lays out,
    and when the data and access checks succeed. *)
From S2P Require Import Prelude CMachine Align VmSpec Mremap.
Import Align Mremap.
#[local] Open Scope Z_scope.

Module MremapLemmas.

(** ** The layout *)

Fixpoint total (ps : list mremap_mmap_anon_param) : Z :=
  match ps with [] => 0 | p :: ps => size p + total ps end.

(** The table with the addresses of consecutive places from [b]. *)
Fixpoint placed (b : Z) (ps : list mremap_mmap_anon_param) : list mremap_mmap_anon_param :=
  match ps with [] => [] | p :: ps => set_addr b p :: placed (b + size p) ps end.

(** What the suite wants at a byte of the place of parameter [i]. *)
Definition cell_for (i : Z) (p : mremap_mmap_anon_param) : option cell :=
  if negb (nopage p =? 0) then None
  else Some (Cell (prot p) (negb (shared p =? 0)) true
               (if negb (prot p .& PROT_WRITE =? 0) then u8 (chr "0" + i) else 0)).

(** The address space with the places laid out from [b], and [v] elsewhere. *)
Fixpoint layout (v : Z -> option cell) (i b : Z) (ps : list mremap_mmap_anon_param) (x : Z)
    : option cell :=
  match ps with
  | [] => v x
  | p :: ps => if in_range b (size p) x then cell_for i p else layout v (i + 1) (b + size p) ps x
  end.

Definition good_param (p : mremap_mmap_anon_param) : Prop := 0 < size p /\ (PAGE_SIZE | size p).

Lemma total_nonneg ps : Forall good_param ps -> 0 <= total ps.
Proof. induction 1 as [|p ps [Hp _] _ IH]; simpl; lia. Qed.

Lemma total_divide ps : Forall good_param ps -> (PAGE_SIZE | total ps).
Proof.
  induction 1 as [|p ps [_ Hp] _ IH]; simpl; [apply Z.divide_0_r|by apply Z.divide_add_r].
Qed.

(** The layout leaves everything outside its places as it was. *)
Lemma layout_outside v i b ps x :
  Forall good_param ps -> ~ (b <= x < b + total ps) -> layout v i b ps x = v x.
Proof.
  intros Hg. revert i b. induction Hg as [|p ps [Hp _] Hg IH]; intros i b Hx; simpl in *; [done|].
  pose proof (total_nonneg ps Hg). rewrite in_range_out by lia. apply IH. lia.
Qed.

Lemma layout_ext v v' i b ps x : v x = v' x -> layout v i b ps x = layout v' i b ps x.
Proof.
  revert i b. induction ps as [|p ps IH]; intros i b E; simpl; [done|].
  destruct (in_range _ _ _); auto.
Qed.

(** Inside its places the layout does not depend on what was there. *)
Lemma layout_covered v v' i b ps x :
  b <= x < b + total ps -> layout v i b ps x = layout v' i b ps x.
Proof.
  revert i b. induction ps as [|p ps IH]; intros i b Hx; simpl in *; [lia|].
  destruct (in_range b (size p) x) eqn:Hr; [done|]. apply in_range_false in Hr. apply IH. lia.
Qed.

Lemma total_size_loop_ok ps t :
  Forall good_param ps -> 0 <= t -> t + total ps < 2 ^ 64 ->
  total_size_loop ps t = (Some (t + total ps), set_addr MAP_FAILED <$> ps).
Proof.
  intros Hg. revert t. induction Hg as [|p ps [Hp _] Hg IH]; intros t Ht Hb; simpl in *.
  { do 2 f_equal. lia. }
  pose proof (total_nonneg ps Hg). rewrite wrap_u_small by lia.
  replace (t + size p <? t) with false by lia. rewrite IH by lia. do 2 f_equal. lia.
Qed.

Lemma placed_set_addr b ps : placed b (set_addr MAP_FAILED <$> ps) = placed b ps.
Proof.
  revert b. induction ps as [|p ps IH]; intros b; csimpl; [done|]. by rewrite IH.
Qed.

Lemma layout_set_addr v i b ps x : layout v i b (set_addr MAP_FAILED <$> ps) x = layout v i b ps x.
Proof.
  revert i b. induction ps as [|p ps IH]; intros i b; csimpl; [done|]. by rewrite IH.
Qed.

Lemma total_set_addr ps : total (set_addr MAP_FAILED <$> ps) = total ps.
Proof. induction ps as [|p ps IH]; csimpl; [done|]. by rewrite IH. Qed.

Section vm.
Context {K : Kernel} {V : VmKernel K}.
Implicit Type m : mach.

(** [m'] differs from [m] in the address space alone, which is [v]. *)
Definition vm_is (m m' : mach) (v : Z -> option cell) : Prop :=
  errno m' = errno m /\ (forall x, vm (kern m') x = v x) /\
  (forall g, sigd (kern m') g = sigd (kern m) g) /\ avail (kern m) <= avail (kern m').

(** ** One place *)

Lemma exec_format_free a len m :
  user_range a len ->
  exists m', exec (munmap a len) m = (Returned 0, m') /\
    vm_is m m' (fun x => if in_range a len x then None else vm (kern m) x).
Proof.
  intros Hu. destruct (munmap_ok (kern m) a len Hu) as (s & E & Hv & Hs & Ha).
  exists (Mach (errno m) s). split; [by apply exec_munmap|]. by repeat split.
Qed.

Lemma exec_format_used a len pr sh m :
  user_range a len -> (forall x, a <= x < a + len -> vm (kern m) x <> None) ->
  exists m', exec (mmap a len pr (MAP_ANONYMOUS .| MAP_FIXED .| share_flag sh) (-1) 0) m
               = (Returned a, m') /\
    vm_is m m' (fun x => if in_range a len x then Some (fresh_cell pr sh) else vm (kern m) x).
Proof.
  intros Hu Hm. destruct (mmap_fixed (kern m) a len pr sh Hu Hm) as (s & E & Hv & Hs & Ha).
  destruct Hu as (_ & _ & ? & ? & ?). assert (MMAP_END_ADDR < 2 ^ 64) by done.
  exists (Mach (errno m) s). split; [apply exec_mmap; [done|lia]|]. by repeat split.
Qed.

Lemma exec_fill a len ch m :
  0 <= len ->
  (forall x, a <= x < a + len ->
    exists c, vm (kern m) x = Some c /\ writable c = true /\ c_backed c = true) ->
  exists m', exec (memset a ch len) m = (Returned tt, m') /\
    vm_is m m' (fun x => if in_range a len x then set_val ch <$> vm (kern m) x else vm (kern m) x).
Proof.
  intros Hl Hc. destruct (memset_ok (kern m) a ch len Hl Hc) as (s & E & Hv & Hs & Ha).
  exists (Mach (errno m) s). split; [by apply exec_memset|]. by repeat split.
Qed.

(** ** The checks *)

(** The data check passes on readable bytes that all hold [exp]. *)
Lemma exec_data_check a len exp m :
  0 <= a -> 0 <= len -> a + len < 2 ^ 64 ->
  (forall x, a <= x < a + len ->
    exists c, vm (kern m) x = Some c /\ readable c = true /\ c_backed c = true /\ c_val c = exp) ->
  exists m', exec (mremap_mmap_anon_data_check a len exp) m = (Returned None, m') /\
    vm_is m m' (vm (kern m)).
Proof.
  intros Ha Hl Hb Hc. unfold mremap_mmap_anon_data_check.
  assert (a + Z.of_nat (Z.to_nat len) < 2 ^ 64) as Hb' by lia.
  assert (forall x, a <= x < a + Z.of_nat (Z.to_nat len) ->
    exists c, vm (kern m) x = Some c /\ readable c = true /\ c_backed c = true /\ c_val c = exp)
    as Hc' by (intros x Hx; apply Hc; lia).
  clear Hb Hc Hl. revert a m Ha Hb' Hc'. induction (Z.to_nat len) as [|n IH]; intros a m Ha Hb Hc.
  { exists m. split; [done|]. repeat split; auto. lia. }
  destruct (Hc a) as (c & Hv & Hr & Hk & <-); [lia|].
  destruct (load_ok (kern m) a c Hv Hr Hk) as (s & E & Hv' & Hs & Hav).
  cbn [data_check_loop]. rewrite (exec_mbind _ _ _ _ _ (exec_load _ _ _ _ E)).
  rewrite Z.eqb_refl. cbn [negb]. rewrite wrap_u_small by lia.
  destruct (IH (a + 1) (Mach (errno m) s)) as (m' & E' & He & Hv'' & Hs' & Ha'); [lia|lia| |].
  { intros x Hx. cbn. rewrite Hv'. apply Hc. lia. }
  exists m'. split; [done|]. cbn in *. repeat split; auto.
  - intros x. by rewrite Hv''.
  - intros g. by rewrite Hs'.
  - lia.
Qed.

(** Readable, writable bytes of one mapping, all with an object behind them. *)
Definition rw_range m (a len : Z) : Prop :=
  forall x, a <= x < a + len ->
  exists c, vm (kern m) x = Some c /\ readable c = true /\ writable c = true /\ c_backed c = true.

(** A byte that was stored is read back; the range stays readable and writable. *)
Lemma exec_store_load a len x ch m :
  rw_range m a len -> a <= x < a + len ->
  exists m1 m2, exec (store x ch) m = (Returned tt, m1) /\ exec (load x) m1 = (Returned ch, m2) /\
    rw_range m2 a len.
Proof.
  intros Hrw Hx. destruct (Hrw x Hx) as (c & Hv & Hr & Hw & Hb).
  destruct (store_ok (kern m) x c ch Hv Hw Hb) as (s & E & Hvs & _).
  destruct (load_ok s x (set_val ch c)) as (s' & E' & Hvs' & _).
  { by rewrite Hvs, Z.eqb_refl. } { done. } { done. }
  exists (Mach (errno m) s), (Mach (errno m) s').
  split; [by apply exec_store|]. split; [by apply (exec_load x (Mach (errno m) s))|].
  intros y Hy. cbn. rewrite Hvs', Hvs. destruct (y =? x); [|by apply Hrw].
  by eexists.
Qed.

(** The access check passes on a range that can be read and written. *)
Lemma exec_access_check a len m :
  0 < a -> 0 < len -> a + len < 2 ^ 64 -> rw_range m a len ->
  exists m', exec (mremap_mmap_anon_access_check a len) m = (Returned None, m').
Proof.
  intros Ha Hl Hb Hrw. unfold mremap_mmap_anon_access_check.
  replace (a =? NULL) with false by (unfold NULL; lia). replace (len <=? 0) with false by lia.
  destruct (exec_store_load a len a (chr "A") m Hrw) as (m1 & m2 & E1 & E2 & Hrw2); [lia|].
  rewrite (exec_mbind _ _ _ _ _ E1), (exec_mbind _ _ _ _ _ E2).
  rewrite wrap_u_small by lia. cbn [tp_assert Z.eqb chr].
  destruct (exec_store_load a len (a + (len - 1)) (chr "Z") m2 Hrw2) as (m3 & m4 & E3 & E4 & Hrw4).
  { lia. }
  unfold tp_assert. rewrite Z.eqb_refl.
  rewrite (exec_mbind _ _ _ _ _ E3), (exec_mbind _ _ _ _ _ E4). rewrite Z.eqb_refl.
  destruct (exec_fill a len (chr "0") m4) as (m5 & E5 & _); [lia| |].
  { intros x Hx. destruct (Hrw4 x Hx) as (c & ? & _ & ? & ?). eauto. }
  rewrite (exec_mbind _ _ _ _ _ E5). by exists m5.
Qed.

(** The handler is installed. *)
Lemma exec_setup_handler sig m :
  sig = SIGSEGV \/ sig = SIGBUS ->
  exists m', exec (mremap_mmap_anon_setup_signal_handler sig) m = (Returned None, m') /\
    (forall x, vm (kern m') x = vm (kern m) x) /\
    sigd (kern m') sig = SIG_HANDLER "mremap_mmap_anon_signal_handler".
Proof.
  intros Hs. unfold mremap_mmap_anon_setup_signal_handler.
  destruct (sigaction_ok (kern m) sig "mremap_mmap_anon_signal_handler" Hs) as (s & E & Hd & Hv & _).
  rewrite (exec_mbind _ _ _ _ _ (exec_sigaction _ _ _ _ _ E)). cbn. by eexists.
Qed.

(** ** The whole layout *)

Lemma share_flag_shared p :
  (if negb (shared p =? 0) then MAP_ANONYMOUS .| MAP_FIXED .| MAP_SHARED
   else MAP_ANONYMOUS .| MAP_FIXED .| MAP_PRIVATE)
  = MAP_ANONYMOUS .| MAP_FIXED .| share_flag (negb (shared p =? 0)).
Proof. by destruct (shared p =? 0). Qed.

(** One parameter is laid out, and the loop goes on behind it. *)
Lemma exec_format_one i a p ps m :
  user_range a (size p) -> (forall x, a <= x < a + size p -> vm (kern m) x <> None) ->
  exists m1, vm_is m m1 (fun x => if in_range a (size p) x then cell_for i p else vm (kern m) x) /\
    exec (format_loop i a (p :: ps)) m =
    exec ('(r, ps) ← format_loop (i + 1) (u64 (a + size p)) ps; Ret (r, set_addr a p :: ps)) m1.
Proof.
  intros Hu Hm. cbn [format_loop]. cbv zeta. cbn [nopage size shared prot set_addr].
  assert (a <> MAP_FAILED) as Hf.
  { destruct Hu as (_ & _ & ? & ? & ?). unfold MAP_FAILED, MMAP_END_ADDR in *. lia. }
  destruct (nopage p =? 0) eqn:Hn; cbn [negb].
  - rewrite share_flag_shared.
    destruct (exec_format_used a (size p) (prot p) (negb (shared p =? 0)) m Hu Hm)
      as (m1 & E1 & He1 & Hv1 & Hs1 & Ha1).
    rewrite (exec_mbind _ _ _ _ _ E1). replace (a =? MAP_FAILED) with false by lia.
    destruct (prot p .& PROT_WRITE =? 0) eqn:Hw; cbn [negb].
    + exists m1. split; [|done]. repeat split; auto. intros x. rewrite Hv1.
      unfold cell_for. by rewrite Hn, Hw.
    + destruct (exec_fill a (size p) (u8 (chr "0" + i)) m1) as (m2 & E2 & He2 & Hv2 & Hs2 & Ha2).
      { destruct Hu as (_ & _ & _ & ? & _). lia. }
      { intros x Hx. exists (fresh_cell (prot p) (negb (shared p =? 0))).
        rewrite Hv1, in_range_in by lia. repeat split. unfold writable. cbn. by rewrite Hw. }
      rewrite (exec_mbind _ _ _ _ _ E2). exists m2. split; [|done].
      split; [congruence|]. split; [|split; [|lia]].
      * intros x. rewrite Hv2, !Hv1. unfold cell_for. rewrite Hn, Hw.
        by destruct (in_range a (size p) x).
      * intros g. by rewrite Hs2.
  - destruct (exec_format_free a (size p) m Hu) as (m1 & E1 & He1 & Hv1 & Hs1 & Ha1).
    rewrite (exec_mbind _ _ _ _ _ E1). cbn [negb Z.eqb]. exists m1. split; [|done].
    repeat split; auto. intros x. rewrite Hv1. unfold cell_for. by rewrite Hn.
Qed.

(** The second loop lays out every parameter of the reserved space. *)
Lemma exec_format_loop ps i a m :
  Forall good_param ps -> (PAGE_SIZE | a) -> 0 < a -> a + total ps <= MMAP_END_ADDR ->
  (forall x, a <= x < a + total ps -> vm (kern m) x <> None) ->
  exists m', exec (format_loop i a ps) m = (Returned (i + Z.of_nat (length ps), placed a ps), m') /\
    vm_is m m' (layout (vm (kern m)) i a ps).
Proof.
  intros Hg. revert i a m. induction Hg as [|p ps [Hp Hd] Hg IH]; intros i a m Hdiv Hpos Hend Hm;
    cbn [total] in *.
  { exists m. split; [cbn; by rewrite Z.add_0_r|]. repeat split. lia. }
  pose proof (total_nonneg ps Hg). assert (MMAP_END_ADDR < 2 ^ 64) by done.
  destruct (exec_format_one i a p ps m) as (m1 & (He1 & Hv1 & Hs1 & Ha1) & ->).
  { repeat split; auto; lia. } { intros x Hx. apply Hm. lia. }
  rewrite wrap_u_small by lia.
  destruct (IH (i + 1) (a + size p) m1) as (m' & E & He & Hv & Hs & Ha).
  { by apply Z.divide_add_r. } { lia. } { lia. }
  { intros x Hx. rewrite Hv1, in_range_out by lia. apply Hm. lia. }
  rewrite (exec_mbind _ _ _ _ _ E). exists m'. split.
  { cbn. do 2 f_equal. f_equal. lia. }
  split; [congruence|]. split; [|split; [|lia]].
  - intros x. rewrite Hv. cbn [layout]. destruct (in_range a (size p) x) eqn:Hr.
    + rewrite layout_outside, Hv1, Hr; auto. apply in_range_spec in Hr. lia.
    + apply layout_ext. by rewrite Hv1, Hr.
  - intros g. by rewrite Hs.
Qed.

(** [mremap_mmap_anon] lays out all its parameters, one after the other in free address space, when
    the memory they need is there. *)
Lemma exec_mremap_mmap_anon ps m :
  Forall good_param ps -> 0 < total ps <= avail (kern m) -> total ps < 2 ^ 64 ->
  exists b m', exec (mremap_mmap_anon ps) m = (Returned (Z.of_nat (length ps), placed b ps), m') /\
    user_range b (total ps) /\ errno m' = errno m /\
    (forall x, vm (kern m') x = layout (vm (kern m)) 0 b ps x) /\
    (forall g, sigd (kern m') g = sigd (kern m) g) /\
    avail (kern m) - total ps <= avail (kern m').
Proof.
  intros Hg Ht Hw. unfold mremap_mmap_anon. rewrite total_size_loop_ok by (done || lia).
  rewrite Z.add_0_l.
  destruct (mmap_anon (kern m) (total ps) PROT_NONE true) as (b & s & E & Hu & _ & Hv & Hs & Ha).
  { by apply total_divide. } { lia. }
  pose proof Hu as (Hdiv & _ & Hb & _ & Hend). assert (MMAP_END_ADDR < 2 ^ 64 - 1) by done.
  rewrite (exec_mbind _ _ _ b (Mach (errno m) s)) by (apply exec_mmap; [done|lia]).
  replace (b =? MAP_FAILED) with false by (unfold MAP_FAILED; lia).
  destruct (exec_format_loop (set_addr MAP_FAILED <$> ps) 0 b (Mach (errno m) s))
    as (m' & E' & He & Hv' & Hs' & Ha').
  { apply Forall_fmap. eapply Forall_impl; [done|]. by intros p. } { done. } { done. }
  { by rewrite total_set_addr. }
  { intros x Hx. rewrite total_set_addr in Hx. cbn. by rewrite Hv, in_range_in by lia. }
  exists b, m'. rewrite E', length_fmap, placed_set_addr, Z.add_0_l.
  repeat split; auto; cbn in *; try apply Hu.
  - intros x. rewrite Hv', layout_set_addr. destruct (in_range b (total ps) x) eqn:Hr.
    + apply in_range_spec in Hr. by apply layout_covered.
    + apply layout_ext. by rewrite Hv, Hr.
  - intros g. by rewrite Hs'.
  - lia.
Qed.

End vm.
End MremapLemmas.
