(* ===== verification/MremapTests.v ===== *)
(** * The mremap_mmap_anon test cases give the right verdict

    Every test case passes on every kernel that behaves as the manual pages say ([VmKernel]): the
    scenarios are proved once for any range size and sharing, and the 68 test cases are their
    instances.  The converse direction, what a passing test says about an arbitrary kernel, is in
    MremapOracle.v. *)
From S2P Require Import Prelude CMachine Align VmSpec RefKernel Mremap MremapLemmas.
Import Align Mremap MremapLemmas.
#[local] Open Scope Z_scope.

Module MremapTests.

(** The start of the place of parameter [k]. *)
Definition place (b : Z) (ps : list mremap_mmap_anon_param) (k : nat) : Z := b + total (take k ps).

Lemma layout_place v i b ps k p x :
  Forall good_param ps -> ps !! k = Some p ->
  place b ps k <= x < place b ps k + size p -> layout v i b ps x = cell_for (i + Z.of_nat k) p.
Proof.
  unfold place. intros Hg. revert i b k. induction Hg as [|q ps [Hq _] Hg IH]; intros i b k Hk Hx; [done|].
  destruct k as [|k]; simpl in *.
  - simplify_eq. rewrite in_range_in by lia. by rewrite Z.add_0_r.
  - assert (0 <= total (take k ps)) by (apply total_nonneg; by apply Forall_take).
    rewrite in_range_out by lia. rewrite (IH (i + 1) (b + size q) k); [f_equal; lia|done|lia].
Qed.

(** The name of the suite's handler. *)
Definition handler : disposition := SIG_HANDLER "mremap_mmap_anon_signal_handler".

Section scenarios.
Context {K : Kernel} {V : VmKernel K}.
Implicit Type m : mach.

(** ** The phases of a test *)

Lemma exec_assert t msg k m : t = true -> exec (tp_assert t msg k) m = exec k m.
Proof. by intros ->. Qed.

(** Every parameter of the table has the cells it asks for. *)
Definition laid_out m (b : Z) (ps : list mremap_mmap_anon_param) : Prop :=
  forall j p x, ps !! j = Some p -> place b ps j <= x < place b ps j + size p ->
  vm (kern m) x = cell_for (Z.of_nat j) p.

Lemma exec_init ps m :
  Forall good_param ps -> 0 < total ps <= avail (kern m) -> total ps < 2 ^ 64 ->
  exists b m',
    (forall k : list mremap_mmap_anon_param -> prog verdict,
       exec ('(maps, params) ← mremap_mmap_anon ps;
             TP_ASSERT maps =? Z.of_nat (length ps), Some "mmap error.";; k params) m
       = exec (k (placed b ps)) m') /\
    user_range b (total ps) /\
    laid_out m' b ps /\
    (forall g, sigd (kern m') g = sigd (kern m) g) /\
    avail (kern m) - total ps <= avail (kern m').
Proof.
  intros Hg Ht Hw. destruct (exec_mremap_mmap_anon ps m Hg Ht Hw) as (b & m' & E & Hu & _ & Hv & Hs & Ha).
  exists b, m'. split; [|split; [done|split; [|done]]].
  - intros k. rewrite (exec_mbind _ _ _ _ _ E). by rewrite exec_assert by apply Z.eqb_refl.
  - intros j p x Hj Hx. by rewrite Hv, (layout_place _ _ _ _ j p).
Qed.

(** A call of [mremap] that succeeds with [r], and the two assertions on it. *)
Lemma exec_remap_ok a o n fl na r s (t : Z -> bool) (k : Z -> prog verdict) m :
  kstep (SYS_mremap a o n fl na) (kern m) = (r, s) -> 0 <= r < 2 ^ 64 -> t r = true ->
  exec (set_errno 0;; remap ← mremap a o n fl na;
        TP_ASSERT t remap, Some "mremap error.";;
        errno ← get_errno; TP_ASSERT errno =? 0, Some "invalid errno.";; k remap) m
  = exec (k r) (Mach 0 s).
Proof.
  intros E Hr Ht. rewrite (exec_mbind _ _ m tt (Mach 0 (kern m))) by done.
  rewrite (exec_mbind _ _ _ r (Mach 0 s)) by (by apply (exec_mremap _ _ _ _ _ (Mach 0 (kern m)))).
  rewrite exec_assert by done. rewrite (exec_mbind _ _ _ 0 (Mach 0 s)) by done.
  by rewrite exec_assert.
Qed.

(** A call of [mremap] that has to fail with [e]. *)
Lemma exec_remap_fails a o n fl na e s m :
  kstep (SYS_mremap a o n fl na) (kern m) = (- e, s) -> 1 <= e <= 4095 ->
  exists m', exec (set_errno 0;; remap ← mremap a o n fl na;
        TP_ASSERT remap =? MAP_FAILED, Some "mremap error.";;
        errno ← get_errno; TP_ASSERT errno =? e, Some "invalid errno.";; Ret None) m
  = (Returned None, m').
Proof.
  intros E He. rewrite (exec_mbind _ _ m tt (Mach 0 (kern m))) by done.
  rewrite (exec_mbind _ _ _ MAP_FAILED (Mach e s))
    by (by apply (exec_mremap_error _ _ _ _ _ (Mach 0 (kern m)))).
  rewrite exec_assert by done. rewrite (exec_mbind _ _ _ e (Mach e s)) by done.
  rewrite exec_assert by apply Z.eqb_refl. by eexists.
Qed.

(** The contents of a range: bytes of one readable and writable mapping, with the same value. *)
Definition holds_byte m (a len val : Z) : Prop :=
  forall x, a <= x < a + len -> exists c, vm (kern m) x = Some c /\
    readable c = true /\ writable c = true /\ c_backed c = true /\ c_val c = val.

Lemma exec_verify a len val (k : prog verdict) m :
  0 < a -> 0 <= len -> a + len < 2 ^ 64 -> holds_byte m a len val ->
  exists m', exec (msg ← mremap_mmap_anon_data_check a len val; TP_ASSERT is_NULL msg, msg;; k) m
             = exec k m' /\ (forall x, vm (kern m') x = vm (kern m) x) /\
    (forall g, sigd (kern m') g = sigd (kern m) g).
Proof.
  intros Ha Hl Hb Hh. destruct (exec_data_check a len val m) as (m' & E & _ & Hv & Hs & _);
    [lia|lia|lia| |].
  { intros x Hx. destruct (Hh x Hx) as (c & ? & ? & _ & ? & ?). eauto. }
  exists m'. by rewrite (exec_mbind _ _ _ _ _ E).
Qed.

Lemma exec_access a len m :
  0 < a -> 0 < len -> a + len < 2 ^ 64 -> rw_range m a len ->
  exists m', exec (msg ← mremap_mmap_anon_access_check a len; TP_ASSERT is_NULL msg, msg;; Ret None) m
             = (Returned None, m').
Proof.
  intros Ha Hl Hb Hh. destruct (exec_access_check a len m Ha Hl Hb Hh) as (m' & E).
  rewrite (exec_mbind _ _ _ _ _ E). by eexists.
Qed.

(** After the handler is set, an access to an unmapped byte raises SIGSEGV, and one past the object
    raises SIGBUS. *)
Lemma exec_touch sig a m :
  sig = SIGSEGV /\ vm (kern m) a = None \/
  sig = SIGBUS /\ (exists c, vm (kern m) a = Some c /\ readable c = true /\ c_backed c = false) ->
  exists m', exec (msg ← mremap_mmap_anon_setup_signal_handler sig; TP_ASSERT is_NULL msg, msg;;
                   _ch ← load a; Ret (Some "signal handling error")) m = (Signalled sig handler, m').
Proof.
  intros H. destruct (exec_setup_handler sig m) as (m1 & E & Hv & Hd); [naive_solver|].
  rewrite (exec_mbind _ _ _ _ _ E). rewrite exec_assert by done.
  assert (exists s, kstep (MEM_load a) (kern m1) = (Fault sig handler, s)) as [s Es].
  { unfold handler. rewrite <- Hd. destruct H as [[-> H]|[-> (c & H & Hr & Hb)]].
    - apply load_unmapped. by rewrite Hv.
    - apply load_unbacked with c; [by rewrite Hv|done|done]. }
  rewrite (exec_mbind_trap _ _ _ _ _ _ (exec_load_fault _ _ _ _ _ Es)). by eexists.
Qed.

(** The two ends of a test: check the data, then access it or provoke a signal. *)
Lemma exec_verify_access a len val n m :
  0 < a -> 0 <= len -> 0 < n -> a + len < 2 ^ 64 -> a + n < 2 ^ 64 ->
  holds_byte m a len val -> rw_range m a n ->
  exists m', exec (msg ← mremap_mmap_anon_data_check a len val; TP_ASSERT is_NULL msg, msg;;
                   msg ← mremap_mmap_anon_access_check a n; TP_ASSERT is_NULL msg, msg;; Ret None) m
             = (Returned None, m').
Proof.
  intros Ha Hl Hn Hb Hb' Hh Hrw.
  destruct (exec_verify a len val
    (msg ← mremap_mmap_anon_access_check a n; TP_ASSERT is_NULL msg, msg;; Ret None) m)
    as (m1 & -> & Hv & _); auto.
  apply exec_access; auto. intros x Hx. rewrite Hv. auto.
Qed.

Lemma exec_verify_touch a len val sig t m :
  0 < a -> 0 <= len -> a + len < 2 ^ 64 -> holds_byte m a len val ->
  (sig = SIGSEGV /\ vm (kern m) t = None \/
   sig = SIGBUS /\ exists c, vm (kern m) t = Some c /\ readable c = true /\ c_backed c = false) ->
  exists m', exec (msg ← mremap_mmap_anon_data_check a len val; TP_ASSERT is_NULL msg, msg;;
                   msg ← mremap_mmap_anon_setup_signal_handler sig; TP_ASSERT is_NULL msg, msg;;
                   _ch ← load t; Ret (Some "signal handling error")) m
             = (Signalled sig handler, m').
Proof.
  intros Ha Hl Hb Hh Ht.
  destruct (exec_verify a len val
    (msg ← mremap_mmap_anon_setup_signal_handler sig; TP_ASSERT is_NULL msg, msg;;
     _ch ← load t; Ret (Some "signal handling error")) m) as (m1 & -> & Hv & _); auto.
  apply exec_touch. by rewrite !Hv.
Qed.

(** ** What the layout gives *)

Lemma rw_place m b ps j sz sh :
  laid_out m b ps -> ps !! j = Some (used sz RW sh) ->
  holds_byte m (place b ps j) sz (u8 (chr "0" + Z.of_nat j)) /\
  one_mapping (vm (kern m)) (place b ps j) sz RW (negb (sh =? 0)).
Proof. intros Hl Hj. split; intros x Hx; rewrite (Hl j _ x Hj Hx); by eexists. Qed.

Lemma used_place m b ps j sz pr sh :
  laid_out m b ps -> ps !! j = Some (used sz pr sh) ->
  forall x, place b ps j <= x < place b ps j + sz -> vm (kern m) x <> None.
Proof. intros Hl Hj x Hx. by rewrite (Hl j _ x Hj Hx). Qed.

Lemma free_place m b ps j sz :
  laid_out m b ps -> ps !! j = Some (unused sz) -> free_range (vm (kern m)) (place b ps j) sz.
Proof. intros Hl Hj x Hx. by rewrite (Hl j _ x Hj Hx). Qed.

(** A moved range keeps its bytes. *)
Lemma holds_remapped m s a len n dst pr shd val e :
  (forall x, vm s x = remapped (vm (kern m)) a len n dst pr shd x) -> len <= n ->
  holds_byte m a len val -> holds_byte (Mach e s) dst len val.
Proof.
  intros Hv Hn Hh x Hx. cbn. rewrite Hv. unfold remapped. rewrite in_range_in by lia.
  replace (x - dst <? len) with true by lia. apply Hh. lia.
Qed.

(** Bytes outside a range that was unmapped are kept. *)
Lemma holds_cut m s a len c n val e :
  (forall x, vm s x = if in_range c n x then None else vm (kern m) x) ->
  a + len <= c \/ n <= 0 -> holds_byte m a len val -> holds_byte (Mach e s) a len val.
Proof. intros Hv Hc Hh x Hx. cbn. rewrite Hv, in_range_out by lia. by apply Hh. Qed.

Lemma holds_less m a len len' val : len' <= len -> holds_byte m a len val -> holds_byte m a len' val.
Proof. intros Hl Hh x Hx. apply Hh. lia. Qed.

Lemma mapped_head m a len pr shd :
  0 < len -> one_mapping (vm (kern m)) a len pr shd -> vm (kern m) a <> None.
Proof. intros Hl Ho. destruct (Ho a) as (c & -> & _); [lia|done]. Qed.

Lemma rw_holds m a len val : holds_byte m a len val -> rw_range m a len.
Proof. intros Hh x Hx. destruct (Hh x Hx) as (c & ? & ? & ? & ? & _). eauto 10. Qed.

(** A private range that grew is readable and writable in its whole new length. *)
Lemma rw_remapped m s a len n dst val e :
  (forall x, vm s x = remapped (vm (kern m)) a len n dst RW false x) -> len <= n ->
  holds_byte m a len val -> rw_range (Mach e s) dst n.
Proof.
  intros Hv Hn Hh x Hx. destruct (Z.lt_ge_cases x (dst + len)) as [Hl|Hl].
  - destruct (holds_remapped m s a len n dst RW false val e Hv Hn Hh x) as (c & ? & ? & ? & ? & _);
      [lia|]. eauto 10.
  - cbn. rewrite Hv. unfold remapped. rewrite in_range_in by lia.
    replace (x - dst <? len) with false by lia. by eexists.
Qed.

(** The memory a scenario can need: five ranges of its layout and the room to move. *)
Definition enough (R : Z) m : Prop := 9 * R <= avail (kern m).

End scenarios.

(** Solves the side conditions on layouts made of [used] and [unused] places. *)
Ltac page_facts :=
  repeat match goal with
  | H : user_range _ _ |- _ => destruct H as (? & ? & ? & ? & ?)
  end;
  change PAGE_SIZE with 4096 in *; unfold enough, MMAP_END_ADDR, MAP_FAILED in *;
  cbn [total take size used unused] in *.

Ltac divides :=
  repeat first [assumption | apply Z.divide_sub_r | apply Z.divide_add_r | apply Z.divide_mul_l
               | apply Z.divide_refl].

Ltac good_params :=
  repeat first
    [ apply List.Forall_nil
    | apply List.Forall_cons;
      [split; cbn [size used unused]; change PAGE_SIZE with 4096 in *; [lia|divides]|] ].

(** Runs a scenario up to its call of [mremap]. *)
Ltac setup ps m b m1 Hu Hl Ha :=
  let Hk := fresh "Hk" in
  destruct (exec_init ps m) as (b & m1 & Hk & Hu & Hl & _ & Ha);
  [good_params | page_facts; lia | page_facts; lia |];
  rewrite Hk; clear Hk;
  cbn [addr_of size_of placed lookup list_lookup fmap option_fmap option_map default from_option id
       addr size set_addr used unused];
  page_facts; rewrite ?(wrap_u_small 64) by lia.

(** Discharges the page arithmetic of the interface's premises. *)
Ltac pages := unfold user_range; page_facts; repeat split; first [lia | divides; fail].

(** The places of a layout, at their addresses. *)
Ltac places := unfold place in *; cbn [total take size used unused] in *; rewrite ?Z.add_0_r in *.

Ltac head := eapply mapped_head; [|eassumption]; lia.

Section scenarios2.
Context {K : Kernel} {V : VmKernel K}.
Implicit Type m : mach.
Context (R sh : Z) (HRp : (PAGE_SIZE | R)) (HR : 2 * PAGE_SIZE <= R <= 2 ^ 32).

#[local] Hint Resolve rw_holds : core.

Lemma scenario00_passes m : enough R m -> exists m', exec (scenario00 R sh) m = (Returned None, m').
Proof.
  intros He. unfold scenario00. cbv zeta.
  setup [used R RW sh; used R PROT_NONE sh] m b m1 Hu Hl Ha.
  destruct (rw_place _ _ _ 0 _ _ Hl eq_refl) as [Hh Ho]. places.
  destruct (mremap_shrink (kern m1) b R R 0) as (s & E & Hv & _); [pages..|head|pages|].
  rewrite (exec_remap_ok _ _ _ _ _ b s _ _ _ E) by lia.
  assert (holds_byte (Mach 0 s) b R (chr "0")) by (eapply holds_cut; [exact Hv|lia|exact Hh]).
  apply exec_verify_access; eauto; lia.
Qed.

Lemma scenario01_passes m : enough R m -> exists m', exec (scenario01 R sh) m = (Returned None, m').
Proof.
  intros He. unfold scenario01. cbv zeta.
  setup [used R RW sh; used R PROT_NONE sh] m b m1 Hu Hl Ha.
  destruct (rw_place _ _ _ 0 _ _ Hl eq_refl) as [Hh Ho]. places.
  assert (4096 | 0xffffffffffffe000) by (by exists 0xffffffffffffe).
  destruct (mremap_shrink (kern m1) b 0xffffffffffffe000 0xffffffffffffe000 0) as (s & E & Hv & _);
    [pages..|head|pages|].
  rewrite (exec_remap_ok _ _ _ _ _ b s _ _ _ E) by lia.
  assert (holds_byte (Mach 0 s) b R (chr "0")) by (eapply holds_cut; [exact Hv|lia|exact Hh]).
  apply exec_verify_access; eauto; lia.
Qed.

Lemma scenario02_passes m : enough R m -> exists m', exec (scenario02 R sh) m = (Returned None, m').
Proof.
  intros He. unfold scenario02. cbv zeta.
  setup [used (R * 2) RW sh; used R PROT_NONE sh] m b m1 Hu Hl Ha.
  destruct (rw_place _ _ _ 0 _ _ Hl eq_refl) as [Hh Ho]. places.
  destruct (mremap_shrink (kern m1) b (R * 2) (R * 2 - 4096) 0) as (s & E & Hv & _);
    [pages..|head|pages|].
  rewrite (exec_remap_ok _ _ _ _ _ b s _ _ _ E) by lia.
  assert (holds_byte (Mach 0 s) b (R * 2 - 4096) (chr "0")).
  { apply (holds_cut m1 s _ _ (b + (R * 2 - 4096)) (R * 2 - (R * 2 - 4096))); auto; [lia|].
    apply (holds_less _ _ (R * 2)); [lia|done]. }
  apply exec_verify_access; eauto; lia.
Qed.

Lemma scenario14_stops m :
  enough R m -> exists m', exec (scenario14 R sh) m = (Signalled SIGSEGV handler, m').
Proof.
  intros He. unfold scenario14. cbv zeta.
  setup [used (R * 2) RW sh; used R PROT_NONE sh] m b m1 Hu Hl Ha.
  destruct (rw_place _ _ _ 0 _ _ Hl eq_refl) as [Hh Ho]. places.
  destruct (mremap_shrink (kern m1) b (R * 2) (R * 2 - 4096) 0) as (s & E & Hv & _);
    [pages..|head|pages|].
  rewrite (exec_remap_ok _ _ _ _ _ b s _ _ _ E) by lia. rewrite wrap_u_small by lia.
  apply exec_verify_touch; try lia.
  - apply (holds_cut m1 s _ _ (b + (R * 2 - 4096)) (R * 2 - (R * 2 - 4096))); auto; [lia|].
    apply (holds_less _ _ (R * 2)); [lia|done].
  - left. split; [done|]. cbn. by rewrite Hv, in_range_in by lia.
Qed.

(** Growth in place: private memory is extended. *)
Lemma scenario03_passes m :
  sh = 0 -> enough R m -> exists m', exec (scenario03 R sh) m = (Returned None, m').
Proof.
  intros Hsh He. unfold scenario03. cbv zeta.
  setup [used R RW sh; unused R; used R PROT_NONE sh] m b m1 Hu Hl Ha.
  destruct (rw_place _ _ _ 0 _ _ Hl eq_refl) as [Hh Ho].
  pose proof (free_place _ _ _ 1 _ Hl eq_refl) as Hf. places. subst sh.
  destruct (mremap_grow (kern m1) b R (R + R) 0 RW false) as (s & E & Hv & _); [pages..|done| |].
  { by replace (R + R - R) with R by lia. }
  rewrite (exec_remap_ok _ _ _ _ _ b s _ _ _ E) by lia.
  apply exec_verify_access; try lia.
  - eapply holds_remapped; [exact Hv|lia|exact Hh].
  - eapply rw_remapped; [exact Hv|lia|exact Hh].
Qed.

(** Growth in place of a shared mapping: nothing lies behind the new part. *)
Lemma scenario03s_stops m :
  sh <> 0 -> enough R m -> exists m', exec (scenario03s R sh) m = (Signalled SIGBUS handler, m').
Proof.
  intros Hsh He. unfold scenario03s. cbv zeta.
  setup [used R RW sh; unused R; used R PROT_NONE sh] m b m1 Hu Hl Ha.
  destruct (rw_place _ _ _ 0 _ _ Hl eq_refl) as [Hh Ho].
  pose proof (free_place _ _ _ 1 _ Hl eq_refl) as Hf. places.
  replace (sh =? 0) with false in Ho by lia. cbn [negb] in Ho.
  destruct (mremap_grow (kern m1) b R (R + R) 0 RW true) as (s & E & Hv & _); [pages..|done| |].
  { by replace (R + R - R) with R by lia. }
  rewrite (exec_remap_ok _ _ _ _ _ b s _ _ _ E) by lia. rewrite wrap_u_small by lia.
  apply exec_verify_touch; try lia.
  - eapply holds_remapped; [exact Hv|lia|exact Hh].
  - right. split; [done|]. cbn. rewrite Hv. unfold remapped.
    rewrite in_range_in by lia. replace (b + R - b <? R) with false by lia. by eexists.
Qed.

Lemma scenario04_passes m : enough R m -> exists m', exec (scenario04 R sh) m = (Returned None, m').
Proof.
  intros He. unfold scenario04. cbv zeta.
  setup [used R RW sh; used R PROT_NONE sh] m b m1 Hu Hl Ha.
  destruct (rw_place _ _ _ 0 _ _ Hl eq_refl) as [Hh Ho].
  pose proof (used_place _ _ _ 1 _ _ _ Hl eq_refl) as Hu1. places.
  destruct (mremap_blocked (kern m1) b R (R + R) 0 RW (negb (sh =? 0)) (b + R)) as (s & E & _);
    [pages..|done|pages|apply Hu1; lia|].
  apply (exec_remap_fails _ _ _ _ _ _ _ _ E). by vm_compute.
Qed.

(** The room to move is there, and the place behind is used: the range moves. *)
Lemma maymove_moves m1 b :
  9 * R - 2 * R <= avail (kern m1) -> user_range b (R + R) ->
  one_mapping (vm (kern m1)) b R RW (negb (sh =? 0)) -> vm (kern m1) (b + R) <> None ->
  exists r s, kstep (SYS_mremap b R (R + R) MREMAP_MAYMOVE 0) (kern m1) = (r, s) /\
    user_range r (R + R) /\ r <> b /\ free_range (vm (kern m1)) r (R + R) /\
    (forall x, vm s x = remapped (vm (kern m1)) b R (R + R) r RW (negb (sh =? 0)) x).
Proof.
  intros Ha Hu Ho Hb.
  destruct (mremap_maymove (kern m1) b R (R + R) 0 RW (negb (sh =? 0)))
    as (r & s & E & Hur & Hf & Hv & _); [pages..|done|].
  exists r, s. split; [done|]. split; [done|].
  assert (free_range (vm (kern m1)) r (R + R)) as Hr.
  { destruct Hf as [[_ Hf]|Hf]; [|done]. destruct Hb. apply Hf. page_facts. lia. }
  split; [|done]. intros ->. apply Hb, Hr. page_facts. lia.
Qed.

Lemma scenario05_passes m :
  sh = 0 -> enough R m -> exists m', exec (scenario05 R sh) m = (Returned None, m').
Proof.
  intros Hsh He. unfold scenario05. cbv zeta.
  setup [used R RW sh; used R PROT_NONE sh] m b m1 Hu Hl Ha.
  destruct (rw_place _ _ _ 0 _ _ Hl eq_refl) as [Hh Ho].
  pose proof (used_place _ _ _ 1 _ _ _ Hl eq_refl (b + R)) as Hu1. places.
  destruct (maymove_moves m1 b) as (r & s & E & Hur & _ & _ & Hv); [lia|pages|done|apply Hu1; lia|].
  page_facts. rewrite (exec_remap_ok _ _ _ _ _ r s _ _ _ E) by lia.
  subst sh. apply exec_verify_access; try lia.
  - eapply holds_remapped; [exact Hv|lia|exact Hh].
  - eapply rw_remapped; [exact Hv|lia|exact Hh].
Qed.

Lemma scenario05s_stops m :
  sh <> 0 -> enough R m -> exists m', exec (scenario05s R sh) m = (Signalled SIGBUS handler, m').
Proof.
  intros Hsh He. unfold scenario05s. cbv zeta.
  setup [used R RW sh; used R PROT_NONE sh] m b m1 Hu Hl Ha.
  destruct (rw_place _ _ _ 0 _ _ Hl eq_refl) as [Hh Ho].
  pose proof (used_place _ _ _ 1 _ _ _ Hl eq_refl (b + R)) as Hu1. places.
  destruct (maymove_moves m1 b) as (r & s & E & Hur & _ & _ & Hv); [lia|pages|done|apply Hu1; lia|].
  page_facts. rewrite (exec_remap_ok _ _ _ _ _ r s _ _ _ E) by lia. rewrite wrap_u_small by lia.
  apply exec_verify_touch; try lia.
  - eapply holds_remapped; [exact Hv|lia|exact Hh].
  - right. split; [done|]. cbn. rewrite Hv. unfold remapped.
    rewrite in_range_in by lia. replace (r + R - r <? R) with false by lia.
    replace (sh =? 0) with false by lia. by eexists.
Qed.

Lemma scenario15_stops m :
  enough R m -> exists m', exec (scenario15 R sh) m = (Signalled SIGSEGV handler, m').
Proof.
  intros He. unfold scenario15. cbv zeta.
  setup [used R RW sh; used R PROT_NONE sh] m b m1 Hu Hl Ha.
  destruct (rw_place _ _ _ 0 _ _ Hl eq_refl) as [Hh Ho].
  pose proof (used_place _ _ _ 1 _ _ _ Hl eq_refl (b + R)) as Hu1. places.
  destruct (maymove_moves m1 b) as (r & s & E & Hur & Hne & Hfr & Hv);
    [lia|pages|done|apply Hu1; lia|].
  page_facts. rewrite (exec_remap_ok _ _ _ _ _ r s _ _ _ E) by lia.
  apply exec_verify_touch; try lia.
  - eapply holds_remapped; [exact Hv|lia|exact Hh].
  - left. split; [done|]. cbn. rewrite Hv. unfold remapped.
    destruct (in_range r (R + R) b) eqn:Hr; [|by rewrite in_range_in by lia].
    apply in_range_spec in Hr. destruct (Ho b) as (c & Hc & _); [lia|].
    by rewrite Hfr in Hc by lia.
Qed.

(** Moves to a given place: the bytes come along, the old place is unmapped, the rest is kept. *)
Lemma fixed_moves m1 a na val :
  user_range a R -> user_range na R -> a + R <= na \/ na + R <= a ->
  one_mapping (vm (kern m1)) a R RW (negb (sh =? 0)) -> holds_byte m1 a R val ->
  exists s, kstep (SYS_mremap a R R (MREMAP_MAYMOVE .| MREMAP_FIXED) na) (kern m1) = (na, s) /\
    holds_byte (Mach 0 s) na R val /\ vm s a = None /\
    (forall x, ~ (a <= x < a + R) -> ~ (na <= x < na + R) -> vm s x = vm (kern m1) x).
Proof.
  intros Hu Hu' Hd Ho Hh.
  destruct (mremap_to (kern m1) a R na RW (negb (sh =? 0)) Hu Hu' Hd Ho) as (s & E & Hv & _).
  exists s. split; [done|]. page_facts. split; [|split].
  - eapply holds_remapped; [exact Hv|lia|exact Hh].
  - rewrite Hv. unfold remapped. by rewrite in_range_out, in_range_in by lia.
  - intros x Hx1 Hx2. rewrite Hv. unfold remapped. by rewrite !in_range_out by lia.
Qed.

Lemma scenario06_passes m : enough R m -> exists m', exec (scenario06 R sh) m = (Returned None, m').
Proof.
  intros He. unfold scenario06. cbv zeta.
  setup [used R RW sh; unused R; used R PROT_NONE sh] m b m1 Hu Hl Ha.
  destruct (rw_place _ _ _ 0 _ _ Hl eq_refl) as [Hh Ho]. places.
  destruct (fixed_moves m1 b (b + R) (chr "0")) as (s & E & Hn & _); [pages..|done|exact Hh|].
  rewrite (exec_remap_ok _ _ _ _ _ (b + R) s _ _ _ E) by lia.
  apply exec_verify_access; eauto; lia.
Qed.

Lemma scenario07_passes m : enough R m -> exists m', exec (scenario07 R sh) m = (Returned None, m').
Proof.
  intros He. unfold scenario07. cbv zeta.
  setup [used R RW sh; used R PROT_NONE sh; used (R * 2) RW sh; used R PROT_NONE sh] m b m1 Hu Hl Ha.
  destruct (rw_place _ _ _ 0 _ _ Hl eq_refl) as [Hh Ho].
  destruct (rw_place _ _ _ 2 _ _ Hl eq_refl) as [Hh2 _]. places.
  destruct (fixed_moves m1 b (b + (R + R)) (chr "0")) as (s & E & Hn & _ & Hk);
    [pages..|done|exact Hh|].
  replace (b + R + R) with (b + (R + R)) by lia.
  rewrite (exec_remap_ok _ _ _ _ _ (b + (R + R)) s _ _ _ E) by lia.
  match goal with |- exists m', exec (mbind (fun msg => tp_assert _ _ ?k) _) _ = _ =>
    destruct (exec_verify (b + (R + R)) R (chr "0") k (Mach 0 s)) as (m2 & -> & Hv2 & _) end;
    [lia|lia|lia|done|].
  rewrite ?wrap_u_small by lia.
  match goal with |- exists m', exec (mbind (fun msg => tp_assert _ _ ?k) _) _ = _ =>
    destruct (exec_verify (b + (R + R) + R) (R * 2 - R) (chr "2") k m2) as (m3 & -> & Hv3 & _) end;
    [lia|lia|lia| |].
  - intros x Hx. rewrite Hv2. cbn. rewrite Hk by lia. apply Hh2. lia.
  - apply exec_access; try lia. intros x Hx. rewrite Hv3, Hv2. by apply (rw_holds _ _ _ _ Hn).
Qed.

Lemma scenario12_passes m : enough R m -> exists m', exec (scenario12 R sh) m = (Returned None, m').
Proof.
  intros He. unfold scenario12. cbv zeta.
  setup [used R PROT_NONE sh; unused R; used R RW sh; used R PROT_NONE sh] m b m1 Hu Hl Ha.
  destruct (rw_place _ _ _ 2 _ _ Hl eq_refl) as [Hh Ho]. places.
  replace (b + R + R) with (b + (R + R)) by lia.
  destruct (fixed_moves m1 (b + (R + R)) (b + R) (chr "2")) as (s & E & Hn & _);
    [pages..|done|exact Hh|].
  rewrite (exec_remap_ok _ _ _ _ _ (b + R) s _ _ _ E) by lia.
  apply exec_verify_access; eauto; lia.
Qed.

Lemma scenario13_passes m : enough R m -> exists m', exec (scenario13 R sh) m = (Returned None, m').
Proof.
  intros He. unfold scenario13. cbv zeta.
  setup [used R PROT_NONE sh; used R RW sh; unused R; used R PROT_NONE sh] m b m1 Hu Hl Ha.
  destruct (rw_place _ _ _ 1 _ _ Hl eq_refl) as [Hh Ho]. places.
  destruct (fixed_moves m1 (b + R) (b + R + R) (chr "1")) as (s & E & Hn & _);
    [pages..|done|exact Hh|].
  rewrite (exec_remap_ok _ _ _ _ _ (b + R + R) s _ _ _ E) by lia.
  apply exec_verify_access; eauto; lia.
Qed.

Lemma scenario16_stops m :
  enough R m -> exists m', exec (scenario16 R sh) m = (Signalled SIGSEGV handler, m').
Proof.
  intros He. unfold scenario16. cbv zeta.
  setup [used R RW sh; unused R; used R PROT_NONE sh] m b m1 Hu Hl Ha.
  destruct (rw_place _ _ _ 0 _ _ Hl eq_refl) as [Hh Ho]. places.
  destruct (fixed_moves m1 b (b + R) (chr "0")) as (s & E & Hn & Hf & _); [pages..|done|exact Hh|].
  rewrite (exec_remap_ok _ _ _ _ _ (b + R) s _ _ _ E) by lia.
  apply exec_verify_touch; eauto; lia.
Qed.

(** The four overlaps: [mremap] refuses with EINVAL whatever lies there. *)
Ltac refuses a o n na pt :=
  let E := fresh "E" in
  match goal with |- exists m', exec _ ?m = _ =>
    destruct (mremap_overlap (kern m) a o n na pt) as (? & E & _); [pages..|] end;
  apply (exec_remap_fails _ _ _ _ _ _ _ _ E); by vm_compute.

Lemma scenario08_passes m : enough R m -> exists m', exec (scenario08 R sh) m = (Returned None, m').
Proof.
  intros He. unfold scenario08. cbv zeta.
  setup [used R PROT_NONE sh; used R PROT_READ sh; used R RW sh; used R PROT_READ sh;
         used R PROT_NONE sh] m b m1 Hu Hl Ha.
  rewrite (wrap_u_small 64 (R + R)), (wrap_u_small 64) by lia.
  refuses (b + R + R) R (R + R + R) (b + R) (b + R + R).
Qed.

Lemma scenario09_passes m : enough R m -> exists m', exec (scenario09 R sh) m = (Returned None, m').
Proof.
  intros He. unfold scenario09. cbv zeta.
  setup [used R PROT_NONE sh; used (R * 2) RW sh; used R PROT_NONE sh] m b m1 Hu Hl Ha.
  refuses (b + R) (R * 2) 4096 (b + R + 4096) (b + R + 4096).
Qed.

Lemma scenario10_passes m : enough R m -> exists m', exec (scenario10 R sh) m = (Returned None, m').
Proof.
  intros He. unfold scenario10. cbv zeta.
  setup [used R PROT_NONE sh; unused R; used (R * 2) RW sh; used R PROT_NONE sh] m b m1 Hu Hl Ha.
  refuses (b + R + R) (R * 2) (R * 2) (b + R) (b + R + R).
Qed.

Lemma scenario11_passes m : enough R m -> exists m', exec (scenario11 R sh) m = (Returned None, m').
Proof.
  intros He. unfold scenario11. cbv zeta.
  setup [used R PROT_NONE sh; used (R * 2) RW sh; unused R; used R PROT_NONE sh] m b m1 Hu Hl Ha.
  refuses (b + R) (R * 2) (R * 2) (b + R + 4096) (b + R + 4096).
Qed.

End scenarios2.

(** ** The suite *)

Definition pass_outcome (n : Z) : outcome verdict :=
  if ends_by_signal n then Exited 0 else Returned None.

Create HintDb suite discriminated.

Section suite.
Context {K : Kernel} {V : VmKernel K}.
Implicit Type m : mach.

Lemma range_sizes :
  MREMAP_RANGE_SIZE = 16384 /\ MREMAP_RANGE_LARGE_SIZE = 2097152.
Proof. by vm_compute. Qed.

Lemma small_range :
  (PAGE_SIZE | MREMAP_RANGE_SIZE) /\ 2 * PAGE_SIZE <= MREMAP_RANGE_SIZE <= 2 ^ 32.
Proof. split; [by exists 4|by vm_compute]. Qed.

Lemma large_range :
  (PAGE_SIZE | MREMAP_RANGE_LARGE_SIZE) /\ 2 * PAGE_SIZE <= MREMAP_RANGE_LARGE_SIZE <= 2 ^ 32.
Proof. split; [by exists 512|by vm_compute]. Qed.

Lemma enough_ranges m :
  9 * MREMAP_RANGE_LARGE_SIZE <= avail (kern m) ->
  enough MREMAP_RANGE_SIZE m /\ enough MREMAP_RANGE_LARGE_SIZE m.
Proof. unfold enough. destruct range_sizes as [-> ->]. lia. Qed.

#[local] Hint Constants Opaque : suite.
#[local] Hint Resolve scenario00_passes scenario01_passes scenario02_passes scenario03_passes
  scenario03s_stops scenario04_passes scenario05_passes scenario05s_stops scenario06_passes
  scenario07_passes scenario08_passes scenario09_passes scenario10_passes scenario11_passes
  scenario12_passes scenario13_passes scenario14_stops scenario15_stops scenario16_stops : suite.
#[local] Hint Extern 1 (_ <= _) => assumption : suite.
#[local] Hint Extern 1 (_ <= _ <= _) => assumption : suite.
#[local] Hint Extern 1 (_ | _) => assumption : suite.
#[local] Hint Extern 1 (enough _ _) => assumption : suite.
#[local] Hint Extern 1 (0 = 0) => reflexivity : suite.
#[local] Hint Extern 1 (1 <> 0) => discriminate : suite.

(** How a test case runs: it returns NULL, or a signal with the suite's handler stops it. *)
Definition runs_to (n : Z) (p : prog verdict) m : Prop :=
  exists m', if ends_by_signal n then exists sig, exec p m = (Signalled sig handler, m')
             else exec p m = (Returned None, m').

Lemma returns_to n (p : prog verdict) m :
  ends_by_signal n = false -> (exists m', exec p m = (Returned None, m')) -> runs_to n p m.
Proof. intros Hn [m' E]. exists m'. by rewrite Hn. Qed.

Lemma stops_to n (p : prog verdict) sig m :
  ends_by_signal n = true -> (exists m', exec p m = (Signalled sig handler, m')) -> runs_to n p m.
Proof. intros Hn [m' E]. exists m'. rewrite Hn. by exists sig. Qed.

Lemma suite_runs m :
  9 * MREMAP_RANGE_LARGE_SIZE <= avail (kern m) ->
  Forall (fun '(n, test) => runs_to n test m) mremap_mmap_anon_tests.
Proof.
  intros Hm. destruct (enough_ranges m Hm) as [Hs Hl].
  destruct small_range as [Hsd Hsr], large_range as [Hld Hlr].
  unfold mremap_mmap_anon_tests. repeat apply List.Forall_cons; [..|by apply List.Forall_nil].
  all: match goal with |- runs_to _ ?p _ => unfold p end.
  all: first [apply returns_to; [by vm_compute|] | eapply stops_to; [by vm_compute|]];
    typeclasses eauto with suite nocore.
Qed.

(** C2: on every kernel with the documented virtual memory behaviour and room for the mappings, each
    of the 68 test cases passes: it returns NULL, or, where the test provokes a signal, its handler
    ends the process with status 0. *)
Theorem mremap_suite_passes m :
  9 * MREMAP_RANGE_LARGE_SIZE <= avail (kern m) ->
  Forall (fun '(n, test) => exists m', run_with_signals test m = (pass_outcome n, m'))
    mremap_mmap_anon_tests.
Proof.
  intros Hm. eapply Forall_impl; [exact (suite_runs m Hm)|]. intros [n test] [m' Hr].
  unfold pass_outcome, run_with_signals. destruct (ends_by_signal n).
  - destruct Hr as [sig ->]. by eexists.
  - rewrite Hr. by eexists.
Qed.

End suite.

(** The suite run on the reference kernel from its initial state. *)
Lemma mremap_suite_passes_witness :
  let m := @Mach RefKernel.kernel 0 RefKernel.init in
  9 * MREMAP_RANGE_LARGE_SIZE <= avail (VmKernel := RefKernel.vm_kernel) (kern m) /\
  Forall (fun '(n, test) => exists m', run_with_signals test m = (pass_outcome n, m'))
    mremap_mmap_anon_tests.
Proof.
  intros m.
  assert (9 * MREMAP_RANGE_LARGE_SIZE <= avail (VmKernel := RefKernel.vm_kernel) (kern m)) as Hm
    by (by vm_compute).
  split; [exact Hm|exact (mremap_suite_passes (V := RefKernel.vm_kernel) m Hm)].
Defined.

End MremapTests.
