(* ===== verification/MremapOracle.v ===== *)
(** * What a verdict of the mremap_mmap_anon suite says about an arbitrary kernel

    No assumption is made about the kernel here: the programs run against any replies.  The data
    check is characterised exactly by what it reads, and a test case that returns NULL is shown to
    have seen [mremap] reply as the test's scenario demands and every byte it checks hold the value
    it was filled with. *)
From S2P Require Import Prelude CMachine Align VmSpec RefKernel Mremap MremapTests.
Import Align Mremap.
#[local] Open Scope Z_scope.

Module MremapOracle.

(** [n] loads from [a] on that all yield [v]. *)
Definition loads (a n v : Z) : list event :=
  (fun i => ev (MEM_load (u64 (a + i))) (Ok v)) <$> seqZ 0 n.

(** The value and the [errno] a pointer-returning wrapper gives for a kernel reply, [errno] being 0
    before. *)
Definition ret_of (r : Z) : Z := if is_error r then u64 (-1) else u64 r.
Definition errno_of (r : Z) : Z := if is_error r then - r else 0.

(** The reply scenario [k] demands of [mremap] ([na] is the fixed address asked for). *)
Definition reply_ok (k na r : Z) : Prop :=
  if k =? 4 then r = - ENOMEM
  else if (8 <=? k) && (k <=? 11) then r = - EINVAL
  else if (k =? 6) || (k =? 7) || (k =? 12) || (k =? 13) then is_error r = false /\ u64 r = na
  else is_error r = false /\ u64 r <> MAP_FAILED.

(** The old size, the new size and the flags scenario [k] calls [mremap] with. *)
Definition asked (k RANGE : Z) : Z * Z * Z :=
  let both := MREMAP_MAYMOVE .| MREMAP_FIXED in
  if k =? 0 then (RANGE, RANGE, 0)
  else if k =? 1 then (0xffffffffffffe000, 0xffffffffffffe000, 0)
  else if k =? 2 then (RANGE * 2, u64 (RANGE * 2 - PAGE_SIZE), 0)
  else if (k =? 3) || (k =? 4) then (RANGE, u64 (RANGE + RANGE), 0)
  else if k =? 5 then (RANGE, u64 (RANGE + RANGE), MREMAP_MAYMOVE)
  else if k =? 8 then (RANGE, u64 (u64 (RANGE + RANGE) + RANGE), both)
  else if k =? 9 then (RANGE * 2, PAGE_SIZE, both)
  else if (k =? 10) || (k =? 11) then (RANGE * 2, RANGE * 2, both)
  else (RANGE, RANGE, both).

(** A passing access check writes and reads the first and the last byte, and fills the range. *)
Definition accesses (a len : Z) : list event :=
  let last := u64 (a + (len - 1)) in
  [ev (MEM_store a (chr "A")) (Ok tt); ev (MEM_load a) (Ok (chr "A"));
   ev (MEM_store last (chr "Z")) (Ok tt); ev (MEM_load last) (Ok (chr "Z")); ev (MEM_set a (chr "0") len) (Ok tt)].

(** What scenario [k] does behind the call, which gave the address [a] ([na] is the one asked for): its
    data check with the value it expects, for x07 also that of the part of the old range behind the new
    place, and its access check; nothing where the call is to fail. *)
Definition looked (k RANGE na a : Z) : list event :=
  if (k =? 4) || ((8 <=? k) && (k <=? 11)) then []
  else if k =? 2 then loads a (RANGE * 2 - PAGE_SIZE) (chr "0") ++ accesses a (RANGE * 2 - PAGE_SIZE)
  else if (k =? 3) || (k =? 5) then loads a RANGE (chr "0") ++ accesses a (RANGE + RANGE)
  else if k =? 7 then
    loads a RANGE (chr "0") ++ loads (u64 (na + RANGE)) RANGE (chr "2") ++ accesses a RANGE
  else if k =? 12 then loads a RANGE (chr "2") ++ accesses a RANGE
  else if k =? 13 then loads a RANGE (chr "1") ++ accesses a RANGE
  else loads a RANGE (chr "0") ++ accesses a RANGE.

(** ** Loops of loads *)

Lemma loads_S a n v :
  0 <= a -> loads a (Z.of_nat (S n)) v
  = ev (MEM_load (u64 a)) (Ok v) :: loads (u64 (a + 1)) (Z.of_nat n) v.
Proof.
  intros Ha. unfold loads. rewrite seqZ_cons by lia. csimpl. f_equal.
  - by rewrite Z.add_0_r.
  - replace (Z.pred (Z.of_nat (S n))) with (Z.of_nat n) by lia.
    change (Z.succ 0) with (1 + 0). rewrite <- fmap_add_seqZ, <- list_fmap_compose. apply list_fmap_ext. intros i x _. cbn.
    replace (u64 (u64 (a + 1) + x)) with (u64 (a + (1 + x))); [done|].
    rewrite wrap_u_add_l. f_equal. lia.
Qed.

Lemma run_load a e tr o e' (k : Z -> prog verdict) :
  run (load a ≫= k) e tr o e' <->
  (exists v tr', tr = ev (MEM_load a) (Ok v) :: tr' /\ run (k v) e tr' o e') \/
  (exists sig d, tr = [ev (MEM_load a) (Fault sig d)] /\ o = Signalled sig d /\ e' = e).
Proof.
  cbn. split.
  - intros (r & tr' & -> & H). destruct r as [v|sig d]; cbn in H; [left; eauto|].
    right. destruct H as (-> & -> & ->). eauto.
  - intros [(v & tr' & -> & H)|(sig & d & -> & -> & ->)]; [eauto|].
    exists (Fault sig d), []. cbn. done.
Qed.

Lemma data_check_loop_run n a exp e tr o e' :
  0 <= a < 2 ^ 64 ->
  run (data_check_loop n a exp) e tr o e' <->
  e' = e /\
  (o = Returned None /\ tr = loads a (Z.of_nat n) exp \/
   (exists k b, (k < n)%nat /\ b <> exp /\ o = Returned (Some "data check error.") /\
      tr = loads a (Z.of_nat k) exp ++ [ev (MEM_load (u64 (a + Z.of_nat k))) (Ok b)]) \/
   (exists k sig d, (k < n)%nat /\ o = Signalled sig d /\
      tr = loads a (Z.of_nat k) exp ++ [ev (MEM_load (u64 (a + Z.of_nat k))) (Fault sig d)])).
Proof.
  revert a tr. induction n as [|n IH]; intros a tr Ha.
  { cbn. split; [naive_solver|]. intros (-> & [?|[(k & _ & ? & _)|(k & _ & _ & ? & _)]]); [naive_solver|lia|lia]. }
  assert (u64 a = a) as Eu by (apply wrap_u_small; lia).
  assert (0 <= u64 (a + 1) < 2 ^ 64) by (by apply wrap_u_range).
  assert (forall k, u64 (u64 (a + 1) + Z.of_nat k) = u64 (a + Z.of_nat (S k))) as Ek.
  { intros k. rewrite wrap_u_add_l. f_equal. lia. }
  cbn [data_check_loop]. rewrite run_load, loads_S, Eu by lia. split.
  - intros [(v & tr' & -> & Hr)|(sig & d & -> & -> & ->)].
    + destruct (v =? exp) eqn:Ev; b2p; cbn [negb] in Hr.
      * subst v. apply IH in Hr as (-> & Hr); [|done]. split; [done|].
        destruct Hr as [[-> ->]|[(k & b & Hk & Hb & -> & ->)|(k & sig & d & Hk & -> & ->)]].
        -- by left.
        -- right; left. exists (S k), b. rewrite loads_S, Eu, <- Ek by lia. naive_solver lia.
        -- right; right. exists (S k), sig, d. rewrite loads_S, Eu, <- Ek by lia. naive_solver lia.
      * destruct Hr as (-> & -> & ->). split; [done|]. right; left. exists O, v.
        rewrite Z.add_0_r, Eu. naive_solver lia.
    + split; [done|]. right; right. exists O, sig, d. rewrite Z.add_0_r, Eu. naive_solver lia.
  - intros (-> & [[-> ->]|[([|k] & b & Hk & Hb & -> & ->)|([|k] & sig & d & Hk & -> & ->)]]).
    + left. exists exp. eexists; split; [done|]. rewrite Z.eqb_refl. apply IH; [done|]. eauto.
    + left. exists b, []. rewrite Z.add_0_r, Eu. split; [done|].
      replace (b =? exp) with false by lia. done.
    + left. exists exp. rewrite loads_S, Eu, <- Ek by lia. eexists; split; [done|].
      rewrite Z.eqb_refl. apply IH; [done|]. split; [done|]. right; left.
      exists k, b. naive_solver lia.
    + right. exists sig, d. by rewrite Z.add_0_r, Eu.
    + left. exists exp. rewrite loads_S, Eu, <- Ek by lia. eexists; split; [done|].
      rewrite Z.eqb_refl. apply IH; [done|]. split; [done|]. right; right.
      exists k, sig, d. naive_solver lia.
Qed.

(** ** The phases of a test, read from a passing run *)

(** The layout never changes a size. *)
Lemma total_size_loop_sizes ps t r ps' : total_size_loop ps t = (r, ps') -> size <$> ps' = size <$> ps.
Proof.
  revert t r ps'. induction ps as [|p ps IH]; intros t r ps' H; cbn in H; [naive_solver|].
  destruct (_ <? t); [naive_solver|]. destruct (total_size_loop ps _) as [r1 ps1] eqn:E.
  injection H as <- <-. csimpl. f_equal. by eapply IH.
Qed.

Lemma format_loop_sizes ps i a e tr n ps' e' :
  run (format_loop i a ps) e tr (Returned (n, ps')) e' -> size <$> ps' = size <$> ps.
Proof.
  revert i a e tr n ps' e'. induction ps as [|p ps IH]; intros i a e tr n ps' e' H;
    cbn [format_loop] in H.
  { cbn in H. naive_solver. }
  cbv zeta in H. cbn [nopage size shared prot set_addr] in H.
  assert (forall b e tr, run ('(r, ps) ← format_loop (i + 1) (u64 (b + size p)) ps;
     Ret (r, set_addr a p :: ps)) e tr (Returned (n, ps')) e' -> size <$> ps' = size <$> p :: ps) as Hn.
  { intros b e2 tr2 H2. apply run_bind_returned in H2 as ([n2 ps2] & ? & ? & ? & H3 & H4 & _).
    cbn in H4. destruct H4 as (_ & [= -> ->] & _). csimpl. by rewrite (IH _ _ _ _ _ _ _ H3). }
  destruct (negb (nopage p =? 0)).
  - apply run_bind_returned in H as (r & ? & ? & ? & _ & H & _).
    destruct (negb (0 =? r)); [by destruct H as (_ & [= -> ->] & _)|by eapply Hn].
  - apply run_bind_returned in H as (r & ? & ? & ? & _ & H & _).
    destruct (r =? MAP_FAILED); [by destruct H as (_ & [= -> ->] & _)|].
    destruct (negb (prot p .& PROT_WRITE =? 0)); [|by eapply Hn].
    apply run_bind_returned in H as (? & ? & ? & ? & _ & H & _). by eapply Hn.
Qed.

Lemma mremap_mmap_anon_sizes ps e tr n ps' e' :
  run (mremap_mmap_anon ps) e tr (Returned (n, ps')) e' -> size <$> ps' = size <$> ps.
Proof.
  unfold mremap_mmap_anon. destruct (total_size_loop ps 0) as [[t|] ps1] eqn:E.
  all: apply total_size_loop_sizes in E; intros H.
  - apply run_bind_returned in H as (a & ? & ? & ? & _ & H & _).
    destruct (a =? MAP_FAILED); [by destruct H as (_ & [= -> ->] & _)|].
    apply format_loop_sizes in H. congruence.
  - by destruct H as (_ & [= -> ->] & _).
Qed.

Lemma size_of_sizes ps ps' k : size <$> ps' = size <$> ps -> size_of ps' k = size_of ps k.
Proof. intros H. unfold size_of. by rewrite <- !list_lookup_fmap, H. Qed.

Lemma run_init_inv ps n (k : list mremap_mmap_anon_param -> prog verdict) e tr e' :
  run ('(maps, params) ← mremap_mmap_anon ps;
       TP_ASSERT maps =? n, Some "mmap error.";; k params) e tr (Returned None) e' ->
  exists params e1 tr1 tr2, tr = tr1 ++ tr2 /\ (forall j, size_of params j = size_of ps j) /\
    run (k params) e1 tr2 (Returned None) e'.
Proof.
  intros H. apply run_bind_returned in H as ([maps params] & e1 & tr1 & tr2 & Hm & H & ->).
  apply run_tp_assert in H as [[_ H]|(_ & _ & [=] & _)]. eexists _, _, _, _. split; [done|].
  split; [|done]. intros j. eapply size_of_sizes, mremap_mmap_anon_sizes, Hm.
Qed.

Lemma run_remap_inv a o n fl na (t : Z -> bool) en (k : Z -> prog verdict) e tr e' :
  run (set_errno 0;; remap ← mremap a o n fl na;
       TP_ASSERT t remap, Some "mremap error.";;
       errno ← get_errno; TP_ASSERT errno =? en, Some "invalid errno.";; k remap)
    e tr (Returned None) e' ->
  exists r tr', tr = ev (SYS_mremap a o n fl na) r :: tr' /\ t (ret_of r) = true /\ errno_of r = en /\
    run (k (ret_of r)) (errno_of r) tr' (Returned None) e'.
Proof.
  cbn. unfold ret_of, errno_of, syscall_ptr, syscall_ret.
  intros (r & tr' & -> & H). exists r, tr'. split; [done|].
  destruct (is_error r); cbn in H;
    apply run_tp_assert in H as [[Ht H]|(_ & _ & [=] & _)]; cbn in H;
    apply run_tp_assert in H as [[He H]|(_ & _ & [=] & _)]; b2p; auto.
  by destruct en.
Qed.

Lemma run_verify_inv a len c (k : prog verdict) e tr e' :
  0 <= a < 2 ^ 64 -> 0 <= len ->
  run (msg ← mremap_mmap_anon_data_check a len c; TP_ASSERT is_NULL msg, msg;; k)
    e tr (Returned None) e' ->
  exists tr2, tr = loads a len c ++ tr2 /\ run k e tr2 (Returned None) e'.
Proof.
  intros Ha Hl H. apply run_bind in H as [(msg & e1 & tr1 & tr2 & H1 & H2 & ->)|H]; [|naive_solver].
  apply run_tp_assert in H2 as [[Hn H2]|(Hn & -> & [= <-] & ->)]; [|done].
  destruct msg; [done|]. apply data_check_loop_run in H1 as (-> & H1); [|done].
  destruct H1 as [[_ ->]|[(k' & b & _ & _ & [=] & _)|(k' & sig & d & _ & [=] & _)]].
  rewrite Z2Nat.id by lia. eauto.
Qed.

Lemma run_access_inv a len (k : prog verdict) e tr e' :
  0 < len ->
  run (msg ← mremap_mmap_anon_access_check a len; TP_ASSERT is_NULL msg, msg;; k)
    e tr (Returned None) e' ->
  exists tr2, tr = accesses a len ++ tr2 /\ run k e tr2 (Returned None) e'.
Proof.
  intros Hl H. apply run_bind in H as [(msg & e1 & tr1 & tr2 & H1 & H2 & ->)|H]; [|naive_solver].
  apply run_tp_assert in H2 as [[Hn H2]|(Hn & -> & [= <-] & ->)]; [|done].
  destruct msg; [done|]. unfold mremap_mmap_anon_access_check in H1.
  destruct (a =? NULL); [by destruct H1 as (_ & [=] & _)|]. replace (len <=? 0) with false in H1 by lia.
  destruct H1 as ([[]|sg d] & t1 & -> & H1); [|by destruct H1 as (_ & [=] & _)]. cbn [bind] in H1.
  apply run_load in H1 as [(v & t2 & -> & H1)|(sg & d & _ & [=] & _)].
  apply run_tp_assert in H1 as [[Hv H1]|(_ & _ & [=] & _)]. b2p. subst v.
  destruct H1 as ([[]|sg d] & t3 & -> & H1); [|by destruct H1 as (_ & [=] & _)]. cbn [bind] in H1.
  apply run_load in H1 as [(v & t4 & -> & H1)|(sg & d & _ & [=] & _)].
  apply run_tp_assert in H1 as [[Hv H1]|(_ & _ & [=] & _)]. b2p. subst v.
  destruct H1 as ([[]|sg d] & t5 & -> & H1); [|by destruct H1 as (_ & [=] & _)]. cbn [bind] in H1.
  destruct H1 as (-> & _ & ->). by exists tr2.
Qed.

(** A program that reaches the touch of a signal test does not return NULL. *)
Lemma run_touch_inv sig t e tr e' :
  ~ run (msg ← mremap_mmap_anon_setup_signal_handler sig; TP_ASSERT is_NULL msg, msg;;
         _ch ← load t; Ret (Some "signal handling error")) e tr (Returned None) e'.
Proof.
  intros H. apply run_bind in H as [(msg & e1 & tr1 & tr2 & _ & H2 & ->)|H]; [|naive_solver].
  apply run_tp_assert in H2 as [[Hn H2]|(Hn & -> & [= <-] & ->)]; [|done].
  apply run_load in H2 as [(v & tr' & -> & H2)|H2]; [|naive_solver]. by destruct H2 as (_ & [=] & _).
Qed.

Lemma ret_of_range r : 0 <= ret_of r < 2 ^ 64.
Proof. unfold ret_of. destruct (is_error r); by apply wrap_u_range. Qed.

Lemma reply_anywhere r : ret_of r <> MAP_FAILED -> is_error r = false /\ u64 r <> MAP_FAILED.
Proof. unfold ret_of. by destruct (is_error r). Qed.

Lemma reply_there r na : ret_of r = na -> errno_of r = 0 -> is_error r = false /\ u64 r = na.
Proof.
  unfold ret_of, errno_of. destruct (is_error r) eqn:E; [|done]. unfold is_error in E. b2p. lia.
Qed.

Lemma reply_refused r en : errno_of r = en -> en <> 0 -> r = - en.
Proof. unfold errno_of. destruct (is_error r); lia. Qed.

(** ** What a passing test has seen *)

(** The run ends with the call of [mremap] that the scenario is about, with a reply that fits it, and
    behind it exactly the loads and stores of its checks, which had the expected values. *)
Definition evidence (k RANGE : Z) (tr : list event) : Prop :=
  exists tr1 a na r, let '(o, nw, fl) := asked k RANGE in
  tr = tr1 ++ ev (SYS_mremap a o nw fl na) r :: looked k RANGE na (ret_of r) /\ reply_ok k na r.

(** C6: the data check reads the bytes in order up to the first one that differs from the expected
    value: it returns NULL exactly when it has read all of them and all had the value, an error
    message exactly after the first different byte, and is cut short only by a fault. *)
Theorem data_check_exact a len exp e tr o e' :
  0 <= a < 2 ^ 64 -> 0 <= len ->
  run (mremap_mmap_anon_data_check a len exp) e tr o e' <->
  e' = e /\
  (o = Returned None /\ tr = loads a len exp \/
   (exists k b, 0 <= k < len /\ b <> exp /\ o = Returned (Some "data check error.") /\
      tr = loads a k exp ++ [ev (MEM_load (u64 (a + k))) (Ok b)]) \/
   (exists k sig d, 0 <= k < len /\ o = Signalled sig d /\
      tr = loads a k exp ++ [ev (MEM_load (u64 (a + k))) (Fault sig d)])).
Proof.
  intros Ha Hl. unfold mremap_mmap_anon_data_check. rewrite data_check_loop_run, Z2Nat.id by lia.
  split; intros (-> & H); (split; [done|]).
  - destruct H as [?|[(k & b & ? & ?)|(k & sig & d & ? & ?)]]; [by left|right; left|right; right].
    + exists (Z.of_nat k), b. auto with lia.
    + exists (Z.of_nat k), sig, d. auto with lia.
  - destruct H as [?|[(k & b & ? & ?)|(k & sig & d & ? & ?)]]; [by left|right; left|right; right].
    + exists (Z.to_nat k), b. rewrite Z2Nat.id by lia. auto with lia.
    + exists (Z.to_nat k), sig, d. rewrite Z2Nat.id by lia. auto with lia.
Qed.

(** A check of two bytes. *)
Lemma data_check_exact_witness :
  run (mremap_mmap_anon_data_check 4096 2 (chr "0")) 0 (loads 4096 2 (chr "0")) (Returned None) 0.
Proof. apply (data_check_exact 4096 2 (chr "0") 0); [lia|lia|]. split; [done|]. by left. Defined.

(** Splits a passing run of a scenario into its phases. *)
Ltac phases H :=
  cbv zeta in H;
  let Hsz := fresh "Hsz" in let tr1 := fresh "tr1" in
  apply run_init_inv in H as (? & ? & tr1 & ? & -> & Hsz & H); cbv beta in H;
  apply run_remap_inv in H as (? & ? & -> & ? & ? & H); b2p; rewrite ?Hsz in *;
  cbn [size_of lookup list_lookup fmap option_fmap option_map default from_option id
       size used unused] in *;
  rewrite ?(wrap_u_small 64) in H by (change PAGE_SIZE with 4096 in *; lia).

(** The loads of a data check and the accesses of an access check that passed; the end. *)
Ltac data_read H :=
  apply run_verify_inv in H as (? & -> & H);
  [|apply ret_of_range || by apply wrap_u_range | change PAGE_SIZE with 4096 in *; lia].
Ltac accessed H :=
  apply run_access_inv in H as (? & -> & H); [|change PAGE_SIZE with 4096 in *; lia].
Ltac shown H tac :=
  destruct H as (-> & _ & _); rewrite ?app_nil_r;
  match goal with |- evidence _ _ (?tr1 ++ ev (SYS_mremap ?a _ _ _ ?na) ?r :: _) => exists tr1, a, na, r end;
  cbn [asked looked Z.eqb Z.leb Z.compare Pos.compare Pos.compare_cont Pos.eqb andb orb]; split; [done|tac].

Section scenarios.
Context (R sh : Z) (HR : 2 * PAGE_SIZE <= R <= 2 ^ 32).

Lemma scenario00_evidence e tr e' : run (scenario00 R sh) e tr (Returned None) e' -> evidence 0 R tr.
Proof. intros H. unfold scenario00 in H. phases H. data_read H. accessed H. shown H ltac:(by apply reply_anywhere). Qed.

Lemma scenario01_evidence e tr e' : run (scenario01 R sh) e tr (Returned None) e' -> evidence 1 R tr.
Proof. intros H. unfold scenario01 in H. phases H. data_read H. accessed H. shown H ltac:(by apply reply_anywhere). Qed.

Lemma scenario02_evidence e tr e' : run (scenario02 R sh) e tr (Returned None) e' -> evidence 2 R tr.
Proof. intros H. unfold scenario02 in H. phases H. data_read H. accessed H. shown H ltac:(by apply reply_anywhere). Qed.

Lemma scenario03_evidence e tr e' : run (scenario03 R sh) e tr (Returned None) e' -> evidence 3 R tr.
Proof. intros H. unfold scenario03 in H. phases H. data_read H. accessed H. shown H ltac:(by apply reply_anywhere). Qed.

Lemma scenario04_evidence e tr e' : run (scenario04 R sh) e tr (Returned None) e' -> evidence 4 R tr.
Proof. intros H. unfold scenario04 in H. phases H. shown H ltac:(by eapply reply_refused). Qed.

Lemma scenario05_evidence e tr e' : run (scenario05 R sh) e tr (Returned None) e' -> evidence 5 R tr.
Proof. intros H. unfold scenario05 in H. phases H. data_read H. accessed H. shown H ltac:(by apply reply_anywhere). Qed.

Lemma scenario06_evidence e tr e' : run (scenario06 R sh) e tr (Returned None) e' -> evidence 6 R tr.
Proof. intros H. unfold scenario06 in H. phases H. data_read H. accessed H. shown H ltac:(by apply reply_there). Qed.

Lemma scenario07_evidence e tr e' : run (scenario07 R sh) e tr (Returned None) e' -> evidence 7 R tr.
Proof. intros H. unfold scenario07 in H. phases H. data_read H.
  replace (u64 (R * 2 - R)) with R in H by (rewrite wrap_u_small; change PAGE_SIZE with 4096 in *; lia).
  data_read H. accessed H. shown H ltac:(by apply reply_there). Qed.

Lemma scenario08_evidence e tr e' : run (scenario08 R sh) e tr (Returned None) e' -> evidence 8 R tr.
Proof. intros H. unfold scenario08 in H. phases H. shown H ltac:(by eapply reply_refused). Qed.

Lemma scenario09_evidence e tr e' : run (scenario09 R sh) e tr (Returned None) e' -> evidence 9 R tr.
Proof. intros H. unfold scenario09 in H. phases H. shown H ltac:(by eapply reply_refused). Qed.

Lemma scenario10_evidence e tr e' : run (scenario10 R sh) e tr (Returned None) e' -> evidence 10 R tr.
Proof. intros H. unfold scenario10 in H. phases H. shown H ltac:(by eapply reply_refused). Qed.

Lemma scenario11_evidence e tr e' : run (scenario11 R sh) e tr (Returned None) e' -> evidence 11 R tr.
Proof. intros H. unfold scenario11 in H. phases H. shown H ltac:(by eapply reply_refused). Qed.

Lemma scenario12_evidence e tr e' : run (scenario12 R sh) e tr (Returned None) e' -> evidence 12 R tr.
Proof. intros H. unfold scenario12 in H. phases H. data_read H. accessed H. shown H ltac:(by apply reply_there). Qed.

Lemma scenario13_evidence e tr e' : run (scenario13 R sh) e tr (Returned None) e' -> evidence 13 R tr.
Proof. intros H. unfold scenario13 in H. phases H. data_read H. accessed H. shown H ltac:(by apply reply_there). Qed.

(** The signal tests do not return NULL. *)
Ltac never_null H :=
  cbv zeta in H;
  apply run_init_inv in H as (? & ? & ? & ? & -> & ? & H); cbv beta in H;
  apply run_remap_inv in H as (? & ? & -> & ? & ? & H);
  apply run_bind_returned in H as (? & ? & ? & ? & _ & H & _);
  apply run_tp_assert in H as [[_ H]|(Hn & _ & [= <-] & _)]; [eapply run_touch_inv; exact H|done].

Lemma scenario03s_not_null e tr e' : ~ run (scenario03s R sh) e tr (Returned None) e'.
Proof. intros H. unfold scenario03s in H. never_null H. Qed.
Lemma scenario05s_not_null e tr e' : ~ run (scenario05s R sh) e tr (Returned None) e'.
Proof. intros H. unfold scenario05s in H. never_null H. Qed.
Lemma scenario14_not_null e tr e' : ~ run (scenario14 R sh) e tr (Returned None) e'.
Proof. intros H. unfold scenario14 in H. never_null H. Qed.
Lemma scenario15_not_null e tr e' : ~ run (scenario15 R sh) e tr (Returned None) e'.
Proof. intros H. unfold scenario15 in H. never_null H. Qed.
Lemma scenario16_not_null e tr e' : ~ run (scenario16 R sh) e tr (Returned None) e'.
Proof. intros H. unfold scenario16 in H. never_null H. Qed.

End scenarios.

(** ** The suite *)

(** The range size of the family of test [n]. *)
Definition range_of (n : Z) : Z := if n <? 200 then MREMAP_RANGE_SIZE else MREMAP_RANGE_LARGE_SIZE.

Create HintDb oracle discriminated.
#[local] Hint Constants Opaque : oracle.
#[local] Hint Resolve scenario00_evidence scenario01_evidence scenario02_evidence
  scenario03_evidence scenario04_evidence scenario05_evidence scenario06_evidence
  scenario07_evidence scenario08_evidence scenario09_evidence scenario10_evidence
  scenario11_evidence scenario12_evidence scenario13_evidence : oracle.
#[local] Hint Extern 1 (_ <= _ <= _) => assumption : oracle.
#[local] Hint Extern 1 (run _ _ _ _ _) => eassumption : oracle.

(** C3: whatever the kernel replies, a test case that returns NULL is not one of the signal tests,
    has called [mremap] with the sizes and flags of its scenario and has seen it reply as the scenario
    demands (success, the very address asked for, ENOMEM or EINVAL).  Behind the call its trace is
    exactly that of its checks: every byte it has to check was read, in order, and had the value its
    range was filled with (in x07 for the part behind the new place, too), and the bytes written by the
    access check were read back. *)
Theorem mremap_suite_oracle :
  Forall (fun '(n, test) => forall e tr e', run test e tr (Returned None) e' ->
            ends_by_signal n = false /\ evidence (n mod 100) (range_of n) tr)
    mremap_mmap_anon_tests.
Proof.
  assert (2 * PAGE_SIZE <= MREMAP_RANGE_SIZE <= 2 ^ 32) as Hs by (by vm_compute).
  assert (2 * PAGE_SIZE <= MREMAP_RANGE_LARGE_SIZE <= 2 ^ 32) as Hl by (by vm_compute).
  unfold mremap_mmap_anon_tests. repeat apply List.Forall_cons; [..|by apply List.Forall_nil].
  all: match goal with |- context [run ?p] => unfold p end; intros e tr e' Hr.
  all: lazymatch goal with
    | _ : run (scenario03s _ _) _ _ _ _ |- _ => exfalso; by eapply scenario03s_not_null
    | _ : run (scenario05s _ _) _ _ _ _ |- _ => exfalso; by eapply scenario05s_not_null
    | _ : run (scenario14 _ _) _ _ _ _ |- _ => exfalso; by eapply scenario14_not_null
    | _ : run (scenario15 _ _) _ _ _ _ |- _ => exfalso; by eapply scenario15_not_null
    | _ : run (scenario16 _ _) _ _ _ _ |- _ => exfalso; by eapply scenario16_not_null
    | _ => idtac
    end.
  all: split; [by vm_compute|].
  all: match goal with |- evidence (?n mod _) _ _ =>
         let k := eval vm_compute in (n mod 100) in change (n mod 100) with k;
         unfold range_of; match goal with |- context [n <? 200] =>
           let b := eval vm_compute in (n <? 200) in change (n <? 200) with b end; cbv iota end.
  all: typeclasses eauto with oracle nocore.
Qed.

(** Test case 007 on the reference kernel. *)
Lemma mremap_suite_oracle_witness :
  exists e tr e', run mremap_mmap_anon007 e tr (Returned None) e' /\
    ends_by_signal 7 = false /\ evidence (7 mod 100) (range_of 7) tr.
Proof.
  set (m := @Mach RefKernel.kernel 0 RefKernel.init).
  assert (9 * MREMAP_RANGE_LARGE_SIZE <= VmSpec.avail (VmKernel := RefKernel.vm_kernel) (kern m)) as Hm by (by vm_compute).
  pose proof (MremapTests.suite_runs (V := RefKernel.vm_kernel) m Hm) as Hall. rewrite Forall_forall in Hall.
  assert ((7, mremap_mmap_anon007) ∈ mremap_mmap_anon_tests) as Hin by (do 7 right; left).
  destruct (Hall _ Hin) as [m' E]. change (ends_by_signal 7) with false in E. cbv iota in E.
  destruct (@exec_run RefKernel.kernel _ mremap_mmap_anon007 m) as [tr Hr]. rewrite E in Hr.
  exists (errno m), tr, (errno m'). split; [exact Hr|].
  pose proof mremap_suite_oracle as Ho. rewrite Forall_forall in Ho. exact (Ho _ Hin _ _ _ Hr).
Defined.

End MremapOracle.
