(* ===== verification/Libc.v ===== *)
(** * The C library functions the harness parses its arguments with

    [strtoll], [strtoul], [atoi] and GNU [getopt] and [getopt_long], as functions of the strings they
    are given. *)
From S2P Require Import Prelude CMachine.
#[local] Open Scope Z_scope.

Module Libc.

Definition LONG_MAX : Z := 2 ^ 63 - 1.
Definition LONG_MIN : Z := - 2 ^ 63.
Definition ULONG_MAX : Z := 2 ^ 64 - 1.
Definition INT_MIN : Z := - 2 ^ 31.

Abbreviation chars := String.list_ascii_of_string.
Abbreviation of_chars := String.string_of_list_ascii.

(** ** Integer conversions *)

Definition isspace (c : ascii) : bool := in_range 9 5 (chr c) || (chr c =? 32).

(** The value of a digit in a base up to 36. *)
Definition digit (base : Z) (c : ascii) : option Z :=
  let n := chr c in
  let v := if in_range 48 10 n then n - 48
           else if in_range 97 26 n then n - 97 + 10
           else if in_range 65 26 n then n - 65 + 10
           else base in
  if v <? base then Some v else None.

(** The longest run of digits: its value (after [acc]) and its length (after [n]). *)
Fixpoint digits (base acc : Z) (n : nat) (l : list ascii) : Z * nat :=
  match l with
  | c :: l' => match digit base c with Some v => digits base (acc * base + v) (S n) l' | None => (acc, n) end
  | [] => (acc, n)
  end.

Fixpoint skip_spaces (l : list ascii) : list ascii :=
  match l with c :: l' => if isspace c then skip_spaces l' else l | [] => [] end.

Definition is_x (c : ascii) : bool := (chr c =? chr "x") || (chr c =? chr "X").

(** Base 0 chooses the base by the prefix; [0x] counts as a prefix only before a hex digit.  The
    result is the base and what follows the prefix. *)
Definition prefix (base : Z) (l : list ascii) : Z * list ascii :=
  match l with
  | "0"%char :: c :: d :: l' =>
      if ((base =? 0) || (base =? 16)) && is_x c && bool_decide (is_Some (digit 16 d))
      then (16, d :: l') else if base =? 0 then (8, l) else (base, l)
  | "0"%char :: _ => if base =? 0 then (8, l) else (base, l)
  | _ => if base =? 0 then (10, l) else (base, l)
  end.

(** Sign and magnitude of the number at the start of a string and the number of characters it
    takes; [None] when there is no digit. *)
Definition parse_int (base : Z) (s : string) : option (bool * Z * nat) :=
  let l := skip_spaces (chars s) in
  let '(neg, l) := match l with
                   | "-"%char :: l => (true, l)
                   | "+"%char :: l => (false, l)
                   | _ => (false, l)
                   end in
  let '(base, l) := prefix base l in
  match digits base 0 0 l with
  | (_, O) => None
  | (v, n) => Some (neg, v, (String.length s - length l + n)%nat)
  end.

(** The value, the offset of [endptr], and whether [errno] is set to ERANGE. *)
Record conv := Conv { c_value : Z; c_end : nat; c_erange : bool }.

Definition strtoll (s : string) (base : Z) : conv :=
  match parse_int base s with
  | None => Conv 0 0 false
  | Some (neg, v, n) =>
      let v := if neg then - v else v in
      if v <? LONG_MIN then Conv LONG_MIN n true
      else if LONG_MAX <? v then Conv LONG_MAX n true
      else Conv v n false
  end.

(** [strtoul] negates in the unsigned type. *)
Definition strtoul (s : string) (base : Z) : conv :=
  match parse_int base s with
  | None => Conv 0 0 false
  | Some (neg, v, n) =>
      if ULONG_MAX <? v then Conv ULONG_MAX n true
      else Conv (if neg then u64 (- v) else v) n false
  end.

(** [atoi] is [(int)strtol(s, NULL, 10)]. *)
Definition atoi (s : string) : Z := s32 (c_value (strtoll s 10)).

(** The text of [%x] and [%lx]. *)
Definition hex_digit (d : Z) : ascii := Ascii.ascii_of_N (Z.to_N (if d <? 10 then 48 + d else 87 + d)).
Fixpoint hex_go (n : nat) (x : Z) (s : string) : string :=
  match n with
  | O => s
  | S n => let s := String (hex_digit (x mod 16)) s in if x <? 16 then s else hex_go n (x / 16) s
  end.
Definition hex (x : Z) : string := hex_go 16 x "".

(** ** getopt *)

(** An option with its argument, or [?] after the message on stderr. *)
Inductive opt_event : Set :=
| Opt (c : ascii) (optarg : option string)
| Bad (msg : string).

(** [optstring]: the option characters and whether they take an argument.  A long option is a name
    with the character it stands for; all long options here take an argument. *)
Definition optstring := list (ascii * bool).
Definition longopts := list (string * ascii).

Definition has_arg (spec : optstring) (c : ascii) : option bool :=
  snd <$> List.find (fun '(d, _) => Ascii.eqb c d) spec.

Section getopt.
Context (app : string) (spec : optstring) (long : longopts).

Definition invalid (c : ascii) : opt_event :=
  Bad (app +:+ ": invalid option -- '" +:+ String c ("'" +:+ String "010" "")).
Definition missing (c : ascii) : opt_event :=
  Bad (app +:+ ": option requires an argument -- '" +:+ String c ("'" +:+ String "010" "")).
Definition unrecognized (s : string) : opt_event :=
  Bad (app +:+ ": unrecognized option '" +:+ s +:+ "'" +:+ String "010" "").
Definition ambiguous (s : string) : opt_event :=
  Bad (app +:+ ": option '" +:+ s +:+ "' is ambiguous" +:+ String "010" "").
Definition long_missing (s : string) : opt_event :=
  Bad (app +:+ ": option '--" +:+ s +:+ "' requires an argument" +:+ String "010" "").

(** The options of one element [-abc]; the last one may want the next element as its argument. *)
Fixpoint cluster (cs : list ascii) : list opt_event * option ascii :=
  match cs with
  | [] => ([], None)
  | c :: cs' =>
      match has_arg spec c with
      | None => let '(evs, w) := cluster cs' in (invalid c :: evs, w)
      | Some false => let '(evs, w) := cluster cs' in (Opt c None :: evs, w)
      | Some true => match cs' with [] => ([], Some c) | _ => ([Opt c (Some (of_chars cs'))], None) end
      end
  end.

(** A long option [--name] or [--name=value]: an exact name, or a prefix of one name only. *)
Fixpoint split_eq (cs : list ascii) : list ascii * option (list ascii) :=
  match cs with
  | [] => ([], None)
  | c :: cs => if Ascii.eqb c "=" then ([], Some cs) else let '(n, v) := split_eq cs in (c :: n, v)
  end.

Definition find_long (name : string) : list (string * ascii) :=
  match List.find (fun '(n, _) => String.eqb n name) long with
  | Some o => [o]
  | None => List.filter (fun '(n, _) => String.prefix name n) long
  end.

(** Either an event, or the name and character of the option that wants the next element. *)
Definition long_option (cs : list ascii) : opt_event + string * ascii :=
  let '(name, value) := split_eq cs in
  match find_long (of_chars name) with
  | [] => inl (unrecognized ("--" +:+ of_chars cs))
  | [(n, c)] => match value with Some v => inl (Opt c (Some (of_chars v))) | None => inr (n, c) end
  | _ => inl (ambiguous ("--" +:+ of_chars cs))
  end.

(** The elements of argv after argv[0]: the events in order, the elements that were options or
    their arguments, and the operands.  GNU getopt permutes argv so that the operands come last;
    everything behind an element [--] is an operand. *)
Record scan_res := Scan { events : list opt_event; used : list string; operands : list string }.

Definition add_opts (evs : list opt_event) (us : list string) (r : scan_res) : scan_res :=
  Scan (evs ++ events r) (us ++ used r) (operands r).

Fixpoint scan (args : list string) : scan_res :=
  match args with
  | [] => Scan [] [] []
  | a :: rest =>
      match chars a with
      | ["-"; "-"]%char => Scan [] [a] rest
      | "-"%char :: c :: cs =>
          if negb (bool_decide (long = [])) && Ascii.eqb c "-" then
            match long_option cs with
            | inl e => add_opts [e] [a] (scan rest)
            | inr (n, c) =>
                match rest with
                | v :: rest => add_opts [Opt c (Some v)] [a; v] (scan rest)
                | [] => Scan [long_missing n] [a] []
                end
            end
          else
            let '(evs, want) := cluster (c :: cs) in
            match want with
            | None => add_opts evs [a] (scan rest)
            | Some c =>
                match rest with
                | v :: rest => add_opts (evs ++ [Opt c (Some v)]) [a; v] (scan rest)
                | [] => Scan (evs ++ [missing c]) [a] []
                end
            end
      | _ => let r := scan rest in Scan (events r) (used r) (a :: operands r)
      end
  end.

(** argv as the loop over getopt leaves it, and [optind]. *)
Definition getopt_argv (args : list string) : list string := app :: used (scan args) ++ operands (scan args).
Definition getopt_optind (args : list string) : nat := S (length (used (scan args))).

End getopt.

(** ** Reading back printed numbers *)

Lemma small_N (d : N) : (d < 10)%N -> d ∈ [0; 1; 2; 3; 4; 5; 6; 7; 8; 9]%N.
Proof.
  intros Hd. rewrite !elem_of_cons. lia.
Qed.

Lemma digit_pretty d : (d < 10)%N -> digit 10 (pretty_N_char d) = Some (Z.of_N d).
Proof. intros Hd. apply small_N in Hd. set_unfold. naive_solver. Qed.

(** A printed positive number starts with a nonzero digit, and its digits give it back. *)
Lemma pretty_go_digits x s :
  (0 < x)%N ->
  exists d l, chars (pretty_N_go x s) = (pretty_N_char d :: l) ++ chars s /\ (0 < d < 10)%N /\
    forall acc n tail, digits 10 acc n ((pretty_N_char d :: l) ++ tail)
      = digits 10 (acc * 10 ^ Z.of_nat (S (length l)) + Z.of_N x) (n + S (length l)) tail.
Proof.
  revert s. induction (N.lt_wf_0 x) as [x _ IH]; intros s Hx. rewrite pretty_N_go_step by done.
  assert (digit 10 (pretty_N_char (x `mod` 10)) = Some (Z.of_N (x mod 10))) as Hd
    by (apply digit_pretty, N.mod_lt; lia).
  destruct (decide (x < 10)%N) as [Hs|Hs].
  - rewrite N.div_small, pretty_N_go_0 by done. rewrite N.mod_small in * by done.
    exists x, []. split; [done|]. split; [lia|]. intros acc n tail. cbn [app digits length].
    rewrite Hd. change (10 ^ Z.of_nat 1) with 10. f_equal; lia.
  - destruct (IH (x / 10)%N) with (s := String (pretty_N_char (x mod 10)) s) as (d & l & E & Hd' & Hg).
    + apply N.div_lt; lia.
    + apply N.div_str_pos. lia.
    + exists d, (l ++ [pretty_N_char (x mod 10)]). split; [rewrite E; cbn; by rewrite <- app_assoc|].
      split; [done|]. intros acc n tail.
      replace ((pretty_N_char d :: l ++ [pretty_N_char (x `mod` 10)]) ++ tail)
        with ((pretty_N_char d :: l) ++ pretty_N_char (x `mod` 10) :: tail) by (cbn; by rewrite <- app_assoc).
      rewrite Hg. cbn [digits]. rewrite Hd, length_app. cbn [length]. f_equal; [|lia].
      rewrite !Nat2Z.inj_succ, Nat2Z.inj_add, !Z.pow_succ_r, Z.pow_add_r by lia.
      pose proof (N.div_mod x 10). change (10 ^ Z.of_nat 1) with 10. lia.
Qed.

Lemma parse_int_pretty base n :
  0 <= n -> base = 0 \/ base = 10 ->
  exists k, parse_int base (pretty n) = Some (false, n, S k).
Proof.
  intros Hn Hb. destruct n as [|p|p]; [|..|lia].
  { destruct Hb as [-> | ->]; by eexists. }
  change (pretty (Z.pos p)) with (pretty_N_go (N.pos p) "").
  destruct (pretty_go_digits (N.pos p) "") as (d & l & E & Hd & Hg); [lia|].
  unfold parse_int. rewrite E, app_nil_r. specialize (Hg 0 O []). rewrite app_nil_r in Hg.
  generalize (String.length (pretty_N_go (N.pos p) EmptyString)). intros m0.
  assert (d < 10)%N as Hd' by lia. apply small_N in Hd'. set_unfold in Hd'.
  assert (forall m, exists k, Some (false, 0 * 10 ^ Z.of_nat (S (length l)) + Z.of_N (N.pos p), (m + S (length l))%nat)
            = Some (false, Z.pos p, S k)) as Hk.
  { intros m. exists (m + length l)%nat. repeat f_equal; lia. }
  destruct Hb as [-> | ->]; repeat (destruct Hd' as [->|Hd']); try lia;
    cbn [pretty_N_char] in Hg; lazy -[digits Nat.sub Nat.add length]; rewrite Hg; cbn [digits Nat.add]; apply Hk.
Qed.

Lemma atoi_pretty n : 0 <= n < 2 ^ 31 -> atoi (pretty n) = n.
Proof.
  intros Hn. unfold atoi, strtoll. destruct (parse_int_pretty 10 n) as [k ->]; [lia|by right|].
  unfold LONG_MIN, LONG_MAX. replace (n <? - 2 ^ 63) with false by lia.
  replace (2 ^ 63 - 1 <? n) with false by lia. cbn. apply wrap_s_small; lia.
Qed.

(** The same when something that is no digit follows. *)
Lemma chars_app s t : chars (s +:+ t) = chars s ++ chars t.
Proof. induction s as [|c s IH]; [done|]. change (c :: chars (s +:+ t) = c :: chars s ++ chars t). by rewrite IH. Qed.

Lemma append_empty s : s +:+ "" = s.
Proof. induction s as [|c s IH]; [done|]. change (String c (s +:+ "") = String c s). by rewrite IH. Qed.

Lemma digits_stop acc n l :
  (forall c l', l = c :: l' -> digit 10 c = None) -> digits 10 acc n l = (acc, n).
Proof. destruct l as [|c l]; intros H; [done|]. cbn [digits]. by rewrite (H c l). Qed.

Lemma parse_int_digits d l s :
  (d < 10)%N -> chars s = pretty_N_char d :: l ->
  parse_int 10 s = match digits 10 0 0 (pretty_N_char d :: l) with
                   | (_, O) => None
                   | (v, n) => Some (false, v, (String.length s - length (pretty_N_char d :: l) + n)%nat)
                   end.
Proof.
  intros Hd%small_N E. unfold parse_int. rewrite E. set_unfold in Hd.
  repeat (destruct Hd as [->|Hd]); try lia; destruct l as [|? [|? ?]]; reflexivity.
Qed.

Lemma strtoll_pretty n t :
  0 <= n <= LONG_MAX -> (forall c l, chars t = c :: l -> digit 10 c = None) ->
  c_value (strtoll (pretty n +:+ t) 10) = n.
Proof.
  intros Hn Ht. assert (exists j, parse_int 10 (pretty n +:+ t) = Some (false, n, j)) as [j E].
  { destruct n as [|p|p]; [|..|lia].
    - rewrite (parse_int_digits 0 (chars t)) by done.
      change (digits 10 0 0 (pretty_N_char 0 :: chars t)) with (digits 10 0 1 (chars t)).
      rewrite digits_stop by done. by eexists.
    - destruct (pretty_go_digits (N.pos p) "") as (d & l & E & Hd & Hg); [lia|]. rewrite app_nil_r in E.
      rewrite (parse_int_digits d (l ++ chars t)); [|lia|by rewrite chars_app; change (pretty (Z.pos p)) with (pretty_N_go (N.pos p) ""); rewrite E].
      specialize (Hg 0 O (chars t)). rewrite (digits_stop _ _ _ Ht) in Hg. rewrite <- app_comm_cons in Hg.
      rewrite Hg. by eexists. }
  unfold strtoll. rewrite E. unfold LONG_MIN, LONG_MAX in *. replace (n <? - 2 ^ 63) with false by lia.
  by replace (2 ^ 63 - 1 <? n) with false by lia.
Qed.

(** A printed number consists of digits, of which there are at most as many as it has. *)
Lemma pretty_go_chars x s :
  Forall (fun c => is_Some (digit 10 c)) (chars s) -> Forall (fun c => is_Some (digit 10 c)) (chars (pretty_N_go x s)).
Proof.
  revert s. induction (N.lt_wf_0 x) as [x _ IH]. intros s Hs. destruct (decide (0 < x)%N) as [Hx|Hx].
  - rewrite pretty_N_go_step by done. apply IH; [apply N.div_lt; lia|]. apply Forall_cons. split; [|done].
    rewrite digit_pretty; [done|apply N.mod_lt; lia].
  - replace x with 0%N by lia. by rewrite pretty_N_go_0.
Qed.

Lemma pretty_chars n : 0 <= n -> Forall (fun c => is_Some (digit 10 c)) (chars (pretty n)).
Proof.
  intros Hn. destruct n as [|p|p]; [by repeat constructor| |lia].
  by apply (pretty_go_chars (N.pos p) "").
Qed.

Lemma pretty_go_length (m : nat) x s :
  (x < 10 ^ N.of_nat m)%N -> (String.length (pretty_N_go x s) <= m + String.length s)%nat.
Proof.
  revert x s. induction m as [|m IH]; intros x s Hx.
  - replace x with 0%N by (cbn in Hx; lia). by rewrite pretty_N_go_0.
  - destruct (decide (0 < x)%N) as [Hp|Hp]; [|replace x with 0%N by lia; rewrite pretty_N_go_0; lia].
    rewrite pretty_N_go_step by done. etrans; [apply IH|cbn; lia].
    apply N.Div0.div_lt_upper_bound. rewrite Nat2N.inj_succ, N.pow_succ_r' in Hx. lia.
Qed.

Lemma pretty_length n : 0 <= n < 2 ^ 32 -> (String.length (pretty n) <= 10)%nat.
Proof.
  intros Hn. destruct n as [|p|p]; [cbn; lia| |lia]. etrans; [apply (pretty_go_length 10 (N.pos p) ""); cbn; lia|done].
Qed.

Lemma length_append s t : String.length (s +:+ t) = (String.length s + String.length t)%nat.
Proof.
  induction s as [|c s IH]; [done|]. change (S (String.length (s +:+ t)) = S (String.length s + String.length t)).
  by rewrite IH.
Qed.

(** The same for hexadecimal text. *)
Lemma digit_hex d : 0 <= d < 16 -> digit 16 (hex_digit d) = Some d.
Proof.
  intros Hd. assert (Forall (fun d => digit 16 (hex_digit d) = Some d) (Z.of_nat <$> seq 0 16)) as Hall
    by repeat constructor.
  rewrite List.Forall_forall in Hall. apply Hall, in_map_iff. exists (Z.to_nat d). split; [lia|]. apply in_seq. lia.
Qed.

Lemma hex_go_digits k x s :
  0 <= x < 16 ^ Z.of_nat (S k) ->
  exists c l, chars (hex_go (S k) x s) = (c :: l) ++ chars s /\ is_Some (digit 16 c) /\
    forall acc n tail, digits 16 acc n ((c :: l) ++ tail)
      = digits 16 (acc * 16 ^ Z.of_nat (S (length l)) + x) (n + S (length l)) tail.
Proof.
  revert x s. induction k as [|k IH]; intros x s Hx.
  - change (16 ^ Z.of_nat 1) with 16 in Hx. exists (hex_digit x), []. cbn [hex_go].
    rewrite Z.mod_small by lia. replace (x <? 16) with true by lia. split; [done|].
    rewrite digit_hex by lia. split; [done|]. intros acc n tail. cbn [app digits length].
    rewrite digit_hex by lia. change (16 ^ Z.of_nat 1) with 16. f_equal; lia.
  - remember (S k) as k' eqn:Ek. cbn [hex_go]. subst k'.
    assert (digit 16 (hex_digit (x mod 16)) = Some (x mod 16)) as Hd by (apply digit_hex, Z.mod_pos_bound; lia).
    destruct (Z.ltb_spec x 16) as [Hs|Hs].
    + exists (hex_digit (x mod 16)), []. split; [done|]. rewrite Hd. split; [done|]. intros acc n tail.
      cbn [app digits length]. rewrite Hd, Z.mod_small by lia. change (16 ^ Z.of_nat 1) with 16. f_equal; lia.
    + destruct (IH (x / 16) (String (hex_digit (x mod 16)) s)) as (c & l & E & Hc & Hg).
      { rewrite Nat2Z.inj_succ, Z.pow_succ_r in Hx by lia.
        split; [apply Z.div_pos; lia|apply Z.div_lt_upper_bound; lia]. }
      exists c, (l ++ [hex_digit (x mod 16)]). split; [rewrite E; cbn; by rewrite <- app_assoc|].
      split; [done|]. intros acc n tail.
      replace ((c :: l ++ [hex_digit (x mod 16)]) ++ tail) with ((c :: l) ++ hex_digit (x mod 16) :: tail)
        by (cbn; by rewrite <- app_assoc).
      rewrite Hg. cbn [digits]. rewrite Hd, length_app. cbn [length]. f_equal; [|lia].
      rewrite !Nat2Z.inj_succ, Nat2Z.inj_add, !Z.pow_succ_r, Z.pow_add_r by lia.
      pose proof (Z.div_mod x 16). change (16 ^ Z.of_nat 1) with 16. lia.
Qed.

(** An address printed with [0x%lx] is read back with base 0. *)
Lemma strtoul_0x_hex x : 0 <= x < 2 ^ 64 -> c_value (strtoul ("0x" +:+ hex x) 0) = x.
Proof.
  intros Hx. destruct (hex_go_digits 15 x "") as (c & l & E & Hc & Hg); [done|]. rewrite app_nil_r in E.
  assert (exists j, parse_int 0 ("0x" +:+ hex x) = Some (false, x, S j)) as [j Ej].
  { unfold parse_int. rewrite chars_app. unfold hex. rewrite E.
    generalize (String.length ("0x" +:+ hex_go 16 x "")). intros len.
    specialize (Hg 0 O []). rewrite app_nil_r in Hg.
    change (chars "0x" ++ c :: l) with ("0" :: "x" :: c :: l)%char.
    lazy -[digits Nat.sub Nat.add digit bool_decide is_Some length].
    destruct (bool_decide (is_Some (digit 16 c))) eqn:Eb; [|by apply bool_decide_eq_false in Eb].
    rewrite Hg. cbn [digits]. rewrite Z.add_0_l, Nat.add_0_l, Nat.add_succ_r.
    by eexists. }
  unfold strtoul. rewrite Ej. unfold ULONG_MAX. by replace (2 ^ 64 - 1 <? x) with false by lia.
Qed.

End Libc.
