(* ===== verification/TestMck.v ===== *)
(** * The test harness (src/src/test_mck/src/test_mck.c)

    The command line, the choice of a test case, the order setup, run, teardown, the exit status,
    and the helpers for temporary files and numbers the test cases use. *)
From S2P Require Import Prelude CMachine Libc.
Import Libc.
#[local] Open Scope Z_scope.

Module TestMck.

Definition nl : string := String "010" "".

(** [struct test_case]; [arg] is the type behind the [void*] that [setup] hands to [run] and
    [teardown]. *)
Record test_case := TestCase {
  test_suite : string;
  num : Z;
  arg : Type;
  setup : Z -> list string -> prog arg;
  run_tc : Z -> arg -> prog verdict;
  teardown : Z -> arg -> prog unit
}.

Definition run_test_case (tc : test_case) (argv : list string) : prog verdict :=
  args ← setup tc (num tc) argv;
  msg ← run_tc tc (num tc) args;
  teardown tc (num tc) args;;
  Ret msg.

Section harness.
Context (test_cases : list test_case) (test_suites : list string).

Definition find_test_case (suite : string) (n : Z) : option test_case :=
  List.find (fun tc => (num tc =? n) && String.eqb (test_suite tc) suite) test_cases.

Fixpoint print_suites (l : list string) : prog unit :=
  match l with
  | [] => Ret tt
  | name :: l => printf ("             " +:+ name +:+ nl);; print_suites l
  end.

Definition usage (the_app : string) : prog unit :=
  printf ("Usage: " +:+ the_app +:+ " -s test_suite -n test_number [-h] -- [args]" +:+ nl);;
  printf ("   -s      test suite name." +:+ nl);;
  print_suites test_suites;;
  printf ("   -n      test case number." +:+ nl);;
  printf ("   -h      show this message." +:+ nl);;
  printf ("   args    test case arguments." +:+ nl).

(** The option characters of [getopt(argc, argv, "s:n:h")]. *)
Definition main_spec : optstring := [("s"%char, true); ("n"%char, true); ("h"%char, false)].

(** The loop over getopt: the status main returns at once, or the suite and the number. *)
Fixpoint main_opts (the_app : string) (evs : list opt_event) (ts : option string) (n : Z)
    : prog (Z + option string * Z) :=
  match evs with
  | [] => Ret (inr (ts, n))
  | Opt "s" optarg :: evs => main_opts the_app evs optarg n
  | Opt "n" (Some optarg) :: evs => main_opts the_app evs ts (atoi optarg)
  | Opt "h" _ :: _ => usage the_app;; Ret (inl EXIT_SUCCESS)
  | Bad msg :: _ => fprintf_stderr msg;; usage the_app;; Ret (inl EXIT_FAILURE)
  | _ => usage the_app;; Ret (inl EXIT_FAILURE)
  end.

Fixpoint print_args (l : list string) : prog unit :=
  match l with
  | [] => Ret tt
  | a :: l => printf (a +:+ " ");; print_args l
  end.

(** [argv[optind - 1] = argv[0]; argv += optind - 1]. *)
Definition shift_argv (argv : list string) (optind : nat) (the_app : string) : list string :=
  drop (optind - 1) (<[(optind - 1)%nat := the_app]> argv).

(** The information printed before the test and the report after it. *)
Definition print_info (tc : test_case) (argv : list string) : prog unit :=
  printf ("TEST_SUITE: " +:+ test_suite tc +:+ nl);;
  printf ("TEST_NUMBER: " +:+ pretty (num tc) +:+ nl);;
  printf "ARGS: ";;
  print_args (drop 1 argv);;
  printf nl.

Definition report (result : verdict) : prog Z :=
  match result with
  | Some msg => printf ("RESULT: " +:+ msg +:+ nl);; Ret EXIT_FAILURE
  | None => printf ("RESULT: ok" +:+ nl);; Ret EXIT_SUCCESS
  end.

(** [argv] is [the_app :: args]. *)
Definition main (the_app : string) (args : list string) : prog Z :=
  let sc := scan the_app main_spec [] args in
  choice ← main_opts the_app (events sc) None INT_MIN;
  match choice with
  | inl status => Ret status
  | inr (ts, n) =>
      let argv := shift_argv (getopt_argv the_app main_spec [] args)
                    (getopt_optind the_app main_spec [] args) the_app in
      match ts with
      | None => usage the_app;; Ret EXIT_FAILURE
      | Some ts =>
          if n =? INT_MIN then usage the_app;; Ret EXIT_FAILURE
          else
            match find_test_case ts n with
            | None => printf (ts +:+ "#" +:+ pretty n +:+ " is not found." +:+ nl);; Ret EXIT_FAILURE
            | Some tc =>
                print_info tc argv;;
                result ← run_test_case tc argv;
                report result
            end
      end
  end.

End harness.

(** ** Helpers of the test cases *)

(** Returns the path, or NULL ([None]).  [state] is an [int]: the result of lseek is cut to 32 bits. *)
Definition test_mck_create_temp_file (prefix : string) (size : Z) : prog (option string) :=
  path ← trigger (LIBC_asprintf (prefix +:+ "-XXXXXX"));
  match path with
  | None => Ret None
  | Some path =>
      '(fd, path) ← mkstemp path;
      if fd =? -1 then trigger (LIBC_free path);; Ret None
      else
        state ← lseek fd (s64 (u64 (size - 1))) 0;
        if s32 state =? -1 then
          close fd;;
          unlink path;;
          trigger (LIBC_free path);;
          Ret None
        else
          write fd [chr "Z"];;
          fsync fd;;
          close fd;;
          Ret (Some path)
  end.

Definition test_mck_delete_temp_file (path : option string) : prog unit :=
  match path with
  | None => Ret tt
  | Some path => unlink path;; trigger (LIBC_free path)
  end.

(** [strtoll] with base 0; [ret] is an [unsigned long]. *)
Definition test_mck_strtoul (nptr : option string) (default_value : Z) : prog Z :=
  match nptr with
  | None => Ret default_value
  | Some nptr =>
      set_errno 0;;
      let c := strtoll nptr 0 in
      (if c_erange c then set_errno ERANGE else Ret tt);;
      let ret := u64 (c_value c) in
      if (ret =? 0) && Nat.eqb (c_end c) 0 then Ret default_value
      else
        errno ← get_errno;
        if ((ret =? u64 LONG_MIN) || (ret =? LONG_MAX)) && (errno =? ERANGE) then Ret default_value
        else Ret ret
  end.

End TestMck.
