(* ===== verification/Ledger.v ===== *)
(** * What a process holds

    The file descriptors and the mappings a program holds after a trace of requests and replies.
    The programs of the test set are shown to give back what they took on every reply of the kernel. *)
From S2P Require Import Prelude CMachine.
#[local] Open Scope Z_scope.

Module Ledger.

Record held := Held { fds : list Z; maps : list (Z * Z); strings : list string; blocks : list Z }.
#[global] Instance held_eq_dec : EqDecision held.
Proof. solve_decision. Defined.

Definition none : held := Held [] [] [] [].

(** Removes one occurrence. *)
Fixpoint drop_one {A} `{EqDecision A} (x : A) (l : list A) : list A :=
  match l with
  | [] => []
  | y :: l => if decide (x = y) then l else y :: drop_one x l
  end.

Definition add_fd (fd : Z) (h : held) : held := Held (fd :: fds h) (maps h) (strings h) (blocks h).
Definition del_fd (fd : Z) (h : held) : held := Held (drop_one fd (fds h)) (maps h) (strings h) (blocks h).
Definition add_map (m : Z * Z) (h : held) : held := Held (fds h) (m :: maps h) (strings h) (blocks h).
Definition del_map (m : Z * Z) (h : held) : held := Held (fds h) (drop_one m (maps h)) (strings h) (blocks h).
Definition add_string (s : string) (h : held) : held := Held (fds h) (maps h) (s :: strings h) (blocks h).
Definition del_string (s : string) (h : held) : held := Held (fds h) (maps h) (drop_one s (strings h)) (blocks h).
Definition add_block (p : Z) (h : held) : held := Held (fds h) (maps h) (strings h) (p :: blocks h).
Definition del_block (p : Z) (h : held) : held := Held (fds h) (maps h) (strings h) (drop_one p (blocks h)).

(** One exchange: [open] and [mkstemp] give a descriptor unless they fail, [close] takes it back
    whatever it replies (close(2): a descriptor is released early, and an error of [close] does not
    bring it back); [mmap] gives a mapping unless it fails, [munmap] takes it back unless it fails;
    [asprintf] gives a string, which [mkstemp] renames and [free] takes back;
    [malloc] gives a block, which [free] of its address takes back. *)
Definition step (h : held) (e : event) : held :=
  let 'existT c r := e in
  match c return reply c -> held with
  | SYS_open _ _ => fun r => if is_error r then h else add_fd r h
  | LIBC_mkstemp t => fun r => let '(r, path) := r in
      let h := add_string path (del_string t h) in
      if is_error r then h else add_fd r h
  | SYS_close fd => fun _ => del_fd fd h
  | SYS_mmap _ len _ _ _ _ => fun r => if is_error r || (u64 r =? MAP_FAILED) then h else add_map (u64 r, len) h
  | SYS_munmap a len => fun r => if is_error r then h else del_map (a, len) h
  | LIBC_asprintf _ => fun r => match r with Some s => add_string s h | None => h end
  | LIBC_free s => fun _ => del_string s h
  | LIBC_malloc _ => fun r => match r with Some (p, _) => add_block p h | None => h end
  | LIBC_release p => fun _ => del_block p h
  | _ => fun _ => h
  end r.

Definition after (h : held) (tr : list event) : held := fold_left step tr h.

Lemma after_app h tr1 tr2 : after h (tr1 ++ tr2) = after (after h tr1) tr2.
Proof. apply fold_left_app. Qed.

Lemma after_cons h c r tr : after h (ev c r :: tr) = after (step h (ev c r)) tr.
Proof. done. Qed.

Lemma drop_one_head {A} `{EqDecision A} (x : A) l : drop_one x (x :: l) = l.
Proof. simpl. by rewrite decide_True. Qed.

Lemma del_add_fd fd h : del_fd fd (add_fd fd h) = h.
Proof. destruct h. unfold del_fd, add_fd. cbn [fds maps strings blocks]. by rewrite drop_one_head. Qed.
Lemma del_add_map m h : del_map m (add_map m h) = h.
Proof. destruct h. unfold del_map, add_map. cbn [fds maps strings blocks]. by rewrite drop_one_head. Qed.
Lemma del_add_string s h : del_string s (add_string s h) = h.
Proof. destruct h. unfold del_string, add_string. cbn [fds maps strings blocks]. by rewrite drop_one_head. Qed.
Lemma del_add_block p h : del_block p (add_block p h) = h.
Proof. destruct h. unfold del_block, add_block. cbn [fds maps strings blocks]. by rewrite drop_one_head. Qed.
Lemma del_map_below m m' h : del_map m (add_map m' (add_map m h)) = add_map m' h.
Proof.
  destruct h. unfold del_map, add_map. cbn [fds maps strings blocks drop_one].
  destruct (decide (m = m')) as [->|]; [done|]. by rewrite decide_True.
Qed.
Lemma del_map_fd m fd h : del_map m (add_fd fd h) = add_fd fd (del_map m h).
Proof. done. Qed.
Lemma add_map_fd m fd h : add_map m (add_fd fd h) = add_fd fd (add_map m h).
Proof. done. Qed.
Lemma del_fd_string fd s h : del_fd fd (add_string s h) = add_string s (del_fd fd h).
Proof. done. Qed.
Lemma add_fd_string fd s h : add_fd fd (add_string s h) = add_string s (add_fd fd h).
Proof. done. Qed.

Create Rewrite HintDb ledger.
#[export] Hint Rewrite del_add_fd del_add_map del_add_string del_add_block del_map_fd del_fd_string del_map_below : ledger.

(** [p] holds [post a] after a run that returns [a], when it held [h] before; what a process that
    exits or is killed held, the kernel takes back. *)
Definition keeps {A} (p : prog A) (h : held) (post : A -> held) : Prop :=
  forall e tr a e', run p e tr (Returned a) e' -> after h tr = post a.

Section rules.
Context (h : held).

Lemma keeps_ret {A} (a : A) post : h = post a -> keeps (Ret a) h post.
Proof. intros Hp e tr b e' (-> & [= ->] & _). done. Qed.

Lemma keeps_bind {A B} (p : prog A) (f : A -> prog B) mid post :
  keeps p h mid -> (forall a, keeps (f a) (mid a) post) -> keeps (p ≫= f) h post.
Proof.
  intros Hp Hf e tr b e' H. apply run_bind_returned in H as (a & e1 & tr1 & tr2 & H1 & H2 & ->).
  rewrite after_app, (Hp _ _ _ _ H1). apply (Hf a _ _ _ _ H2).
Qed.

Lemma keeps_vis {A} c (k : reply c -> prog A) post :
  (forall r, keeps (k r) (step h (ev c r)) post) -> keeps (Vis c k) h post.
Proof. intros Hk e tr a e' (r & tr' & -> & H). apply (Hk r _ _ _ _ H). Qed.

(** A wrapper returns -1 after an error, the reply otherwise. *)
Lemma keeps_syscall_ret r post : h = post (if is_error r then -1 else r) -> keeps (syscall_ret r) h post.
Proof.
  unfold syscall_ret. intros Hp. destruct (is_error r); intros e tr a e' (-> & [= ->] & _); done.
Qed.

Lemma is_error_minus_one r : is_error r = false -> (r =? -1) = false.
Proof. unfold is_error. intros E. destruct (Z.eqb_spec r (-1)); [by subst|done]. Qed.

End rules.

Section requests.
Context (h : held).

Lemma keeps_open path flags : keeps (open path flags) h (fun fd => if fd =? -1 then h else add_fd fd h).
Proof.
  apply keeps_vis. intros r. apply keeps_syscall_ret. cbn.
  destruct (is_error r) eqn:E; [done|]. by rewrite is_error_minus_one.
Qed.

Lemma keeps_close fd : keeps (close fd) h (fun _ => del_fd fd h).
Proof. apply keeps_vis. intros r. by apply keeps_syscall_ret. Qed.

Lemma keeps_mmap addr len prot flags fd off :
  keeps (mmap addr len prot flags fd off) h (fun a => if a =? MAP_FAILED then h else add_map (a, len) h).
Proof.
  apply keeps_vis. intros r. unfold ev; cbn [step]. unfold syscall_ptr, syscall_ret.
  destruct (is_error r); intros e tr a e' (-> & [= ->] & _); [reflexivity|].
  cbn [orb]. by destruct (u64 r =? MAP_FAILED).
Qed.

Lemma keeps_munmap a len : keeps (munmap a len) h (fun r => if r =? -1 then h else del_map (a, len) h).
Proof.
  apply keeps_vis. intros r. apply keeps_syscall_ret. cbn.
  destruct (is_error r) eqn:E; [done|]. by rewrite is_error_minus_one.
Qed.

Lemma keeps_stat path : keeps (stat path) h (fun _ => h).
Proof.
  apply keeps_vis. intros [r sz]. unfold syscall_ret. unfold ev; cbn [step].
  destruct (is_error r); intros e tr a e' (-> & _); done.
Qed.

Lemma keeps_msync a len fl : keeps (msync a len fl) h (fun _ => h).
Proof. apply keeps_vis. intros r. by apply keeps_syscall_ret. Qed.

Lemma keeps_ioctl fd r : keeps (ioctl fd r) h (fun _ => h).
Proof. apply keeps_vis. intros x. by apply keeps_syscall_ret. Qed.

Lemma keeps_lseek fd off wh : keeps (lseek fd off wh) h (fun _ => h).
Proof. apply keeps_vis. intros x. by apply keeps_syscall_ret. Qed.

Lemma keeps_write fd data : keeps (write fd data) h (fun _ => h).
Proof. apply keeps_vis. intros x. by apply keeps_syscall_ret. Qed.

Lemma keeps_read fd len : keeps (read fd len) h (fun _ => h).
Proof.
  apply keeps_vis. intros [r data]. apply (keeps_bind _ _ _ (fun _ => h)); [by apply keeps_syscall_ret|].
  intros x. by apply keeps_ret.
Qed.

Lemma keeps_fsync fd : keeps (fsync fd) h (fun _ => h).
Proof. apply keeps_vis. intros x. by apply keeps_syscall_ret. Qed.

Lemma keeps_unlink p : keeps (unlink p) h (fun _ => h).
Proof. apply keeps_vis. intros x. by apply keeps_syscall_ret. Qed.

Lemma keeps_load a : keeps (load a) h (fun _ => h).
Proof. apply keeps_vis. intros [v|s d] e tr x e' H; destruct H as (-> & [=] & _). done. Qed.

Lemma keeps_store a v : keeps (store a v) h (fun _ => h).
Proof. apply keeps_vis. intros [[]|s d] e tr x e' H; destruct H as (-> & [=] & _). done. Qed.

Lemma keeps_memset a v n : keeps (memset a v n) h (fun _ => h).
Proof. apply keeps_vis. intros [[]|s d] e tr x e' H; destruct H as (-> & [=] & _). done. Qed.

Lemma keeps_printf t : keeps (printf t) h (fun _ => h).
Proof. apply keeps_vis. intros [] e tr x e' (-> & _). done. Qed.

Lemma keeps_fprintf t : keeps (fprintf_stderr t) h (fun _ => h).
Proof. apply keeps_vis. intros [] e tr x e' (-> & _). done. Qed.

Lemma keeps_get_errno : keeps get_errno h (fun _ => h).
Proof. intros e tr x e' (-> & _). done. Qed.

Lemma keeps_set_errno n : keeps (set_errno n) h (fun _ => h).
Proof. intros e tr x e' (-> & _). done. Qed.

Lemma keeps_asprintf t :
  keeps (trigger (LIBC_asprintf t)) h (fun r => match r with Some s => add_string s h | None => h end).
Proof. apply keeps_vis. intros r e tr x e' (-> & [= ->] & _). done. Qed.

Lemma keeps_free s : keeps (trigger (LIBC_free s)) h (fun _ => del_string s h).
Proof. apply keeps_vis. intros r e tr x e' (-> & _). done. Qed.

Lemma keeps_malloc n :
  keeps (malloc n) h (fun r => match r with Some (p, _) => add_block p h | None => h end).
Proof. apply keeps_vis. intros r e tr x e' (-> & [= ->] & _). done. Qed.

Lemma keeps_release p : keeps (free p) h (fun _ => del_block p h).
Proof. apply keeps_vis. intros r e tr x e' (-> & _). done. Qed.

Lemma keeps_fopen path mode : keeps (fopen path mode) h (fun _ => h).
Proof. apply keeps_vis. intros r e tr x e' (-> & _). done. Qed.

Lemma keeps_fclose fp : keeps (fclose fp) h (fun _ => h).
Proof. apply keeps_vis. intros r e tr x e' (-> & _). done. Qed.

Lemma keeps_fprintf_file fp t : keeps (fprintf fp t) h (fun _ => h).
Proof. apply keeps_vis. intros [] e tr x e' (-> & _). done. Qed.

Lemma keeps_mkstemp t :
  keeps (mkstemp t) h (fun '(fd, path) =>
    let h := add_string path (del_string t h) in if fd =? -1 then h else add_fd fd h).
Proof.
  apply keeps_vis. intros [r path]. unfold syscall_ret. unfold ev; cbn [step].
  destruct (is_error r) eqn:E; intros e tr a e' (-> & [= ->] & _); [done|]. by rewrite is_error_minus_one.
Qed.

End requests.

(** ** Automation

    A [keeps] goal follows the program: each request by its rule, each branch by cases. *)
Create HintDb ledger.
#[export] Hint Resolve keeps_open keeps_close keeps_mmap keeps_munmap keeps_stat keeps_msync
  keeps_ioctl keeps_lseek keeps_write keeps_read keeps_fsync keeps_unlink keeps_load keeps_store keeps_memset
  keeps_printf keeps_fprintf keeps_get_errno keeps_set_errno keeps_asprintf keeps_free
  keeps_malloc keeps_release keeps_fopen keeps_fclose keeps_fprintf_file keeps_mkstemp : ledger.

Ltac keep1 :=
  cbv beta zeta;
  lazymatch goal with
  | |- keeps (Ret _) _ _ => apply keeps_ret; cbn; autorewrite with ledger; try reflexivity
  | |- keeps (tp_assert _ _ _) _ _ => unfold tp_assert
  | |- keeps (mbind _ _) _ _ => eapply keeps_bind; [solve [eauto with ledger]|intros ?]
  | |- keeps (match ?x with _ => _ end) _ _ => destruct x eqn:?
  | |- keeps _ (match ?x with _ => _ end) _ => destruct x eqn:?
  end.
Ltac keep := repeat keep1.

(** ** Where munmap does not fail

    Many programs unmap without a look at the result.  [settles p h post]: [p] holds [post a] after a run
    that returns [a] and in which no [munmap] failed. *)
Definition unmaps (e : event) : Prop :=
  let 'existT c r := e in
  match c return reply c -> Prop with SYS_munmap _ _ => fun r => is_error r = false | _ => fun _ => True end r.

Definition settles {A} (p : prog A) (h : held) (post : A -> held) : Prop :=
  forall e tr a e', run p e tr (Returned a) e' -> Forall unmaps tr -> after h tr = post a.

Lemma settles_keeps {A} (p : prog A) h post : keeps p h post -> settles p h post.
Proof. intros Hp e tr a e' H _. by eapply Hp. Qed.

Lemma settles_ret {A} (a : A) h post : h = post a -> settles (Ret a) h post.
Proof. intros Hp. by apply settles_keeps, keeps_ret. Qed.

Lemma settles_bind {A B} (p : prog A) (f : A -> prog B) h mid post :
  settles p h mid -> (forall a, settles (f a) (mid a) post) -> settles (p ≫= f) h post.
Proof.
  intros Hp Hf e tr b e' H Hu. apply run_bind_returned in H as (a & e1 & tr1 & tr2 & H1 & H2 & ->).
  apply Forall_app in Hu as [Hu1 Hu2]. rewrite after_app, (Hp _ _ _ _ H1 Hu1). apply (Hf a _ _ _ _ H2 Hu2).
Qed.

Lemma settles_munmap a len h : settles (munmap a len) h (fun _ => del_map (a, len) h).
Proof.
  intros e tr x e' (r & tr' & -> & H) Hu. apply Forall_cons in Hu as [Hu _]. unfold ev in Hu. cbn in Hu.
  unfold syscall_ret in H. cbn -[is_error] in H. destruct (is_error r) eqn:E; [done|]. destruct H as (-> & _).
  unfold ev, after. cbn. by rewrite E.
Qed.

#[export] Hint Resolve settles_munmap | 0 : ledger.
#[export] Hint Resolve settles_keeps | 1 : ledger.

Ltac settle1 :=
  cbv beta zeta;
  lazymatch goal with
  | |- settles (Ret _) _ _ => apply settles_ret; cbn; autorewrite with ledger; try reflexivity
  | |- settles (tp_assert _ _ _) _ _ => unfold tp_assert
  | |- settles (mbind _ _) _ _ => eapply settles_bind; [solve [eauto with ledger]|intros ?]
  | |- settles (match ?x with _ => _ end) _ _ => destruct x eqn:?
  | |- settles _ (match ?x with _ => _ end) _ => destruct x eqn:?
  end.
Ltac settle := repeat settle1.

End Ledger.
