(* ===== verification/TestMckProofs.v ===== *)
(** * Correctness of the test harness

    Which test case main runs and what it reports; the temporary files and the numbers. *)
From S2P Require Import Prelude CMachine Libc TestMck Ledger.
Import Libc TestMck Ledger.
#[local] Open Scope Z_scope.

Module TestMckProofs.

(** ** The command line *)

(** What main takes from the options: [None] when it stops at one of them, otherwise the last
    suite and the last number given. *)
Fixpoint chosen (evs : list opt_event) (ts : option string) (n : Z) : option (option string * Z) :=
  match evs with
  | [] => Some (ts, n)
  | Opt "s" optarg :: evs => chosen evs optarg n
  | Opt "n" (Some optarg) :: evs => chosen evs ts (atoi optarg)
  | _ => None
  end.

Lemma main_opts_chosen test_suites app evs ts n r :
  chosen evs ts n = Some r -> main_opts test_suites app evs ts n = Ret (inr r).
Proof.
  revert ts n. induction evs as [|[c a|m] evs IH]; intros ts n H; cbn in H |- *; [naive_solver| |done].
  destruct c as [[] [] [] [] [] [] [] []], a; try done; by apply IH.
Qed.

(** The overwritten argv: the application name, then the operands. *)
Lemma shift_argv_operands app args :
  shift_argv (getopt_argv app main_spec [] args) (getopt_optind app main_spec [] args) app
  = app :: operands (scan app main_spec [] args).
Proof.
  unfold shift_argv, getopt_argv, getopt_optind. replace (S _ - 1)%nat with (length (used (scan app main_spec [] args))) by lia.
  set (us := used _). set (ops := operands _). clearbody us ops.
  destruct us as [|u us] using rev_ind; [done|]. rewrite length_app, Nat.add_comm. cbn [length plus].
  rewrite <- app_assoc. change (app :: us ++ [u] ++ ops) with ((app :: us) ++ u :: ops).
  replace (S (length us)) with (length (app :: us)) by done.
  rewrite insert_app_r_alt, drop_app_length', Nat.sub_diag by done. done.
Qed.

Lemma main_chosen test_cases test_suites app args ts n :
  chosen (events (scan app main_spec [] args)) None INT_MIN = Some (Some ts, n) -> n <> INT_MIN ->
  main test_cases test_suites app args
  = match find_test_case test_cases ts n with
    | None => printf (ts +:+ "#" +:+ pretty n +:+ " is not found." +:+ nl);; Ret EXIT_FAILURE
    | Some tc =>
        let argv := app :: operands (scan app main_spec [] args) in
        print_info tc argv;; result ← run_test_case tc argv; report result
    end.
Proof.
  intros Hc Hn. unfold main. rewrite (main_opts_chosen _ _ _ _ _ _ Hc), shift_argv_operands.
  cbn [mbind prog_mbind bind]. by replace (n =? INT_MIN) with false by lia.
Qed.

Section main.
Context (test_cases : list test_case) (test_suites : list string) (app : string) (args : list string).

(** C13: on a command line whose options name a test case of the table, main runs the first such
    test case with the operands as its arguments (the application's name in front), and nothing
    else: the information, then the test, then the report. *)
Theorem main_runs_chosen ts n tc :
  chosen (events (scan app main_spec [] args)) None INT_MIN = Some (Some ts, n) -> n <> INT_MIN ->
  find_test_case test_cases ts n = Some tc ->
  let argv := app :: operands (scan app main_spec [] args) in
  test_suite tc = ts /\ num tc = n /\
  main test_cases test_suites app args
  = (print_info tc argv;; result ← run_test_case tc argv; report result).
Proof.
  intros Hc Hn Hf argv. rewrite (main_chosen _ _ _ _ _ _ Hc Hn), Hf.
  apply List.find_some in Hf as [_ Hm]. b2p. by apply String.eqb_eq in H0.
Qed.

End main.

(** The ways to name a test case: two words or one per option, in either order. *)
Definition plain_forms (ts : string) (n : Z) (args : list string) : list (list string) :=
  [["-s"; ts; "-n"; pretty n; "--"] ++ args; ["-n"; pretty n; "-s"; ts; "--"] ++ args;
   ["-s" +:+ ts; "-n" +:+ pretty n; "--"] ++ args; ["-n" +:+ pretty n; "-s" +:+ ts; "--"] ++ args].

Lemma pretty_nonempty (n : Z) : 0 <= n -> pretty n <> "".
Proof. intros Hn E. destruct (parse_int_pretty 10 n) as [k H]; [done|by right|]. by rewrite E in H. Qed.

Lemma plain_forms_scan app ts n args line :
  0 <= n < 2 ^ 31 -> ts <> "" -> line ∈ plain_forms ts n args ->
  chosen (events (scan app main_spec [] line)) None INT_MIN = Some (Some ts, n) /\
  operands (scan app main_spec [] line) = args.
Proof.
  intros Hn Hts Hl. pose proof (pretty_nonempty n (proj1 Hn)) as Hp. pose proof (atoi_pretty n Hn) as Ha.
  revert Hp Ha Hl. unfold plain_forms. generalize (pretty n). intros num Hp Ha Hl. set_unfold in Hl.
  destruct ts as [|t ts]; [done|]. destruct num as [|c num]; [done|].
  change ("-s" +:+ String t ts) with (String "-" (String "s" (String t ts))) in Hl.
  change ("-n" +:+ String c num) with (String "-" (String "n" (String c num))) in Hl.
  destruct Hl as [->|[->|[->|[->|[]]]]]; (split; [|done]); cbn -[atoi];
    rewrite ?String.string_of_list_ascii_of_string, Ha; done.
Qed.

(** however a suite and a number are spelled on the command line (two words or one, in either
    order), main runs the test case of that suite and number with exactly the arguments behind [--],
    whatever they look like, and says that it is not found when the table does not have it; if the
    suite or the number is missing, main prints the usage and fails. *)
Theorem plain_command_line test_cases test_suites app ts n args :
  0 <= n < 2 ^ 31 -> ts <> "" ->
  (forall line, line ∈ plain_forms ts n args ->
     main test_cases test_suites app line
     = match find_test_case test_cases ts n with
       | None => printf (ts +:+ "#" +:+ pretty n +:+ " is not found." +:+ nl);; Ret EXIT_FAILURE
       | Some tc => print_info tc (app :: args);; result ← run_test_case tc (app :: args); report result
       end) /\
  (forall line, line ∈ [["-s"; ts; "--"] ++ args; ["-n"; pretty n; "--"] ++ args; "--" :: args; []] ->
     main test_cases test_suites app line = (usage test_suites app;; Ret EXIT_FAILURE)).
Proof.
  intros Hn Hts. split; intros line Hl.
  - destruct (plain_forms_scan app ts n args line Hn Hts Hl) as [Hc Ho].
    assert (n <> INT_MIN) as Hm by (unfold INT_MIN; lia).
    rewrite (main_chosen _ _ _ _ _ _ Hc Hm). by rewrite Ho.
  - set_unfold in Hl. destruct Hl as [->|[->|[->|[->|[]]]]]; done.
Qed.

(** A table with one test case that passes and prints its arguments. *)
Definition echo_case : test_case :=
  TestCase "echo" 5 (list string) (fun _ argv => Ret argv) (fun _ argv => print_args argv;; Ret None)
    (fun _ _ => Ret tt).

(** Options and operands mixed; the operands keep their order. *)
Lemma main_runs_chosen_witness :
  main [echo_case] ["echo"] "t" ["x"; "-n5"; "-s"; "echo"; "--"; "-y"]
  = (print_info echo_case ["t"; "x"; "-y"];; result ← run_test_case echo_case ["t"; "x"; "-y"]; report result).
Proof.
  apply (main_runs_chosen [echo_case] ["echo"] "t" ["x"; "-n5"; "-s"; "echo"; "--"; "-y"] "echo" 5 echo_case);
    by vm_compute.
Defined.

Lemma plain_command_line_witness :
  main [echo_case] ["echo"] "t" ["-n5"; "-secho"; "--"; "-s"; "a b"]
  = (print_info echo_case ["t"; "-s"; "a b"];; result ← run_test_case echo_case ["t"; "-s"; "a b"]; report result) /\
  main [echo_case] ["echo"] "t" ["-s"; "echo"; "--"; "-n"] = (usage ["echo"] "t";; Ret EXIT_FAILURE).
Proof.
  assert (0 <= 5 < 2 ^ 31) as Hn by lia. assert ("echo" <> ""%string) as Hts by done. split.
  - apply (proj1 (plain_command_line [echo_case] ["echo"] "t" "echo" 5 ["-s"; "a b"] Hn Hts)).
    right. right. right. left.
  - apply (proj2 (plain_command_line [echo_case] ["echo"] "t" "echo" 5 ["-n"] Hn Hts)). left.
Defined.

(** ** The result of a run *)

(** A run of a test case is a run of setup, then of the test, then of teardown. *)
Lemma run_test_case_phases tc argv e tr v e' :
  run (run_test_case tc argv) e tr (Returned v) e' ->
  exists a e1 e2 tr1 tr2 tr3, tr = tr1 ++ tr2 ++ tr3 /\
    run (setup tc (num tc) argv) e tr1 (Returned a) e1 /\
    run (run_tc tc (num tc) a) e1 tr2 (Returned v) e2 /\
    run (teardown tc (num tc) a) e2 tr3 (Returned tt) e'.
Proof.
  intros H. unfold run_test_case in H.
  apply run_bind_returned in H as (a & e1 & tr1 & tr' & H1 & H & ->).
  apply run_bind_returned in H as (v' & e2 & tr2 & tr'' & H2 & H & ->).
  apply run_bind_returned in H as ([] & e3 & tr3 & tr4 & H3 & H & ->).
  destruct H as (-> & [= ->] & ->). rewrite app_nil_r.
  by exists a, e1, e2, tr1, tr2, tr3.
Qed.

Definition printed (text : string) : event := ev (OUT text) tt.

Lemma print_args_run l e tr e' :
  run (print_args l) e tr (Returned tt) e' -> tr = (fun a => printed (a +:+ " ")) <$> l /\ e' = e.
Proof.
  revert tr. induction l as [|a l IH]; intros tr H; cbn in H; [naive_solver|].
  destruct H as ([] & tr' & -> & H). apply IH in H as [-> ->]. done.
Qed.

(** C14: when main has chosen a test case and returns, it has printed the name, number and arguments
    of the test, run its setup, the test and its teardown in this order, and it returns EXIT_SUCCESS
    after printing "RESULT: ok" if the test returned NULL, and EXIT_FAILURE after printing the
    test's message otherwise. *)
Theorem main_exit_status tc argv e tr st e' :
  run (print_info tc argv;; result ← run_test_case tc argv; report result) e tr (Returned st) e' ->
  exists v a e1 e2 tr1 tr2 tr3,
    tr = ([printed ("TEST_SUITE: " +:+ test_suite tc +:+ nl);
           printed ("TEST_NUMBER: " +:+ pretty (num tc) +:+ nl); printed "ARGS: "] ++
          ((fun a => printed (a +:+ " ")) <$> drop 1 argv) ++ [printed nl]) ++ tr1 ++ tr2 ++ tr3 ++
         [printed (match v with None => "RESULT: ok" +:+ nl | Some msg => "RESULT: " +:+ msg +:+ nl end)] /\
    run (setup tc (num tc) argv) e tr1 (Returned a) e1 /\
    run (run_tc tc (num tc) a) e1 tr2 (Returned v) e2 /\
    run (teardown tc (num tc) a) e2 tr3 (Returned tt) e' /\
    st = (if is_NULL v then EXIT_SUCCESS else EXIT_FAILURE).
Proof.
  intros H. apply run_bind_returned in H as ([] & e0 & tri & trr & Hi & H & ->).
  assert (tri = [printed ("TEST_SUITE: " +:+ test_suite tc +:+ nl);
           printed ("TEST_NUMBER: " +:+ pretty (num tc) +:+ nl); printed "ARGS: "] ++
          ((fun a => printed (a +:+ " ")) <$> drop 1 argv) ++ [printed nl] /\ e0 = e) as [-> ->].
  { unfold print_info in Hi. destruct Hi as ([] & t1 & -> & [] & t2 & -> & [] & t3 & -> & Hi).
    change (run (bind (print_args (drop 1 argv)) (fun _ => printf nl)) e t3 (Returned tt) e0) in Hi.
    apply run_bind in Hi as [([] & ea & ta & tb & Ha & Hb & ->)|Hi]; [|naive_solver].
    apply print_args_run in Ha as [-> ->]. destruct Hb as ([] & t4 & -> & -> & _ & ->). done. }
  apply run_bind_returned in H as (v & e1 & tr1 & tr2 & H1 & H & ->).
  apply run_test_case_phases in H1 as (a & ea & eb & t1 & t2 & t3 & -> & Hs & Hr & Ht).
  exists v, a, ea, eb, t1, t2, t3.
  destruct v as [msg|]; destruct H as ([] & t4 & -> & -> & [= ->] & ->); rewrite <- !app_assoc; done.
Qed.

Definition echo_trace : list event :=
  printed <$> [("TEST_SUITE: echo" +:+ nl)%string; ("TEST_NUMBER: 5" +:+ nl)%string; "ARGS: "; "x "; nl; "t "; "x ";
               ("RESULT: ok" +:+ nl)%string].

Lemma main_exit_status_witness :
  exists v, is_NULL v = true /\ 0 = (if is_NULL v then EXIT_SUCCESS else EXIT_FAILURE).
Proof.
  assert (run (print_info echo_case ["t"; "x"];; result ← run_test_case echo_case ["t"; "x"]; report result)
    0 echo_trace (Returned 0) 0) as H.
  { do 8 (eexists tt, _; split; [reflexivity|]). done. }
  destruct (main_exit_status _ _ _ _ _ _ H) as (v & _ & _ & _ & _ & _ & _ & _ & _ & _ & _ & Hst).
  exists v. split; [|done]. by destruct v.
Defined.

(** ** Temporary files *)

(** whatever the system calls reply, a call that creates a temporary file ends with the file
    closed, and either returns its path, which is then the only thing the caller has to give back, or
    returns NULL with the path freed. *)
Theorem create_temp_file_no_leak prefix size h e tr v e' :
  run (test_mck_create_temp_file prefix size) e tr (Returned v) e' ->
  after h tr = match v with Some path => add_string path h | None => h end.
Proof.
  revert e tr v e'. change (keeps (test_mck_create_temp_file prefix size) h
    (fun v => match v with Some path => add_string path h | None => h end)).
  unfold test_mck_create_temp_file. keep.
Qed.

Lemma create_temp_file_no_leak_witness :
  after none [ev (LIBC_asprintf "t-XXXXXX") (Some "t-XXXXXX"%string); ev (LIBC_mkstemp "t-XXXXXX") (3, "t-abcdef"%string);
              ev (SYS_lseek 3 4095 0) (-22); ev (SYS_close 3) 0; ev (SYS_unlink "t-abcdef") 0;
              ev (LIBC_free "t-abcdef") tt] = none.
Proof.
  apply (create_temp_file_no_leak "t" 4096 none 0 _ None 22).
  do 6 (eexists _, _; split; [reflexivity|]; cbn). done.
Defined.

(** The next request of a run, with its reply and what the wrapper makes of it. *)
Ltac sys H r :=
  let t := fresh "t" in
  destruct H as (r & t & -> & H); cbn in H; unfold syscall_ret in H; destruct (is_error r); cbn in H.

Lemma not_error r : 0 <= r -> is_error r = false.
Proof. intros Hr. unfold is_error. replace (r <=? -1) with false by lia. apply andb_false_r. Qed.

(** The last 32 bits of an offset are all ones exactly before a multiple of 4 GiB. *)
Lemma s32_minus_one size : (s32 (size - 1) =? -1) = (size mod 2 ^ 32 =? 0).
Proof.
  unfold wrap_s. change (2 ^ (32 - 1)) with (2 ^ 31).
  assert ((size - 1 + 2 ^ 31) mod 2 ^ 32 = 2 ^ 31 - 1 <-> size mod 2 ^ 32 = 0) as Hm.
  { split; intros H; Z.div_mod_to_equations; lia. }
  destruct (Z.eqb_spec (size mod 2 ^ 32) 0), (Z.eqb_spec ((size - 1 + 2 ^ 31) mod 2 ^ 32 - 2 ^ 31) (-1)); lia.
Qed.

(** with a kernel that creates the file and seeks to the offset it is asked for, the file is
    made [size] bytes long and its path returned, except when [size] is a multiple of 4 GiB: the
    offset, kept in an int, then reads as -1, the file is removed and NULL returned. *)
Theorem create_temp_file_size prefix size t fd path e tr v e' :
  1 <= size <= 2 ^ 63 -> 0 <= fd ->
  run (test_mck_create_temp_file prefix size) e
    (ev (LIBC_asprintf (prefix +:+ "-XXXXXX")) (Some t) :: ev (LIBC_mkstemp t) (fd, path) ::
     ev (SYS_lseek fd (size - 1) 0) (size - 1) :: tr) (Returned v) e' ->
  if size mod 2 ^ 32 =? 0 then
    v = None /\ exists r1 r2, tr = [ev (SYS_close fd) r1; ev (SYS_unlink path) r2; ev (LIBC_free path) tt]
  else
    v = Some path /\ exists r1 r2 r3, tr = [ev (SYS_write fd [chr "Z"]) r1; ev (SYS_fsync fd) r2; ev (SYS_close fd) r3].
Proof.
  intros Hs Hf H.
  assert (s64 (u64 (size - 1)) = size - 1) as Eoff.
  { rewrite wrap_u_small by lia. apply wrap_s_small; lia. }
  unfold test_mck_create_temp_file in H. rewrite Eoff in H.
  apply run_vis in H. cbn [mbind prog_mbind bind] in H. apply run_vis in H.
  unfold syscall_ret at 1 in H. rewrite not_error in H by done. cbn [bind mbind prog_mbind] in H.
  replace (fd =? -1) with false in H by lia. apply run_vis in H.
  unfold syscall_ret at 1 in H. rewrite not_error in H by lia. cbn [bind mbind prog_mbind] in H.
  rewrite s32_minus_one in H. destruct (size mod 2 ^ 32 =? 0).
  - sys H r1. all: sys H r2. all: destruct H as ([] & ? & -> & -> & [= ->] & _); eauto.
  - sys H r1. all: sys H r2. all: sys H r3. all: destruct H as (-> & [= ->] & _); eauto.
Qed.

Lemma create_temp_file_size_witness : exists v, v = @None string /\ (2 ^ 32 mod 2 ^ 32 =? 0) = true.
Proof.
  exists None. split; [|done].
  apply (create_temp_file_size "t" (2 ^ 32) "t-XXXXXX" 3 "t-abcdef" 0
    [ev (SYS_close 3) 0; ev (SYS_unlink "t-abcdef") 0; ev (LIBC_free "t-abcdef") tt] None 0); [lia|lia|].
  do 6 (eexists _, _; split; [reflexivity|]; cbn). done.
Defined.

(** ** Numbers *)

(** a decimal number up to LONG_MAX is read back as itself; larger ones, although they fit an
    unsigned long, a string that starts with no number, and NULL give the default value. *)
Theorem test_mck_strtoul_values d e :
  (forall n, 0 <= n <= LONG_MAX -> run (test_mck_strtoul (Some (pretty n)) d) e [] (Returned n) 0) /\
  (forall n, LONG_MAX < n -> run (test_mck_strtoul (Some (pretty n)) d) e [] (Returned d) ERANGE) /\
  (forall s, parse_int 0 s = None -> run (test_mck_strtoul (Some s) d) e [] (Returned d) 0) /\
  run (test_mck_strtoul None d) e [] (Returned d) e.
Proof.
  split; [|split; [|split]]; [intros n Hn..|intros s Hs|done].
  - unfold test_mck_strtoul, strtoll. destruct (parse_int_pretty 0 n) as [k ->]; [lia|by left|].
    unfold LONG_MIN, LONG_MAX in *. replace (n <? - 2 ^ 63) with false by lia.
    replace (2 ^ 63 - 1 <? n) with false by lia. cbn [c_value c_end c_erange Nat.eqb].
    rewrite wrap_u_small, andb_false_r by lia. cbn. by rewrite andb_false_r.
  - unfold test_mck_strtoul, strtoll. destruct (parse_int_pretty 0 n) as [k ->]; [unfold LONG_MAX in *; lia|by left|].
    unfold LONG_MIN. replace (n <? - 2 ^ 63) with false by (unfold LONG_MAX in *; lia).
    replace (LONG_MAX <? n) with true by lia. cbn [c_value c_end c_erange Nat.eqb].
    by rewrite andb_false_r.
  - unfold test_mck_strtoul, strtoll. rewrite Hs. done.
Qed.

Example strtoul_hex : run (test_mck_strtoul (Some "0x1F"%string) 7) 0 [] (Returned 31) 0.
Proof. by vm_compute. Qed.
Example strtoul_junk : run (test_mck_strtoul (Some "page"%string) 7) 0 [] (Returned 7) 0.
Proof. by vm_compute. Qed.

End TestMckProofs.
