(* ===== verification/MremapSuite.v ===== *)
(** * The mremap_mmap_anon suite under the harness

    The arguments of the suite (mremap_mmap_anon_parse_argument and
    mremap_mmap_anon_verify_section_argument), its test cases as the harness knows them, and the
    whole program: the command line of the harness against a kernel. *)
From S2P Require Import Prelude CMachine Align VmSpec RefKernel Mremap MremapTests Libc TestMck TestMckProofs.
Import Align Mremap MremapTests Libc TestMck.
#[local] Open Scope Z_scope.

Module MremapSuite.

(** [struct mremap_args]. *)
Record mremap_args := MremapArgs {
  text : Z;
  text_len : Z;
  data : Z;
  data_len : Z;
  bss : Z;
  bss_len : Z
}.

Definition long_options : longopts :=
  [("text"%string, "t"%char); ("text-len"%string, "T"%char); ("data"%string, "d"%char);
   ("data-len"%string, "D"%char); ("bss"%string, "b"%char); ("bss-len"%string, "B"%char)].
Definition short_options : optstring :=
  [("t"%char, true); ("T"%char, true); ("d"%char, true); ("D"%char, true); ("b"%char, true); ("B"%char, true)].

(** The loop over getopt_long. *)
Fixpoint parse_opts (evs : list opt_event) (a : mremap_args) : prog mremap_args :=
  match evs with
  | [] => Ret a
  | Opt "t" arg :: evs =>
      v ← test_mck_strtoul arg 0;
      parse_opts evs (MremapArgs v (text_len a) (data a) (data_len a) (bss a) (bss_len a))
  | Opt "T" arg :: evs =>
      v ← test_mck_strtoul arg 0;
      parse_opts evs (MremapArgs (text a) v (data a) (data_len a) (bss a) (bss_len a))
  | Opt "d" arg :: evs =>
      v ← test_mck_strtoul arg 0;
      parse_opts evs (MremapArgs (text a) (text_len a) v (data_len a) (bss a) (bss_len a))
  | Opt "D" arg :: evs =>
      v ← test_mck_strtoul arg 0;
      parse_opts evs (MremapArgs (text a) (text_len a) (data a) v (bss a) (bss_len a))
  | Opt "b" arg :: evs =>
      v ← test_mck_strtoul arg 0;
      parse_opts evs (MremapArgs (text a) (text_len a) (data a) (data_len a) v (bss_len a))
  | Opt "B" arg :: evs =>
      v ← test_mck_strtoul arg 0;
      parse_opts evs (MremapArgs (text a) (text_len a) (data a) (data_len a) (bss a) v)
  | Bad msg :: evs => fprintf_stderr msg;; parse_opts evs a
  | _ :: evs => parse_opts evs a
  end.

Definition no_args : mremap_args := MremapArgs 0 0 0 0 0 0.

Definition mremap_mmap_anon_parse_argument (argv : list string) : prog mremap_args :=
  parse_opts (events (scan (default "" (argv !! 0%nat)) short_options long_options (drop 1 argv))) no_args.

Definition mremap_mmap_anon_verify_section_argument (a : mremap_args) : prog verdict :=
  TP_ASSERT negb (text a =? 0), Some "invalid argument(-t, --text).";;
  TP_ASSERT negb (text_len a =? 0), Some "invalid argument(-T, --text-len).";;
  TP_ASSERT negb (data a =? 0), Some "invalid argument(-d, --data).";;
  TP_ASSERT negb (data_len a =? 0), Some "invalid argument(-D, --data-len).";;
  TP_ASSERT negb (bss a =? 0), Some "invalid argument(-b, --bss).";;
  TP_ASSERT negb (bss_len a =? 0), Some "invalid argument(-B, --bss-len).";;
  Ret None.

(** SETUP_FUNC of the first test case of a family; the others are aliases of it.  The test functions
    do not look at the arguments. *)
Definition mremap_case (n : Z) (test : prog verdict) : test_case :=
  TestCase "mremap_mmap_anon" n mremap_args (fun _ argv => mremap_mmap_anon_parse_argument argv)
    (fun _ _ => test) (fun _ _ => Ret tt).

Definition mremap_cases : list test_case := (fun '(n, test) => mremap_case n test) <$> mremap_mmap_anon_tests.

(** ** The arguments *)

(** The six numbers, in the short or the long form of their options. *)
Definition short_form (a : mremap_args) : list string :=
  ["-t"; pretty (text a); "-T"; pretty (text_len a); "-d"; pretty (data a); "-D"; pretty (data_len a);
   "-b"; pretty (bss a); "-B"; pretty (bss_len a)].
Definition long_form (a : mremap_args) : list string :=
  ["--text"; pretty (text a); "--text-len"; pretty (text_len a); "--data"; pretty (data a);
   "--data-len"; pretty (data_len a); "--bss"; pretty (bss a); "--bss-len"; pretty (bss_len a)].

Lemma run_strtoul n e (k : Z -> prog mremap_args) tr o e' :
  0 <= n <= LONG_MAX -> run (k n) 0 tr o e' -> run (test_mck_strtoul (Some (pretty n)) 0 ≫= k) e tr o e'.
Proof.
  intros Hn Hk. apply run_bind. left. exists n, 0, [], tr. split; [|done].
  unfold test_mck_strtoul, strtoll. destruct (parse_int_pretty 0 n) as [j ->]; [lia|by left|].
  unfold LONG_MIN, LONG_MAX in *. replace (n <? - 2 ^ 63) with false by lia.
  replace (2 ^ 63 - 1 <? n) with false by lia. cbn [c_value c_end c_erange Nat.eqb].
  rewrite wrap_u_small, andb_false_r by lia. cbn. by rewrite andb_false_r.
Qed.

(** the options of the suite, printed in the short or in the long form, are read back as they
    were, and the check of the arguments accepts them exactly when none of them is 0. *)
Theorem mremap_arguments_roundtrip a app form :
  form = short_form a \/ form = long_form a ->
  Forall (fun n => 0 <= n <= LONG_MAX) [text a; text_len a; data a; data_len a; bss a; bss_len a] ->
  run (mremap_mmap_anon_parse_argument (app :: form)) 0 [] (Returned a) 0 /\
  (run (mremap_mmap_anon_verify_section_argument a) 0 [] (Returned None) 0 <->
   Forall (fun n => n <> 0) [text a; text_len a; data a; data_len a; bss a; bss_len a]).
Proof.
  intros Hf Ha. rewrite Forall_forall in Ha. split.
  - destruct Hf as [-> | ->]; unfold mremap_mmap_anon_parse_argument; cbn -[test_mck_strtoul];
      do 6 (apply run_strtoul; [apply Ha; set_solver|]; cbn [text text_len data data_len bss bss_len]);
      by destruct a.
  - unfold mremap_mmap_anon_verify_section_argument. rewrite Forall_forall. split.
    + intros H. repeat apply run_tp_assert in H as [[? H]|(_ & _ & [=] & _)]. b2p. intros n Hn. set_unfold. naive_solver.
    + intros H.
      repeat match goal with |- context [negb (?x =? 0)] =>
        replace (x =? 0) with false by (symmetry; apply Z.eqb_neq, H; set_solver) end. done.
Qed.

Lemma mremap_arguments_roundtrip_witness :
  run (mremap_mmap_anon_parse_argument ("test_mck" :: long_form (MremapArgs 1 2 3 4 5 6))) 0 [] (Returned (MremapArgs 1 2 3 4 5 6)) 0.
Proof.
  apply (mremap_arguments_roundtrip (MremapArgs 1 2 3 4 5 6) "test_mck"); [by right|].
  repeat constructor; by vm_compute.
Defined.

(** ** The whole program *)

Lemma mremap_case_found n test :
  (n, test) ∈ mremap_mmap_anon_tests ->
  find_test_case mremap_cases "mremap_mmap_anon" n = Some (mremap_case n test).
Proof.
  intros Hin. unfold find_test_case, mremap_cases.
  assert (NoDup (fst <$> mremap_mmap_anon_tests)) as Hnd by (vm_compute; by apply (bool_decide_unpack _)).
  revert Hin Hnd. generalize mremap_mmap_anon_tests as l. induction l as [|[n' test'] l IH]; intros Hin Hnd.
  { by apply not_elem_of_nil in Hin. }
  csimpl in *. apply NoDup_cons in Hnd as [Hn' Hnd]. cbn [num test_suite mremap_case].
  apply elem_of_cons in Hin as [[= <- <-]|Hin]; [by rewrite Z.eqb_refl|].
  destruct (Z.eqb_spec n' n) as [->|]; [|by apply IH].
  exfalso. apply Hn'. apply list_elem_of_fmap. by exists (n, test).
Qed.

Lemma suite_numbers : Forall (fun '(n, _) => 0 <= n < 2 ^ 31) mremap_mmap_anon_tests.
Proof. by repeat constructor. Qed.

Section program.
Context {K : Kernel} {V : VmKernel K}.
Implicit Type m : mach.

Lemma exec_out t m :
  exists m', exec (printf t) m = (Returned tt, m') /\ avail (kern m) <= avail (kern m').
Proof. destruct (out_ok (kern m) t) as (s' & E & _ & _ & Ha). eexists. cbn. rewrite E. done. Qed.

(** Steps over a printf. *)
Ltac out :=
  match goal with |- context [exec (printf ?t ≫= _) ?m] =>
    let m' := fresh "m" in let E := fresh "E" in let A := fresh "A" in
    destruct (exec_out t m) as (m' & E & A); rewrite (exec_mbind _ _ _ _ _ E); clear E
  end.

Lemma exec_print_info tc argv m :
  drop 1 argv = [] ->
  exists m', exec (print_info tc argv) m = (Returned tt, m') /\ avail (kern m) <= avail (kern m').
Proof.
  intros Ha. unfold print_info. rewrite Ha. out. out. out. cbn [print_args].
  destruct (exec_out nl m2) as (m3 & E & A3). exists m3. split; [exact E|lia].
Qed.

Lemma exec_report_ok m : exists m', exec (report None) m = (Returned EXIT_SUCCESS, m').
Proof. unfold report. out. by eexists. Qed.

(** C1: on a kernel whose memory behaves as documented and that has room for the mappings, the harness
    called with the name of the suite and the number of any of its 68 test cases ends with exit status
    0: it returns EXIT_SUCCESS, or the handler of the signal the test provokes exits with 0. *)
Theorem harness_runs_mremap_suite test_suites app m :
  9 * MREMAP_RANGE_LARGE_SIZE <= avail (kern m) ->
  Forall (fun '(n, _) =>
    exists m', run_with_signals
      (main mremap_cases test_suites app ["-s"; "mremap_mmap_anon"; "-n"; pretty n; "--"]) m
    = (if ends_by_signal n then Exited 0 else Returned EXIT_SUCCESS, m')) mremap_mmap_anon_tests.
Proof.
  intros Hm. pose proof suite_numbers as Hnum. rewrite !Forall_forall in *. intros [n test] Hin.
  specialize (Hnum _ Hin). cbv beta iota in Hnum.
  assert (main mremap_cases test_suites app ["-s"; "mremap_mmap_anon"; "-n"; pretty n; "--"]
    = (print_info (mremap_case n test) [app];;
       result ← run_test_case (mremap_case n test) [app]; report result)) as ->.
  { unfold main. cbn -[find_test_case print_info mremap_cases mremap_case run_test_case report].
    rewrite atoi_pretty by done.
    unfold INT_MIN. replace (n =? - 2 ^ 31) with false by lia. by rewrite (mremap_case_found n test). }
  destruct (exec_print_info (mremap_case n test) [app] m eq_refl) as (m1 & E1 & A1).
  unfold run_with_signals. rewrite (exec_mbind _ _ _ _ _ E1).
  assert (runs_to n test m1) as [m2 Hr].
  { assert (9 * MREMAP_RANGE_LARGE_SIZE <= avail (kern m1)) as Hm1 by (etrans; [exact Hm|exact A1]).
    pose proof (suite_runs m1 Hm1) as Hs. rewrite Forall_forall in Hs. exact (Hs (n, test) Hin). }
  change (run_test_case (mremap_case n test) [app]) with (msg ← test; Ret tt;; Ret msg).
  destruct (ends_by_signal n).
  - destruct Hr as [sig Hr]. erewrite exec_mbind_trap; [|by eapply exec_mbind_trap].
    by eexists.
  - erewrite exec_mbind; [|by rewrite (exec_mbind _ _ _ _ _ Hr)].
    destruct (exec_report_ok m2) as [m3 ->]. by eexists.
Qed.

End program.

Lemma harness_runs_mremap_suite_witness :
  let m := @Mach RefKernel.kernel 0 RefKernel.init in
  exists m', run_with_signals
    (main mremap_cases ["mremap_mmap_anon"%string] "test_mck" ["-s"; "mremap_mmap_anon"; "-n"; pretty 0; "--"]) m
  = (Returned EXIT_SUCCESS, m').
Proof.
  intros m.
  pose proof (harness_runs_mremap_suite (V := RefKernel.vm_kernel) ["mremap_mmap_anon"%string] "test_mck" m) as H.
  apply Forall_inv in H; [exact H|by vm_compute].
Defined.

End MremapSuite.
