(* ===== verification/Drv.v ===== *)
(** * The test driver (src/src/test_drv/)

    A Linux character device module with two devices (test_suite.list: mmap_dev, mmap_dev2) and two
    procfs files.  Its operations run in a state monad over the module's variables and the log of
    the calls it makes to the Linux kernel.  What those calls return is not the driver's code: it is
    the parameter [env].  An access through a NULL pointer ends the computation ([None], the kernel
    oops).  The messages of [mck_printk] are left out. *)
From S2P Require Import Prelude CMachine Align.
Import Align.
#[local] Open Scope Z_scope.

Module Drv.

(** ** Data *)

(** test_suite.list: the devices, in the order of [enum test_mck_nr_devs]. *)
Inductive suite : Set := mmap_dev | mmap_dev2.
#[global] Instance suite_eq_dec : EqDecision suite.
Proof. solve_decision. Defined.

Definition suite_name (t : suite) : string :=
  match t with mmap_dev => "mmap_dev" | mmap_dev2 => "mmap_dev2" end.

Definition suite_list : list suite := [mmap_dev; mmap_dev2].
Definition test_mck_nr_devs : Z := 2.

(** [struct test_mck_dev]: the pointers [private_data] and [class] are [None] when NULL; the
    [fops], [init] and [fin] pointers are those of the suite. *)
Record test_mck_dev := Dev {
  ts : suite;
  private_data : option Z;
  devno : Z;
  class : option Z
}.

(** Calls of the kernel, in the order they are made. *)
Inductive kcall : Set :=
| K_alloc_chrdev_region (minor count : Z)
| K_unregister_chrdev_region (devno count : Z)
| K_class_create (name : string)
| K_class_destroy (class : option Z)
| K_cdev_init (t : suite)
| K_cdev_add (t : suite) (devno : Z)
| K_cdev_del (t : suite)
| K_device_create (class : option Z) (devno : Z) (name : string)
| K_device_destroy (class : option Z) (devno : Z)
| K_vmalloc_user (size : Z)
| K_vfree (addr : Z)
| K_vmalloc_to_page (addr : Z)
| K_get_page (addr : Z)
| K_remap_pfn_range (start pfn size : Z)
| K_proc_mkdir (name : string)
| K_proc_create (name : string)
| K_remove_proc_entry (name : string).
#[global] Instance kcall_eq_dec : EqDecision kcall.
Proof. solve_decision. Defined.

(** What the kernel replies: the result and device number of [alloc_chrdev_region], the class of a
    device (or an error pointer), the result of [cdev_add], the buffer [vmalloc_user] returns,
    whether the procfs entries could be made, and the result of [remap_pfn_range]. *)
Record env := Env {
  e_alloc : Z * Z;
  e_class : suite -> option Z;
  e_cdev_add : suite -> Z;
  e_vmalloc : option Z;
  e_mkdir : bool;
  e_pcreate : string -> bool;
  e_remap : Z
}.

(** The module's variables, the contents of the buffers it owns, and the log. *)
Record drv := Drv {
  test_mck_major : Z;
  test_mck_majmin : list Z;
  test_mck_devlist : list test_mck_dev;
  procdir : bool;
  proc_ents : list (string * bool);
  buffers : gmap Z (list Z);
  log : list kcall
}.

Definition test_mck_minor : Z := 0.
Definition TEST_MCK_PROCFS_DIRNAME : string := "test_mck".
Definition MAJMIN_SIZE : Z := test_mck_nr_devs * 8 + 1.

(** The module as it is loaded. *)
Definition module_image : drv :=
  Drv 0 (replicate (Z.to_nat MAJMIN_SIZE) 0) ((fun t => Dev t None 0 None) <$> suite_list)
      false [("devno", false); ("tp_names", false)] ∅ [].

(** [MKDEV] and [MAJOR] of <linux/kdev_t.h>. *)
Definition MKDEV (ma mi : Z) : Z := Z.shiftl ma 20 .| mi.
Definition MAJOR (dev : Z) : Z := Z.shiftr dev 20.

(** ** The state monad *)

Definition M (A : Type) : Type := drv -> option (A * drv).
#[global] Instance M_ret : MRet M := fun A a d => Some (a, d).
#[global] Instance M_bind : MBind M :=
  fun A B f c d => match c d with Some (a, d) => f a d | None => None end.

Definition get : M drv := fun d => Some (d, d).
Definition modify (f : drv -> drv) : M unit := fun d => Some (tt, f d).
Definition oops {A} : M A := fun _ => None.

Definition call (k : kcall) : M unit := modify (fun d =>
  Drv (test_mck_major d) (test_mck_majmin d) (test_mck_devlist d) (procdir d) (proc_ents d)
    (buffers d) (log d ++ [k])).
Definition set_major (v : Z) : M unit := modify (fun d =>
  Drv v (test_mck_majmin d) (test_mck_devlist d) (procdir d) (proc_ents d) (buffers d) (log d)).
Definition set_majmin (v : list Z) : M unit := modify (fun d =>
  Drv (test_mck_major d) v (test_mck_devlist d) (procdir d) (proc_ents d) (buffers d) (log d)).
Definition set_procdir (v : bool) : M unit := modify (fun d =>
  Drv (test_mck_major d) (test_mck_majmin d) (test_mck_devlist d) v (proc_ents d) (buffers d) (log d)).
Definition set_pent (i : nat) (v : bool) : M unit := modify (fun d =>
  Drv (test_mck_major d) (test_mck_majmin d) (test_mck_devlist d) (procdir d)
    (alter (fun '(n, _) => (n, v)) i (proc_ents d)) (buffers d) (log d)).
Definition upd_dev (i : nat) (f : test_mck_dev -> test_mck_dev) : M unit := modify (fun d =>
  Drv (test_mck_major d) (test_mck_majmin d) (alter f i (test_mck_devlist d)) (procdir d)
    (proc_ents d) (buffers d) (log d)).
Definition upd_buffers (f : gmap Z (list Z) -> gmap Z (list Z)) : M unit := modify (fun d =>
  Drv (test_mck_major d) (test_mck_majmin d) (test_mck_devlist d) (procdir d) (proc_ents d)
    (f (buffers d)) (log d)).

(** The buffers: allocated zeroed, rewritten in place, freed. *)
Definition put_buffer (p size : Z) (m : gmap Z (list Z)) : gmap Z (list Z) :=
  <[p := replicate (Z.to_nat size) 0]> m.
Definition rewrite_buffer (p : Z) (f : list Z -> list Z) (m : gmap Z (list Z)) : gmap Z (list Z) :=
  alter f p m.
Definition free_buffer (p : Z) (m : gmap Z (list Z)) : gmap Z (list Z) := delete p m.

(** [dev->private_data] of the device at index [i] of the device list, which is what a pointer to a
    device is here. *)
Definition private_of (i : nat) : M (option Z) :=
  d ← get; mret (test_mck_devlist d !! i ≫= private_data).

Definition set_class (c : option Z) (v : test_mck_dev) : test_mck_dev :=
  Dev (ts v) (private_data v) (devno v) c.
Definition set_devno (n : Z) (v : test_mck_dev) : test_mck_dev :=
  Dev (ts v) (private_data v) n (class v).
Definition set_private (p : option Z) (v : test_mck_dev) : test_mck_dev :=
  Dev (ts v) p (devno v) (class v).

(** ** test_mck_drv-mmap_dev2.c *)

Definition buf_size : Z := PAGE_SIZE * 3.

(** The bytes [[off, off+len)] of a buffer set to [val], as [memset] does. *)
Definition buf_memset (b : list Z) (off val len : Z) : list Z :=
  list_inserts (Z.to_nat off) (replicate (Z.to_nat len) (u8 val)) b.

(** The loop of test_mck_mmap_dev2_buffer_reset; [n] bounds its iterations. *)
Fixpoint reset_loop (n : nat) (off val : Z) (b : list Z) : list Z :=
  match n with
  | O => b
  | S n =>
      if off <? buf_size then
        let len := if off + PAGE_SIZE <? buf_size then PAGE_SIZE else buf_size - off in
        reset_loop n (off + PAGE_SIZE) (val + 1) (buf_memset b off val len)
      else b
  end.

Definition reset_buffer (b : list Z) : list Z := reset_loop (Z.to_nat buf_size) 0 1 b.

(** [memset] through a NULL [dev->private_data] is an oops. *)
Definition test_mck_mmap_dev2_buffer_reset (dev : nat) : M unit :=
  start ← private_of dev;
  match start with
  | Some p => upd_buffers (rewrite_buffer p reset_buffer)
  | None => oops
  end.

Section with_env.
Context (E : env).

(** [vmalloc_user] returns zeroed memory. *)
Definition vmalloc_user (size : Z) : M (option Z) :=
  call (K_vmalloc_user size);;
  match e_vmalloc E with
  | None => mret None
  | Some p => upd_buffers (put_buffer p size);; mret (Some p)
  end.

Definition test_mck_mmap_dev2_init (dev : nat) : M Z :=
  p ← vmalloc_user buf_size;
  upd_dev dev (set_private p);;
  match p with
  | None => mret (- ENOMEM)
  | Some _ => test_mck_mmap_dev2_buffer_reset dev;; mret 0
  end.

Definition test_mck_mmap_dev2_fin (dev : nat) : M unit :=
  p ← private_of dev;
  match p with
  | Some p => call (K_vfree p);; upd_buffers (free_buffer p);; upd_dev dev (set_private None)
  | None => mret tt
  end.

(** ** test_mck_drv-mmap_dev.c *)

Definition test_mck_mmap_dev_init (dev : nat) : M Z := mret 0.
Definition test_mck_mmap_dev_fin (dev : nat) : M unit := mret tt.

(** The [init] and [fin] pointers of the device list. *)
Definition dev_init (t : suite) (i : nat) : M Z :=
  match t with mmap_dev => test_mck_mmap_dev_init i | mmap_dev2 => test_mck_mmap_dev2_init i end.
Definition dev_fin (t : suite) (i : nat) : M unit :=
  match t with mmap_dev => test_mck_mmap_dev_fin i | mmap_dev2 => test_mck_mmap_dev2_fin i end.

(** ** test_mck_drv.c *)

(** procfs: the entries are removed where they were made, the directory in any case. *)
Fixpoint cleanup_pents (i : nat) (ps : list (string * bool)) : M unit :=
  match ps with
  | [] => mret tt
  | (fname, pent) :: ps =>
      (if pent : bool then call (K_remove_proc_entry fname);; set_pent i false else mret tt);;
      cleanup_pents (S i) ps
  end.

Definition test_mck_cleanup_procfs : M unit :=
  d ← get;
  cleanup_pents 0 (proc_ents d);;
  call (K_remove_proc_entry TEST_MCK_PROCFS_DIRNAME);;
  set_procdir false.

Fixpoint create_pents (i : nat) (ps : list (string * bool)) : M Z :=
  match ps with
  | [] => mret 0
  | (fname, _) :: ps =>
      call (K_proc_create fname);;
      set_pent i (e_pcreate E fname);;
      if e_pcreate E fname then create_pents (S i) ps else mret (- ENOMEM)
  end.

Definition test_mck_init_procfs : M Z :=
  call (K_proc_mkdir TEST_MCK_PROCFS_DIRNAME);;
  set_procdir (e_mkdir E);;
  if e_mkdir E then d ← get; create_pents 0 (proc_ents d) else mret (- ENOMEM).

Fixpoint cleanup_devs (i : nat) (vs : list test_mck_dev) : M unit :=
  match vs with
  | [] => mret tt
  | v :: vs =>
      dev_fin (ts v) i;;
      call (K_cdev_del (ts v));;
      call (K_device_destroy (class v) (devno v));;
      call (K_class_destroy (class v));;
      cleanup_devs (S i) vs
  end.

Definition test_mck_cleanup : M unit :=
  test_mck_cleanup_procfs;;
  d ← get;
  cleanup_devs 0 (test_mck_devlist d);;
  call (K_unregister_chrdev_region (MKDEV (test_mck_major d) test_mck_minor) test_mck_nr_devs).

(** [snprintf(majmin, size, "%3d:%-3d ", major, i)]: the text is cut to [size - 1] characters and
    ended by a NUL; the return value is the length it would have had.  The kernel's [snprintf]
    rejects a [size] above INT_MAX with the result 0. *)
Definition spaces (n : nat) : string := String.concat "" (replicate n " "%string).
Definition pad3 (s : string) : string := spaces (3 - String.length s) +:+ s.
Definition pad_3 (s : string) : string := s +:+ spaces (3 - String.length s).
Definition majmin_text (major i : Z) : string := pad3 (pretty major) +:+ ":" +:+ pad_3 (pretty i) +:+ " ".

Definition bytes_of (s : string) : list Z := chr <$> String.list_ascii_of_string s.

Definition snprintf (buf : list Z) (off size : Z) (text : string) : list Z * Z :=
  if 2 ^ 31 - 1 <? size then (buf, 0)
  else
    (if size =? 0 then buf
     else list_inserts (Z.to_nat off) (take (Z.to_nat (size - 1)) (bytes_of text) ++ [0]) buf,
     Z.of_nat (length (bytes_of text))).

(** The loop over the devices; [off] is [majmin - test_mck_majmin], [res] the variable of that name.
    Returns whether the loop ran to its end (false: [goto fail]) with [res]. *)
Fixpoint setup_devs (i : nat) (ss : list suite) (off res : Z) : M (bool * Z) :=
  match ss with
  | [] => mret (true, res)
  | t :: ss =>
      call (K_class_create (suite_name t));;
      upd_dev i (set_class (e_class E t));;
      match e_class E t with
      | None => mret (false, res)
      | Some c =>
          d ← get;
          let devno := MKDEV (test_mck_major d) (test_mck_minor + Z.of_nat i) in
          call (K_cdev_init t);;
          upd_dev i (set_devno devno);;
          call (K_cdev_add t devno);;
          let res := e_cdev_add E t in
          if negb (res =? 0) then mret (false, res)
          else
            call (K_device_create (Some c) devno (suite_name t));;
            let '(majmin, print) := snprintf (test_mck_majmin d) off (u64 (MAJMIN_SIZE - off - 1))
                                      (majmin_text (test_mck_major d) (Z.of_nat i)) in
            set_majmin majmin;;
            let off := if 0 <=? print then off + print else off in
            res ← dev_init t i;
            if negb (res =? 0) then mret (false, res) else setup_devs (S i) ss off res
      end
  end.

Definition test_mck_setup : M Z :=
  call (K_alloc_chrdev_region test_mck_minor test_mck_nr_devs);;
  let '(res, devno) := e_alloc E in
  if res <? 0 then test_mck_cleanup;; mret res
  else
    set_major (MAJOR devno);;
    '(ok, res) ← setup_devs 0 suite_list 0 res;
    if negb ok then test_mck_cleanup;; mret res
    else
      res ← test_mck_init_procfs;
      if negb (res =? 0) then test_mck_cleanup;; mret res
      else mret 0.

Definition test_mck_init : M Z := test_mck_setup.
Definition test_mck_exit : M unit := test_mck_cleanup.

(** ** File operations of the devices *)

(** The parts of [struct vm_area_struct], [struct file] and [struct vm_fault] the driver uses.
    [vm_ops] names the table of the suite; a pointer to a device is its index. *)
Record vma := Vma {
  vm_start : Z;
  vm_end : Z;
  vm_pgoff : Z;
  vm_ops : option suite;
  vm_private_data : option nat
}.
Record file := File { f_private_data : option nat }.
Record vm_fault := Vmf { pgoff : Z; page : option Z }.

Definition test_mck_mmap_dev_open (f : file) : M (Z * file) := mret (0, f).
Definition test_mck_mmap_dev_release (f : file) : M Z := mret 0.

Definition test_mck_mmap_dev_mmap (f : file) (v : vma) : M (Z * vma) :=
  call (K_remap_pfn_range (vm_start v) (vm_pgoff v) (u64 (vm_end v - vm_start v)));;
  let res := e_remap E in
  if negb (res =? 0) then mret (0, v)
  else mret (0, Vma (vm_start v) (vm_end v) (vm_pgoff v) (Some mmap_dev) (vm_private_data v)).

Definition test_mck_mmap_dev_ioctl (f : file) (iocmd ioarg : Z) : M Z := mret 0.

(** [container_of(inode->i_cdev, ...)] is the device whose [cdev] the inode names. *)
Definition test_mck_mmap_dev2_open (i_cdev : nat) (f : file) : M (Z * file) :=
  mret (0, File (Some i_cdev)).
Definition test_mck_mmap_dev2_release (f : file) : M Z := mret 0.

Definition test_mck_mmap_dev2_mmap (f : file) (v : vma) : M (Z * vma) :=
  mret (0, Vma (vm_start v) (vm_end v) (vm_pgoff v) (Some mmap_dev2) (f_private_data f)).

(** [_IO('M', 0)]. *)
Definition TEST_MCK_MMAP_DEV2_BUF_RESET : Z := Z.shiftl (chr "M") 8 .| 0.

Definition test_mck_mmap_dev2_ioctl (f : file) (iocmd ioarg : Z) : M Z :=
  if iocmd =? TEST_MCK_MMAP_DEV2_BUF_RESET then
    match f_private_data f with
    | Some dev => test_mck_mmap_dev2_buffer_reset dev;; mret 0
    | None => oops
    end
  else mret 0.

(** The page is named by the address [vmalloc_to_page] is asked for. *)
Definition test_mck_mmap_dev2_vma_fault (v : vma) (vmf : vm_fault) : M (Z * vm_fault) :=
  match vm_private_data v with
  | None => oops
  | Some dev =>
      buf ← private_of dev;
      match buf with
      | None => mret (- ENOMEM, vmf)
      | Some buf =>
          let off := u64 (Z.shiftl (pgoff vmf) PAGE_SHIFT) in
          if buf_size <=? off then mret (- EFAULT, vmf)
          else
            let a := u64 (buf + off) in
            call (K_vmalloc_to_page a);;
            call (K_get_page a);;
            mret (0, Vmf (pgoff vmf) (Some a))
      end
  end.

End with_env.

(** ** The procfs files *)

(** [test_mck_tp_names]: the names of the suites, each followed by a space. *)
Definition test_mck_tp_names : list Z :=
  bytes_of (String.concat "" ((fun t => suite_name t +:+ " ") <$> suite_list)).

(** The C string a buffer holds: its bytes up to the first NUL. *)
Fixpoint c_string (l : list Z) : list Z :=
  match l with
  | [] => []
  | b :: l => if b =? 0 then [] else b :: c_string l
  end.

(** The result of a read: the return value, the new position, and the copy asked of
    [copy_to_user] (offset in the string and length). *)
Record read_res := Read { rd_ret : Z; rd_pos : Z; rd_copy : option (Z * Z) }.

(** [uncopied] is what [copy_to_user] returns.  [loff_t] is signed and converted to the unsigned
    [size_t] in the comparisons. *)
Definition test_mck_procfs_string_read (string : list Z) (nbytes ppos uncopied : Z) : read_res :=
  let len := Z.of_nat (length string) in
  if len <? u64 ppos then Read 0 ppos None
  else
    let count := if len <? u64 (ppos + nbytes) then u64 (len - ppos) else nbytes in
    if negb (uncopied =? 0) then Read (- EFAULT) ppos (Some (ppos, count))
    else Read (s64 count) (s64 (ppos + count)) (Some (ppos, count)).

(** [open] makes [private_data] point to the string, [read] reads it there. *)
Definition test_mck_procfs_devno_open (d : drv) : Z * list Z := (0, test_mck_majmin d).
Definition test_mck_procfs_devno_read (private_data : list Z) (nbytes ppos uncopied : Z) : read_res :=
  test_mck_procfs_string_read (c_string private_data) nbytes ppos uncopied.
Definition test_mck_procfs_tp_names_open (d : drv) : Z * list Z := (0, test_mck_tp_names ++ [0]).
Definition test_mck_procfs_tp_names_read (private_data : list Z) (nbytes ppos uncopied : Z) : read_res :=
  test_mck_procfs_string_read (c_string private_data) nbytes ppos uncopied.

End Drv.
