(* ===== verification/DrvProofs.v ===== *)
(** * Correctness of the test driver

    The reset fills the buffer of mmap_dev2 with its test pattern; loading the module registers
    exactly the devices of the list, unloading it gives back what loading took, and so does a load
    that fails, on every reply of the kernel. *)
From S2P Require Import Prelude CMachine Align Drv.
Import Align Drv.
#[local] Open Scope Z_scope.

Module DrvProofs.

(** ** The buffer *)

(** The pattern: the bytes of page [k] are [k + 1]. *)
Definition pattern : list Z := (fun i => i / PAGE_SIZE + 1) <$> seqZ 0 buf_size.

Lemma buf_memset_lookup b off val len i :
  0 <= off -> 0 <= len -> off + len <= Z.of_nat (length b) -> 0 <= i ->
  buf_memset b off val len !! Z.to_nat i
  = if in_range off len i then Some (u8 val) else b !! Z.to_nat i.
Proof.
  intros H1 H2 H3 H4. unfold buf_memset. range_cases.
  - rewrite list_lookup_inserts by (rewrite ?length_replicate; lia).
    apply lookup_replicate. split; [done|lia].
  - destruct (decide (i < off)).
    + by rewrite list_lookup_inserts_lt by lia.
    + rewrite list_lookup_inserts_ge by (rewrite length_replicate; lia). done.
Qed.

Lemma buf_memset_length b off val len : length (buf_memset b off val len) = length b.
Proof. apply length_inserts. Qed.

(** Three iterations fill the three pages and the fourth leaves the loop; more fuel changes
    nothing. *)
Lemma reset_loop_unfold n b :
  (4 <= n)%nat ->
  reset_loop n 0 1 b
  = buf_memset (buf_memset (buf_memset b 0 1 PAGE_SIZE) PAGE_SIZE 2 PAGE_SIZE) (2 * PAGE_SIZE) 3 PAGE_SIZE.
Proof. intros Hn. do 4 (destruct n as [|n]; [lia|]). reflexivity. Qed.

Lemma reset_buffer_pattern b : Z.of_nat (length b) = buf_size -> reset_buffer b = pattern.
Proof.
  intros Hb. unfold reset_buffer. rewrite reset_loop_unfold by (change buf_size with 12288; lia).
  assert (buf_size = 12288) as Es by done. assert (PAGE_SIZE = 4096) as Ep by done.
  apply list_eq_same_length with (n := Z.to_nat buf_size).
  - unfold pattern. by rewrite length_fmap, length_seqZ.
  - rewrite !buf_memset_length. lia.
  - intros i x y Hi Hx Hy. unfold pattern in Hy.
    apply list_lookup_fmap_Some in Hy as (k & -> & Hk).
    apply lookup_seqZ in Hk as [-> Hk]. revert Hx.
    rewrite <- (Nat2Z.id i) at 1.
    rewrite !buf_memset_lookup by (rewrite ?buf_memset_length; lia).
    cbv beta. rewrite Ep. intros Hx.
    destruct (in_range (2 * 4096) 4096 (Z.of_nat i)) eqn:R3; [|destruct (in_range 4096 4096 (Z.of_nat i)) eqn:R2;
      [|destruct (in_range 0 4096 (Z.of_nat i)) eqn:R1]];
      rewrite ?in_range_spec, ?in_range_false in *.
    + injection Hx as <-. change (u8 3) with 3. Z.div_mod_to_equations; lia.
    + injection Hx as <-. change (u8 2) with 2. Z.div_mod_to_equations; lia.
    + injection Hx as <-. change (u8 1) with 1. Z.div_mod_to_equations; lia.
    + lia.
Qed.

(** ** Loading and unloading *)

(** What the kernel hands out and takes back. *)
Inductive resource : Set :=
| R_region (devno count : Z)
| R_class (c : Z)
| R_cdev (t : suite)
| R_device (c : option Z) (devno : Z)
| R_memory (p : Z)
| R_proc (name : string).
#[global] Instance resource_eq_dec : EqDecision resource.
Proof. solve_decision. Defined.

(** The resource a call takes when the kernel replies as [E] says, and the one a call gives back. *)
Definition acquire (E : env) (k : kcall) : option resource :=
  match k with
  | K_alloc_chrdev_region _ n =>
      if fst (e_alloc E) <? 0 then None else Some (R_region (MKDEV (MAJOR (snd (e_alloc E))) test_mck_minor) n)
  | K_class_create name =>
      R_class <$> (if String.eqb name (suite_name mmap_dev) then e_class E mmap_dev else e_class E mmap_dev2)
  | K_cdev_add t _ => if e_cdev_add E t =? 0 then Some (R_cdev t) else None
  | K_device_create c n _ => Some (R_device c n)
  | K_vmalloc_user _ => R_memory <$> e_vmalloc E
  | K_proc_mkdir name => if e_mkdir E then Some (R_proc name) else None
  | K_proc_create name => if e_pcreate E name then Some (R_proc name) else None
  | _ => None
  end.

Definition release (k : kcall) : option resource :=
  match k with
  | K_unregister_chrdev_region n c => Some (R_region n c)
  | K_class_destroy c => R_class <$> c
  | K_cdev_del t => Some (R_cdev t)
  | K_device_destroy c n => Some (R_device c n)
  | K_vfree p => Some (R_memory p)
  | K_remove_proc_entry name => Some (R_proc name)
  | _ => None
  end.

Definition acquired (E : env) (l : list kcall) : list resource := omap (acquire E) l.
Definition released (l : list kcall) : list resource := omap release l.

(** Every request of the load succeeds. *)
Definition all_granted (E : env) : bool :=
  (0 <=? fst (e_alloc E)) &&
  match e_class E mmap_dev, e_class E mmap_dev2, e_vmalloc E with
  | Some _, Some _, Some _ => true
  | _, _, _ => false
  end &&
  (e_cdev_add E mmap_dev =? 0) && (e_cdev_add E mmap_dev2 =? 0) &&
  e_mkdir E && e_pcreate E "devno" && e_pcreate E "tp_names".

(** ** Symbolic execution

    Runs the driver symbolically, up to the next reply of the kernel. *)
Ltac drive1 :=
  cbv beta iota zeta delta [mbind M_bind mret M_ret get modify oops call set_major set_majmin set_procdir set_pent upd_dev
       upd_buffers private_of vmalloc_user test_mck_mmap_dev2_init test_mck_mmap_dev2_fin
       test_mck_mmap_dev2_buffer_reset test_mck_mmap_dev_init test_mck_mmap_dev_fin dev_init dev_fin
       cleanup_pents create_pents cleanup_devs setup_devs
       set_class set_devno set_private ts private_data devno class
       test_mck_major test_mck_majmin test_mck_devlist procdir proc_ents buffers log
       alter list_alter lookup list_lookup option_bind negb fst snd suite_list].

Ltac drive :=
  drive1; change (0 =? 0) with true; change (- ENOMEM =? 0) with false; drive1.

(** The calls of a clean-up. *)
Definition ent_calls (ents : list (string * bool)) : list kcall :=
  concat ((fun '(name, pent) => if (pent : bool) then [K_remove_proc_entry name] else []) <$> ents).
Definition dev_calls (v : test_mck_dev) : list kcall :=
  (if private_data v is Some p then [K_vfree p] else []) ++
  [K_cdev_del (ts v); K_device_destroy (class v) (devno v); K_class_destroy (class v)].
Definition cleanup_calls (ma : Z) (vs : list test_mck_dev) (ents : list (string * bool)) : list kcall :=
  ent_calls ents ++ [K_remove_proc_entry TEST_MCK_PROCFS_DIRNAME] ++ concat (dev_calls <$> vs) ++
  [K_unregister_chrdev_region (MKDEV ma test_mck_minor) test_mck_nr_devs].

Lemma cleanup_spec ma mm n0 c0 p1 n1 c1 pd b0 b1 bufs l :
  test_mck_cleanup
    (Drv ma mm [Dev mmap_dev None n0 c0; Dev mmap_dev2 p1 n1 c1] pd [("devno", b0); ("tp_names", b1)] bufs l)
  = Some (tt, Drv ma mm [Dev mmap_dev None n0 c0; Dev mmap_dev2 None n1 c1] false
                [("devno", false); ("tp_names", false)]
                (if p1 is Some p then free_buffer p bufs else bufs)
                (l ++ cleanup_calls ma [Dev mmap_dev None n0 c0; Dev mmap_dev2 p1 n1 c1]
                        [("devno", b0); ("tp_names", b1)])).
Proof.
  unfold test_mck_cleanup, test_mck_cleanup_procfs.
  destruct b0, b1, p1 as [p|]; drive; rewrite <- ?app_assoc; reflexivity.
Qed.

(** ** The states of the module *)

(** The text [snprintf] puts in test_mck_majmin for device [i] at offset [off]. *)
Definition print_majmin (ma : Z) (i : nat) (st : list Z * Z) : list Z * Z :=
  let '(mm, off) := st in
  let '(mm, print) := snprintf mm off (u64 (MAJMIN_SIZE - off - 1)) (majmin_text ma (Z.of_nat i)) in
  (mm, if 0 <=? print then off + print else off).

(** The calls that register a device, and the module after each device of the list. *)
Definition reg_calls (t : suite) (c ma : Z) (i : nat) : list kcall :=
  let n := MKDEV ma (test_mck_minor + Z.of_nat i) in
  [K_class_create (suite_name t); K_cdev_init t; K_cdev_add t n; K_device_create (Some c) n (suite_name t)].

Definition mm0 : list Z := replicate (Z.to_nat MAJMIN_SIZE) 0.
Definition alloc_call : kcall := K_alloc_chrdev_region test_mck_minor test_mck_nr_devs.
Definition zero_buffer : list Z := replicate (Z.to_nat buf_size) 0.

(** The module after a load that succeeded. *)
Definition loaded (ma c0 c1 p : Z) : drv :=
  Drv ma (print_majmin ma 1 (print_majmin ma 0 (mm0, 0))).1
    [Dev mmap_dev None (MKDEV ma 0) (Some c0); Dev mmap_dev2 (Some p) (MKDEV ma 1) (Some c1)]
    true [("devno", true); ("tp_names", true)] {[p := pattern]}
    (alloc_call :: reg_calls mmap_dev c0 ma 0 ++ reg_calls mmap_dev2 c1 ma 1 ++
     [K_vmalloc_user buf_size; K_proc_mkdir TEST_MCK_PROCFS_DIRNAME;
      K_proc_create "devno"; K_proc_create "tp_names"]).

(** The result of a load, by the first request the kernel refuses. *)
Definition setup_result (E : env) : Z :=
  let res := fst (e_alloc E) in
  if res <? 0 then res
  else if negb (bool_decide (is_Some (e_class E mmap_dev))) then res
  else if negb (e_cdev_add E mmap_dev =? 0) then e_cdev_add E mmap_dev
  else if negb (bool_decide (is_Some (e_class E mmap_dev2))) then 0
  else if negb (e_cdev_add E mmap_dev2 =? 0) then e_cdev_add E mmap_dev2
  else if all_granted E then 0 else - ENOMEM.

(** What holds of the module after the load. *)
Definition setup_post (E : env) (r : Z) (d : drv) : Prop :=
  r = setup_result E /\
  if all_granted E then
    exists c0 c1 p, e_class E mmap_dev = Some c0 /\ e_class E mmap_dev2 = Some c1 /\
      e_vmalloc E = Some p /\ d = loaded (MAJOR (e_alloc E).2) c0 c1 p
  else
    acquired E (log d) ⊆+ released (log d) /\ buffers d = ∅ /\ procdir d = false /\
    Forall (fun v => private_data v = None) (test_mck_devlist d) /\
    Forall (fun e => e.2 = false) (proc_ents d).


Lemma module_image_eq :
  module_image = Drv 0 mm0 [Dev mmap_dev None 0 None; Dev mmap_dev2 None 0 None] false
                   [("devno", false); ("tp_names", false)] ∅ [].
Proof. done. Qed.

Lemma buffers_filled p : rewrite_buffer p reset_buffer (put_buffer p buf_size ∅) = {[p := pattern]}.
Proof.
  unfold rewrite_buffer, put_buffer. rewrite alter_insert_eq, reset_buffer_pattern; [done|].
  rewrite length_replicate. by rewrite Z2Nat.id.
Qed.

Lemma buffers_freed p : free_buffer p {[p := pattern]} = ∅.
Proof. apply delete_singleton_eq. Qed.

(** Uses the replies the path has fixed. *)
Ltac replies :=
  repeat match goal with H : e_alloc _ = _ |- _ => rewrite H | H : e_class _ _ = _ |- _ => rewrite H
         | H : e_vmalloc _ = _ |- _ => rewrite H | H : (_ =? 0) = _ |- _ => rewrite H
         | H : (_ <? 0) = _ |- _ => rewrite H
         | H : e_mkdir _ = _ |- _ => rewrite H | H : e_pcreate _ _ = _ |- _ => rewrite H end.

(** The end of a path on which the load fails. *)
Ltac failed :=
  drive; rewrite cleanup_spec; do 2 eexists; split; [done|]; split; [done|];
  replies; rewrite ?andb_false_r; cbn [andb]; drive;
  split; [|repeat split; rewrite ?buffers_filled, ?buffers_freed; try done; repeat constructor];
  unfold acquired, released, cleanup_calls, ent_calls, dev_calls;
  cbn -[Z.ltb Z.leb MKDEV MAJOR buf_size]; replies; cbn -[Z.ltb Z.leb MKDEV MAJOR buf_size];
  replies; solve_submseteq.

Lemma setup_outcome E :
  exists r d, test_mck_setup E module_image = Some (r, d) /\ setup_post E r d.
Proof.
  rewrite module_image_eq. unfold test_mck_setup, setup_post, setup_result, all_granted. drive.
  destruct (e_alloc E) as [res dn] eqn:Ea. drive.
  destruct (res <? 0) eqn:Er.
  { assert ((0 <=? res) = false) as Er' by (b2p; lia). rewrite Er'. failed. }
  assert ((0 <=? res) = true) as Er' by (b2p; lia). rewrite Er'.
  destruct (e_class E mmap_dev) as [c0|] eqn:Ec0; [|failed].
  destruct (e_cdev_add E mmap_dev =? 0) eqn:Ed0; [|failed].
  drive. destruct (snprintf _ _ _ _) as [mm1 p1] eqn:P1. drive.
  destruct (e_class E mmap_dev2) as [c1|] eqn:Ec1; [|failed].
  destruct (e_cdev_add E mmap_dev2 =? 0) eqn:Ed1; [|failed].
  drive. destruct (snprintf mm1 _ _ _) as [mm2 p2] eqn:P2. drive.
  destruct (e_vmalloc E) as [p|] eqn:Ev; [|failed].
  drive. unfold test_mck_init_procfs. drive.
  destruct (e_mkdir E) eqn:Em; [|failed].
  destruct (e_pcreate E "devno") eqn:Ep1; [|failed].
  destruct (e_pcreate E "tp_names") eqn:Ep2; [|failed].
  drive. do 2 eexists; split; [done|]. split; [done|]. cbn [andb].
  exists c0, c1, p. do 3 (split; [done|]). unfold loaded, print_majmin. rewrite P1, P2, buffers_filled.
  reflexivity.
Qed.

Lemma pattern_lookup i : 0 <= i < buf_size -> pattern !! Z.to_nat i = Some (i / PAGE_SIZE + 1).
Proof.
  intros Hi. unfold pattern. apply list_lookup_fmap_Some. exists i. split; [done|].
  apply lookup_seqZ. lia.
Qed.

Lemma setup_granted E :
  all_granted E = true ->
  exists c0 c1 p, e_class E mmap_dev = Some c0 /\ e_class E mmap_dev2 = Some c1 /\
    e_vmalloc E = Some p /\
    test_mck_setup E module_image = Some (0, loaded (MAJOR (e_alloc E).2) c0 c1 p).
Proof.
  intros Hg. destruct (setup_outcome E) as (r & d & Hr & -> & Hd). rewrite Hg in Hd.
  destruct Hd as (c0 & c1 & p & H0 & H1 & Hv & ->). exists c0, c1, p. rewrite Hr.
  do 3 (split; [done|]). unfold setup_result. rewrite Hg. unfold all_granted in Hg. b2p.
  rewrite H0, H1, Z.ltb_antisym. repeat match goal with H : ?x = ?y |- context [?x =? ?y] =>
    replace (x =? y) with true by lia end. by replace (0 <=? (e_alloc E).1) with true by lia.
Qed.

(** C10: when the kernel grants every request, loading the module returns 0, gives device [i] of the
    list the number [MKDEV major i] and its own class, publishes the procfs files, and leaves the
    buffer of mmap_dev2 with every byte of page [k] equal to [k + 1]. *)
Theorem setup_registers E :
  all_granted E = true ->
  exists d p, test_mck_init E module_image = Some (0, d) /\
    (ts <$> test_mck_devlist d) = suite_list /\
    (devno <$> test_mck_devlist d) = MKDEV (MAJOR (e_alloc E).2) <$> [0; 1] /\
    (class <$> test_mck_devlist d) = e_class E <$> suite_list /\
    (private_data <$> test_mck_devlist d) = [None; Some p] /\
    buffers d = {[p := pattern]} /\
    (forall i, 0 <= i < buf_size -> pattern !! Z.to_nat i = Some (i / PAGE_SIZE + 1)) /\
    procdir d = true /\ proc_ents d = [("devno", true); ("tp_names", true)].
Proof.
  intros Hg. destruct (setup_granted E Hg) as (c0 & c1 & p & H0 & H1 & Hv & Hs).
  eexists _, p. split; [exact Hs|]. csimpl. rewrite H0, H1. repeat (split; [done|]).
  split; [exact pattern_lookup|done].
Qed.

(** A kernel that grants everything. *)
Definition env_ok : env :=
  Env (0, MKDEV 247 0) (fun t => match t with mmap_dev => Some 100 | mmap_dev2 => Some 200 end)
    (fun _ => 0) (Some 0x10000) true (fun _ => true) 0.

Lemma setup_registers_witness :
  exists d p, test_mck_init env_ok module_image = Some (0, d) /\
    buffers d = {[p := pattern]} /\ procdir d = true.
Proof.
  destruct (setup_registers env_ok eq_refl) as (d & p & H & _ & _ & _ & _ & Hb & _ & Hp & _). eauto.
Defined.

(** C8: loading the module and unloading it is balanced: the clean-up gives back, each once, exactly
    the region, classes, cdevs, devices, memory and procfs entries the load took, and leaves no
    buffer, no private data and no procfs entry behind. *)
Theorem load_unload_balanced E :
  all_granted E = true ->
  exists d d' l, test_mck_init E module_image = Some (0, d) /\ test_mck_exit d = Some (tt, d') /\
    log d' = log d ++ l /\ acquired E (log d) ≡ₚ released l /\
    released (log d) = [] /\ acquired E l = [] /\
    buffers d' = ∅ /\ procdir d' = false /\
    Forall (fun v => private_data v = None) (test_mck_devlist d') /\
    Forall (fun e => e.2 = false) (proc_ents d').
Proof.
  intros Hg. destruct (setup_granted E Hg) as (c0 & c1 & p & H0 & H1 & Hv & Hs).
  eexists _, _, _. split; [exact Hs|]. unfold test_mck_exit, loaded. rewrite cleanup_spec.
  split; [done|]. cbn [log buffers procdir test_mck_devlist proc_ents]. split; [done|].
  unfold all_granted in Hg. b2p.
  assert ((fst (e_alloc E) <? 0) = false) by lia.
  assert ((e_cdev_add E mmap_dev =? 0) = true) by lia.
  assert ((e_cdev_add E mmap_dev2 =? 0) = true) by lia.
  split; [|repeat split; try done; try apply buffers_freed; repeat constructor].
  unfold acquired, released, cleanup_calls, ent_calls, dev_calls;
  cbn -[Z.ltb Z.leb MKDEV MAJOR buf_size]; replies; cbn -[Z.ltb Z.leb MKDEV MAJOR buf_size];
  replies. change (test_mck_minor + Z.of_nat 0) with 0. change (test_mck_minor + Z.of_nat 1) with 1.
  solve_Permutation.
Qed.

Lemma load_unload_balanced_witness :
  exists d d', test_mck_init env_ok module_image = Some (0, d) /\ test_mck_exit d = Some (tt, d') /\
    buffers d' = ∅.
Proof.
  destruct (load_unload_balanced env_ok eq_refl) as (d & d' & _ & H & H' & _ & _ & _ & _ & Hb & _). eauto.
Defined.

(** C9: when the kernel refuses any request of the load, the module does not oops, everything that
    was taken is given back, and no buffer, private data or procfs entry stays behind. *)
Theorem failed_load_no_leak E :
  all_granted E = false ->
  exists r d, test_mck_init E module_image = Some (r, d) /\
    acquired E (log d) ⊆+ released (log d) /\ buffers d = ∅ /\ procdir d = false /\
    Forall (fun v => private_data v = None) (test_mck_devlist d) /\
    Forall (fun e => e.2 = false) (proc_ents d).
Proof.
  intros Hg. destruct (setup_outcome E) as (r & d & Hr & _ & Hd). rewrite Hg in Hd. eauto.
Qed.

(** [cdev_add] of the second device is refused. *)
Definition env_no_cdev : env :=
  Env (0, MKDEV 247 0) (e_class env_ok) (fun t => match t with mmap_dev => 0 | mmap_dev2 => -12 end)
    (Some 0x10000) true (fun _ => true) 0.

Lemma failed_load_no_leak_witness :
  exists r d, test_mck_init env_no_cdev module_image = Some (r, d) /\
    acquired env_no_cdev (log d) ⊆+ released (log d) /\ buffers d = ∅.
Proof. destruct (failed_load_no_leak env_no_cdev eq_refl) as (r & d & H & Ha & Hb & _). eauto. Defined.

(** the result of a load is that of the request that was refused (the error of
    [alloc_chrdev_region], of [cdev_add], -ENOMEM of the buffer or of procfs), and 0 after a load that
    succeeds; but when the kernel reports success with 0 and [class_create] is the request it
    refuses, the load returns 0 as well although everything has been given back: the driver does not
    take the error from the pointer. *)
Theorem setup_result_spec E r d :
  (e_alloc E).1 <= 0 ->
  test_mck_init E module_image = Some (r, d) ->
  r = setup_result E /\
  (r = 0 <-> all_granted E = true \/
     (e_alloc E).1 = 0 /\ (e_class E mmap_dev = None \/
       e_class E mmap_dev2 = None /\ e_cdev_add E mmap_dev = 0)).
Proof.
  intros Ha H. destruct (setup_outcome E) as (r' & d' & Hr & -> & _). unfold test_mck_init in H.
  rewrite Hr in H. injection H as <- _. split; [done|]. unfold setup_result, all_granted.
  destruct (Z.ltb_spec (e_alloc E).1 0).
  { replace (0 <=? (e_alloc E).1) with false by lia. cbn [andb]. split; [lia|]. intros [?|?]; [done|lia]. }
  assert ((e_alloc E).1 = 0) as -> by lia. cbn [Z.leb Z.compare andb].
  destruct (e_class E mmap_dev) as [c0|]; [|cbn; naive_solver].
  rewrite (bool_decide_eq_true_2 (is_Some _)) by done. cbn [negb].
  destruct (Z.eqb_spec (e_cdev_add E mmap_dev) 0) as [->|]; [|cbn; rewrite ?andb_false_r; cbn; split; [lia|intros [?|(_ & [?|[_ ?]])]; congruence]].
  cbn [negb].
  destruct (e_class E mmap_dev2) as [c1|]; [|cbn; naive_solver].
  rewrite (bool_decide_eq_true_2 (is_Some _)) by done. cbn [negb].
  destruct (Z.eqb_spec (e_cdev_add E mmap_dev2) 0) as [->|]; [|cbn; rewrite ?andb_false_r; cbn; split; [lia|intros [?|(_ & [?|[? _]])]; congruence]].
  destruct (e_vmalloc E), (e_mkdir E), (e_pcreate E "devno"), (e_pcreate E "tp_names"); cbn; naive_solver.
Qed.

(** [class_create] is refused: the load reports success. *)
Definition env_no_class : env :=
  Env (0, MKDEV 247 0) (fun _ => None) (fun _ => 0) (Some 0x10000) true (fun _ => true) 0.

Lemma setup_result_spec_witness :
  all_granted env_no_class = false /\
  exists d, test_mck_init env_no_class module_image = Some (0, d) /\ 0 = setup_result env_no_class.
Proof.
  split; [done|]. destruct (test_mck_init env_no_class module_image) as [[r d]|] eqn:E; [|done].
  assert (r = 0) as Hr by (by vm_compute in E; injection E as <- _).
  exists d. rewrite Hr in E |- *. split; [done|]. destruct (setup_result_spec env_no_class 0 d) as [Hs _]; [done|exact E|exact Hs].
Defined.

(** A load that fails in [alloc_chrdev_region] gives back things it never had: both cdevs, which
    were not initialised, their devices, and a region of major 0. *)
Theorem alloc_failure_releases_unowned E :
  (e_alloc E).1 < 0 ->
  exists d, test_mck_init E module_image = Some ((e_alloc E).1, d) /\ acquired E (log d) = [] /\
    released (log d) = [R_proc TEST_MCK_PROCFS_DIRNAME; R_cdev mmap_dev; R_device None 0;
                        R_cdev mmap_dev2; R_device None 0; R_region 0 test_mck_nr_devs].
Proof.
  intros Ha. rewrite module_image_eq. unfold test_mck_init, test_mck_setup. drive.
  destruct (e_alloc E) as [res dn] eqn:Ea. drive. cbn in Ha.
  replace (res <? 0) with true by lia. drive. rewrite cleanup_spec. eexists; split; [done|].
  cbn [log]. split; [|done]. unfold acquired. cbn. rewrite Ea. cbn. by replace (res <? 0) with true by lia.
Qed.

Definition env_no_region : env := Env (-16, 0) (fun _ => None) (fun _ => 0) None true (fun _ => true) 0.

Lemma alloc_failure_releases_unowned_witness :
  exists d, test_mck_init env_no_region module_image = Some (-16, d) /\ acquired env_no_region (log d) = [] /\
    R_cdev mmap_dev ∈ released (log d).
Proof.
  destruct (alloc_failure_releases_unowned env_no_region) as (d & H & Ha & Hr); [done|].
  exists d. split; [done|]. split; [done|]. rewrite Hr. set_solver.
Defined.

End DrvProofs.
