(* ===== verification/DrvFiles.v ===== *)
(** * The files of the test driver

    The device files (open, mmap, page fault and ioctl of mmap_dev2, mmap of mmap_dev) and the
    procfs files /proc/test_mck/devno and /proc/test_mck/tp_names, of a module that has been loaded. *)
From S2P Require Import Prelude CMachine Align Drv DrvProofs.
Import Align Drv DrvProofs.
#[local] Open Scope Z_scope.

Module DrvFiles.

(** ** The pages of mmap_dev2 *)

(** What a process does to a page of the device: open, mmap, and the first access to page [k]. *)
Definition touch_page (i : nat) (v : vma) (k : Z) : M (Z * vm_fault) :=
  '(_, f) ← test_mck_mmap_dev2_open i (File None);
  '(_, v) ← test_mck_mmap_dev2_mmap f v;
  test_mck_mmap_dev2_vma_fault v (Vmf k None).

(** A page offset shifted left in an [unsigned long] loses its upper 12 bits. *)
Lemma shift_page k : 0 <= k -> u64 (Z.shiftl k PAGE_SHIFT) = k mod 2 ^ 52 * PAGE_SIZE.
Proof.
  intros Hk. rewrite Z.shiftl_mul_pow2 by done. unfold wrap_u.
  change (2 ^ 64) with (2 ^ 52 * 2 ^ PAGE_SHIFT). change PAGE_SIZE with (2 ^ PAGE_SHIFT).
  by rewrite Z.mul_mod_distr_r.
Qed.

Lemma private_of_spec d i dev :
  test_mck_devlist d !! i = Some dev -> private_of i d = Some (private_data dev, d).
Proof. intros Hi. unfold private_of, get, mret, mbind, M_ret, M_bind. by rewrite Hi. Qed.

Ltac drive_file :=
  cbv beta iota zeta delta [mbind M_bind mret M_ret get modify call upd_buffers fst snd
    test_mck_mmap_dev2_open test_mck_mmap_dev2_mmap test_mck_mmap_dev2_vma_fault
    test_mck_mmap_dev2_buffer_reset vm_private_data f_private_data pgoff].

Lemma touch_page_spec d i v p k dev :
  test_mck_devlist d !! i = Some dev -> private_data dev = Some p ->
  0 <= p -> p + buf_size <= 2 ^ 64 -> 0 <= k ->
  let q := k mod 2 ^ 52 in
  exists d', touch_page i v k d
    = Some (if q <? 3 then (0, Vmf k (Some (p + q * PAGE_SIZE))) else (- EFAULT, Vmf k None), d') /\
    buffers d' = buffers d /\ test_mck_devlist d' = test_mck_devlist d.
Proof.
  intros Hi Hp H0 H1 Hk q. unfold touch_page. drive_file.
  rewrite (private_of_spec _ _ _ Hi), Hp, shift_page by done. fold q.
  assert (0 <= q) by (apply Z.mod_pos_bound; lia).
  change PAGE_SIZE with 4096. change buf_size with 12288 in *. destruct (Z.ltb_spec q 3).
  - replace (12288 <=? q * 4096) with false by lia.
    rewrite wrap_u_small by lia. eexists; split; [done|]. done.
  - replace (12288 <=? q * 4096) with true by lia. eexists; split; [done|]. done.
Qed.

(** C11: on a freshly loaded module a process that opens mmap_dev2, maps it and touches page [k] of the
    file gets page [k] of the buffer for k < 3, all of whose bytes are [k + 1]; any further page is
    refused with -EFAULT.  (Of [k] only the lower 52 bits count: the bounds check is made on the
    shifted offset.) *)
Theorem dev2_serves_pages E v k :
  all_granted E = true -> (forall p, e_vmalloc E = Some p -> 0 <= p /\ p + buf_size <= 2 ^ 64) -> 0 <= k ->
  exists d p d', test_mck_init E module_image = Some (0, d) /\ e_vmalloc E = Some p /\
    let q := k mod 2 ^ 52 in
    touch_page 1 v k d
    = Some (if q <? 3 then (0, Vmf k (Some (p + q * PAGE_SIZE))) else (- EFAULT, Vmf k None), d') /\
    (q < 3 -> forall j, 0 <= j < PAGE_SIZE ->
       buffers d' !! p ≫= (.!! Z.to_nat (q * PAGE_SIZE + j)) = Some (q + 1)).
Proof.
  intros Hg Hp Hk. destruct (setup_granted E Hg) as (c0 & c1 & p & H0 & H1 & Hv & Hs).
  destruct (Hp p Hv) as [Hp0 Hp1].
  destruct (touch_page_spec (loaded (MAJOR (e_alloc E).2) c0 c1 p) 1 v p k
              (Dev mmap_dev2 (Some p) (MKDEV (MAJOR (e_alloc E).2) 1) (Some c1)))
    as (d' & Ht & Hb & _); [done..|].
  eexists _, p, d'. split; [exact Hs|]. split; [done|]. cbv zeta. split; [exact Ht|].
  intros Hq j Hj. rewrite Hb. cbn [buffers loaded]. rewrite lookup_singleton_eq. cbn [mbind option_bind].
  assert (0 <= k mod 2 ^ 52) by (apply Z.mod_pos_bound; lia).
  change PAGE_SIZE with 4096 in *. rewrite pattern_lookup by (change buf_size with 12288; lia).
  change PAGE_SIZE with 4096. f_equal. Z.div_mod_to_equations. lia.
Qed.

Lemma dev2_serves_pages_witness :
  exists d d', test_mck_init env_ok module_image = Some (0, d) /\
    touch_page 1 (Vma 0x7000 0x9000 2 None None) 2 d = Some ((0, Vmf 2 (Some 0x12000)), d').
Proof.
  destruct (dev2_serves_pages env_ok (Vma 0x7000 0x9000 2 None None) 2) as (d & p & d' & H & Hv & Ht & _).
  - done.
  - intros p [= <-]. by vm_compute.
  - done.
  - injection Hv as <-. eauto.
Defined.

(** the ioctl TEST_MCK_MMAP_DEV2_BUF_RESET restores the pattern, whatever the buffer held, in the
    buffer of the device the file belongs to and nowhere else; any other command changes nothing. *)
Theorem dev2_ioctl_resets d i dev p b cmd arg :
  test_mck_devlist d !! i = Some dev -> private_data dev = Some p -> buffers d !! p = Some b ->
  Z.of_nat (length b) = buf_size ->
  exists d', test_mck_mmap_dev2_ioctl (File (Some i)) cmd arg d = Some (0, d') /\
    buffers d' = (if cmd =? TEST_MCK_MMAP_DEV2_BUF_RESET then <[p := pattern]> (buffers d) else buffers d) /\
    test_mck_devlist d' = test_mck_devlist d /\ log d' = log d.
Proof.
  intros Hi Hp Hb Hl. unfold test_mck_mmap_dev2_ioctl. destruct (cmd =? _); [|by eexists].
  drive_file.
  rewrite (private_of_spec _ _ _ Hi), Hp. eexists; split; [done|]. cbn -[reset_buffer]. split; [|done].
  unfold rewrite_buffer. rewrite <- (insert_id (buffers d) p b) at 1 by done.
  by rewrite alter_insert_eq, reset_buffer_pattern.
Qed.

(** A buffer of zeros at 0x10000, next to another one. *)
Definition zeroed : drv :=
  Drv 247 [] [Dev mmap_dev None 0 None; Dev mmap_dev2 (Some 0x10000) 0 None] true []
    {[0x10000 := zero_buffer; 0x20000 := [7]]} [].

Lemma dev2_ioctl_resets_witness :
  exists d', test_mck_mmap_dev2_ioctl (File (Some 1%nat)) 0x4d00 0 zeroed = Some (0, d') /\
    buffers d' !! 0x10000 = Some pattern /\ buffers d' !! 0x20000 = Some [7].
Proof.
  destruct (dev2_ioctl_resets zeroed 1 (Dev mmap_dev2 (Some 0x10000) 0 None) 0x10000 zero_buffer 0x4d00 0)
    as (d' & H & Hb & _); [done..| |].
  - unfold zero_buffer. rewrite length_replicate. by rewrite Z2Nat.id.
  - exists d'. split; [done|]. change (0x4d00 =? TEST_MCK_MMAP_DEV2_BUF_RESET) with true in Hb.
    rewrite Hb. by split; [rewrite lookup_insert_eq|rewrite lookup_insert_ne].
Defined.

(** [mmap] of mmap_dev returns 0 on every reply of the kernel: when [remap_pfn_range] fails the
    error is printed and dropped, and the mapping is left without its operations. *)
Theorem mmap_dev_hides_error E f v d :
  exists d' v', test_mck_mmap_dev_mmap E f v d = Some ((0, v'), d') /\
    vm_ops v' = (if e_remap E =? 0 then Some mmap_dev else vm_ops v) /\
    log d' = log d ++ [K_remap_pfn_range (vm_start v) (vm_pgoff v) (u64 (vm_end v - vm_start v))].
Proof.
  unfold test_mck_mmap_dev_mmap. cbn. destruct (e_remap E =? 0); cbn; do 2 eexists; done.
Qed.

(** ** The procfs files *)

(** The kernel limits a read to MAX_RW_COUNT bytes before it calls the driver. *)
Definition MAX_RW_COUNT : Z := 0x7ffff000.

Lemma string_read_spec s nbytes ppos uncopied :
  Z.of_nat (length s) < 2 ^ 31 -> 0 <= nbytes <= MAX_RW_COUNT -> 0 <= ppos <= Z.of_nat (length s) ->
  let count := Z.min nbytes (Z.of_nat (length s) - ppos) in
  test_mck_procfs_string_read s nbytes ppos uncopied
  = if uncopied =? 0 then Read count (ppos + count) (Some (ppos, count))
    else Read (- EFAULT) ppos (Some (ppos, count)).
Proof.
  intros Hl Hn Hp count. unfold test_mck_procfs_string_read, MAX_RW_COUNT in *.
  rewrite (wrap_u_small 64 ppos), (wrap_u_small 64 (ppos + nbytes)),
    (wrap_u_small 64 (_ - ppos)) by lia.
  replace (_ <? ppos) with false by lia.
  assert ((if Z.of_nat (length s) <? ppos + nbytes then Z.of_nat (length s) - ppos else nbytes) = count) as ->.
  { unfold count. destruct (Z.ltb_spec (Z.of_nat (length s)) (ppos + nbytes)); lia. }
  destruct (uncopied =? 0); cbn [negb]; [|done]. f_equal; apply wrap_s_small; lia.
Qed.

(** a read of a procfs file never asks for bytes outside the string, whatever the position and
    the size of the read; it returns what it copies, 0 past the end, and on a fault of the copy -EFAULT
    with the position unchanged. *)
Theorem string_read_bounds s nbytes ppos uncopied :
  Z.of_nat (length s) < 2 ^ 31 -> 0 <= nbytes <= MAX_RW_COUNT -> - 2 ^ 63 <= ppos < 2 ^ 63 ->
  let len := Z.of_nat (length s) in
  let r := test_mck_procfs_string_read s nbytes ppos uncopied in
  if (ppos <? 0) || (len <? ppos) then r = Read 0 ppos None
  else exists count, rd_copy r = Some (ppos, count) /\ count = Z.min nbytes (len - ppos) /\
    (if uncopied =? 0 then rd_ret r = count /\ rd_pos r = ppos + count
     else rd_ret r = - EFAULT /\ rd_pos r = ppos).
Proof.
  intros Hl Hn Hp len r. unfold r. destruct (Z.ltb_spec ppos 0) as [Hneg|Hpos]; cbn [orb].
  { unfold test_mck_procfs_string_read. fold len. replace (u64 ppos) with (ppos + 2 ^ 64).
    - by replace (len <? ppos + 2 ^ 64) with true by lia.
    - unfold wrap_u. rewrite <- (Z_mod_plus_full ppos 1), Z.mod_small; lia. }
  destruct (Z.ltb_spec len ppos).
  { unfold test_mck_procfs_string_read. fold len. rewrite wrap_u_small by lia.
    by replace (len <? ppos) with true by lia. }
  rewrite string_read_spec by (unfold MAX_RW_COUNT in *; lia).
  eexists. destruct (uncopied =? 0); cbn; eauto.
Qed.

Lemma string_read_bounds_witness :
  test_mck_procfs_string_read [1; 2; 3] 16 1 0 = Read 2 3 (Some (1, 2)) /\
  exists count, rd_copy (test_mck_procfs_string_read [1; 2; 3] 16 1 0) = Some (1, count) /\ count = 2.
Proof.
  split; [done|].
  destruct (string_read_bounds [1; 2; 3] 16 1 0) as (c & Hc & E & _);
    [by vm_compute..|split; by vm_compute|]. eauto.
Defined.

(** A reader such as cat: reads of [chunk] bytes from position [pos], until one returns 0.  The
    result is what was read, or [None] when [fuel] reads do not reach the end of the file. *)
Fixpoint read_all (fuel : nat) (s : list Z) (chunk pos : Z) : option (list Z) :=
  match fuel with
  | O => None
  | S fuel =>
      let r := test_mck_procfs_string_read s chunk pos 0 in
      if rd_ret r =? 0 then Some []
      else match rd_copy r with
           | Some (from, count) =>
               app (take (Z.to_nat count) (drop (Z.to_nat from) s)) <$> read_all fuel s chunk (rd_pos r)
           | None => None
           end
  end.

Lemma read_all_from fuel s chunk pos :
  Z.of_nat (length s) < 2 ^ 31 -> 0 < chunk <= MAX_RW_COUNT -> 0 <= pos <= Z.of_nat (length s) ->
  Z.of_nat (length s) - pos < Z.of_nat fuel ->
  read_all fuel s chunk pos = Some (drop (Z.to_nat pos) s).
Proof.
  revert pos. induction fuel as [|fuel IH]; intros pos Hl Hc Hp Hf; [lia|]. cbn [read_all].
  rewrite string_read_spec by (unfold MAX_RW_COUNT in *; lia). cbn [Z.eqb rd_ret rd_copy rd_pos].
  set (count := Z.min chunk (Z.of_nat (length s) - pos)). destruct (Z.eqb_spec count 0) as [E|E].
  { assert (pos = Z.of_nat (length s)) as -> by lia. by rewrite Nat2Z.id, drop_all. }
  rewrite IH by lia. csimpl. f_equal. rewrite Z2Nat.inj_add by lia.
  by rewrite <- drop_drop, take_drop.
Qed.

(** reading a procfs file in chunks of any size yields the whole string and then the end of the
    file, in at most one read more than the string has bytes. *)
Theorem procfs_read_all s chunk :
  Z.of_nat (length s) < 2 ^ 31 -> 0 < chunk <= MAX_RW_COUNT ->
  read_all (S (length s)) s chunk 0 = Some s.
Proof. intros Hl Hc. rewrite read_all_from by lia. done. Qed.

Lemma procfs_read_all_witness : read_all 20 test_mck_tp_names 7 0 = Some test_mck_tp_names.
Proof. apply (procfs_read_all test_mck_tp_names 7); by vm_compute. Defined.

(** ** What util/insmod_test_drv.sh gets from the files

    It splits /proc/test_mck/devno at blanks and each word at its colon, and the names of
    /proc/test_mck/tp_names at blanks. *)

Fixpoint words_aux (cur : list Z) (l : list Z) : list (list Z) :=
  match l with
  | [] => match cur with [] => [] | _ => [rev cur] end
  | b :: l =>
      if b =? chr " " then match cur with [] => words_aux [] l | _ => rev cur :: words_aux [] l end
      else words_aux (b :: cur) l
  end.
Definition words (l : list Z) : list (list Z) := words_aux [] l.

Fixpoint decimal_aux (acc : Z) (l : list Z) : option Z :=
  match l with
  | [] => Some acc
  | b :: l => if in_range (chr "0") 10 b then decimal_aux (acc * 10 + (b - chr "0")) l else None
  end.
Definition decimal (l : list Z) : option Z :=
  match l with [] => None | _ => decimal_aux 0 l end.

Fixpoint split_colon (cur l : list Z) : option (list Z * list Z) :=
  match l with
  | [] => None
  | b :: l => if b =? chr ":" then Some (rev cur, l) else split_colon (b :: cur) l
  end.
Definition dev_pair (w : list Z) : option (Z * Z) :=
  '(a, b) ← split_colon [] w; ma ← decimal a; mi ← decimal b; Some (ma, mi).

Definition devno_text (ma : Z) : list Z := c_string (print_majmin ma 1 (print_majmin ma 0 (mm0, 0))).1.

(** Every major number the kernel has (12 bits) is checked. *)
Lemma devno_text_parses :
  forallb (fun ma => bool_decide (mapM dev_pair (words (devno_text ma)) = Some [(ma, 0); (ma, 1)] /\
                                  (length (devno_text ma) < 18)%nat))
    (seqZ 0 4096) = true.
Proof. vm_compute. done. Qed.

(** C39: after a load, /proc/test_mck/devno read in any chunks gives back, word by word, the major
    and minor number of every device of the list, in the order in which /proc/test_mck/tp_names gives
    their names. *)
Theorem procfs_names_devices E chunk :
  all_granted E = true -> 0 <= MAJOR (e_alloc E).2 < 4096 -> 0 < chunk <= MAX_RW_COUNT ->
  exists d, test_mck_init E module_image = Some (0, d) /\
    (text ← read_all 18 (c_string (test_mck_procfs_devno_open d).2) chunk 0; mapM dev_pair (words text))
    = Some ((fun v => (MAJOR (e_alloc E).2, Z.of_nat v)) <$> [0%nat; 1%nat]) /\
    (text ← read_all 20 (c_string (test_mck_procfs_tp_names_open d).2) chunk 0; Some (words text))
    = Some ((fun v => bytes_of (suite_name (ts v))) <$> test_mck_devlist d).
Proof.
  intros Hg Hma Hc. destruct (setup_granted E Hg) as (c0 & c1 & p & H0 & H1 & Hv & Hs).
  pose proof devno_text_parses as Hall. rewrite forallb_forall in Hall.
  specialize (Hall (MAJOR (e_alloc E).2)). apply bool_decide_eq_true_1 in Hall as [Hw Hlen].
  2:{ apply list_elem_of_In, elem_of_seqZ. lia. }
  eexists; split; [exact Hs|]. split.
  - cbn [test_mck_procfs_devno_open snd loaded test_mck_majmin]. fold (devno_text (MAJOR (e_alloc E).2)).
    rewrite read_all_from by lia. exact Hw.
  - change (c_string _) with test_mck_tp_names. by rewrite read_all_from.
Qed.

Lemma procfs_names_devices_witness :
  exists d, test_mck_init env_ok module_image = Some (0, d) /\
    (text ← read_all 18 (c_string (test_mck_procfs_devno_open d).2) 5 0; mapM dev_pair (words text))
    = Some [(247, 0); (247, 1)].
Proof.
  destruct (procfs_names_devices env_ok 5) as (d & H & Hw & _); [done|by vm_compute|by vm_compute|].
  eauto.
Defined.

End DrvFiles.
