(* ===== verification/DevTests.v ===== *)
(** * The mmap_dev test suite (src/src/test_mck/src/mmap_dev/)

    Three test cases that open a device of the test driver, map it and touch its pages: 000 for
    mmap_dev, 001 (private) and 002 (shared) for mmap_dev2, whose pages they compare with the pattern
    the driver keeps.  Each file has its own copy of the setup and of devmap_do_devmap. *)
From S2P Require Import Prelude CMachine Align Libc TestMck Ledger Drv DrvProofs.
Import Align Libc TestMck Ledger.
#[local] Open Scope Z_scope.

Module DevTests.

(** [struct mmap_dev_args]; the path is NULL until it is given. *)
Record mmap_dev_args := DevArgs { path : option string; size : Z }.

(** The loop over [getopt(tc_argc, tc_argv, "d:s:")]; an unknown option prints its message and is
    passed over. *)
Fixpoint setup_opts (evs : list opt_event) (args : mmap_dev_args) : prog mmap_dev_args :=
  match evs with
  | [] => Ret args
  | Opt "d" (Some optarg) :: evs => setup_opts evs (DevArgs (Some optarg) (size args))
  | Opt "s" (Some optarg) :: evs => setup_opts evs (DevArgs (path args) (c_value (strtoul optarg 10)))
  | Bad msg :: evs => fprintf_stderr msg;; setup_opts evs args
  | _ :: evs => setup_opts evs args
  end.

Definition dev_spec : optstring := [("d"%char, true); ("s"%char, true)].

(** [args] is static, all zero before the first call. *)
Definition mmap_dev_setup (tc_num : Z) (tc_argv : list string) : prog mmap_dev_args :=
  setup_opts (events (scan (default "" (tc_argv !! 0%nat)) dev_spec [] (drop 1 tc_argv))) (DevArgs None 0).

(** [int pages = (size + PAGE_SIZE - 1) / PAGE_SIZE]. *)
Definition pages_of (size : Z) : Z := s32 (u64 (size + PAGE_SIZE - 1) / PAGE_SIZE).

(** [*(data + PAGE_SIZE * i) = 'Z'] for the pages from [i] on; [n] are left. *)
Fixpoint access_loop (n : nat) (data i : Z) : prog unit :=
  match n with
  | O => Ret tt
  | S n => store (u64 (data + PAGE_SIZE * i)) (chr "Z");; access_loop n data (i + 1)
  end.

(** [memcmp(a, l, length l) == 0]: bytes are read up to the first that differs. *)
Fixpoint memcmp_eq (a : Z) (l : list Z) : prog bool :=
  match l with
  | [] => Ret true
  | b :: l => v ← load a; if v =? b then memcmp_eq (u64 (a + 1)) l else Ret false
  end.

(** [memset(buf, val, PAGE_SIZE); buf[0] = 'Z']. *)
Definition expected_page (val : Z) : list Z := <[0%nat := chr "Z"]> (replicate (Z.to_nat PAGE_SIZE) (u8 val)).

Fixpoint validate_loop (n : nat) (data i val : Z) : prog verdict :=
  match n with
  | O => Ret None
  | S n =>
      same ← memcmp_eq (u64 (data + PAGE_SIZE * i)) (expected_page val);
      TP_ASSERT same, Some "compare error.";;
      validate_loop n data (i + 1) (val + 1)
  end.

Definition show (what : string) (v : Z) : prog unit := printf (what +:+ "=" +:+ pretty v +:+ nl).

(** [printf("mmap()=%p\n", p)]; the rendering of [%p] is the library's. *)
Section devmap.
Context (hex : Z -> string).

Definition showp (what : string) (p : Z) : prog unit := printf (what +:+ "=" +:+ hex p +:+ nl).

(** The beginning all three share: arguments, open, ioctl, mmap and the accesses.  [k] continues with
    the descriptor, the mapping and the number of pages. *)
Definition devmap_begin (path : option string) (size request flags : Z)
    (k : Z -> Z -> Z -> prog verdict) : prog verdict :=
  match path with
  | None => Ret (Some "invalid argument(-d)."%string)
  | Some path =>
      TP_ASSERT 0 <? size, Some "invalid argument(-s).";;
      fd ← open path O_RDWR;
      show ("open(" +:+ path +:+ ")") fd;;
      TP_ASSERT negb (fd =? -1), Some "file open error.";;
      status ← ioctl fd request;
      show "ioctl()" status;;
      TP_ASSERT negb (status =? -1), Some "ioctl error.";;
      data ← mmap 0 size (PROT_READ .| PROT_WRITE) flags fd 0;
      showp "mmap()" data;;
      TP_ASSERT negb (data =? MAP_FAILED), Some "mmap error.";;
      let pages := pages_of size in
      access_loop (Z.to_nat pages) data 0;;
      k fd data pages
  end.

(** The end they share: each mapping is unmapped, the file closed. *)
Fixpoint devmap_end (ms : list (Z * string)) (size fd : Z) : prog verdict :=
  match ms with
  | [] => close fd;; Ret None
  | (data, msg) :: ms =>
      status ← munmap data size;
      show "munmap()" status;;
      TP_ASSERT negb (status =? -1), Some msg;;
      devmap_end ms size fd
  end.

Definition devmap_do_devmap000 (path : option string) (size : Z) : prog verdict :=
  devmap_begin path size 0 MAP_PRIVATE (fun fd data pages =>
    devmap_end [(data, "munmap error."%string)] size fd).

Definition devmap_do_devmap001 (path : option string) (size : Z) : prog verdict :=
  devmap_begin path size Drv.TEST_MCK_MMAP_DEV2_BUF_RESET MAP_PRIVATE (fun fd data pages =>
    msg ← validate_loop (Z.to_nat pages) data 0 1;
    TP_ASSERT is_NULL msg, msg;;
    devmap_end [(data, "munmap error."%string)] size fd).

Definition devmap_do_devmap002 (path : option string) (size : Z) : prog verdict :=
  devmap_begin path size Drv.TEST_MCK_MMAP_DEV2_BUF_RESET MAP_SHARED (fun fd data pages =>
    peek_data ← mmap 0 size (PROT_READ .| PROT_WRITE) MAP_SHARED fd 0;
    showp "peek mmap()" peek_data;;
    TP_ASSERT negb (peek_data =? MAP_FAILED), Some "peek mmap error.";;
    msg ← validate_loop (Z.to_nat pages) peek_data 0 1;
    TP_ASSERT is_NULL msg, msg;;
    devmap_end [(data, "munmap error."%string); (peek_data, "peek munmap error."%string)] size fd).

(** The test cases as the harness knows them. *)
Definition mmap_dev_case (n : Z) (devmap : option string -> Z -> prog verdict) : test_case :=
  TestCase "mmap_dev" n mmap_dev_args mmap_dev_setup (fun _ args => devmap (path args) (size args))
    (fun _ _ => Ret tt).
Definition mmap_dev000 : test_case := mmap_dev_case 0 devmap_do_devmap000.
Definition mmap_dev001 : test_case := mmap_dev_case 1 devmap_do_devmap001.
Definition mmap_dev002 : test_case := mmap_dev_case 2 devmap_do_devmap002.
Definition mmap_dev_cases : list test_case := [mmap_dev000; mmap_dev001; mmap_dev002].

(** ** What is held *)

Lemma keeps_access_loop h n data i : keeps (access_loop n data i) h (fun _ => h).
Proof. revert i. induction n as [|n IH]; intros i; cbn [access_loop]; keep. apply IH. Qed.

Lemma keeps_memcmp_eq h a l : keeps (memcmp_eq a l) h (fun _ => h).
Proof. revert a. induction l as [|b l IH]; intros a; cbn [memcmp_eq]; keep. apply IH. Qed.

#[local] Hint Resolve keeps_access_loop keeps_memcmp_eq : ledger.

Lemma keeps_validate_loop h n data i val : keeps (validate_loop n data i val) h (fun _ => h).
Proof. revert i val. induction n as [|n IH]; intros i val; cbn [validate_loop]; keep. apply IH. Qed.

#[local] Hint Resolve keeps_validate_loop : ledger.

Lemma keeps_show h w v : keeps (show w v) h (fun _ => h).
Proof. apply keeps_printf. Qed.
Lemma keeps_showp h w v : keeps (showp w v) h (fun _ => h).
Proof. apply keeps_printf. Qed.

#[local] Hint Resolve keeps_show keeps_showp : ledger.

(** A run that passes goes from holding [h] to holding [h']; a failed check leaves the test at once. *)
Definition passes (p : prog verdict) (h h' : held) : Prop :=
  forall e tr e', run p e tr (Returned None) e' -> after h tr = h'.

Lemma passes_bind {A} (p : prog A) f h mid h' :
  keeps p h mid -> (forall a, passes (f a) (mid a) h') -> passes (p ≫= f) h h'.
Proof.
  intros Hp Hf e tr e' H. apply run_bind_returned in H as (a & e1 & t1 & t2 & H1 & H2 & ->).
  rewrite after_app, (Hp _ _ _ _ H1). by eapply Hf.
Qed.

Lemma passes_assert t m p h h' : (t = true -> passes p h h') -> passes (TP_ASSERT t, Some m;; p) h h'.
Proof. intros Hp e tr e' H. apply run_tp_assert in H as [[Ht H]|(_ & _ & [=] & _)]. by apply Hp in H. Qed.

Lemma passes_null msg p h h' : passes p h h' -> passes (TP_ASSERT is_NULL msg, msg;; p) h h'.
Proof. intros Hp e tr e' H. apply run_tp_assert in H as [[_ H]|(Ht & _ & [= <-] & _)]; [by apply Hp in H|done]. Qed.

Ltac pass :=
  repeat (cbv beta zeta; lazymatch goal with
  | |- passes (tp_assert (is_NULL _) _ _) _ _ => apply passes_null
  | |- passes (tp_assert _ (Some _) _) _ _ =>
      apply passes_assert; let E := fresh "E" in intros E; try (apply negb_true_iff in E; rewrite ?E)
  | |- passes (mbind _ _) _ _ => eapply passes_bind; [solve [eauto with ledger]|intros ?]
  end).

Lemma passes_end ms size fd h :
  passes (devmap_end ms size fd) (fold_right (fun m h => add_map (m.1, size) h) (add_fd fd h) ms) h.
Proof.
  induction ms as [|[data msg] ms IH]; cbn [devmap_end fold_right fst].
  - pass. rewrite del_add_fd. intros e tr e' (-> & _). done.
  - pass. rewrite del_add_map. apply IH.
Qed.

Lemma passes_begin path size request flags k h h' :
  (forall fd data pages, passes (k fd data pages) (add_map (data, size) (add_fd fd h)) h') ->
  passes (devmap_begin path size request flags k) h h'.
Proof.
  intros Hk. unfold devmap_begin. destruct path as [path|]; [|by intros e tr e' (_ & [=] & _)].
  pass. apply Hk.
Qed.

(** a test case of mmap_dev that passes has unmapped both what it mapped and closed the device. *)
Theorem devmap_pass_no_leak h path size e tr e' devmap :
  devmap ∈ [devmap_do_devmap000; devmap_do_devmap001; devmap_do_devmap002] ->
  run (devmap path size) e tr (Returned None) e' -> after h tr = h.
Proof.
  intros Hd. revert e tr e'. change (passes (devmap path size) h h).
  set_unfold in Hd. destruct Hd as [->|[->|[->|[]]]]; apply passes_begin; intros fd data pages.
  - apply (passes_end [(data, _)]).
  - pass. apply (passes_end [(data, _)]).
  - pass. cbn [devmap_end]. pass. rewrite del_map_below, del_add_map, del_add_fd. by intros e tr e' (-> & _).
Qed.

(** ** What a passing test has seen *)

Lemma memcmp_eq_true a l e tr e' :
  0 <= a < 2 ^ 64 -> run (memcmp_eq a l) e tr (Returned true) e' ->
  forall k v, l !! k = Some v -> ev (MEM_load (u64 (a + Z.of_nat k))) (Ok v) ∈ tr.
Proof.
  revert a e tr. induction l as [|b l IH]; intros a e tr Ha H k v Hk; [done|].
  destruct H as ([x|sig d] & tr' & -> & H); [|by destruct H as (_ & [=] & _)].
  cbn [bind resume mbind prog_mbind] in H. destruct (Z.eqb_spec x b) as [->|]; [|by destruct H as (_ & [=] & _)].
  destruct k as [|k]; cbn in Hk.
  - injection Hk as ->. rewrite Z.add_0_r, wrap_u_small by done. set_solver.
  - apply elem_of_cons. right. assert (0 <= u64 (a + 1) < 2 ^ 64) as Ha' by (by apply wrap_u_range).
    specialize (IH _ _ _ Ha' H k v Hk).
    rewrite wrap_u_add_l in IH. by replace (a + Z.of_nat (S k)) with (a + 1 + Z.of_nat k) by lia.
Qed.

Lemma validate_loop_null n data i val e tr e' :
  run (validate_loop n data i val) e tr (Returned None) e' ->
  forall m k v, (m < n)%nat -> expected_page (val + Z.of_nat m) !! k = Some v ->
    ev (MEM_load (u64 (data + PAGE_SIZE * (i + Z.of_nat m) + Z.of_nat k))) (Ok v) ∈ tr.
Proof.
  revert i val e tr. induction n as [|n IH]; intros i val e tr H m k v Hm Hk; [lia|].
  cbn [validate_loop] in H. apply run_bind_returned in H as (same & e1 & t1 & t2 & H1 & H2 & ->).
  apply run_tp_assert in H2 as [[-> H2]|(_ & _ & [=] & _)]. rewrite elem_of_app. destruct m as [|m].
  - left. rewrite !Z.add_0_r in *.
    assert (0 <= u64 (data + PAGE_SIZE * i) < 2 ^ 64) as Ha by (by apply wrap_u_range).
    pose proof (memcmp_eq_true _ _ _ _ _ Ha H1 k v Hk) as H. by rewrite wrap_u_add_l in H.
  - right. replace (i + Z.of_nat (S m)) with (i + 1 + Z.of_nat m) by lia.
    apply (IH _ _ _ _ H2 m k v); [lia|]. by replace (val + 1 + Z.of_nat m) with (val + Z.of_nat (S m)) by lia.
Qed.

Lemma expected_page_lookup val j :
  0 <= j < PAGE_SIZE -> expected_page val !! Z.to_nat j = Some (if j =? 0 then chr "Z" else u8 val).
Proof.
  intros Hj. unfold expected_page. destruct (Z.eqb_spec j 0) as [->|Hne].
  - by rewrite list_lookup_insert_eq by (rewrite length_replicate; by vm_compute; lia).
  - rewrite list_lookup_insert_ne by lia. apply lookup_replicate. split; [done|lia].
Qed.

(** The value both tests expect in byte [j] of page [i]. *)
Definition expected (i j : Z) : Z := if j =? 0 then chr "Z" else u8 (i + 1).

Lemma validate_null data pages e tr e' :
  run (validate_loop (Z.to_nat pages) data 0 1) e tr (Returned None) e' ->
  forall i j, 0 <= i < pages -> 0 <= j < PAGE_SIZE ->
    ev (MEM_load (u64 (data + PAGE_SIZE * i + j))) (Ok (expected i j)) ∈ tr.
Proof.
  intros H i j Hi Hj.
  pose proof (validate_loop_null _ _ _ _ _ _ _ H (Z.to_nat i) (Z.to_nat j) (expected i j)) as Hv.
  rewrite !Z2Nat.id, Z.add_0_l in Hv by lia. apply Hv; [lia|].
  rewrite expected_page_lookup by done. unfold expected. by rewrite Z.add_comm.
Qed.

Lemma access_loop_stores n data i e tr e' :
  run (access_loop n data i) e tr (Returned tt) e' ->
  forall m, (m < n)%nat -> ev (MEM_store (u64 (data + PAGE_SIZE * (i + Z.of_nat m))) (chr "Z")) (Ok tt) ∈ tr.
Proof.
  revert i e tr. induction n as [|n IH]; intros i e tr H m Hm; [lia|]. cbn [access_loop] in H.
  destruct H as ([[]|sig d] & tr' & -> & H); [|by destruct H as (_ & [=] & _)].
  apply elem_of_cons. destruct m as [|m]; [left; by rewrite Z.add_0_r|right].
  replace (i + Z.of_nat (S m)) with (i + 1 + Z.of_nat m) by lia. apply (IH _ _ _ H). lia.
Qed.

Lemma devmap_begin_null path size request flags k e tr e' :
  run (devmap_begin path size request flags k) e tr (Returned None) e' ->
  exists p fd ri a e1 tr1 tr2, path = Some p /\ 0 < size /\ tr = tr1 ++ tr2 /\
    ev (SYS_open p O_RDWR) fd ∈ tr1 /\ ev (SYS_ioctl fd request) ri ∈ tr1 /\ is_error ri = false /\
    ev (SYS_mmap 0 size (PROT_READ .| PROT_WRITE) flags fd 0) a ∈ tr1 /\
    (forall i, 0 <= i < pages_of size -> ev (MEM_store (u64 (u64 a + PAGE_SIZE * i)) (chr "Z")) (Ok tt) ∈ tr1) /\
    run (k fd (u64 a) (pages_of size)) e1 tr2 (Returned None) e'.
Proof.
  unfold devmap_begin. destruct path as [p|]; [|intros H; by destruct H as (_ & [=] & _)]. intros H.
  apply run_tp_assert in H as [[Hs H]|(_ & _ & [=] & _)].
  apply run_open in H as (fd & t1 & -> & H). destruct H as ([] & t2 & -> & H).
  apply run_tp_assert in H as [[Hf H]|(_ & _ & [=] & _)].
  apply negb_true_iff, ret_int_ok in Hf as [Hf Hf']. rewrite Hf' in H.
  apply run_ioctl in H as (ri & t3 & -> & H). destruct H as ([] & t4 & -> & H).
  apply run_tp_assert in H as [[Hi H]|(_ & _ & [=] & _)].
  apply negb_true_iff, ret_int_ok in Hi as [Hi Hi'].
  apply run_mmap in H as (a & t5 & -> & H). destruct H as ([] & t6 & -> & H).
  apply run_tp_assert in H as [[Ha H]|(_ & _ & [=] & _)].
  apply negb_true_iff, ret_ptr_ok in Ha as [Ha Ha']. rewrite Ha' in H.
  apply run_bind_returned in H as ([] & e1 & t7 & t8 & Hw & H & ->). b2p.
  eexists p, fd, ri, a, e1, ([_; _; _; _; _; _] ++ t7), t8. do 2 (split; [done|]). split; [done|].
  rewrite !elem_of_app. do 2 (split; [set_solver|]). split; [done|]. split; [set_solver|]. split; [|done].
  intros i Hpi. rewrite elem_of_app. right.
  pose proof (access_loop_stores _ _ _ _ _ _ Hw (Z.to_nat i)) as Hst.
  rewrite Z2Nat.id, Z.add_0_l in Hst by lia. apply Hst. lia.
Qed.

(** C12: a test case 001 or 002 that passes, whatever the kernel, has reset the buffer of the device and
    has then written the letter Z to the first byte of every page of a mapping of the device, without a
    fault.  Behind that it has read every byte of every page, in that mapping (001) or in a second,
    shared one (002): the first byte of each page was the letter the test wrote, not the driver's
    byte, and each other byte the number of its page, counted from 1.  In the three pages of the
    driver's buffer this is, but for the first bytes, the driver's pattern. *)
Theorem devmap_pass_sees_pattern path size e tr e' :
  (run (devmap_do_devmap001 path size) e tr (Returned None) e' \/
   run (devmap_do_devmap002 path size) e tr (Returned None) e') ->
  exists p fd ri flags w a tr1 tr2, path = Some p /\ 0 < size /\ tr = tr1 ++ tr2 /\
    ev (SYS_open p O_RDWR) fd ∈ tr1 /\
    ev (SYS_ioctl fd Drv.TEST_MCK_MMAP_DEV2_BUF_RESET) ri ∈ tr1 /\ is_error ri = false /\
    ev (SYS_mmap 0 size (PROT_READ .| PROT_WRITE) flags fd 0) w ∈ tr1 /\
    ev (SYS_mmap 0 size (PROT_READ .| PROT_WRITE) flags fd 0) a ∈ tr1 /\
    (w = a \/ flags = MAP_SHARED) /\
    (forall i, 0 <= i < pages_of size -> ev (MEM_store (u64 (u64 w + PAGE_SIZE * i)) (chr "Z")) (Ok tt) ∈ tr1) /\
    forall i j, 0 <= i < pages_of size -> 0 <= j < PAGE_SIZE ->
      ev (MEM_load (u64 (u64 a + PAGE_SIZE * i + j))) (Ok (expected i j)) ∈ tr2 /\
      (i < 3 -> j <> 0 -> DrvProofs.pattern !! Z.to_nat (i * PAGE_SIZE + j) = Some (expected i j)).
Proof.
  assert (forall i j, 0 <= i -> 0 <= j < PAGE_SIZE -> i < 3 -> j <> 0 ->
    DrvProofs.pattern !! Z.to_nat (i * PAGE_SIZE + j) = Some (expected i j)) as Hpat.
  { intros i j Hi Hj Hi3 Hj0. change PAGE_SIZE with 4096 in *.
    rewrite DrvProofs.pattern_lookup by (change Drv.buf_size with 12288; lia).
    unfold expected. replace (j =? 0) with false by lia. rewrite wrap_u_small by lia.
    change PAGE_SIZE with 4096. f_equal. Z.div_mod_to_equations. lia. }
  intros [H|H]; apply devmap_begin_null in H
    as (p & fd & ri & a & e1 & tr1 & tr2 & Hp & Hs & -> & Ho & Hi & Hi' & Hm & Hst & H).
  - exists p, fd, ri, MAP_PRIVATE, a, a, tr1, tr2. do 8 (split; [done|]). split; [by left|]. split; [done|]. intros i j Hpi Hj.
    split; [|intros; apply Hpat; lia].
    apply run_bind_returned in H as (msg & e2 & t1 & t2 & H1 & H2 & ->).
    apply run_tp_assert in H2 as [[Hn _]|(Hn & _ & [= <-] & _)]; [|done]. destruct msg; [done|].
    apply elem_of_app. left. by eapply validate_null.
  - apply run_mmap in H as (b & t1 & -> & H). destruct H as ([] & t2 & -> & H).
    apply run_tp_assert in H as [[Hb H]|(_ & _ & [=] & _)].
    apply negb_true_iff, ret_ptr_ok in Hb as [_ Hb]. rewrite Hb in H.
    apply run_bind_returned in H as (msg & e2 & t3 & t4 & H1 & H2 & ->).
    apply run_tp_assert in H2 as [[Hn _]|(Hn & _ & [= <-] & _)]; [|done]. destruct msg; [done|].
    exists p, fd, ri, MAP_SHARED, a, b.
    eexists (tr1 ++ [ev (SYS_mmap 0 size (PROT_READ .| PROT_WRITE) MAP_SHARED fd 0) b; _]), (t3 ++ t4).
    do 2 (split; [done|]). split; [rewrite <- app_assoc; reflexivity|].
    rewrite !elem_of_app. do 4 (split; [by auto|]). split; [right; set_solver|]. split; [by right|].
    split; [intros i Hpi; rewrite elem_of_app; left; by apply Hst|]. intros i j Hpi Hj.
    split; [|intros; apply Hpat; lia]. rewrite elem_of_app. left. by eapply validate_null.
Qed.

End devmap.

(** A kernel with one device file that shows the driver's pattern at a fixed address: the state is the
    bytes written over it. *)
Definition one_device_step (c : cmd) (s : gmap Z Z) : reply c * gmap Z Z :=
  match c return reply c * gmap Z Z with
  | SYS_open _ _ => (3, s)
  | SYS_mmap _ _ _ _ _ _ => (0x10000, s)
  | SYS_ioctl _ _ | SYS_munmap _ _ | SYS_close _ => (0, s)
  | MEM_load a => (Ok (default ((a - 0x10000) / PAGE_SIZE + 1) (s !! a)), s)
  | MEM_store a v => (Ok tt, <[a := v]> s)
  | c => (no_reply c, s)
  end.
Definition one_device : Kernel := {| kstate := gmap Z Z; kstep := one_device_step |}.

Definition is_pass (o : outcome verdict) : bool := match o with Returned None => true | _ => false end.

(** Test case 001 passes on it with two pages. *)
Lemma one_device_pass :
  is_pass (@exec one_device _ (devmap_do_devmap001 (fun _ => "p"%string) (Some "d"%string) 8192)
             (@Mach one_device 0 ∅)).1 = true.
Proof. vm_compute. done. Qed.

Lemma devmap_pass_sees_pattern_witness :
  exists a (tr2 : list event), ev (MEM_load (u64 (u64 a + PAGE_SIZE * 1 + 5))) (Ok 2) ∈ tr2 /\
    DrvProofs.pattern !! Z.to_nat (1 * PAGE_SIZE + 5) = Some 2.
Proof.
  pose proof one_device_pass as Hp.
  destruct (@exec_run one_device _ (devmap_do_devmap001 (fun _ => "p"%string) (Some "d"%string) 8192)
              (@Mach one_device 0 ∅)) as [tr Hr].
  destruct (exec _ _) as [[[msg|]|n|sig d] m]; try done.
  destruct (devmap_pass_sees_pattern _ _ _ _ _ _ (or_introl Hr)) as (p & fd & ri & fl & w & a & t1 & t2 & _ & _ & _ & _ & _ & _ & _ & _ & _ & _ & H).
  destruct (H 1 5) as [H1 H2]; [by vm_compute|by vm_compute|]. exists a, t2. split; [exact H1|]. by apply H2.
Defined.

(** A passing run of test case 000 with one page. *)
Definition devmap000_demo : list event :=
  [ev (SYS_open "d" O_RDWR) 3; ev (OUT ("open(d)=3" +:+ nl)) tt; ev (SYS_ioctl 3 0) 0; ev (OUT ("ioctl()=0" +:+ nl)) tt;
   ev (SYS_mmap 0 4096 (PROT_READ .| PROT_WRITE) MAP_PRIVATE 3 0) 0x10000; ev (OUT ("mmap()=p" +:+ nl)) tt;
   ev (MEM_store 0x10000 (chr "Z")) (Ok tt); ev (SYS_munmap 0x10000 4096) 0; ev (OUT ("munmap()=0" +:+ nl)) tt;
   ev (SYS_close 3) 0].

Lemma devmap_pass_no_leak_witness : after none devmap000_demo = none.
Proof.
  apply (devmap_pass_no_leak (fun _ => "p"%string) none (Some "d"%string) 4096 0 devmap000_demo 0
    (devmap_do_devmap000 (fun _ => "p"%string))); [set_solver|].
  do 10 (eexists _, _; split; [reflexivity|]; cbn). done.
Defined.

(** ** The arguments *)

(** the arguments [-d path -s size] of a test case reach devmap_do_devmap as given; what is not
    given stays NULL and 0, which devmap_do_devmap refuses before it opens anything. *)
Theorem mmap_dev_setup_args app p n tc_num hex e :
  0 <= n < 2 ^ 64 ->
  mmap_dev_setup tc_num [app; "-d"; p; "-s"; pretty n] = Ret (DevArgs (Some p) n) /\
  mmap_dev_setup tc_num [app] = Ret (DevArgs None 0) /\
  forall devmap, devmap ∈ [devmap_do_devmap000 hex; devmap_do_devmap001 hex; devmap_do_devmap002 hex] ->
    (forall size, run (devmap None size) e [] (Returned (Some "invalid argument(-d)."%string)) e) /\
    run (devmap (Some p) 0) e [] (Returned (Some "invalid argument(-s)."%string)) e.
Proof.
  intros Hn. split; [|split; [done|]].
  - unfold mmap_dev_setup. cbn. unfold strtoul. destruct (parse_int_pretty 10 n) as [k ->]; [lia|by right|].
    unfold ULONG_MAX. by replace (2 ^ 64 - 1 <? n) with false by lia.
  - intros devmap Hd. set_unfold in Hd. by destruct Hd as [->|[->|[->|[]]]].
Qed.

Lemma mmap_dev_setup_args_witness :
  mmap_dev_setup 1 ["test_mck"; "-d"; "/dev/test_mck/mmap_dev2"; "-s"; pretty 8192]
  = Ret (DevArgs (Some "/dev/test_mck/mmap_dev2"%string) 8192).
Proof.
  apply (mmap_dev_setup_args "test_mck" "/dev/test_mck/mmap_dev2" 8192 1 (fun _ => "p"%string) 0). lia.
Defined.

End DevTests.
