(* ===== verification/Lv07.v ===== *)
(** * lv07: reading and writing with threads (src/src/lv07_read-write_with-glibc/)

    entry-pth.c starts threads that print one line each and take turns with a barrier; entry-st.c is
    the program with one thread.  The threads are a state machine: every interleaving of their steps
    is a sequence of labels. *)
From S2P Require Import Prelude CMachine Libc.
Import Libc.
#[local] Open Scope Z_scope.

Module Lv07.

(** ** The line a thread prints *)

Definition BUF_LEN : nat := 256.

(** Writes to [char buf[256]]; a write outside it is undefined ([None]). *)
Definition put (buf : list Z) (i : nat) (v : Z) : option (list Z) :=
  if (i <? length buf)%nat then Some (<[i := v]> buf) else None.

(** [fread(buf+2, 1, 254, fp)]: the bytes it stores and how many there are. *)
Definition fread_buf (buf content : list Z) : list Z * nat :=
  let data := take (BUF_LEN - 2) content in
  (list_inserts 2 data buf, length data).

(** The assignments of read_write, up to the terminating NUL. *)
Definition fill_buf (tag : Z) (buf content : list Z) : option (list Z) :=
  buf ← put buf 0 tag;
  buf ← put buf 1 (chr ":");
  let '(buf, cnt) := fread_buf buf content in
  put buf (cnt + 2) 0.

(** The tags: [buf[0] = 'A' + num % 26] in entry-pth.c, [buf[0] = '0' + num] in entry-st.c. *)
Definition tag_pth (num : Z) : Z := u8 (chr "A" + num mod (chr "Z" - chr "A" + 1)).
Definition tag_st (num : Z) : Z := u8 (chr "0" + num).

(** ** The arguments of entry-pth.c *)

Definition MAX_THREAD_NUM : Z := 512.

(** The checks of main: what it prints, and the number of threads unless it returns.  [rlim_max],
    [setrlimit_ret] and [barrier_ret] are what getrlimit, setrlimit and pthread_barrier_init yield. *)
Definition main_check (argv : list string) (rlim_max setrlimit_ret barrier_ret : Z)
    : list string * option Z :=
  match argv with
  | [_; _; a2; a3] =>
      let thread_num := atoi a2 in
      if (thread_num <? 1) || (MAX_THREAD_NUM <? thread_num)
      then (["thread_number invalid, 1 <= thread_num <= 512" +:+ String "010" ""], None)
      else
        let use := "use thread_num = " +:+ pretty thread_num +:+ "." +:+ String "010" "" in
        let ncpu := atoi a3 in
        if (ncpu <=? 0) || (rlim_max <? u64 ncpu)
        then ([use; "rlimit_nproc invalid, 1 <= rlimit_nproc <= rlim_max" +:+ String "010" ""], None)
        else if negb (setrlimit_ret =? 0) then ([use; "setrlimit error" +:+ String "010" ""], None)
        else if negb (barrier_ret =? 0) then ([use; "pthread_barrier_init error" +:+ String "010" ""], None)
        else ([use], Some thread_num)
  | _ => (["invalid argment. " +:+ default "" (argv !! 0%nat) +:+
           " ostype-filepath <thread_num> <rlimit_nproc>" +:+ String "010" ""], None)
  end.

(** ** The threads *)

(** Where a thread is in read_write: before fopen, in the loop before the line, at the barrier of
    that loop, in the loop behind the line, at the barrier of that loop, or returned.  [Loop1] and
    [Loop2] carry the loop variable [i]. *)
Inductive phase : Set :=
| Start
| Loop1 (i : nat)
| Wait1 (i : nat)
| Loop2 (i : nat)
| Wait2 (i : nat)
| Done.
#[global] Instance phase_eq_dec : EqDecision phase.
Proof. solve_decision. Defined.

(** The process: the threads created so far (thread 0 is main), the phase of each, the threads
    main has joined, and the numbers printed. *)
Record proc := Proc {
  created : nat;
  ph : nat -> phase;
  joined : nat;
  out : list nat
}.

(** The steps: main creates the next thread, a thread runs to its next point, the barrier opens,
    main joins the next thread. *)
Inductive label : Set := Create | Thread (t : nat) | Barrier | Join.

Definition set_ph (t : nat) (p : phase) (f : nat -> phase) : nat -> phase :=
  fun u => if (u =? t)%nat then p else f u.

Section process.
Context (thread_num : nat) (opens : nat -> bool).

(** Main runs read_write(0) when all threads are created. *)
Definition active (s : proc) (t : nat) : bool :=
  if (t =? 0)%nat then (created s =? thread_num)%nat else (t <? created s)%nat.

(** One step of read_write(t): the next phase, and whether the line is printed. *)
Definition read_write (t : nat) (p : phase) : option (phase * bool) :=
  match p with
  | Start => Some (if opens t then Loop1 0 else Done, false)
  | Loop1 i => if (i <? t)%nat then Some (Wait1 i, false) else Some (Loop2 i, true)
  | Loop2 i => if (i <? thread_num)%nat then Some (Wait2 i, false) else Some (Done, false)
  | Wait1 _ | Wait2 _ | Done => None
  end.

Definition at_barrier (p : phase) : bool :=
  match p with Wait1 _ | Wait2 _ => true | _ => false end.

(** A thread leaves the barrier with its loop variable incremented. *)
Definition leave (p : phase) : phase :=
  match p with Wait1 i => Loop1 (S i) | Wait2 i => Loop2 (S i) | p => p end.

Definition threads : list nat := seq 0 thread_num.

Definition step (l : label) (s : proc) : option proc :=
  match l with
  | Create =>
      if (created s <? thread_num)%nat then Some (Proc (S (created s)) (ph s) (joined s) (out s)) else None
  | Thread t =>
      if (t <? thread_num)%nat && active s t then
        '(p, line) ← read_write t (ph s t);
        Some (Proc (created s) (set_ph t p (ph s)) (joined s) (if line : bool then out s ++ [t] else out s))
      else None
  | Barrier =>
      if forallb (fun t => at_barrier (ph s t)) threads
      then Some (Proc (created s) (fun t => leave (ph s t)) (joined s) (out s)) else None
  | Join =>
      if (S (joined s) <? thread_num)%nat && bool_decide (ph s 0%nat = Done) && bool_decide (ph s (S (joined s)) = Done)
      then Some (Proc (created s) (ph s) (S (joined s)) (out s)) else None
  end.

(** Main has created thread 0, that is itself, when the loop starts. *)
Definition init : proc := Proc 1 (fun _ => Start) 0 [].

Fixpoint steps (ls : list label) (s : proc) : option proc :=
  match ls with
  | [] => Some s
  | l :: ls => s ← step l s; steps ls s
  end.

(** Main returns: its own read_write is over and all threads are joined. *)
Definition finished (s : proc) : bool := bool_decide (ph s 0%nat = Done) && (S (joined s) =? thread_num)%nat.

End process.

Example three_threads :
  out <$> steps 3 (fun _ => true)
    [Create; Thread 1; Create; Thread 2; Thread 0; Thread 2; Thread 0; Thread 1; Thread 0; Barrier;
     Thread 0; Thread 2; Thread 1; Thread 1; Barrier; Thread 2; Thread 1] init
  = Some [0; 1; 2]%nat.
Proof. reflexivity. Qed.

End Lv07.
