(* ===== verification/Lv07Proofs.v ===== *)
(** * Correctness of lv07

    The lines come out in the order of the thread numbers in every interleaving, the program
    terminates, and what goes wrong when a file cannot be opened or is too long. *)
From S2P Require Import Prelude CMachine Libc Lv07.
Import Libc Lv07.
#[local] Open Scope Z_scope.

Module Lv07Proofs.

(** ** The buffer *)

Lemma put_in buf i v : (i < length buf)%nat -> put buf i v = Some (<[i := v]> buf).
Proof. intros Hi. unfold put. by rewrite (proj2 (Nat.ltb_lt _ _)). Qed.
Lemma put_out buf i v : (length buf <= i)%nat -> put buf i v = None.
Proof. intros Hi. unfold put. by rewrite (proj2 (Nat.ltb_ge _ _)). Qed.

(** the line buffer is filled without a write outside it exactly when the file is shorter than
    254 bytes: a longer file makes the terminating NUL go to buf[256].  When it is filled, it holds
    the tag, a colon, the file and the NUL. *)
Theorem fill_buf_bounds tag buf content :
  length buf = BUF_LEN ->
  (fill_buf tag buf content = None <-> (254 <= length content)%nat) /\
  (forall buf', fill_buf tag buf content = Some buf' ->
     take (length content + 3) buf' = [tag; chr ":"] ++ content ++ [0] /\ length buf' = BUF_LEN).
Proof.
  intros Hb. unfold fill_buf, BUF_LEN in *.
  rewrite put_in by lia. cbn [mbind option_bind]. rewrite put_in by (rewrite length_insert; lia).
  cbn [mbind option_bind]. unfold fread_buf, BUF_LEN. rewrite length_take.
  destruct (Nat.lt_ge_cases (length content) 254) as [Hc|Hc].
  - replace (Nat.min (256 - 2) (length content)) with (length content) by lia.
    rewrite put_in, take_ge by (rewrite ?length_inserts, ?length_insert; lia).
    split; [split; [done|lia]|]. intros buf' [= <-].
    split; [|by rewrite !length_insert, length_inserts, !length_insert].
    do 2 (destruct buf as [|? buf]; [done|]). cbn [length] in Hb.
    rewrite <- (take_drop (length content) buf).
    destruct (drop (length content) buf) as [|x rest] eqn:Ed.
    { apply (f_equal length) in Ed. rewrite length_drop in Ed. cbn in Ed. lia. }
    match goal with |- context [<[1%nat:=_]> (<[0%nat:=_]> (_ :: _ :: ?L))] =>
      change (<[1%nat:=_]> (<[0%nat:=_]> (_ :: _ :: L))) with (tag :: chr ":" :: L) end.
    rewrite !list_inserts_cons.
    rewrite list_inserts_0_r by (rewrite length_take; lia).
    replace (length content + 2)%nat
      with (length ([tag; chr ":"] ++ content) + 0)%nat by (cbn [app length]; lia).
    change (tag :: chr ":" :: content ++ x :: rest) with (([tag; chr ":"] ++ content) ++ x :: rest).
        rewrite insert_app_r. change (<[0%nat:=0]> (x :: rest)) with ([0] ++ rest).
    rewrite app_assoc, take_app_length' by (rewrite length_app; cbn [app length]; lia).
    by rewrite <- app_assoc.
  - rewrite put_out by (rewrite length_inserts, !length_insert; lia). split; [split; [lia|done]|done].
Qed.

Lemma fill_buf_bounds_witness :
  fill_buf (chr "A") (replicate 256 7) (replicate 254 8) = None.
Proof. apply fill_buf_bounds; [done|]. by vm_compute. Defined.

(** ** All files can be opened *)

Section opened.
Context (n : nat) (Hn : (1 <= n)%nat) (opens : nat -> bool) (Hopens : forall t, (t < n)%nat -> opens t = true).

(** Round [r]: every thread has passed [r] barriers; the threads below [r] have printed, those above
    have not, thread [r] may have. *)
Definition phase_ok (r t : nat) (p : phase) : Prop :=
  match p with
  | Start => r = O
  | Loop1 i => i = r /\ (r <= t)%nat
  | Wait1 i => i = r /\ (r < t)%nat
  | Loop2 i => i = r /\ (t <= r)%nat
  | Wait2 i => i = r /\ (t <= r)%nat /\ (r < n)%nat
  | Done => r = n
  end.

Definition has_printed (p : phase) : bool := match p with Loop2 _ | Wait2 _ | Done => true | _ => false end.

Record inv (r : nat) (s : proc) : Prop := {
  inv_round : (r <= n)%nat;
  inv_phase : forall t, (t < n)%nat -> phase_ok r t (ph s t);
  inv_out : out s = seq 0 (if (r <? n)%nat && has_printed (ph s r) then S r else r);
  inv_created : (1 <= created s <= n)%nat;
  inv_start : forall t, (t < n)%nat -> active n s t = false -> ph s t = Start;
  inv_joined : (joined s < n)%nat
}.

Lemma inv_init : inv 0 init.
Proof. split; cbn -[Nat.ltb]; auto with lia. by rewrite andb_false_r. Qed.

Lemma set_ph_same t p f : set_ph t p f t = p.
Proof. unfold set_ph. by rewrite Nat.eqb_refl. Qed.
Lemma set_ph_other t p f u : u <> t -> set_ph t p f u = f u.
Proof. unfold set_ph. intros H. by rewrite (proj2 (Nat.eqb_neq u t)). Qed.

(** A step of one thread keeps the round. *)
Lemma inv_thread r s t s' : inv r s -> step n opens (Thread t) s = Some s' -> inv r s'.
Proof.
  intros [H1 H2 H3 H4 H5 H6] Hs. unfold step in Hs.
  destruct (t <? n)%nat eqn:Et; [|done]. apply Nat.ltb_lt in Et. cbn [andb] in Hs.
  destruct (active n s t) eqn:Ea; [|done].
  destruct (read_write n opens t (ph s t)) as [[p line]|] eqn:Er; [|done]. cbn [mbind option_bind] in Hs. injection Hs as <-.
  specialize (H2 t Et) as Hp.
  assert (phase_ok r t p /\ has_printed p = has_printed (ph s t) || line /\
          (line = true -> t = r) /\ (line = true -> has_printed (ph s t) = false)) as (Hp' & Hh & Hl & Hl').
  { destruct (ph s t) as [|i|i|i|i|]; cbn [read_write] in Er; cbn in Hp; try done.
    - rewrite Hopens in Er by done. injection Er as <- <-. cbn. auto with lia.
    - destruct (Nat.ltb_spec i t); injection Er as <- <-; cbn; intuition lia.
    - destruct (Nat.ltb_spec i n); injection Er as <- <-; cbn; intuition lia. }
  split; cbn -[Nat.ltb]; auto.
  - intros u Hu. destruct (decide (u = t)) as [->|Hne]; [by rewrite set_ph_same|].
    rewrite set_ph_other by done. auto.
  - destruct line.
    + specialize (Hl eq_refl) as ->. rewrite set_ph_same, Hh, orb_true_r, andb_true_r, H3.
      rewrite (Hl' eq_refl), andb_false_r. rewrite (proj2 (Nat.ltb_lt r n)) by done. by rewrite seq_S.
    + rewrite orb_false_r in Hh. rewrite H3. destruct (decide (r = t)) as [->|Hne].
      * by rewrite set_ph_same, Hh.
      * by rewrite set_ph_other.
  - intros u Hu Hau. rewrite set_ph_other; [by apply H5|]. intros ->. change (active n s t = false) in Hau. congruence.
Qed.

(** The barrier opens: the next round. *)
Lemma inv_barrier r s s' : inv r s -> step n opens Barrier s = Some s' -> inv (S r) s'.
Proof.
  intros [H1 H2 H3 H4 H5 H6] Hs. unfold step in Hs.
  destruct (forallb _ (threads n)) eqn:Ef; [|done]. injection Hs as <-.
  rewrite forallb_forall in Ef.
  assert (forall t, (t < n)%nat -> at_barrier (ph s t) = true) as Hw.
  { intros t Ht. apply Ef. apply in_seq. lia. }
  assert (r < n)%nat as Hr.
  { specialize (Hw O). specialize (H2 O). destruct (ph s 0%nat); cbn in *; try (by exfalso; auto with lia); lia. }
  split; cbn -[Nat.ltb]; auto with lia.
  - intros t Ht. specialize (H2 t Ht). specialize (Hw t Ht). destruct (ph s t); cbn in *; try done; lia.
  - specialize (H2 r Hr) as Hpr. specialize (Hw r Hr) as Hwr.
    assert (has_printed (ph s r) = true) as Hpp by (destruct (ph s r); cbn in *; try done; lia).
    rewrite (proj2 (Nat.ltb_lt r n)), Hpp in H3 by done. cbn in H3. rewrite H3.
    destruct (Nat.ltb_spec (S r) n) as [Hr'|]; [|done]. cbn.
    specialize (H2 (S r) Hr'). specialize (Hw (S r) Hr'). destruct (ph s (S r)); cbn in *; try done; lia.
  - intros t Ht Ha. exfalso. specialize (H5 t Ht Ha). specialize (Hw t Ht). by rewrite H5 in Hw.
Qed.

Lemma inv_step r s l s' : inv r s -> step n opens l s = Some s' -> exists r', inv r' s'.
Proof.
  intros Hi Hs. destruct l as [|t| |].
  - exists r. destruct Hi as [H1 H2 H3 H4 H5 H6]. unfold step in Hs. destruct (Nat.ltb_spec (created s) n); [|done].
    injection Hs as <-. split; cbn -[Nat.ltb]; auto with lia. intros t Ht Ha. apply H5; [done|].
    unfold active in *. cbn [created] in *. destruct (Nat.eqb_spec t 0); [apply Nat.eqb_neq; lia|].
    apply Nat.ltb_ge in Ha. apply Nat.ltb_ge. lia.
  - exists r. by eapply inv_thread.
  - exists (S r). by eapply inv_barrier.
  - exists r. destruct Hi as [H1 H2 H3 H4 H5 H6]. unfold step in Hs.
    destruct (Nat.ltb_spec (S (joined s)) n); [|done]. cbn [andb] in Hs. split_match_in Hs; [|done].
    injection Hs as <-. split; cbn -[Nat.ltb]; auto with lia.
Qed.

Lemma inv_steps ls r s s' : inv r s -> steps n opens ls s = Some s' -> exists r', inv r' s'.
Proof.
  revert r s. induction ls as [|l ls IH]; intros r s Hi Hs; cbn [steps] in Hs; [naive_solver|].
  destruct (step n opens l s) as [s1|] eqn:E; [|done].
  destruct (inv_step _ _ _ _ Hi E) as [r1 H1]. by eapply IH.
Qed.

(** Some step is possible until main returns. *)
Lemma progress r s : inv r s -> finished n s = false -> exists l s', step n opens l s = Some s'.
Proof.
  intros [H1 H2 H3 H4 H5 H6] Hf.
  destruct (decide (created s < n)%nat) as [Hc|Hc].
  { exists Create. unfold step. rewrite (proj2 (Nat.ltb_lt _ _)) by done. eauto. }
  assert (forall t, active n s t = (t <? n)%nat) as Ha.
  { intros t. unfold active. destruct (Nat.eqb_spec t 0) as [->|].
    - rewrite (proj2 (Nat.eqb_eq _ _)) by lia. symmetry. apply Nat.ltb_lt. lia.
    - by replace (created s) with n by lia. }
  destruct (decide (Exists (fun t => read_write n opens t (ph s t) <> None) (threads n))) as [He|He].
  { apply Exists_exists in He as (t & Ht & Hr). apply elem_of_seq in Ht.
    destruct (read_write n opens t (ph s t)) as [[p line]|] eqn:E; [|done].
    exists (Thread t). unfold step. rewrite Ha, (proj2 (Nat.ltb_lt t n)), E by lia. cbn. eauto. }
  apply not_Exists_Forall in He; [|tc_solve]. rewrite Forall_forall in He.
  assert (forall t, (t < n)%nat -> read_write n opens t (ph s t) = None) as Hnone.
  { intros t Ht. apply dec_stable. apply He, elem_of_seq. lia. }
  destruct (decide (r = n)) as [->|Hr].
  - assert (forall t, (t < n)%nat -> ph s t = Done) as Hd.
    { intros t Ht. specialize (H2 t Ht). specialize (Hnone t Ht).
      unfold read_write in Hnone.
      destruct (ph s t); cbn in H2; try done; try lia; by split_match_in Hnone. }
    unfold finished in Hf. rewrite (Hd O), bool_decide_eq_true_2 in Hf by (done || lia).
    apply Nat.eqb_neq in Hf. exists Join. unfold step.
    rewrite (proj2 (Nat.ltb_lt _ _)), (Hd O), (Hd (S (joined s))), bool_decide_eq_true_2 by (done || lia).
    cbn. eauto.
  - exists Barrier. unfold step. replace (forallb _ _) with true; [eauto|]. symmetry.
    apply forallb_forall. intros t Ht. apply in_seq in Ht.
    specialize (Hnone t (proj2 Ht)). specialize (H2 t (proj2 Ht)). unfold read_write in Hnone.
    destruct (ph s t); try done; by split_match_in Hnone.
Qed.

(** The steps a thread has left at most, and the process. *)
Definition weight (p : phase) : nat :=
  match p with
  | Start => 2 * n + 4
  | Loop1 i => 2 * (n - i) + 3
  | Wait1 i | Loop2 i => 2 * (n - i) + 2
  | Wait2 i => 2 * (n - i) + 1
  | Done => 0
  end.
Definition left (s : proc) : nat :=
  (n - created s) + (n - joined s) + sum_list_with (fun t => weight (ph s t)) (threads n).

Lemma sum_list_lt {A} (f g : A -> nat) l :
  (forall x, x ∈ l -> (f x <= g x)%nat) -> (exists x, x ∈ l /\ (f x < g x)%nat) ->
  (sum_list_with f l < sum_list_with g l)%nat.
Proof.
  intros Hle (x & Hx & Hlt). induction l as [|y l IH]; [by apply not_elem_of_nil in Hx|]. cbn.
  assert (sum_list_with f l <= sum_list_with g l)%nat as Hl.
  { clear IH Hx. induction l as [|z l IH]; [done|]. cbn.
    assert (f z <= g z)%nat by (apply Hle; set_solver).
    assert (sum_list_with f l <= sum_list_with g l)%nat by (apply IH; set_solver). lia. }
  apply elem_of_cons in Hx as [->|Hx]; [lia|].
  assert (f y <= g y)%nat by (apply Hle; set_solver).
  assert (sum_list_with f l < sum_list_with g l)%nat by (apply IH; set_solver). lia.
Qed.

Lemma left_decreases r s l s' : inv r s -> step n opens l s = Some s' -> (left s' < left s)%nat.
Proof.
  intros [H1 H2 H3 H4 H5 H6] Hs. unfold left. destruct l as [|t| |]; unfold step in Hs.
  - destruct (Nat.ltb_spec (created s) n); [|done]. injection Hs as <-. cbn [created joined ph]. lia.
  - destruct (Nat.ltb_spec t n) as [Ht|]; [|done]. cbn [andb] in Hs. split_match_in Hs; [|done].
    destruct (read_write n opens t (ph s t)) as [[p line]|] eqn:Er; [|done].
    injection Hs as <-. cbn [created joined ph].
    assert (weight p < weight (ph s t))%nat as Hw.
    { unfold read_write in Er. destruct (ph s t); try done.
      - rewrite Hopens in Er by done. injection Er as <- <-. cbn. lia.
      - destruct (Nat.ltb_spec i t); injection Er as <- <-; cbn; lia.
      - destruct (Nat.ltb_spec i n); injection Er as <- <-; cbn; lia. }
    apply Nat.add_lt_mono_l, sum_list_lt.
    + intros u _. destruct (decide (u = t)) as [->|]; [rewrite set_ph_same; lia|by rewrite set_ph_other].
    + exists t. rewrite set_ph_same. split; [apply elem_of_seq; lia|done].
  - destruct (forallb _ _) eqn:Ef; [|done]. injection Hs as <-. cbn [created joined ph].
    rewrite forallb_forall in Ef. unfold threads in Ef.
    assert (forall t, (t < n)%nat -> (weight (leave (ph s t)) < weight (ph s t))%nat) as Hw.
    { intros t Ht. specialize (H2 t Ht). specialize (Ef t). rewrite in_seq in Ef.
      destruct (ph s t); cbn in *; try (by exfalso; intuition lia); lia. }
    apply Nat.add_lt_mono_l, sum_list_lt.
    + intros u Hu. apply elem_of_seq in Hu. specialize (Hw u). lia.
    + exists O. split; [apply elem_of_seq; lia|]. apply Hw. lia.
  - destruct (Nat.ltb_spec (S (joined s)) n); [|done]. cbn [andb] in Hs. split_match_in Hs; [|done].
    injection Hs as <-. cbn [created joined ph]. lia.
Qed.

Lemma steps_bounded ls r s s' :
  inv r s -> steps n opens ls s = Some s' -> (length ls + left s' <= left s)%nat.
Proof.
  revert r s. induction ls as [|l ls IH]; intros r s Hi Hs; cbn [steps] in Hs; [naive_solver|].
  destruct (step n opens l s) as [s1|] eqn:E; [|done].
  destruct (inv_step _ _ _ _ Hi E) as [r1 H1]. specialize (IH _ _ H1 Hs).
  pose proof (left_decreases _ _ _ _ Hi E). cbn. lia.
Qed.

Lemma finished_out r s : inv r s -> finished n s = true -> out s = seq 0 n.
Proof.
  intros [H1 H2 H3 _ _ _] Hf. unfold finished in Hf. b2p. apply bool_decide_eq_true_1 in H.
  specialize (H2 O). rewrite H in H2. cbn in H2. rewrite H3. assert (r = n) as -> by (apply H2; lia).
  by rewrite Nat.ltb_irrefl.
Qed.

End opened.

(** C7: when the fopen of every thread succeeds, in every interleaving of [n] threads the lines are
    printed in the order of the thread numbers; the program cannot get stuck before main returns, it
    takes at most [(n + 1) * (2 * n + 5)] steps, and when main returns all [n] lines are there. *)
Theorem turns_in_order n opens ls s :
  (1 <= n)%nat -> (forall t, (t < n)%nat -> opens t = true) -> steps n opens ls init = Some s ->
  (exists k, (k <= n)%nat /\ out s = seq 0 k) /\
  (length ls <= (n + 1) * (2 * n + 5))%nat /\
  if finished n s then out s = seq 0 n else exists l s', step n opens l s = Some s'.
Proof.
  intros Hn Ho Hs. destruct (inv_steps n Hn opens Ho ls 0 init s (inv_init n Hn) Hs) as [r Hi].
  split; [|split].
  - destruct Hi as [H1 _ H3 _ _ _]. eexists; split; [|exact H3].
    destruct (Nat.ltb_spec r n); cbn; [destruct (has_printed _)|]; lia.
  - pose proof (steps_bounded n Hn opens Ho ls 0 init s (inv_init n Hn) Hs) as Hl.
    assert (left n init <= (n + 1) * (2 * n + 5))%nat; [|lia].
    unfold left. cbn [created joined ph init].
    assert (forall l, sum_list_with (fun t => weight n (ph init t)) l = length l * (2 * n + 4))%nat as Hsum.
    { intros l. induction l as [|x l IH]; [done|]. cbn in *. lia. }
    rewrite Hsum. unfold threads. rewrite length_seq. lia.
  - destruct (finished n s) eqn:Ef; [by eapply finished_out|]. by eapply progress.
Qed.

Lemma turns_in_order_witness :
  exists s, steps 2 (fun _ => true) [Create; Thread 1; Thread 0; Thread 0; Thread 1; Thread 0; Barrier; Thread 1] init
            = Some s /\ exists k, (k <= 2)%nat /\ out s = seq 0 k.
Proof.
  eexists. split; [reflexivity|].
  apply (turns_in_order 2 (fun _ => true) [Create; Thread 1; Thread 0; Thread 0; Thread 1; Thread 0; Barrier; Thread 1]); [lia|done|].
  reflexivity.
Defined.

(** ** A file that cannot be opened *)

(** The thread that failed is never at the barrier, so the barrier never opens and the other one
    stays in its first round. *)
Record stuck (n u v : nat) (s : proc) : Prop := {
  stuck_failed : ph s u = Start \/ ph s u = Done;
  stuck_round : ph s v ∈ [Start; Loop1 0; Wait1 0; Loop2 0; Wait2 0];
  stuck_joined : v = O \/ (joined s < v)%nat
}.

Lemma stuck_thread n opens u v s t p line :
  (v < n)%nat -> opens u = false -> opens v = true -> stuck n u v s ->
  read_write n opens t (ph s t) = Some (p, line) ->
  stuck n u v (Proc (created s) (set_ph t p (ph s)) (joined s) (if line then out s ++ [t] else out s)).
Proof.
  intros Hv Hu Ho [H1 H2 H3] Hr. split; cbn [ph joined]; [| |done].
  - destruct (decide (u = t)) as [<-|]; [|by rewrite set_ph_other]. rewrite set_ph_same.
    destruct H1 as [E|E]; rewrite E in Hr; cbn in Hr; [|done]. rewrite Hu in Hr. naive_solver.
  - destruct (decide (v = t)) as [<-|]; [|by rewrite set_ph_other]. rewrite set_ph_same.
    unfold read_write in Hr. rewrite Ho in Hr. set_unfold in H2.
    destruct H2 as [E|[E|[E|[E|[E|[]]]]]]; rewrite E in Hr; try done.
    + injection Hr as <- <-. set_solver.
    + destruct (0 <? v)%nat; injection Hr as <- <-; set_solver.
    + rewrite (proj2 (Nat.ltb_lt 0 n)) in Hr by lia. injection Hr as <- <-. set_solver.
Qed.

Lemma stuck_step n opens u v s l s' :
  (u < n)%nat -> (v < n)%nat -> opens u = false -> opens v = true -> stuck n u v s ->
  step n opens l s = Some s' -> stuck n u v s'.
Proof.
  intros Hun Hv Hu Ho Hi Hs. destruct l as [|t| |]; unfold step in Hs.
  - split_match_in Hs; [|done]. injection Hs as <-. by destruct Hi.
  - split_match_in Hs; [|done]. destruct (read_write n opens t (ph s t)) as [[p line]|] eqn:E; [|done].
    injection Hs as <-. by eapply stuck_thread.
  - destruct (forallb _ _) eqn:Ef; [|done]. rewrite forallb_forall in Ef.
    specialize (Ef u). unfold threads in Ef. rewrite in_seq in Ef.
    destruct Hi as [[E|E] _ _]; rewrite E in Ef; cbn in Ef; intuition (done || lia).
  - destruct (_ && _) eqn:Ef; [|done]. injection Hs as <-. apply andb_true_iff in Ef as [_ Hd].
    destruct Hi as [H1 H2 H3]. split; cbn [ph joined]; [done..|].
    apply bool_decide_eq_true_1 in Hd. destruct H3 as [->|H3]; [by left|right].
    assert (S (joined s) <> v); [|lia]. intros E. rewrite E in Hd. rewrite Hd in H2. set_solver.
Qed.

(** when one thread cannot open the file, it returns without taking part in the barrier: no
    thread that opened it ever returns, and main never does. *)
Theorem open_failure_hangs n opens u v ls s :
  (u < n)%nat -> (v < n)%nat -> opens u = false -> opens v = true ->
  steps n opens ls init = Some s -> ph s v <> Done /\ finished n s = false.
Proof.
  intros Hun Hv Hu Ho Hs.
  assert (stuck n u v s) as [_ H2 H3].
  { assert (stuck n u v init) as Hi by (split; cbn; [by left|set_solver|lia]).
    revert Hs Hi. generalize init. induction ls as [|l ls IH]; intros s0 Hs Hi; cbn [steps] in Hs; [naive_solver|].
    destruct (step n opens l s0) as [s1|] eqn:E; [|done]. eapply IH; [exact Hs|]. by eapply stuck_step. }
  assert (ph s v <> Done) as Hd by (intros E; rewrite E in H2; set_solver).
  split; [done|]. unfold finished. destruct H3 as [->|H3].
  - by rewrite bool_decide_eq_false_2.
  - rewrite (proj2 (Nat.eqb_neq _ _)) by lia. apply andb_false_r.
Qed.

(** Thread 1 of two cannot open the file; main waits at the barrier. *)
Lemma open_failure_hangs_witness :
  exists s, steps 2 (fun t => negb (t =? 1)%nat) [Create; Thread 1; Thread 0; Thread 0; Thread 0] init = Some s /\
    out s = [O] /\ finished 2 s = false.
Proof.
  eexists. split; [reflexivity|]. split; [done|].
  apply (open_failure_hangs 2 (fun t => negb (t =? 1)%nat) 1 0 [Create; Thread 1; Thread 0; Thread 0; Thread 0]);
    [lia|lia|done|done|reflexivity].
Defined.

End Lv07Proofs.
