(* ===== verification/FileMap.v ===== *)
(** * Strings in memory

    What the stand-alone programs do with stdio and strings: perror, strcpy, and printing a string
    from memory.  [strerror] is the C library's; [fuel] bounds the length of the string that [%s]
    prints: a run that needs more is cut off, and the theorems hold for every [fuel]. *)
From S2P Require Import Prelude CMachine Libc Ledger.
Import Libc Ledger.
#[local] Open Scope Z_scope.

Module FileMap.

Section stdio.
Context (strerror : Z -> string) (fuel : nat).

Definition nl : string := String "010" "".

Definition perror (s : string) : prog unit :=
  e ← get_errno; fprintf_stderr (s +:+ ": " +:+ strerror e +:+ nl).

Definition bytes (s : string) : list Z := chr <$> chars s.
Definition strlen (s : string) : Z := Z.of_nat (String.length s).

(** [strcpy(a, s)]: the characters and the terminating NUL. *)
Fixpoint strcpy (a : Z) (l : list Z) : prog unit :=
  match l with
  | [] => store a 0
  | b :: l => store a b;; strcpy (u64 (a + 1)) l
  end.

(** The string at [a], read up to its NUL; the cut-off of the fuel is not an outcome of the code. *)
Definition out_of_fuel {A} : prog A := Trap 0 SIG_DFL.
Fixpoint read_string (n : nat) (a : Z) : prog (list ascii) :=
  match n with
  | O => out_of_fuel
  | S n =>
      b ← load a;
      if b =? 0 then Ret [] else l ← read_string n (u64 (a + 1)); Ret (Ascii.ascii_of_N (Z.to_N b) :: l)
  end.

(** [fprintf(stdout, "%s", a)]. *)
Definition print_string (a : Z) : prog unit := l ← read_string fuel a; printf (of_chars l).

(** ** What is held *)

Lemma keeps_perror h s : keeps (perror s) h (fun _ => h).
Proof. unfold perror. keep. apply keeps_fprintf. Qed.

Lemma keeps_strcpy h a l : keeps (strcpy a l) h (fun _ => h).
Proof. revert a. induction l as [|b l IH]; intros a; cbn [strcpy]; [apply keeps_store|keep; apply IH]. Qed.

Lemma keeps_trap {A} h sig d (post : A -> held) : keeps (Trap sig d) h post.
Proof. intros e tr a e' (_ & [=] & _). Qed.

Lemma keeps_read_string h n a : keeps (read_string n a) h (fun _ => h).
Proof.
  revert a. induction n as [|n IH]; intros a; cbn [read_string]; [apply keeps_trap|].
  keep.
Qed.

Lemma keeps_print_string h a : keeps (print_string a) h (fun _ => h).
Proof. unfold print_string. eapply keeps_bind; [apply keeps_read_string|intros l; apply keeps_printf]. Qed.

End stdio.

#[export] Hint Resolve keeps_perror keeps_strcpy keeps_print_string : ledger.
End FileMap.
