(* ===== verification/Lv11.v ===== *)
(** * lv11: a file through a mapping (src/src/lv11_copy_on_write/main.c)

    Writes a string to a file or prints the file through a mapping with a choice of protection and
    sharing. *)
From S2P Require Import Prelude CMachine Libc FileMap.
Import Libc FileMap.
#[local] Open Scope Z_scope.

Module Lv11.
Section lv11.
Context (strerror : Z -> string) (fuel : nat).

Definition BUF_SIZE : nat := 1024.

Inductive mode : Set := MODE_NULL | MODE_WRITE | MODE_READ.
#[global] Instance mode_eq_dec : EqDecision mode.
Proof. solve_decision. Defined.

Record args := Args {
  a_mode : mode;
  a_sync : Z;
  a_prot : Z;
  a_flags : Z;
  a_path : string
}.

(** The string a buffer of BUF_SIZE bytes holds after [strncpy] and the NUL put at its end. *)
Definition strncpy (s : string) : string := of_chars (take (BUF_SIZE - 1) (chars s)).

Definition usage (name : string) : prog unit :=
  fprintf_stderr
    ("usage:" +:+ nl +:+ "  " +:+ strncpy name +:+ " <mode> <prot_flags> <path>" +:+ nl +:+
     "options:" +:+ nl +:+
     "       mode: r    read" +:+ nl +:+
     "             w    write" +:+ nl +:+
     "             s    msync" +:+ nl +:+
     " prot_flags: r    MAP_READ" +:+ nl +:+
     "             w    MAP_WRITE" +:+ nl +:+
     "             e    MAP_EXEC" +:+ nl +:+
     "             s    MAP_SHARED" +:+ nl +:+
     "             p    MAP_PRIVATE" +:+ nl +:+
     "       path: file path" +:+ nl).

(** The end of write_to_file, from the label [out]. *)
Definition write_out (ret fd data size : Z) : prog Z :=
  (if negb (data =? MAP_FAILED) then
     r ← munmap data size;
     if r =? -1 then perror strerror "munmap" else Ret tt
   else Ret tt);;
  (if negb (fd =? -1) then close fd;; Ret tt else Ret tt);;
  Ret ret.

(** [data] is (char* )-1 and [size] unused when the jump to [out] comes before the mmap. *)
Definition write_to_file (path : string) (prot flags sync : Z) (string : string) : prog Z :=
  fd ← open path O_RDWR;
  if fd =? -1 then perror strerror "open";; write_out (-1) fd MAP_FAILED 0
  else
    '(r, st_size) ← stat path;
    if r =? -1 then perror strerror "stat";; write_out (-1) fd MAP_FAILED 0
    else if u64 st_size <=? strlen string then
      fprintf_stderr ("string size error." +:+ nl);; write_out (-1) fd MAP_FAILED 0
    else
      data ← mmap 0 (u64 st_size) prot flags fd 0;
      if data =? MAP_FAILED then perror strerror "mmap";; write_out (-1) fd data 0
      else
        strcpy data (bytes string);;
        print_string fuel data;;
        if negb (sync =? 0) then
          r ← msync data (u64 st_size) MS_SYNC;
          if r =? -1 then perror strerror "msync";; write_out (-1) fd data (u64 st_size)
          else write_out 0 fd data (u64 st_size)
        else write_out 0 fd data (u64 st_size).

Definition read_out (ret fd data size : Z) : prog Z :=
  (if negb (data =? MAP_FAILED) then munmap data size;; Ret tt else Ret tt);;
  (if negb (fd =? -1) then close fd;; Ret tt else Ret tt);;
  Ret ret.

Definition read_from_file (path : string) (prot flags sync : Z) : prog Z :=
  fd ← open path O_RDONLY;
  if fd =? -1 then perror strerror "open";; read_out (-1) fd MAP_FAILED 0
  else
    '(r, st_size) ← stat path;
    if r =? -1 then perror strerror "stat";; read_out (-1) fd MAP_FAILED 0
    else
      data ← mmap 0 (u64 st_size) prot flags fd 0;
      if data =? MAP_FAILED then perror strerror "mmap";; read_out (-1) fd data 0
      else
        print_string fuel data;;
        if negb (sync =? 0) then
          r ← msync data (u64 st_size) MS_SYNC;
          if r =? -1 then perror strerror "msync";; read_out (-1) fd data (u64 st_size)
          else read_out 0 fd data (u64 st_size)
        else read_out 0 fd data (u64 st_size).

(** The two loops of parse_argument; [None] is the jump to [fault]. *)
Fixpoint parse_mode (l : list ascii) (m : mode) (sync : Z) : option (mode * Z) :=
  match l with
  | [] => Some (m, sync)
  | c :: l =>
      match c with
      | "w"%char => parse_mode l MODE_WRITE sync
      | "r"%char => parse_mode l MODE_READ sync
      | "s"%char => parse_mode l m 1
      | _ => None
      end
  end.

Fixpoint parse_prot (l : list ascii) (prot flags : Z) : option (Z * Z) :=
  match l with
  | [] => Some (prot, flags)
  | c :: l =>
      match c with
      | "r"%char => parse_prot l (prot .| PROT_READ) flags
      | "w"%char => parse_prot l (prot .| PROT_WRITE) flags
      | "e"%char => parse_prot l (prot .| PROT_EXEC) flags
      | "s"%char => parse_prot l prot (flags .| MAP_SHARED)
      | "p"%char => parse_prot l prot (flags .| MAP_PRIVATE)
      | _ => None
      end
  end.

(** A jump to [fault] sets the mode to MODE_NULL; the other fields are not used then. *)
Definition parse_argument (argv : list string) : args :=
  match argv with
  | _ :: a1 :: a2 :: a3 :: _ =>
      match parse_mode (chars a1) MODE_NULL 0 with
      | None => Args MODE_NULL 0 0 0 ""
      | Some (m, sync) =>
          match parse_prot (chars a2) 0 0 with
          | None => Args MODE_NULL sync 0 0 ""
          | Some (prot, flags) => Args m sync prot flags (strncpy a3)
          end
      end
  | _ => Args MODE_NULL 0 0 0 ""
  end.

Definition main (argv : list string) : prog Z :=
  let args := parse_argument argv in
  match a_mode args with
  | MODE_READ => read_from_file (a_path args) (a_prot args) (a_flags args) (a_sync args)
  | MODE_WRITE => write_to_file (a_path args) (a_prot args) (a_flags args) (a_sync args) "mmap-write"
  | MODE_NULL => usage (default "" (argv !! 0%nat));; Ret (-1)
  end.

End lv11.
End Lv11.
