(* ===== verification/Lv09.v ===== *)
(** * lv09: a file through a mapping (src/src/lv09_syscall_page_fault_forwqarding/main.c)

    The predecessor of lv11, with a fixed protection and sharing and the string on the command line. *)
From S2P Require Import Prelude CMachine Libc FileMap.
Import Libc FileMap.
#[local] Open Scope Z_scope.

Module Lv09.
Section lv09.
Context (strerror : Z -> string) (fuel : nat).

Definition usage (name : string) : prog unit :=
  fprintf_stderr
    ("Usage: " +:+ name +:+ " r <path>" +:+ nl +:+ "       " +:+ name +:+ " w <path> <string>" +:+ nl).

Definition write_out (ret fd data size : Z) : prog Z :=
  (if negb (data =? MAP_FAILED) then
     r ← munmap data size;
     if r =? -1 then perror strerror "munmap" else Ret tt
   else Ret tt);;
  (if negb (fd =? -1) then close fd;; Ret tt else Ret tt);;
  Ret ret.

(** [string] is NULL ([None]) when it is missing from argv; strlen(NULL) is a fault. *)
Definition write_to_file (path : string) (string : option string) : prog Z :=
  fd ← open path O_RDWR;
  if fd =? -1 then perror strerror "open";; write_out (-1) fd MAP_FAILED 0
  else
    '(r, st_size) ← stat path;
    if r =? -1 then perror strerror "stat";; write_out (-1) fd MAP_FAILED 0
    else
      match string with
      | None => Trap SIGSEGV SIG_DFL
      | Some string =>
          if u64 st_size <=? strlen string then
            fprintf_stderr ("string size error." +:+ nl);; write_out (-1) fd MAP_FAILED 0
          else
            data ← mmap 0 (u64 st_size) (PROT_READ .| PROT_WRITE) MAP_SHARED fd 0;
            if data =? MAP_FAILED then perror strerror "mmap";; write_out (-1) fd data 0
            else
              strcpy data (bytes string);;
              print_string fuel data;;
              write_out 0 fd data (u64 st_size)
      end.

Definition read_out (ret fd data size : Z) : prog Z :=
  (if negb (data =? MAP_FAILED) then munmap data size;; Ret tt else Ret tt);;
  (if negb (fd =? -1) then close fd;; Ret tt else Ret tt);;
  Ret ret.

Definition read_from_file (path : string) : prog Z :=
  fd ← open path O_RDONLY;
  if fd =? -1 then perror strerror "open";; read_out (-1) fd MAP_FAILED 0
  else
    '(r, st_size) ← stat path;
    if r =? -1 then perror strerror "stat";; read_out (-1) fd MAP_FAILED 0
    else
      data ← mmap 0 (u64 st_size) PROT_READ MAP_PRIVATE fd 0;
      if data =? MAP_FAILED then perror strerror "mmap";; read_out (-1) fd data 0
      else
        print_string fuel data;;
        read_out 0 fd data (u64 st_size).

Definition main (argv : list string) : prog Z :=
  match argv with
  | app :: mode :: path :: rest =>
      match chars mode with
      | "r"%char :: _ => read_from_file path
      | "w"%char :: _ => write_to_file path (rest !! 0%nat)
      | _ => usage app;; Ret (-1)
      end
  | _ => usage (default "" (argv !! 0%nat));; Ret (-1)
  end.

End lv09.
End Lv09.
