(* ===== verification/FileMapProofs.v ===== *)
(** * Correctness of lv09 and lv11

    What both programs hold, what lv11 stores and prints, and its arguments.  Nothing is assumed about
    the kernel: the theorems hold for every reply, or name the replies they are about. *)
From S2P Require Import Prelude CMachine Libc Ledger FileMap Lv11 Lv09.
Import Libc Ledger FileMap.
#[local] Open Scope Z_scope.

Module FileMapProofs.
Section replies.
Context (strerror : Z -> string) (fuel : nat).

(** ** What is held *)

(** The parts of the label [out]: the mapping, if there is one, and the descriptor, if there is one. *)
Lemma settles_unmap (h : held) data size (p : prog unit) :
  settles p (add_map (data, size) h) (fun _ => h) ->
  settles (if negb (data =? MAP_FAILED) then p else Ret tt)
    (if data =? MAP_FAILED then h else add_map (data, size) h) (fun _ => h).
Proof. intros Hp. destruct (data =? MAP_FAILED); [by apply settles_ret|done]. Qed.

Lemma keeps_close_fd (h : held) fd :
  keeps (if negb (fd =? -1) then close fd;; Ret tt else Ret tt)
    (if fd =? -1 then h else add_fd fd h) (fun _ => h).
Proof. destruct (fd =? -1); cbn [negb]; keep. Qed.

Definition opened (fd : Z) (h : held) : held := if fd =? -1 then h else add_fd fd h.
Definition mapped (data size : Z) (h : held) : held :=
  if data =? MAP_FAILED then h else add_map (data, size) h.

Lemma settles_munmap_checked (h : held) data size :
  settles (r ← munmap data size; if r =? -1 then perror strerror "munmap" else Ret tt)
    (add_map (data, size) h) (fun _ => h).
Proof.
  eapply settles_bind; [apply settles_munmap|intros r]. cbv beta. rewrite del_add_map.
  apply settles_keeps. destruct (r =? -1); [apply keeps_perror|by apply keeps_ret].
Qed.

Lemma settles_munmap_plain (h : held) data size :
  settles (munmap data size;; Ret tt) (add_map (data, size) h) (fun _ => h).
Proof. settle. Qed.

Lemma settles_lv11_write_out h ret fd data size :
  settles (Lv11.write_out strerror ret fd data size) (mapped data size (opened fd h)) (fun _ => h).
Proof.
  unfold Lv11.write_out. eapply settles_bind; [apply settles_unmap, settles_munmap_checked|intros ?].
  eapply settles_bind; [apply settles_keeps, keeps_close_fd|intros ?]. by apply settles_ret.
Qed.

Lemma settles_lv11_read_out h ret fd data size :
  settles (Lv11.read_out ret fd data size) (mapped data size (opened fd h)) (fun _ => h).
Proof.
  unfold Lv11.read_out. eapply settles_bind; [apply settles_unmap, settles_munmap_plain|intros ?].
  eapply settles_bind; [apply settles_keeps, keeps_close_fd|intros ?]. by apply settles_ret.
Qed.

Lemma settles_lv09_write_out h ret fd data size :
  settles (Lv09.write_out strerror ret fd data size) (mapped data size (opened fd h)) (fun _ => h).
Proof. apply settles_lv11_write_out. Qed.

Lemma settles_lv09_read_out h ret fd data size :
  settles (Lv09.read_out ret fd data size) (mapped data size (opened fd h)) (fun _ => h).
Proof. apply settles_lv11_read_out. Qed.

Lemma settles_from {A} (p : prog A) h h' post : settles p h' post -> h = h' -> settles p h post.
Proof. by intros H ->. Qed.

(** Ends a path at [out]: what is held there is what the variables say. *)
Ltac at_out :=
  eapply settles_from; [first [ apply settles_lv11_write_out | apply settles_lv11_read_out
                            | apply settles_lv09_write_out | apply settles_lv09_read_out ]|];
  unfold mapped, opened;
  repeat match goal with H : (_ =? _) = _ |- _ => rewrite H end; reflexivity.

Lemma settles_lv11_write h path prot flags sync s :
  settles (Lv11.write_to_file strerror fuel path prot flags sync s) h (fun _ => h).
Proof. unfold Lv11.write_to_file. settle; at_out. Qed.

Lemma settles_lv11_read h path prot flags sync :
  settles (Lv11.read_from_file strerror fuel path prot flags sync) h (fun _ => h).
Proof. unfold Lv11.read_from_file. settle; at_out. Qed.

Lemma settles_lv09_write h path s : settles (Lv09.write_to_file strerror fuel path s) h (fun _ => h).
Proof. unfold Lv09.write_to_file. settle; first [at_out|apply settles_keeps, keeps_trap]. Qed.

Lemma settles_lv09_read h path : settles (Lv09.read_from_file strerror fuel path) h (fun _ => h).
Proof. unfold Lv09.read_from_file. settle; at_out. Qed.

(** on every command line and every reply of the kernel, lv11 and lv09 return with every file they
    opened closed and, unless munmap fails, every mapping unmapped, from each of the jumps to [out] as
    from the straight path. *)
Theorem filemap_no_leak h argv e tr v e' :
  run (Lv11.main strerror fuel argv) e tr (Returned v) e' \/
  run (Lv09.main strerror fuel argv) e tr (Returned v) e' ->
  Forall unmaps tr -> after h tr = h.
Proof.
  intros [H|H].
  - revert H. unfold Lv11.main. destruct (Lv11.a_mode _).
    + apply (settles_bind _ _ h (fun _ => h) (fun _ => h)); [apply settles_keeps, keeps_fprintf|].
      intros _. by apply settles_ret.
    + apply settles_lv11_write.
    + apply settles_lv11_read.
  - revert H. revert e tr v e'. change (settles (Lv09.main strerror fuel argv) h (fun _ => h)).
    assert (forall app, settles (Lv09.usage app;; Ret (-1)) h (fun _ => h)) as Hu.
    { intros app. eapply settles_bind; [apply settles_keeps, keeps_fprintf|intros ?]. by apply settles_ret. }
    unfold Lv09.main. repeat first [ apply Hu | apply settles_lv09_write | apply settles_lv09_read | split_match ].
Qed.

(** ** What is written *)

(** The events of a copy of [l] to [a]. *)
Definition stores (a : Z) (l : list Z) : list event :=
  imap (fun i b => ev (MEM_store (u64 (a + Z.of_nat i)) b) (Ok tt)) l.

Lemma stores_cons a b l :
  0 <= a < 2 ^ 64 -> stores a (b :: l) = ev (MEM_store a b) (Ok tt) :: stores (u64 (a + 1)) l.
Proof.
  intros Ha. unfold stores. cbn [imap]. rewrite Z.add_0_r, wrap_u_small by done. f_equal.
  apply imap_ext. intros i x _. cbn. rewrite wrap_u_add_l.
  by replace (a + 1 + Z.of_nat i) with (a + Z.of_nat (S i)) by lia.
Qed.

(** A copy stores a prefix of the string and its NUL, one byte after the other; the next store, if
    there is one, faults and ends the program. *)
Lemma strcpy_run a l e tr o e' :
  0 <= a < 2 ^ 64 -> run (strcpy a l) e tr o e' ->
  e' = e /\ (o = Returned tt /\ tr = stores a (l ++ [0]) \/
    exists k b sig d, (l ++ [0]) !! k = Some b /\ o = Signalled sig d /\
      tr = stores a (take k (l ++ [0])) ++ [ev (MEM_store (u64 (a + Z.of_nat k)) b) (Fault sig d)]).
Proof.
  revert a tr. induction l as [|b l IH]; intros a tr Ha H.
  all: assert (0 <= u64 (a + 1) < 2 ^ 64) as Ha' by (by apply wrap_u_range).
  - destruct H as (r & tr' & -> & H). destruct r as [[]|sig d]; destruct H as (-> & -> & ->); (split; [done|]).
    + left. cbn [app]. by rewrite stores_cons.
    + right. exists O, 0, sig, d. cbn. by rewrite Z.add_0_r, wrap_u_small.
  - destruct H as (r & tr' & -> & H). destruct r as [[]|sig d]; cbn [bind resume mbind prog_mbind] in H.
    + apply IH in H as (-> & [(-> & ->)|(k & x & sig & d & Hx & -> & ->)]); [..|done]; (split; [done|]).
      * left. cbn [app]. by rewrite stores_cons.
      * right. exists (S k), x, sig, d. cbn [app take]. rewrite stores_cons by done. split; [done|].
        split; [done|]. cbn [app]. rewrite wrap_u_add_l.
        by replace (a + 1 + Z.of_nat k) with (a + Z.of_nat (S k)) by lia.
    + destruct H as (-> & -> & ->). split; [done|]. right. exists O, b, sig, d. cbn.
      by rewrite Z.add_0_r, wrap_u_small.
Qed.

(** No store is made, and what is returned, if anything, satisfies [P]. *)
Definition no_store (e : event) : Prop :=
  let 'existT c _ := e in match c with MEM_store _ _ => False | _ => True end.
Definition quiet {A} (p : prog A) (P : A -> Prop) : Prop :=
  forall e tr o e', run p e tr o e' -> Forall no_store tr /\ forall a, o = Returned a -> P a.

Lemma quiet_ret {A} (a : A) (P : A -> Prop) : P a -> quiet (Ret a) P.
Proof. intros Hp e tr o e' (-> & -> & _). split; [done|]. by intros ? [= <-]. Qed.

Lemma quiet_bind {A B} (p : prog A) (f : A -> prog B) P :
  quiet p (fun _ => True) -> (forall a, quiet (f a) P) -> quiet (p ≫= f) P.
Proof.
  intros Hp Hf e tr o e' H.
  apply run_bind in H as [(a & e1 & tr1 & tr2 & H1 & H2 & ->)|[(n & H & ->)|(s & d & H & ->)]].
  - apply Hp in H1 as [H1 _]. apply Hf in H2 as [H2 Ho]. split; [by apply Forall_app|done].
  - apply Hp in H as [H _]. done.
  - apply Hp in H as [H _]. done.
Qed.

Lemma quiet_vis {A} c (k : reply c -> prog A) P :
  (match c with MEM_store _ _ => False | _ => True end) -> (forall r, quiet (k r) P) -> quiet (Vis c k) P.
Proof.
  intros Hc Hk e tr o e' (r & tr' & -> & H). apply Hk in H as [H Ho]. split; [by constructor|done].
Qed.

Lemma quiet_errno {A} (k : Z -> prog A) P : (forall e, quiet (k e) P) -> quiet (GetErrno k) P.
Proof. intros Hk e tr o e' H. by apply Hk in H. Qed.
Lemma quiet_set_errno {A} n (k : prog A) P : quiet k P -> quiet (SetErrno n k) P.
Proof. intros Hk e tr o e' H. by apply Hk in H. Qed.
Lemma quiet_trap {A} s d (P : A -> Prop) : quiet (Trap s d) P.
Proof. intros e tr o e' (-> & -> & _). done. Qed.

Lemma quiet_syscall c (k : reply c -> Z) :
  (match c with MEM_store _ _ => False | _ => True end) ->
  quiet (r ← trigger c; syscall_ret (k r)) (fun _ => True).
Proof.
  intros Hc. apply quiet_vis; [done|]. intros r. cbn. unfold syscall_ret.
  destruct (is_error _); [apply quiet_set_errno|]; by apply quiet_ret.
Qed.

Lemma quiet_munmap a n : quiet (munmap a n) (fun _ => True).
Proof. by apply (quiet_syscall (SYS_munmap a n) (fun r => r)). Qed.
Lemma quiet_close fd : quiet (close fd) (fun _ => True).
Proof. by apply (quiet_syscall (SYS_close fd) (fun r => r)). Qed.
Lemma quiet_msync a n f : quiet (msync a n f) (fun _ => True).
Proof. by apply (quiet_syscall (SYS_msync a n f) (fun r => r)). Qed.
Lemma quiet_fprintf t : quiet (fprintf_stderr t) (fun _ => True).
Proof. apply quiet_vis; [done|]. intros r. by apply quiet_ret. Qed.
Lemma quiet_printf t : quiet (printf t) (fun _ => True).
Proof. apply quiet_vis; [done|]. intros r. by apply quiet_ret. Qed.
Lemma quiet_perror s : quiet (perror strerror s) (fun _ => True).
Proof. apply quiet_errno. intros e. apply quiet_fprintf. Qed.
Lemma quiet_load a : quiet (load a) (fun _ => True).
Proof. apply quiet_vis; [done|]. intros [b|s d]; [by apply quiet_ret|apply quiet_trap]. Qed.

#[local] Hint Resolve quiet_munmap quiet_close quiet_msync quiet_fprintf quiet_printf quiet_perror
  quiet_load : ledger.

Ltac hush :=
  repeat (cbv beta zeta; lazymatch goal with
  | |- quiet (Ret _) _ => by apply quiet_ret
  | |- quiet (Trap _ _) _ => apply quiet_trap
  | |- quiet (mbind _ _) _ => apply quiet_bind; [|intros ?]
  | |- quiet (match ?x with _ => _ end) _ => destruct x
  | |- quiet _ (fun _ => True) => solve [eauto with ledger]
  end).

Lemma quiet_read_string n a : quiet (read_string n a) (fun _ => True).
Proof. revert a. induction n as [|n IH]; intros a; cbn [read_string]; [apply quiet_trap|]. hush. Qed.

Lemma quiet_print_string a : quiet (print_string fuel a) (fun _ => True).
Proof. unfold print_string. apply quiet_bind; [apply quiet_read_string|]. intros l. apply quiet_printf. Qed.

Lemma quiet_write_out ret fd data size : quiet (Lv11.write_out strerror ret fd data size) (fun v => v = ret).
Proof. unfold Lv11.write_out. hush. Qed.

(** ** write_to_file of lv11 *)

Lemma early (p : prog Z) evs e tr o e' :
  quiet p (fun v => v = -1) -> Forall no_store evs -> run p e tr o e' ->
  Forall no_store (evs ++ tr) /\ o <> Returned 0.
Proof.
  intros Hq Hevs H. apply Hq in H as [H Ho]. split; [by apply Forall_app|].
  intros ->. specialize (Ho 0 eq_refl). lia.
Qed.

(** The part of write_to_file behind the mmap. *)
Definition lv11_write_tail (fd a size sync : Z) (s : string) : prog Z :=
  strcpy a (bytes s);;
  print_string fuel a;;
  if negb (sync =? 0) then
    r ← msync a size MS_SYNC;
    if r =? -1 then perror strerror "msync";; Lv11.write_out strerror (-1) fd a size
    else Lv11.write_out strerror 0 fd a size
  else Lv11.write_out strerror 0 fd a size.

(** Either no store was made and success not reported, or the copy was reached: with the file opened
    and long enough, and a mapping of its size. *)
Lemma lv11_write_cases path prot flags sync s e tr o e' :
  run (Lv11.write_to_file strerror fuel path prot flags sync s) e tr o e' ->
  (Forall no_store tr /\ o <> Returned 0) \/
  exists fd r size a e1 tr1, is_error fd = false /\ is_error r = false /\ is_error a = false /\
    u64 a <> MAP_FAILED /\ strlen s < u64 size /\
    tr = [ev (SYS_open path O_RDWR) fd; ev (SYS_stat path) (r, size);
          ev (SYS_mmap 0 (u64 size) prot flags fd 0) a] ++ tr1 /\
    run (lv11_write_tail fd (u64 a) (u64 size) sync s) e1 tr1 o e'.
Proof.
  intros H. apply run_open in H as (fd & t1 & -> & H). destruct (ret_int fd =? -1) eqn:Ef.
  { left. eapply (early _ [_]); [|by repeat constructor|exact H]. hush. apply quiet_write_out. }
  apply run_stat in H as (r & size & t2 & -> & H). destruct (ret_int r =? -1) eqn:Er.
  { left. eapply (early _ [_; _]); [|by repeat constructor|exact H]. hush. apply quiet_write_out. }
  destruct (u64 size <=? strlen s) eqn:Es.
  { left. eapply (early _ [_; _]); [|by repeat constructor|exact H]. hush. apply quiet_write_out. }
  apply run_mmap in H as (a & t3 & -> & H). destruct (ret_ptr a =? MAP_FAILED) eqn:Ea.
  { left. eapply (early _ [_; _; _]); [|by repeat constructor|exact H]. hush. apply quiet_write_out. }
  apply ret_int_ok in Ef as [Ef Ef'], Er as [Er _]. pose proof Ea as Em. apply ret_ptr_ok in Ea as [Ea Ea'].
  right. rewrite Ef', ?Ea' in *. b2p. eexists fd, r, size, a, _, t3. repeat (split; [done|]). exact H.
Qed.

Lemma tail_quiet fd a size sync s e tr o e' :
  0 <= a < 2 ^ 64 -> run (lv11_write_tail fd a size sync s) e tr o e' ->
  exists tr1 tr2, tr = tr1 ++ tr2 /\ Forall no_store tr2 /\
    ((exists k b sig d, (bytes s ++ [0]) !! k = Some b /\ o = Signalled sig d /\
        tr1 = stores a (take k (bytes s ++ [0])) ++ [ev (MEM_store (u64 (a + Z.of_nat k)) b) (Fault sig d)]) \/
     tr1 = stores a (bytes s ++ [0])).
Proof.
  intros Ha H. unfold lv11_write_tail in H.
  apply run_bind in H as [([] & e1 & tr1 & tr2 & H1 & H2 & ->)|[(n & H & ->)|(sig & d & H & ->)]].
  - apply strcpy_run in H1 as (-> & [(_ & ->)|(? & ? & ? & ? & _ & [=] & _)]); [|done].
    exists (stores a (bytes s ++ [0])), tr2. split; [done|]. split; [|by right].
    assert (quiet (print_string fuel a;;
      if negb (sync =? 0) then
        r ← msync a size MS_SYNC;
        if r =? -1 then perror strerror "msync";; Lv11.write_out strerror (-1) fd a size
        else Lv11.write_out strerror 0 fd a size
      else Lv11.write_out strerror 0 fd a size) (fun _ => True)) as Hq.
    { assert (forall ret, quiet (Lv11.write_out strerror ret fd a size) (fun _ => True)) as Hw.
      { intros ret e1 t o1 e2 H. apply quiet_write_out in H as [H _]. done. }
      apply quiet_bind; [apply quiet_print_string|intros _]. hush. }
    by apply Hq in H2 as [H2 _].
  - apply strcpy_run in H as (_ & [([=] & _)|(? & ? & ? & ? & _ & [=] & _)]); done.
  - apply strcpy_run in H as (_ & [([=] & _)|(k & b & sig' & d' & Hb & [= -> ->] & ->)]); [|done].
    eexists _, []. rewrite app_nil_r. split; [done|]. split; [done|]. left. by exists k, b, sig', d'.
Qed.

Lemma elem_of_stores a l x v r :
  ev (MEM_store x v) r ∈ stores a l -> exists k, l !! k = Some v /\ x = u64 (a + Z.of_nat k).
Proof.
  unfold stores. rewrite elem_of_lookup_imap. intros (i & b & E & Hb). exists i.
  injection E as -> -> _. done.
Qed.

Lemma no_store_elem tr x v (r : reply (MEM_store x v)) : Forall no_store tr -> ev (MEM_store x v) r ∈ tr -> False.
Proof. intros Hf He. rewrite Forall_forall in Hf. by apply Hf in He. Qed.

Lemma bytes_length s : Z.of_nat (length (bytes s)) = strlen s.
Proof.
  unfold bytes, strlen. rewrite length_fmap. f_equal. induction s as [|c s IH]; cbn; auto.
Qed.

(** C38: write_to_file of lv11 stores nothing outside the mapping it made, nor anything but the string:
    every store it attempts, on any replies, writes byte [k] of the string (or its NUL) to byte [k] of
    a mapping that is longer than the string. *)
Theorem lv11_write_in_bounds path prot flags sync s e tr o e' x v r :
  run (Lv11.write_to_file strerror fuel path prot flags sync s) e tr o e' ->
  ev (MEM_store x v) r ∈ tr ->
  exists fd size a k, ev (SYS_mmap 0 size prot flags fd 0) a ∈ tr /\ is_error a = false /\
    Z.of_nat k <= strlen s < size /\ x = u64 (u64 a + Z.of_nat k) /\ (bytes s ++ [0]) !! k = Some v.
Proof.
  intros H Hin. apply lv11_write_cases in H as [[H _]|(fd & r0 & size & a & e1 & tr1 & Hf & Hr & Ha & Hm & Hs & -> & H)].
  { exfalso. by eapply no_store_elem. }
  exists fd, (u64 size), a. apply tail_quiet in H as (t1 & t2 & -> & Hq & Ht); [|by apply wrap_u_range].
  assert (ev (MEM_store x v) r ∈ t1) as Hin1.
  { rewrite !elem_of_app in Hin. destruct Hin as [Hin|[Hin|Hin]]; [|done|].
    - set_unfold in Hin. destruct Hin as [E|[E|[E|[]]]]; discriminate E.
    - exfalso. by eapply no_store_elem. }
  assert (exists k, (bytes s ++ [0]) !! k = Some v /\ x = u64 (u64 a + Z.of_nat k)) as (k & Hk & ->).
  { destruct Ht as [(k & b & sig & d & Hb & _ & ->)| ->]; [|by apply elem_of_stores in Hin1].
    apply elem_of_app in Hin1 as [Hin1|Hin1].
    - apply elem_of_stores in Hin1 as (j & Hj & ->). apply lookup_take_Some in Hj as [Hj _]. eauto.
    - apply list_elem_of_singleton in Hin1. injection Hin1 as -> -> _. eauto. }
  exists k. split; [set_solver|]. split; [done|]. split; [|done].
  apply lookup_lt_Some in Hk. rewrite length_app in Hk. cbn in Hk. pose proof (bytes_length s). lia.
Qed.

(** when write_to_file of lv11 returns 0, the string and its NUL have been stored, byte by byte and
    without a fault, at the start of a mapping of the whole file with the protection and flags asked
    for, and if [sync] is set an msync of the whole mapping has succeeded after that. *)
Theorem lv11_write_success path prot flags sync s e tr e' :
  run (Lv11.write_to_file strerror fuel path prot flags sync s) e tr (Returned 0) e' ->
  exists fd r size a tr2,
    tr = [ev (SYS_open path O_RDWR) fd; ev (SYS_stat path) (r, size);
          ev (SYS_mmap 0 (u64 size) prot flags fd 0) a] ++ stores (u64 a) (bytes s ++ [0]) ++ tr2 /\
    is_error a = false /\ strlen s < u64 size /\
    (sync <> 0 -> exists rs, ev (SYS_msync (u64 a) (u64 size) MS_SYNC) rs ∈ tr2 /\ is_error rs = false).
Proof.
  intros H. apply lv11_write_cases in H as [[_ H]|(fd & r & size & a & e1 & tr1 & Hf & Hr & Ha & Hm & Hs & -> & H)];
    [done|].
  unfold lv11_write_tail in H. apply run_bind_returned in H as ([] & e2 & t1 & t2 & H1 & H & ->).
  apply strcpy_run in H1 as (-> & [(_ & ->)|(? & ? & ? & ? & _ & [=] & _)]); [|by apply wrap_u_range].
  exists fd, r, size, a, t2. do 3 (split; [done|]). intros Hsync.
  apply run_bind_returned in H as ([] & e2 & t3 & t4 & _ & H & ->).
  replace (sync =? 0) with false in H by lia. cbn [negb] in H.
  apply run_msync in H as (rs & t5 & -> & H). exists rs. split; [set_solver|].
  destruct (ret_int rs =? -1) eqn:E; [|by apply ret_int_ok in E as [E _]]. exfalso.
  apply run_bind_returned in H as ([] & e3 & t6 & t7 & _ & H & ->).
  apply quiet_write_out in H as [_ H]. by specialize (H 0 eq_refl).
Qed.

(** ** Runs that succeed *)

(** The events of reading [l] at [a], of the msync, and of the end. *)
Definition fetches (a : Z) (l : list Z) : list event :=
  imap (fun i b => ev (MEM_load (u64 (a + Z.of_nat i))) (Ok b)) l.

Definition synced (a size sync : Z) : list event :=
  if sync =? 0 then [] else [ev (SYS_msync a size MS_SYNC) 0].

Lemma fetches_cons a b l :
  0 <= a < 2 ^ 64 -> fetches a (b :: l) = ev (MEM_load a) (Ok b) :: fetches (u64 (a + 1)) l.
Proof.
  intros Ha. unfold fetches. cbn [imap]. rewrite Z.add_0_r, wrap_u_small by done. f_equal.
  apply imap_ext. intros i x _. cbn. rewrite wrap_u_add_l.
  by replace (a + 1 + Z.of_nat i) with (a + Z.of_nat (S i)) by lia.
Qed.

(** Enough fuel reads a string up to its NUL. *)
Lemma read_string_run n a l e :
  0 <= a < 2 ^ 64 -> (length l < n)%nat -> Forall (fun c => chr c <> 0) l ->
  run (read_string n a) e (fetches a ((chr <$> l) ++ [0])) (Returned l) e.
Proof.
  revert n a. induction l as [|c l IH]; intros [|n] a Ha Hn Hl; cbn [length] in Hn; try lia; cbn [read_string].
  - cbn [fmap list_fmap app]. rewrite fetches_cons by done. apply run_vis. done.
  - apply Forall_cons in Hl as [Hc Hl]. cbn [fmap list_fmap app]. rewrite fetches_cons by done. apply run_vis.
    cbn [resume mbind prog_mbind bind]. apply Z.eqb_neq in Hc. rewrite Hc. apply run_bind. left.
    exists l, e, (fetches (u64 (a + 1)) ((chr <$> l) ++ [0])), []. rewrite app_nil_r.
    split; [apply IH; [by apply wrap_u_range|lia|done]|]. split; [|done]. cbn. unfold chr.
    by rewrite N2Z.id, Ascii.ascii_N_embedding.
Qed.

Lemma strcpy_stores a l e : 0 <= a < 2 ^ 64 -> run (strcpy a l) e (stores a (l ++ [0])) (Returned tt) e.
Proof.
  revert a. induction l as [|b l IH]; intros a Ha; cbn [strcpy app]; rewrite stores_cons by done; apply run_vis; [done|].
  apply IH. by apply wrap_u_range.
Qed.

Lemma print_string_run a s e :
  0 <= a < 2 ^ 64 -> (String.length s < fuel)%nat -> Forall (fun c => chr c <> 0) (chars s) ->
  run (print_string fuel a) e (fetches a (bytes s ++ [0]) ++ [ev (OUT s) tt]) (Returned tt) e.
Proof.
  intros Ha Hf Hs. apply run_bind. left. exists (chars s), e, (fetches a (bytes s ++ [0])), [ev (OUT s) tt].
  assert (length (chars s) = String.length s) as Hl by (clear; induction s as [|c s IH]; cbn; auto).
  split; [apply read_string_run; [done|lia|done]|]. split; [|done].
  rewrite String.string_of_list_ascii_of_string. by apply run_vis.
Qed.

Lemma run_then {A} (p : prog unit) (q : prog A) e tr1 tr2 o e' :
  run p e tr1 (Returned tt) e -> run q e tr2 o e' -> run (p;; q) e (tr1 ++ tr2) o e'.
Proof. intros Hp Hq. apply run_bind. left. by exists tt, e, tr1, tr2. Qed.

(** The next reply of a given sequence. *)
Ltac reply := eexists _, _; split; [reflexivity|]; cbn -[run].

(** given enough fuel both directions of lv11 end with 0 on a file that can be mapped and a memory
    that keeps what is stored: the writer stores the string, prints it from the mapping, syncs it if
    asked to, unmaps and closes; the reader of a file that begins with the string prints the same. *)
Theorem lv11_prints_string path prot flags sync s fd size a e :
  (String.length s < fuel)%nat -> Forall (fun c => chr c <> 0) (chars s) ->
  0 <= fd -> 0 <= a < 2 ^ 63 -> strlen s < size < 2 ^ 63 ->
  let mapped mode := [ev (SYS_open path mode) fd; ev (SYS_stat path) (0, size);
                      ev (SYS_mmap 0 size prot flags fd 0) a] in
  let printed := fetches a (bytes s ++ [0]) ++ [ev (OUT s) tt] in
  let ended := synced a size sync ++ [ev (SYS_munmap a size) 0; ev (SYS_close fd) 0] in
  run (Lv11.write_to_file strerror fuel path prot flags sync s) e
    (mapped O_RDWR ++ stores a (bytes s ++ [0]) ++ printed ++ ended) (Returned 0) e /\
  run (Lv11.read_from_file strerror fuel path prot flags sync) e
    (mapped O_RDONLY ++ printed ++ ended) (Returned 0) e.
Proof.
  intros Hfuel Hs Hfd Ha Hsize mapped printed ended.
  assert (0 <= strlen s) as Hlen by (unfold strlen; lia).
  assert (is_error fd = false /\ is_error a = false) as [Ef Ea] by (unfold is_error; lia).
  assert ((fd =? -1) = false /\ (a =? MAP_FAILED) = false) as [Ef' Ea'] by (unfold MAP_FAILED; lia).
  assert (u64 size = size /\ u64 a = a) as [Es Eu] by (split; apply wrap_u_small; lia).
  assert ((size <=? strlen s) = false) as Ez by lia.
  assert (0 <= a < 2 ^ 64) as Ha64 by lia.
  split.
  - unfold Lv11.write_to_file, mapped. cbn [app]. apply run_vis. unfold syscall_ret at 1. rewrite Ef.
    cbn [bind mbind prog_mbind]. rewrite Ef'. apply run_vis. cbn [bind mbind prog_mbind syscall_ret is_error].
    cbn. rewrite Es, Ez. reply. unfold syscall_ptr, syscall_ret. rewrite Ea. cbn [bind mbind prog_mbind].
    rewrite Eu, Ea'. apply run_then; [by apply strcpy_stores|]. unfold printed. apply run_then; [by apply print_string_run|].
    unfold ended, synced, Lv11.write_out. rewrite Ea', Ef'. destruct (sync =? 0); cbn; repeat reply; done.
  - unfold Lv11.read_from_file, mapped. cbn [app]. apply run_vis. unfold syscall_ret at 1. rewrite Ef.
    cbn [bind mbind prog_mbind]. rewrite Ef'. apply run_vis. cbn.
    rewrite Es. reply. unfold syscall_ptr, syscall_ret. rewrite Ea. cbn [bind mbind prog_mbind].
    rewrite Eu, Ea'. unfold printed. apply run_then; [by apply print_string_run|].
    unfold ended, synced, Lv11.read_out. rewrite Ea', Ef'. destruct (sync =? 0); cbn; repeat reply; done.
Qed.

End replies.

Lemma lv11_prints_string_witness :
  let fetched := [ev (MEM_load 0x7000) (Ok (chr "a")); ev (MEM_load 0x7001) (Ok 0); ev (OUT "a") tt] in
  let ended := [ev (SYS_msync 0x7000 4096 MS_SYNC) 0; ev (SYS_munmap 0x7000 4096) 0; ev (SYS_close 3) 0] in
  run (Lv11.write_to_file (fun _ => ""%string) 9 "f" 3 1 1 "a") 0
    ([ev (SYS_open "f" O_RDWR) 3; ev (SYS_stat "f") (0, 4096); ev (SYS_mmap 0 4096 3 1 3 0) 0x7000;
      ev (MEM_store 0x7000 (chr "a")) (Ok tt); ev (MEM_store 0x7001 0) (Ok tt)] ++ fetched ++ ended)
    (Returned 0) 0 /\
  run (Lv11.read_from_file (fun _ => ""%string) 9 "f" 3 1 1) 0
    ([ev (SYS_open "f" O_RDONLY) 3; ev (SYS_stat "f") (0, 4096); ev (SYS_mmap 0 4096 3 1 3 0) 0x7000] ++
     fetched ++ ended) (Returned 0) 0.
Proof.
  apply (lv11_prints_string (fun _ => ""%string) 9 "f" 3 1 1 "a" 3 4096 0x7000 0); try (by vm_compute).
  - apply Nat.ltb_lt. by vm_compute.
  - repeat constructor; by vm_compute.
Defined.

(** Three replies and a two-byte string: the bounds of its store. *)
Definition write_demo : list event :=
  [ev (SYS_open "f" O_RDWR) 3; ev (SYS_stat "f") (0, 4096);
   ev (SYS_mmap 0 4096 (PROT_READ .| PROT_WRITE) MAP_SHARED 3 0) 0x7000;
   ev (MEM_store 0x7000 (chr "a")) (Ok tt); ev (MEM_store 0x7001 0) (Ok tt);
   ev (MEM_load 0x7000) (Ok (chr "a")); ev (MEM_load 0x7001) (Ok 0); ev (OUT "a") tt;
   ev (SYS_msync 0x7000 4096 MS_SYNC) 0; ev (SYS_munmap 0x7000 4096) 0; ev (SYS_close 3) 0].

Lemma write_demo_run :
  run (Lv11.write_to_file (fun _ => "error") 9 "f" (PROT_READ .| PROT_WRITE) MAP_SHARED 1 "a") 0
    write_demo (Returned 0) 0.
Proof. do 11 (eexists _, _; split; [reflexivity|]; cbn). done. Qed.

Lemma lv11_write_in_bounds_witness :
  exists fd size a k, ev (SYS_mmap 0 size (PROT_READ .| PROT_WRITE) MAP_SHARED fd 0) a ∈ write_demo /\
    is_error a = false /\ Z.of_nat k <= strlen "a" < size /\ 0x7001 = u64 (u64 a + Z.of_nat k) /\
    (bytes "a" ++ [0]) !! k = Some 0.
Proof.
  apply (lv11_write_in_bounds (fun _ => "error"%string) 9 "f" (PROT_READ .| PROT_WRITE) MAP_SHARED 1 "a" 0 write_demo
    (Returned 0) 0 0x7001 0 (Ok tt)); [exact write_demo_run|]. unfold write_demo. set_solver.
Defined.

Lemma lv11_write_success_witness :
  exists a size (tr2 : list event) rs, ev (SYS_msync (u64 a) (u64 size) MS_SYNC) rs ∈ tr2 /\ is_error rs = false.
Proof.
  destruct (lv11_write_success (fun _ => "error"%string) 9 "f" (PROT_READ .| PROT_WRITE) MAP_SHARED 1 "a" 0 write_demo 0
    write_demo_run) as (fd & r & size & a & tr2 & _ & _ & _ & Hs). exists a, size, tr2. by apply Hs.
Defined.

Lemma filemap_no_leak_witness :
  after none [ev (SYS_open "f" O_RDONLY) 3; ev (SYS_stat "f") (-2, 0); ev (ERR ("stat: error" +:+ nl)) tt; ev (SYS_close 3) 0]
  = none.
Proof.
  apply (filemap_no_leak (fun _ => "error"%string) 9 none ["lv11"; "r"; "rp"; "f"] 0 _ (-1) 2); [left|].
  - do 4 (eexists _, _; split; [reflexivity|]; cbn). done.
  - by repeat constructor.
Defined.

(** ** The command lines *)

Definition mode_char (c : ascii) : bool := bool_decide (c ∈ ["w"; "r"; "s"]%char).
Definition prot_char (c : ascii) : bool := bool_decide (c ∈ ["r"; "w"; "e"; "s"; "p"]%char).

(** The mode the last of the letters w and r names. *)
Definition last_mode (l : list ascii) : Lv11.mode :=
  match List.find (fun c => bool_decide (c ∈ ["w"; "r"]%char)) (rev l) with
  | Some "w"%char => Lv11.MODE_WRITE
  | Some _ => Lv11.MODE_READ
  | None => Lv11.MODE_NULL
  end.

(** [v] when the letter occurs. *)
Definition flag (l : list ascii) (c : ascii) (v : Z) : Z := if bool_decide (c ∈ l) then v else 0.

Lemma find_app {A} (f : A -> bool) l1 l2 :
  List.find f (l1 ++ l2) = match List.find f l1 with Some x => Some x | None => List.find f l2 end.
Proof. induction l1 as [|x l1 IH]; cbn; [done|]. by destruct (f x). Qed.

Lemma flag_cons c d l v : flag (d :: l) c v = if bool_decide (c = d) then v else flag l c v.
Proof.
  unfold flag. destruct (decide (c = d)) as [->|Hne].
  - rewrite !bool_decide_eq_true_2; [done|done|set_solver].
  - rewrite (bool_decide_eq_false_2 (c = d)) by done.
    destruct (decide (c ∈ l)); [rewrite !bool_decide_eq_true_2; [done|done|set_solver]|].
    rewrite !bool_decide_eq_false_2; [done|done|set_solver].
Qed.

Lemma lor_same_flag v l c : v .| flag l c v = v.
Proof. unfold flag. destruct (bool_decide _); [apply Z.lor_diag|apply Z.lor_0_r]. Qed.

(** The switches, as chains of tests. *)
Lemma parse_mode_cons c l m sync :
  Lv11.parse_mode (c :: l) m sync
  = if bool_decide (c = "w"%char) then Lv11.parse_mode l Lv11.MODE_WRITE sync
    else if bool_decide (c = "r"%char) then Lv11.parse_mode l Lv11.MODE_READ sync
    else if bool_decide (c = "s"%char) then Lv11.parse_mode l m 1 else None.
Proof. by destruct c as [[] [] [] [] [] [] [] []]. Qed.

Lemma parse_prot_cons c l prot flags :
  Lv11.parse_prot (c :: l) prot flags
  = if bool_decide (c = "r"%char) then Lv11.parse_prot l (prot .| PROT_READ) flags
    else if bool_decide (c = "w"%char) then Lv11.parse_prot l (prot .| PROT_WRITE) flags
    else if bool_decide (c = "e"%char) then Lv11.parse_prot l (prot .| PROT_EXEC) flags
    else if bool_decide (c = "s"%char) then Lv11.parse_prot l prot (flags .| MAP_SHARED)
    else if bool_decide (c = "p"%char) then Lv11.parse_prot l prot (flags .| MAP_PRIVATE) else None.
Proof. by destruct c as [[] [] [] [] [] [] [] []]. Qed.

Definition mode_or (m m' : Lv11.mode) : Lv11.mode := match m with Lv11.MODE_NULL => m' | _ => m end.

Lemma last_mode_cons c l :
  last_mode (c :: l) = mode_or (last_mode l)
    (if bool_decide (c = "w"%char) then Lv11.MODE_WRITE
     else if bool_decide (c = "r"%char) then Lv11.MODE_READ else Lv11.MODE_NULL).
Proof.
  unfold last_mode. cbn [rev]. rewrite find_app.
  destruct (List.find _ (rev l)) as [d|] eqn:E.
  - assert (d = "w"%char \/ d = "r"%char) as [-> | ->]; [|done..].
    apply List.find_some in E as [_ E]. apply bool_decide_eq_true_1 in E. set_solver.
  - cbn [mode_or]. by destruct c as [[] [] [] [] [] [] [] []].
Qed.

Lemma parse_mode_spec l m sync :
  Lv11.parse_mode l m sync
  = if forallb mode_char l then Some (mode_or (last_mode l) m, if bool_decide ("s"%char ∈ l) then 1 else sync)
    else None.
Proof.
  revert m sync. induction l as [|c l IH]; intros m sync; [done|].
  rewrite parse_mode_cons, last_mode_cons. cbn [forallb].
  assert (forall x, bool_decide ("s"%char ∈ x :: l) = bool_decide ("s"%char = x) || bool_decide ("s"%char ∈ l)) as Hs.
  { intros x. rewrite <- bool_decide_or. apply bool_decide_ext. set_solver. }
  rewrite Hs, !IH.
  destruct (decide (c = "w"%char)) as [->|Hw]; [by destruct (forallb mode_char l), (last_mode l), (bool_decide ("s"%char ∈ l))|].
  destruct (decide (c = "r"%char)) as [->|Hr]; [by destruct (forallb mode_char l), (last_mode l), (bool_decide ("s"%char ∈ l))|].
  destruct (decide (c = "s"%char)) as [->|Hc]; [by destruct (forallb mode_char l), (last_mode l), (bool_decide ("s"%char ∈ l))|].
  rewrite !(bool_decide_eq_false_2 (c = _)) by done. unfold mode_char.
  rewrite bool_decide_eq_false_2; [done|set_solver].
Qed.

Lemma parse_prot_spec l prot flags :
  Lv11.parse_prot l prot flags
  = if forallb prot_char l
    then Some (prot .| flag l "r" PROT_READ .| flag l "w" PROT_WRITE .| flag l "e" PROT_EXEC,
               flags .| flag l "s" MAP_SHARED .| flag l "p" MAP_PRIVATE)
    else None.
Proof.
  revert prot flags. induction l as [|c l IH]; intros prot flags.
  { cbn. by rewrite !Z.lor_0_r. }
  rewrite parse_prot_cons, !flag_cons, !IH. cbn [forallb].
  destruct (decide (c ∈ ["r"; "w"; "e"; "s"; "p"]%char)) as [Hc|Hc].
  - set_unfold in Hc. destruct Hc as [->|[->|[->|[->|[->|[]]]]]]; cbn;
      (destruct (forallb prot_char l); [|done]); do 2 f_equal; unfold flag;
      repeat case_bool_decide; apply Z.bits_inj'; intros i _; rewrite !Z.lor_spec, ?Z.bits_0;
      repeat (match goal with |- context [Z.testbit ?x ?n] => destruct (Z.testbit x n) end); done.
  - unfold prot_char at 6. rewrite (bool_decide_eq_false_2 (c ∈ _)) by done.
    rewrite !(bool_decide_eq_false_2 (c = _)) by set_solver. done.
Qed.

(** parse_argument of lv11 accepts exactly the command lines with at least three arguments whose
    letters are all known; the mode is the last of w and r, and each of the other letters sets its
    flag however often and in whatever order they come.  The path is cut to the buffer. *)
Theorem lv11_parse_argument argv :
  match argv with
  | _ :: a1 :: a2 :: a3 :: _ =>
      if forallb mode_char (chars a1) && forallb prot_char (chars a2) then
        Lv11.parse_argument argv
        = Lv11.Args (last_mode (chars a1)) (flag (chars a1) "s" 1)
            (flag (chars a2) "r" PROT_READ .| flag (chars a2) "w" PROT_WRITE .| flag (chars a2) "e" PROT_EXEC)
            (flag (chars a2) "s" MAP_SHARED .| flag (chars a2) "p" MAP_PRIVATE) (Lv11.strncpy a3)
      else Lv11.a_mode (Lv11.parse_argument argv) = Lv11.MODE_NULL
  | _ => Lv11.a_mode (Lv11.parse_argument argv) = Lv11.MODE_NULL
  end.
Proof.
  destruct argv as [|a0 [|a1 [|a2 [|a3 rest]]]]; [done..|]. unfold Lv11.parse_argument.
  rewrite parse_mode_spec, parse_prot_spec.
  destruct (forallb mode_char (chars a1)), (forallb prot_char (chars a2)); try done.
  cbn [andb]. rewrite !Z.lor_0_l. f_equal. by destruct (last_mode (chars a1)).
Qed.

(** lv09 in mode w with the string missing does not print its usage: the test of argc admits the
    call, and once the file is opened and its status known the length of NULL is taken. *)
Theorem lv09_missing_string strerror fuel app path fd size e :
  is_error fd = false ->
  run (Lv09.main strerror fuel [app; "w"; path]) e
    [ev (SYS_open path O_RDWR) fd; ev (SYS_stat path) (0, size)] (Signalled SIGSEGV SIG_DFL) e.
Proof.
  intros Hf. unfold Lv09.main. cbn. eexists fd, _. split; [reflexivity|]. unfold syscall_ret. rewrite Hf. cbn.
  rewrite is_error_minus_one by done. eexists _, _. split; [reflexivity|]. cbn. done.
Qed.

Lemma lv09_missing_string_witness :
  run (Lv09.main (fun _ => "error"%string) 9 ["lv09"; "w"; "f"]) 0
    [ev (SYS_open "f" O_RDWR) 3; ev (SYS_stat "f") (0, 10)] (Signalled SIGSEGV SIG_DFL) 0.
Proof. by apply (lv09_missing_string (fun _ => "error"%string) 9 "lv09" "f" 3 10 0). Defined.

End FileMapProofs.
