(* ===== verification/LargePages.v ===== *)
(** * lv14 and lv15: large anonymous mappings

    src/src/lv14_large_pages/main.c maps and touches anonymous memory of several sizes;
    src/src/lv15_continuous_execution/lv15_map_anon.c and lv15_map_file.c are single tests of the same
    kind.  [strerror] is the C library's and [line i addr len print ch] the text of the printf that
    shows a mapping (its format passes a [char] for [%lx], so the digits are not fixed by the
    source). *)
From S2P Require Import Prelude CMachine Align Libc VmSpec RefKernel Ledger FileMap.
Import Align Libc Ledger FileMap.
#[local] Open Scope Z_scope.

Module LargePages.

(** ** main.h *)

Definition TASK_UNMAPPED_BASE : Z := 0xFFFFFF7FC0000000.
Definition _4MB : Z := 1024 * 1024 * 4.
Definition _256MB : Z := 1024 * 1024 * 256.
Definition _1GB : Z := 1024 * 1024 * 1024.

(** [((a)+(b)-1) & ~((b)-1)] on unsigned long. *)
Definition ALIGN_UP (a b : Z) : Z := u64 (a + b - 1) .& u64 (Z.lnot (b - 1)).

Inductive test_anon_mode : Set := TEST_ANON_NULL | TEST_ANON_READ | TEST_ANON_WRITE.

Record test_anon_arg := AnonArg {
  len : Z;
  prot : Z;
  flag : Z;
  repeat : Z;
  mode : test_anon_mode;
  rw_off : Z
}.

Section programs.
Context (strerror : Z -> string) (line : Z -> Z -> Z -> Z -> Z -> string).

(** The loop of test_anon; [n] is the number of iterations left. *)
Fixpoint test_anon_loop (args : test_anon_arg) (n : nat) (i : Z) : prog Z :=
  match n with
  | O => Ret 0
  | S n =>
      addr ← mmap 0 (len args) (prot args) (flag args) (-1) 0;
      if addr =? MAP_FAILED then perror strerror "test_anon[mmap]:";; Ret (-1)
      else
        let rest :=
          r ← munmap addr (len args);
          if r =? -1 then perror strerror "test_anon[munmap]:";; Ret (-1)
          else test_anon_loop args n (i + 1) in
        let print := u64 (addr + rw_off args) in
        match mode args with
        | TEST_ANON_READ => ch ← load print; printf (line i addr (len args) print ch);; rest
        | TEST_ANON_WRITE =>
            store print (chr "Z");; ch ← load print; printf (line i addr (len args) print ch);; rest
        | TEST_ANON_NULL =>
            munmap addr (len args);; fprintf_stderr "test_anon[]: invalid mode.";; Ret (-1)
        end
  end.

Definition test_anon (args : test_anon_arg) : prog Z := test_anon_loop args (Z.to_nat (repeat args)) 0.

Abbreviation RWX := (PROT_EXEC .| PROT_READ .| PROT_WRITE).
Abbreviation ANON := (MAP_PRIVATE .| MAP_ANONYMOUS).

(** The lengths: 4 MiB, or a size plus the distance from TASK_UNMAPPED_BASE to its next multiple. *)
Definition aligned_len (size : Z) : Z := u64 (size + (ALIGN_UP TASK_UNMAPPED_BASE size - TASK_UNMAPPED_BASE)).

Definition args00 : test_anon_arg := AnonArg _4MB RWX ANON 1 TEST_ANON_READ (u64 (_4MB - 8)).
Definition args01 : test_anon_arg := AnonArg _4MB RWX ANON 1 TEST_ANON_WRITE (u64 (_4MB - 8)).
Definition args02 : test_anon_arg :=
  AnonArg (aligned_len _256MB) RWX ANON 1 TEST_ANON_READ (u64 (aligned_len _256MB - 8)).
Definition args03 : test_anon_arg :=
  AnonArg (aligned_len _1GB) RWX ANON 1 TEST_ANON_READ (u64 (aligned_len _1GB - 8)).
Definition args04 : test_anon_arg :=
  AnonArg (aligned_len _1GB) RWX ANON 2 TEST_ANON_READ (u64 (aligned_len _1GB - 8)).
Definition args05 : test_anon_arg :=
  AnonArg (aligned_len _1GB) RWX ANON 5 TEST_ANON_READ (u64 (aligned_len _1GB - 8)).

Definition test00 : prog Z := test_anon args00.
Definition test01 : prog Z := test_anon args01.
Definition test02 : prog Z := test_anon args02.
Definition test03 : prog Z := test_anon args03.
Definition test04 : prog Z := test_anon args04.
Definition test05 : prog Z := test_anon args05.

Definition tests : list (string * prog Z) :=
  [("Run test00."%string, test00); ("Run test01."%string, test01); ("Run test02."%string, test02);
   ("Run test03."%string, test03); ("Run test04."%string, test04); ("Run test05."%string, test05)].

Definition main (argv : list string) : prog Z :=
  match argv with
  | _ :: a1 :: _ =>
      let i := atoi a1 in
      if (0 <=? i) && (i <? Z.of_nat (length tests)) then
        match tests !! Z.to_nat i with
        | Some (run_msg, fn) =>
            printf (run_msg +:+ nl);;
            ret ← fn;
            printf ((if negb (ret =? 0) then "error" else "success") +:+ nl);;
            Ret ret
        | None => Ret 0
        end
      else printf ("invalid argument." +:+ nl);; Ret (-1)
  | _ => printf (default "" (argv !! 0%nat) +:+ " <tp number>" +:+ nl);; Ret (-1)
  end.

(** ** lv15_map_anon.c and lv15_map_file.c *)

Definition lv15_map_anon : prog Z :=
  addr ← mmap 0 _4MB RWX ANON (-1) 0;
  if addr =? MAP_FAILED then perror strerror "lv15_map_anon[mmap]:";; Ret (-1)
  else
    let print := u64 (addr + _4MB - 8) in
    ch ← load print;
    printf (line 0 addr _4MB print ch);;
    r ← munmap addr _4MB;
    if r =? -1 then perror strerror "lv15_map_anon[munmap]:";; Ret (-1) else Ret 0.

Definition lv15_map_file (argv : list string) : prog Z :=
  match argv with
  | [_; path] =>
      fd ← open path O_RDONLY;
      if fd =? -1 then perror strerror "lv15_map_file[open]:";; Ret (-3)
      else
        addr ← mmap 0 _4MB RWX ANON fd 0;
        if addr =? MAP_FAILED then perror strerror "lv15_map_file[mmap]:";; Ret (-2)
        else
          let print := u64 (addr + _4MB - 8) in
          ch ← load print;
          printf (line 0 addr _4MB print ch);;
          r ← munmap addr _4MB;
          if r =? -1 then perror strerror "lv15_map_file[munmap]:";; Ret (-1) else Ret 0
  | _ => printf ("invalid argment. " +:+ default "" (argv !! 0%nat) +:+ " ostype-path" +:+ nl);; Ret (-4)
  end.

(** ** Correctness *)

(** The lengths are the nominal sizes: TASK_UNMAPPED_BASE is a multiple of 1 GiB. *)
Lemma aligned_len_exact : aligned_len _256MB = _256MB /\ aligned_len _1GB = _1GB.
Proof. by vm_compute. Qed.

(** What the tests have in common. *)
Record anon_ok (a : test_anon_arg) : Prop := {
  ok_len : 0 < len a < 2 ^ 40;
  ok_page : (PAGE_SIZE | len a);
  ok_prot : prot a = RWX;
  ok_flag : flag a = ANON;
  ok_mode : mode a <> TEST_ANON_NULL;
  ok_off : 0 <= rw_off a < len a
}.

Lemma tests_ok : Forall anon_ok [args00; args01; args02; args03; args04; args05].
Proof.
  repeat constructor; try (by vm_compute); try done.
  all: cbn -[PAGE_SIZE]; unfold args00, args01, args02, args03, args04, args05; cbn [len];
    rewrite ?(proj1 aligned_len_exact), ?(proj2 aligned_len_exact).
  all: apply Z.mod_divide; by vm_compute.
Qed.

Section kernel.
Context {K : Kernel} {V : VmKernel K}.

Lemma exec_printf t (m : mach) :
  exists s', exec (printf t) m = (Returned tt, Mach (errno m) s') /\
    (forall x, vm s' x = vm (kern m) x) /\ avail (kern m) <= avail s'.
Proof.
  destruct (out_ok (kern m) t) as (s' & E & Hv & _ & Ha). exists s'. cbn. rewrite E. done.
Qed.

(** Reads the last bytes of a mapping of the process. *)
Lemma exec_load_cell a c (m : mach) :
  vm (kern m) a = Some c -> readable c = true -> c_backed c = true ->
  exists s', exec (load a) m = (Returned (c_val c), Mach (errno m) s') /\
    (forall x, vm s' x = vm (kern m) x) /\ avail (kern m) <= avail s'.
Proof.
  intros Hc Hr Hb. destruct (load_ok _ _ _ Hc Hr Hb) as (s' & E & Hv & _ & Ha).
  exists s'. by rewrite (exec_load _ _ _ _ E).
Qed.

(** The access of an iteration: it succeeds and touches only the mapping at [addr]. *)
Lemma exec_anon_access a (k : prog Z) addr i (m : mach) :
  anon_ok a -> user_range addr (len a) ->
  (forall x, in_range addr (len a) x = true -> vm (kern m) x = Some (fresh_cell (prot a) false)) ->
  let print := u64 (addr + rw_off a) in
  exists s', exec (match mode a with
                   | TEST_ANON_READ => ch ← load print; printf (line i addr (len a) print ch);; k
                   | TEST_ANON_WRITE =>
                       store print (chr "Z");; ch ← load print; printf (line i addr (len a) print ch);; k
                   | TEST_ANON_NULL =>
                       munmap addr (len a);; fprintf_stderr "test_anon[]: invalid mode.";; Ret (-1)
                   end) m = exec k (Mach (errno m) s') /\
    (forall x, in_range addr (len a) x = false -> vm s' x = vm (kern m) x) /\
    avail (kern m) <= avail s'.
Proof.
  intros [Hl Hp Hpr Hfl Hm Ho] Hu Hf print.
  destruct Hu as (_ & _ & H0 & _ & Hend).
  assert (print = addr + rw_off a) as Ep.
  { unfold print. apply wrap_u_small. unfold MMAP_END_ADDR in Hend. lia. }
  assert (in_range addr (len a) print = true) as Hin by (apply in_range_in; lia).
  specialize (Hf _ Hin) as Hc. clearbody print.
  assert (readable (fresh_cell (prot a) false) = true /\ writable (fresh_cell (prot a) false) = true) as [Hr Hw]
    by (by rewrite Hpr).
  destruct (mode a); [done|..].
  - destruct (exec_load_cell _ _ m Hc Hr eq_refl) as (s1 & E1 & V1 & A1).
    rewrite (exec_mbind _ _ _ _ _ E1).
    destruct (exec_printf (line i addr (len a) print (c_val (fresh_cell (prot a) false))) (Mach (errno m) s1))
      as (s2 & E2 & V2 & A2). rewrite (exec_mbind _ _ _ _ _ E2).
    exists s2. split; [done|]. cbn in *. split; [|lia]. intros x _. by rewrite V2.
  - destruct (store_ok _ _ _ (chr "Z") Hc Hw eq_refl) as (s0 & E0 & V0 & _ & A0).
    rewrite (exec_mbind _ _ _ _ _ (exec_store _ _ _ _ E0)).
    assert (vm s0 print = Some (set_val (chr "Z") (fresh_cell (prot a) false))) as Hc'
      by (by rewrite V0, Z.eqb_refl).
    destruct (exec_load_cell _ _ (Mach (errno m) s0) Hc' Hr eq_refl) as (s1 & E1 & V1 & A1).
    rewrite (exec_mbind _ _ _ _ _ E1).
    destruct (exec_printf (line i addr (len a) print (chr "Z")) (Mach (errno m) s1)) as (s2 & E2 & V2 & A2).
    rewrite (exec_mbind _ _ _ _ _ E2).
    exists s2. split; [done|]. cbn in *. split; [|lia]. intros x Hx. rewrite V2, V1, V0.
    destruct (Z.eqb_spec x print); [subst; congruence|done].
Qed.

(** One iteration leaves the address space as it was. *)
Lemma exec_iteration a n i (m : mach) :
  anon_ok a -> len a <= avail (kern m) ->
  exists s', exec (test_anon_loop a (S n) i) m = exec (test_anon_loop a n (i + 1)) (Mach (errno m) s') /\
    (forall x, vm s' x = vm (kern m) x) /\ avail (kern m) - len a <= avail s'.
Proof.
  intros Hok Ha. pose proof Hok as [Hl Hp Hpr Hfl Hm Ho].
  destruct (mmap_anon (kern m) (len a) (prot a) false Hp) as (r & s1 & E1 & Hu & Hfree & V1 & _ & A1); [lia|].
  assert (0 <= r < 2 ^ 64) as Hr by (destruct Hu as (_ & _ & ? & _ & ?); unfold MMAP_END_ADDR in *; lia).
  cbn [test_anon_loop]. rewrite Hfl.
  rewrite (exec_mbind _ _ _ _ _ (exec_mmap _ _ _ _ _ _ _ _ _ E1 Hr)).
  replace (r =? MAP_FAILED) with false
    by (destruct Hu as (_ & _ & ? & _ & ?); unfold MMAP_END_ADDR, MAP_FAILED in *; lia).
  destruct (exec_anon_access a (x ← munmap r (len a);
     if x =? -1 then perror strerror "test_anon[munmap]:";; Ret (-1) else test_anon_loop a n (i + 1))
     r i (Mach (errno m) s1) Hok Hu) as (s2 & E2 & V2 & A2).
  { intros x Hx. cbn. by rewrite V1, Hx. }
  cbn [errno kern] in *. rewrite E2.
  destruct (munmap_ok s2 r (len a) Hu) as (s3 & E3 & V3 & _ & A3).
  rewrite (exec_mbind _ _ _ _ _ (exec_munmap r (len a) (Mach (errno m) s2) s3 E3)).
  exists s3. split; [done|]. split; [|lia]. intros x. rewrite V3. destruct (in_range r (len a) x) eqn:Hx.
  - apply in_range_spec in Hx. symmetry. by apply Hfree.
  - by rewrite V2, V1, Hx.
Qed.

Lemma exec_test_anon_loop a n i (m : mach) :
  anon_ok a -> len a * Z.of_nat n <= avail (kern m) ->
  exists s', exec (test_anon_loop a n i) m = (Returned 0, Mach (errno m) s') /\
    (forall x, vm s' x = vm (kern m) x).
Proof.
  intros Hok. revert i m. induction n as [|n IH]; intros i m Ha; [exists (kern m); by destruct m|].
  pose proof (ok_len a Hok). destruct (exec_iteration a n i m Hok) as (s1 & E1 & V1 & A1); [nia|].
  destruct (IH (i + 1) (Mach (errno m) s1)) as (s2 & E2 & V2); [cbn; lia|]. cbn in *.
  exists s2. rewrite E1, E2. split; [done|]. intros x. by rewrite V2.
Qed.

End kernel.

(** on a kernel whose memory behaves as documented and that has room for the mappings, each of the
    six tests of lv14 returns 0, and leaves the address space as it found it. *)
Theorem lv14_tests_pass (K : Kernel) (V : VmKernel K) (m : mach) :
  5 * _1GB <= avail (kern m) ->
  Forall (fun t => exists s', exec t m = (Returned 0, Mach (errno m) s') /\ (forall x, vm s' x = vm (kern m) x))
    [test00; test01; test02; test03; test04; test05].
Proof.
  intros Ha. pose proof tests_ok as Hok.
  assert (forall a, anon_ok a -> len a * Z.of_nat (Z.to_nat (repeat a)) <= 5 * _1GB ->
    exists s', exec (test_anon a) m = (Returned 0, Mach (errno m) s') /\ (forall x, vm s' x = vm (kern m) x)) as Hrun.
  { intros a Ho Hle. apply exec_test_anon_loop; [done|lia]. }
  rewrite Forall_forall in Hok. repeat apply List.Forall_cons; [..|by apply List.Forall_nil].
  all: apply Hrun; [apply Hok; set_solver|by vm_compute].
Qed.

(** ** What is held *)

Lemma settles_test_anon_loop h a n i : settles (test_anon_loop a n i) h (fun _ => h).
Proof.
  revert i. induction n as [|n IH]; intros i; cbn [test_anon_loop]; [by apply settles_ret|].
  settle; rewrite ?del_add_map; apply IH.
Qed.

Lemma settles_tests h t : t ∈ [test00; test01; test02; test03; test04; test05] -> settles t h (fun _ => h).
Proof.
  intros Ht. set_unfold in Ht. repeat destruct Ht as [->|Ht]; try done; apply settles_test_anon_loop.
Qed.

(** on every reply of the kernel lv14 and lv15_map_anon return with everything they mapped given
    back, from the error paths as from the straight one, unless munmap fails. *)
Theorem large_pages_no_leak h argv e tr v e' :
  run (main argv) e tr (Returned v) e' \/ run lv15_map_anon e tr (Returned v) e' ->
  Forall unmaps tr -> after h tr = h.
Proof.
  intros [H|H]; revert H; revert e tr v e'.
  - change (settles (main argv) h (fun _ => h)).
    assert (forall t, settles (printf t;; Ret (-1)) h (fun _ => h)) as Hp by (intros t; settle).
    unfold main. destruct argv as [|a0 [|a1 rest]]; [apply Hp..|]. cbv zeta.
    destruct ((0 <=? atoi a1) && (atoi a1 <? Z.of_nat (length tests))); [|apply Hp].
    destruct (tests !! Z.to_nat (atoi a1)) as [[msg fn]|] eqn:Ef; [|by apply settles_ret].
    eapply settles_bind; [apply settles_keeps, keeps_printf|intros ?].
    apply (settles_bind fn _ h (fun _ => h)); [|intros r; settle].
    apply settles_tests. apply list_elem_of_lookup_2 in Ef. unfold tests in Ef. set_solver.
  - change (settles lv15_map_anon h (fun _ => h)). unfold lv15_map_anon. settle; rewrite ?del_add_map; settle.
Qed.

(** Looks for the mmap calls in a trace that is spelt out. *)
Ltac only_maps :=
  let E := fresh "E" in
  intros ????????Hin;
  repeat (apply elem_of_cons in Hin as [E|Hin]; [try discriminate E; injection E as -> -> -> -> -> -> _; by vm_compute|]);
  by apply not_elem_of_nil in Hin.

(** lv15_map_file never closes the file it opened, on any path (it holds nothing else unless munmap
    fails), and its mappings are anonymous: the
    file, whose mapping the test is for, is not mapped. *)
Theorem lv15_map_file_holds_file h app path e tr v e' :
  run (lv15_map_file [app; path]) e tr (Returned v) e' ->
  (v = -3 \/ exists fd, is_error fd = false /\ ev (SYS_open path O_RDONLY) fd ∈ tr /\
    (Forall unmaps tr -> after h tr = add_fd fd h)) /\
  (forall a n p f fd off r, ev (SYS_mmap a n p f fd off) r ∈ tr -> f .& MAP_ANONYMOUS = MAP_ANONYMOUS).
Proof.
  intros H. unfold lv15_map_file in H. apply run_open in H as (fd & t1 & -> & H).
  destruct (ret_int fd =? -1) eqn:Ef.
  { destruct H as ([] & t2 & -> & -> & [= ->] & _). split; [by left|]. only_maps. }
  apply ret_int_ok in Ef as [Ef Ef']. rewrite Ef' in H.
  apply run_mmap in H as (a & t2 & -> & H).
  destruct (ret_ptr a =? MAP_FAILED) eqn:Ea.
  { destruct H as ([] & t3 & -> & -> & [= ->] & _). split; [|only_maps]. right. exists fd.
    split; [done|]. split; [set_solver|]. intros _. rewrite !after_cons. unfold ev. cbn [step after fold_left].
    rewrite Ef. unfold ret_ptr, ret_int in Ea. destruct (is_error a); [done|]. by rewrite Ea. }
  pose proof Ea as Em. apply ret_ptr_ok in Ea as [Ea Ea']. rewrite Ea' in Em, H.
  destruct H as ([ch|sig d] & t3 & -> & H); [|by destruct H as (_ & [=] & _)].
  destruct H as ([] & t4 & -> & H). apply run_munmap in H as (r & t5 & -> & H).
  assert (exists t6, t5 = t6 /\ (t6 = [] \/ exists m u, t6 = [ev (ERR m) u])) as (t6 & -> & Ht6).
  { eexists; split; [done|]. destruct (ret_int r =? -1).
    - destruct H as (u & t7 & -> & -> & _). eauto.
    - destruct H as (-> & _). by left. }
  split; [|destruct Ht6 as [->|(m & u & ->)]; only_maps].
  right. exists fd. split; [done|]. split; [set_solver|]. intros Hu.
  assert (is_error r = false) as Er.
  { rewrite Forall_forall in Hu. apply (Hu (ev (SYS_munmap (u64 a) _4MB) r)). set_solver. }
  destruct Ht6 as [->|(m & u & ->)]; unfold after, ev; cbn [fold_left step];
    rewrite Ef, Ea, Em, Er; cbn [orb]; apply del_add_map.
Qed.

End programs.

Lemma lv14_tests_pass_witness :
  let m := @Mach RefKernel.kernel 0 RefKernel.init in
  exists s', exec (test05 (fun _ => "error"%string) (fun _ _ _ _ _ => "line"%string)) m
             = (Returned 0, Mach (errno m) s').
Proof.
  pose proof (lv14_tests_pass (fun _ => "error"%string) (fun _ _ _ _ _ => "line"%string) RefKernel.kernel
    RefKernel.vm_kernel (@Mach RefKernel.kernel 0 RefKernel.init)) as H.
  rewrite Forall_forall in H. destruct (H ltac:(by vm_compute) (test05 (fun _ => "error"%string) (fun _ _ _ _ _ => "line"%string))) as (s' & E & _); [set_solver|].
  exists s'. exact E.
Defined.

(** The trace of a run of lv15_map_file that succeeds. *)
Definition map_file_demo : list event :=
  [ev (SYS_open "f" O_RDONLY) 3; ev (SYS_mmap 0 _4MB (PROT_EXEC .| PROT_READ .| PROT_WRITE) (MAP_PRIVATE .| MAP_ANONYMOUS) 3 0) 0x10000;
   ev (MEM_load (0x10000 + _4MB - 8)) (Ok 0); ev (OUT "line") tt; ev (SYS_munmap 0x10000 _4MB) 0].

Lemma lv15_map_file_holds_file_witness :
  0 = -3 \/ exists fd, is_error fd = false /\ ev (SYS_open "f" O_RDONLY) fd ∈ map_file_demo /\
    (Forall unmaps map_file_demo -> after none map_file_demo = add_fd fd none).
Proof.
  apply (lv15_map_file_holds_file (fun _ => "error"%string) (fun _ _ _ _ _ => "line"%string) none "lv15" "f" 0
    map_file_demo 0 0).
  do 5 (eexists _, _; split; [reflexivity|]; cbn). done.
Defined.

Lemma large_pages_no_leak_witness :
  after none [ev (SYS_mmap 0 _4MB (PROT_EXEC .| PROT_READ .| PROT_WRITE) (MAP_PRIVATE .| MAP_ANONYMOUS) (-1) 0) (- ENOMEM);
              ev (ERR ("lv15_map_anon[mmap]:: error" +:+ nl)) tt] = none.
Proof.
  apply (large_pages_no_leak (fun _ => "error"%string) (fun _ _ _ _ _ => "line"%string) none [] 0 _ (-1) 12); [right|by repeat constructor].
  do 2 (eexists _, _; split; [reflexivity|]; cbn). done.
Defined.

End LargePages.
