(* ===== verification/Procs.v ===== *)
(** * Several processes

    The machine of CMachine.v runs one process; here several run interleaved.  A process is a [prog]
    with its [errno]; the kernel is again a parameter (class [ProcKernel]): asked to let a process
    act, it answers the request, or delivers a signal first, or says that the process cannot go on
    now.  A step of the world is one such action of one process, chosen freely, so the paths of
    [step] are the interleavings.  The specifications of kernels are in ProcSpec.v and Tasks.v; what
    [always] or [may] come of a test on a specification comes of it on a kernel that answers the
    requests of the test in the same way ([sim_always], [sim_may]). *)
From S2P Require Import Prelude CMachine.
#[local] Open Scope Z_scope.

Module Procs.

(** ** The interface of the kernel *)

(** What a process asks for: a request, or to leave with a wait status. *)
Inductive action : Set := Request (c : cmd) | Leave (status : Z).
Definition areply (a : action) : Set := match a with Request c => reply c | Leave _ => unit end.

(** What becomes of it: the reply; a signal or a stop comes first, or the process falls asleep in the
    call, and it stays where it is; a signal kills the process.  [Unspecified] is the answer of a kernel
    that serves as a specification to a request it says nothing about. *)
Inductive response (a : action) : Set :=
| Replied (r : areply a)
| Delayed
| Killed (sig : Z)
| Unspecified.
Arguments Replied {a} r.
Arguments Delayed {a}.
Arguments Killed {a} sig.
Arguments Unspecified {a}.

Class ProcKernel := {
  pstate : Type;
  psched : Z -> forall a : action, pstate -> option (response a * pstate)
}.

(** ** The world *)

(** The process that runs the test has this number; its end is the result of the test. *)
Definition main_pid : Z := 100.

Section world.
Context `{K : ProcKernel}.

Record world := World {
  kst : pstate;
  threads : gmap Z (prog verdict * Z);
  result : option (outcome verdict)
}.

(** Output and [errno] concern nobody else: a process runs up to its next request. *)
Definition silent (c : cmd) : option (reply c) :=
  match c with OUT _ => Some tt | ERR _ => Some tt | _ => None end.
Fixpoint settle (p : prog verdict) (e : Z) : prog verdict * Z :=
  match p with
  | GetErrno k => settle (k e) e
  | SetErrno e' k => settle k e'
  | Vis c k => match silent c with Some r => settle (k r) e | None => (p, e) end
  | _ => (p, e)
  end.

(** [fork] and [vfork] give the new process a copy of the caller, to which they reply 0; a new thread
    goes on with the program of the caller in the same way. *)
Definition spawn (c : cmd) : reply c -> (reply c -> prog verdict) -> Z ->
    gmap Z (prog verdict * Z) -> gmap Z (prog verdict * Z) :=
  match c with
  | SYS_fork | SYS_vfork | LIBC_thread_start => fun r k e ts => if 0 <? r then <[r := settle (k 0) e]> ts else ts
  | _ => fun _ _ _ ts => ts
  end.

(** The test process ends with the outcome [o], the others without a trace. *)
Definition gone (pid : Z) (o : outcome verdict) (s : pstate) (w : world) : world :=
  World s (delete pid (threads w)) (if pid =? main_pid then Some o else result w).

(** An unspecified answer puts an end to everything: nothing is said of what follows.  No process is
    killed by the signal 0, so no other test ends like this. *)
Definition unspecified : option (outcome verdict) := Some (Signalled 0 SIG_DFL).
Definition undone (s : pstate) (w : world) : world := World s (threads w) unspecified.

(** The status of a test case that returns into the harness. *)
Definition verdict_status (v : verdict) : Z := if is_NULL v then EXIT_SUCCESS else EXIT_FAILURE.
Definition exit_status (n : Z) : Z := Z.shiftl (n .& 255) 8.

(** A process leaves with the wait status [status]. *)
Definition leave (pid : Z) (status : Z) (o : outcome verdict) (w : world) : option world :=
  match psched pid (Leave status) (kst w) with
  | Some (Replied _, s) => Some (gone pid o s w)
  | Some (Delayed, s) => Some (World s (threads w) (result w))
  | Some (Killed sig, s) => Some (gone pid (Signalled sig SIG_DFL) s w)
  | Some (Unspecified, s) => Some (undone s w)
  | None => None
  end.

Definition step (pid : Z) (w : world) : option world :=
  match result w, threads w !! pid with
  | None, Some (p, e) =>
      match p with
      | Ret v => leave pid (exit_status (verdict_status v)) (Returned v) w
      | Exit n => leave pid (exit_status n) (Exited n) w
      | Trap sig d => leave pid sig (Signalled sig d) w
      | Vis c k =>
          match psched pid (Request c) (kst w) with
          | Some (Replied r, s) => Some (World s (spawn c r k e (<[pid := settle (k r) e]> (threads w))) None)
          | Some (Delayed, s) => Some (World s (threads w) None)
          | Some (Killed sig, s) => Some (gone pid (Signalled sig SIG_DFL) s w)
          | Some (Unspecified, s) => Some (undone s w)
          | None => None
          end
      | GetErrno _ | SetErrno _ _ => None
      end
  | _, _ => None
  end.

Definition start (p : prog verdict) (s : pstate) : world :=
  World s {[ main_pid := settle p 0 ]} None.

(** ** Interleavings *)

(** No process can act: the test is over, or nobody will ever wake the processes that are left. *)
Definition terminal (w : world) : Prop := forall pid, step pid w = None.

(** Every interleaving comes to an end, where [P] holds of the result ([None] is a deadlock). *)
Inductive always (P : option (outcome verdict) -> Prop) (w : world) : Prop :=
| always_done : terminal w -> P (result w) -> always P w
| always_go : ~ terminal w -> (forall pid w', step pid w = Some w' -> always P w') -> always P w.

(** Some interleaving does. *)
Inductive may (P : option (outcome verdict) -> Prop) (w : world) : Prop :=
| may_done : terminal w -> P (result w) -> may P w
| may_go pid w' : step pid w = Some w' -> may P w' -> may P w.

(** The results are exactly those of the list. *)
Definition results (w : world) (l : list (option (outcome verdict))) : Prop :=
  always (.∈ l) w /\ forall o, o ∈ l -> may (eq o) w.

(** What the kernel answers the test process in a step of [pid]. *)
Definition answer (pid : Z) (w : world) : list event :=
  match threads w !! pid with
  | Some (Vis c _, _) =>
      match psched pid (Request c) (kst w) with
      | Some (Replied r, _) => if pid =? main_pid then [ev c r] else []
      | _ => []
      end
  | _ => []
  end.

(** The world after a sequence of steps, and what the test process was answered in them. *)
Inductive steps : world -> list event -> world -> Prop :=
| steps_refl w : steps w [] w
| steps_step w tr pid w1 w2 :
    steps w tr w1 -> step pid w1 = Some w2 -> steps w (tr ++ answer pid w1) w2.

Lemma steps_trans w1 tr1 w2 tr2 w3 : steps w1 tr1 w2 -> steps w2 tr2 w3 -> steps w1 (tr1 ++ tr2) w3.
Proof.
  intros H1 H2. induction H2 as [w|w tr pid w3 w4 _ IH Es]; [by rewrite app_nil_r|].
  rewrite app_assoc. eapply steps_step; eauto.
Qed.

Lemma may_steps P w : may P w -> exists tr w', steps w tr w' /\ P (result w').
Proof.
  induction 1 as [w _ HP|w pid w1 Es _ (tr & w' & Hs & HP)]; [exists [], w; split; [constructor|done]|].
  exists (answer pid w ++ tr), w'. split; [|done]. eapply steps_trans; [|done].
  apply (steps_step w [] pid w w1); [constructor|done].
Qed.

(** ** Exploring the interleavings *)

Definition pids (w : world) : list Z := (map_to_list (threads w)).*1.
Definition next (w : world) : list world := omap (fun pid => step pid w) (pids w).

Fixpoint explore (n : nat) (ok : option (outcome verdict) -> bool) (w : world) : bool :=
  match n with
  | O => false
  | S n => match next w with [] => ok (result w) | l => forallb (explore n ok) l end
  end.
Fixpoint search (n : nat) (ok : option (outcome verdict) -> bool) (w : world) : bool :=
  match n with
  | O => false
  | S n => match next w with [] => ok (result w) | l => existsb (search n ok) l end
  end.

Lemma step_next pid w w' : step pid w = Some w' -> w' ∈ next w.
Proof.
  intros E. apply list_elem_of_omap. exists pid. split; [|done].
  unfold step in E. destruct (result w); [done|]. destruct (threads w !! pid) as [t|] eqn:Ht; [|done].
  apply list_elem_of_fmap. exists (pid, t). split; [done|]. by apply elem_of_map_to_list.
Qed.

Lemma next_step w w' : w' ∈ next w -> exists pid, step pid w = Some w'.
Proof. intros (pid & _ & E)%list_elem_of_omap. eauto. Qed.

Lemma next_terminal w : next w = [] <-> terminal w.
Proof.
  split.
  - intros E pid. destruct (step pid w) eqn:Es; [|done]. apply step_next in Es. rewrite E in Es.
    by apply not_elem_of_nil in Es.
  - intros Ht. destruct (next w) as [|w' l] eqn:E; [done|].
    destruct (next_step w w') as [pid Es]; [rewrite E; by left|]. by rewrite Ht in Es.
Qed.

Lemma explore_sound n ok P w :
  (forall o, ok o = true -> P o) -> explore n ok w = true -> always P w.
Proof.
  intros Hok. revert w. induction n as [|n IH]; intros w; simpl; [done|].
  destruct (next w) as [|w1 l] eqn:E.
  - intros Hw. apply always_done; [by apply next_terminal|auto].
  - intros Hall. assert (forallb (explore n ok) (next w) = true) as Ha by by rewrite E.
    rewrite forallb_forall in Ha. apply always_go.
    + intros Ht%next_terminal. congruence.
    + intros pid w' Es%step_next. by apply IH, Ha, list_elem_of_In.
Qed.

Lemma search_sound n ok P w :
  (forall o, ok o = true -> P o) -> search n ok w = true -> may P w.
Proof.
  intros Hok. revert w. induction n as [|n IH]; intros w; simpl; [done|].
  destruct (next w) as [|w1 l] eqn:E.
  - intros Hw. apply may_done; [by apply next_terminal|auto].
  - intros Hex. assert (existsb (search n ok) (next w) = true) as Ha by by rewrite E.
    apply existsb_exists in Ha as (w' & Hin & Hw').
    destruct (next_step w w') as [pid Es]; [by apply list_elem_of_In|]. eapply may_go; eauto.
Qed.

(** ** Results by computation *)

Definition outcome_eqb (x y : option (outcome verdict)) : bool :=
  match x, y with
  | None, None => true
  | Some (Returned v), Some (Returned v') =>
      match v, v' with Some a, Some b => String.eqb a b | None, None => true | _, _ => false end
  | Some (Exited n), Some (Exited m) => n =? m
  | Some (Signalled n SIG_DFL), Some (Signalled m SIG_DFL) => n =? m
  | _, _ => false
  end.

Lemma outcome_eqb_eq x y : outcome_eqb x y = true -> x = y.
Proof.
  destruct x as [[[a|]|n|n [|f]]|], y as [[[b|]|m|m [|g]]|]; cbn; try done.
  - by intros ->%String.eqb_eq.
  - by intros ->%Z.eqb_eq.
  - by intros ->%Z.eqb_eq.
Qed.

(** All interleavings end in the list, each element is the end of one, and no request on the way is
    unspecified. *)
Definition specified_ends (l : list (option (outcome verdict))) : bool :=
  forallb (fun o => negb (outcome_eqb o unspecified)) l.
Definition results_b (n : nat) (w : world) (l : list (option (outcome verdict))) : bool :=
  specified_ends l && explore n (fun o => existsb (outcome_eqb o) l) w &&
  forallb (fun o => search n (outcome_eqb o) w) l.

Lemma specified_ends_sound l : specified_ends l = true -> unspecified ∉ l.
Proof. intros H Hin%list_elem_of_In. unfold specified_ends in H. rewrite forallb_forall in H. by apply H in Hin. Qed.

Lemma results_b_specified n w l : results_b n w l = true -> unspecified ∉ l.
Proof. intros [[H _]%andb_true_iff _]%andb_true_iff. by apply specified_ends_sound. Qed.

Lemma results_b_sound n w l : results_b n w l = true -> results w l.
Proof.
  intros [[_ H1]%andb_true_iff H2]%andb_true_iff. split.
  - eapply explore_sound; [|done]. intros o Ho. apply existsb_exists in Ho as (o' & Hin & ->%outcome_eqb_eq).
    by apply list_elem_of_In.
  - intros o Ho. rewrite forallb_forall in H2. eapply search_sound; [|by apply H2, list_elem_of_In].
    by apply outcome_eqb_eq.
Qed.

(** An invariant with a measure that every step decreases, and that gives [P] when nobody can act. *)
Lemma always_measured (I : nat -> world -> Prop) P :
  (forall n w, I n w -> terminal w -> P (result w)) ->
  (forall n w pid w', I n w -> step pid w = Some w' -> exists n', (n' < n)%nat /\ I n' w') ->
  forall n w, I n w -> always P w.
Proof.
  intros Hdone Hstep n. induction n as [n IH] using lt_wf_ind. intros w Hw.
  destruct (next w) as [|w1 l] eqn:E.
  - apply next_terminal in E. apply always_done; eauto.
  - apply always_go; [rewrite <- next_terminal; congruence|]. intros pid w' Es.
    destruct (Hstep n w pid w' Hw Es) as (n' & Hlt & Hw'). eauto.
Qed.

(** ** Schedules *)

(** The world after the processes have acted in the order of the list. *)
Fixpoint follow (l : list Z) (w : world) : option world :=
  match l with
  | [] => Some w
  | pid :: l => w' ← step pid w; follow l w'
  end.

Lemma follow_steps l w w' : follow l w = Some w' -> exists tr, steps w tr w'.
Proof.
  revert w. induction l as [|pid l IH]; intros w; simpl; [intros [= ->]; exists []; constructor|].
  destruct (step pid w) as [w1|] eqn:Es; [|done]. intros (tr & Htr)%IH. exists (answer pid w ++ tr).
  eapply steps_trans; [|done]. apply (steps_step w [] pid w w1); [constructor|done].
Qed.

(** A finished test has its result, whatever the other processes would do. *)
Lemma result_terminal w o : result w = Some o -> terminal w.
Proof. intros E pid. unfold step. by rewrite E. Qed.

Lemma follow_may (P : option (outcome verdict) -> Prop) l w w' o :
  follow l w = Some w' -> result w' = Some o -> P (Some o) -> may P w.
Proof.
  revert w. induction l as [|pid l IH]; intros w; simpl.
  - intros [= ->] E HP. apply may_done; [by eapply result_terminal|by rewrite E].
  - destruct (step pid w) as [w1|] eqn:Es; [|done]. eauto using may_go.
Qed.

Lemma may_scheduled l w o :
  match follow l w with Some w' => outcome_eqb (result w') (Some o) | None => false end = true ->
  may (eq (Some o)) w.
Proof.
  destruct (follow l w) as [w'|] eqn:E; [|done]. intros Ho%outcome_eqb_eq. by eapply follow_may.
Qed.

(** ** What a process does is a run of its program *)

(** Events other than output. *)
Definition loud (x : event) : bool := match silent (projT1 x) with None => true | Some _ => false end.

(** The program [p] started with [errno = e] gets to [p'] and [e'] with the answers [tr]. *)
Definition ran (p : prog verdict) (e : Z) (tr : list event) (p' : prog verdict) (e' : Z) : Prop :=
  exists tr0, List.filter loud tr0 = tr /\
    forall tr' o e2, run p' e' tr' o e2 -> run p e (tr0 ++ tr') o e2.

(** A finished process has a complete run. *)
Definition complete (p : prog verdict) (tr : list event) (o : outcome verdict) : Prop :=
  exists tr0 e2, List.filter loud tr0 = tr /\ run p 0 tr0 o e2.

Lemma ran_end p tr q e o :
  ran p 0 tr q e -> (forall e, run q e [] o e) -> complete p tr o.
Proof. intros (tr0 & <- & H) Hq. exists (tr0 ++ []), e. split; [by rewrite app_nil_r|]. auto. Qed.

Lemma ran_settle p e : ran p e [] (settle p e).1 (settle p e).2.
Proof.
  revert e. induction p as [a|n|s d|k IH|e1 k IH|c k IH]; intros e; simpl;
    try (by exists []; split; [|intros tr' o e2]); [apply IH|apply IH|].
  destruct (silent c) as [r|] eqn:Hc; [|by exists []; split; [|intros tr' o e2]].
  destruct (IH r e) as (tr & Htr & Hrun). exists (ev c r :: tr). split.
  - simpl. unfold loud at 1. simpl. by rewrite Hc.
  - intros tr' o e2 Hr. apply run_vis. auto.
Qed.

(** Requests that the kernel sees are not silent. *)
Definition settled (p : prog verdict) : Prop :=
  match p with Vis c _ => silent c = None | _ => True end.

Lemma settle_settled p e : settled (settle p e).1.
Proof. revert e. induction p as [a|n|s d|k IH|e1 k IH|c k IH]; intros e; simpl; auto. by case_match. Qed.

Lemma ran_vis c k r p0 e0 tr e :
  ran p0 e0 tr (Vis c k) e -> silent c = None ->
  ran p0 e0 (tr ++ [ev c r]) (settle (k r) e).1 (settle (k r) e).2.
Proof.
  intros (tr0 & <- & Hp) Hc. destruct (ran_settle (k r) e) as (tr1 & H1 & Hr).
  exists (tr0 ++ ev c r :: tr1). split.
  - rewrite List.filter_app. simpl. unfold loud at 2. simpl. by rewrite Hc, H1.
  - intros tr' o e2 Hr'. rewrite <- app_assoc. apply Hp. apply run_vis. auto.
Qed.

(** The kernel gives new processes numbers other than that of the test. *)
Definition fresh_forks : Prop :=
  forall pid s,
    (forall r s', psched pid (Request SYS_fork) s = Some (Replied r, s') -> r <> main_pid) /\
    (forall r s', psched pid (Request SYS_vfork) s = Some (Replied r, s') -> r <> main_pid) /\
    (forall r s', psched pid (Request LIBC_thread_start) s = Some (Replied r, s') -> r <> main_pid).

(** The state of the test process, which was answered [tr]. *)
Definition main_ran (p : prog verdict) (tr : list event) (w : world) : Prop :=
  match result w with
  | None => exists q e, threads w !! main_pid = Some (q, e) /\ settled q /\ ran p 0 tr q e
  | Some (Signalled _ _) => True
  | Some o => complete p tr o
  end.

Lemma spawn_other c r k e ts q s s' :
  fresh_forks -> psched q (Request c) s = Some (Replied r, s') ->
  spawn c r k e ts !! main_pid = ts !! main_pid.
Proof.
  intros Hf E. destruct (Hf q s) as (H1 & H2 & H3). destruct c; try done; simpl;
    (case_match; [|done]); apply lookup_insert_ne; eauto.
Qed.

(** A process leaves: the others stay, and the result is the outcome of the test process. *)
Lemma leave_main p pid st o w w' tr :
  result w = None -> leave pid st o w = Some w' -> main_ran p tr w ->
  (pid = main_pid -> complete p tr o) -> main_ran p tr w'.
Proof.
  unfold leave, main_ran. intros Hr E. rewrite Hr. intros (q & e & Hm & Hq & Hran) Ho.
  destruct (psched _ _ _) as [[r s]|]; [|done].
  assert (pid <> main_pid -> forall s, main_ran p tr (World s (delete pid (threads w)) None)) as Hne.
  { intros Hne s'. exists q, e. simpl. by rewrite lookup_delete_ne. }
  destruct r; injection E as <-; unfold gone; simpl; rewrite ?Hr; eauto 6;
    destruct (Z.eqb_spec pid main_pid) as [->|H1]; simpl; rewrite ?Hr; auto; [|exact (Hne H1 s)..].
  destruct o; auto.
Qed.

Lemma step_main p pid tr w w' :
  fresh_forks -> main_ran p tr w -> step pid w = Some w' -> main_ran p (tr ++ answer pid w) w'.
Proof.
  intros Hf Hm. unfold step, answer. destruct (result w) eqn:Hr; [done|].
  destruct (threads w !! pid) as [[q e]|] eqn:Hq; [|done].
  assert (forall o, (forall e, run q e [] o e) -> pid = main_pid -> complete p tr o) as Hend.
  { unfold main_ran in Hm. rewrite Hr in Hm. destruct Hm as (q' & e' & Hm & _ & Hran).
    intros o Ho ->. rewrite Hq in Hm. injection Hm as <- <-. by eapply ran_end. }
  destruct q as [v|n|sig d| |?|c k]; try done; rewrite ?app_nil_r;
    try (intros E; eapply leave_main; eauto; apply Hend; done).
  destruct (psched pid (Request c) (kst w)) as [[r s]|] eqn:Es; [|done].
  pose proof Hm as Hm0. unfold main_ran in Hm0. rewrite Hr in Hm0. destruct Hm0 as (q' & e' & Hm' & Hs & Hran).
  destruct r as [r| |sig|]; intros [= <-]; rewrite ?app_nil_r; unfold main_ran; simpl; [|by eauto 6| |done].
  - destruct (Z.eqb_spec pid main_pid) as [->|Hne].
    + rewrite Hq in Hm'. injection Hm' as <- <-. exists (settle (k r) e).1, (settle (k r) e).2.
      split; [|split; [apply settle_settled|by apply ran_vis]].
      rewrite (spawn_other _ _ _ _ _ _ _ _ Hf Es), lookup_insert_eq. by destruct (settle _ _).
    + exists q', e'. rewrite app_nil_r. split; [|done].
      by rewrite (spawn_other _ _ _ _ _ _ _ _ Hf Es), lookup_insert_ne.
  - destruct (Z.eqb_spec pid main_pid) as [->|Hne]; [done|]. rewrite Hr. exists q', e'.
    by rewrite lookup_delete_ne.
Qed.

Lemma start_main p s : main_ran p [] (start p s).
Proof.
  unfold main_ran, start; simpl. exists (settle p 0).1, (settle p 0).2.
  split; [|split; [apply settle_settled|apply ran_settle]].
  rewrite lookup_singleton_eq. by destruct (settle p 0).
Qed.

Lemma steps_main p s tr w : fresh_forks -> steps (start p s) tr w -> main_ran p tr w.
Proof.
  intros Hf Hs. remember (start p s) as w0 eqn:E. induction Hs as [|w tr pid w1 w2 _ IH Es]; subst.
  - apply start_main.
  - eauto using step_main.
Qed.

(** What the test process does among the others, in any interleaving and on any kernel, is a run
    of its program: if it returns [v] after the answers [tr] of the kernel, there is a run that
    returns [v] and whose trace is [tr] with output in between.  So the theorems on runs hold of it. *)
Theorem world_refines_run p s tr w v :
  fresh_forks -> steps (start p s) tr w -> result w = Some (Returned v) ->
  exists tr0 e, List.filter loud tr0 = tr /\ run p 0 tr0 (Returned v) e.
Proof.
  intros Hf Hs Hr. apply steps_main in Hs; [|done]. unfold main_ran in Hs. by rewrite Hr in Hs.
Qed.

End world.

(** ** Simulation

    A kernel whose answers are those of a specification on what [view] shows of its state, wherever the
    specification says anything: the worlds on it are, step for step, worlds on the specification, up to
    the first unspecified request.  What always comes of a test on the specification, with no such
    request on the way, always comes of it on the kernel. *)
Section simulation.
Context {K K' : ProcKernel} (view : @pstate K -> @pstate K').
Hypothesis view_sched : forall pid a s,
  (exists k, @psched K' pid a (view s) = Some (Unspecified, k)) \/
  prod_map id view <$> @psched K pid a s = @psched K' pid a (view s).

Definition sim_world (w : @world K) : @world K' := @World K' (view (kst w)) (threads w) (result w).

Lemma sim_step pid w :
  (exists w', step pid (sim_world w) = Some w' /\ result w' = unspecified) \/
  sim_world <$> step pid w = step pid (sim_world w).
Proof.
  destruct w as [k ts [o|]]; [by right|]. unfold step, sim_world, leave. cbn [kst threads result].
  destruct (ts !! pid) as [[q e]|]; [|by right].
  destruct q as [v|n|sig d| |?|c p]; try (by right);
    (match goal with |- context [@psched K' _ ?a _] =>
       destruct (view_sched pid a k) as [[k' ->]|<-]; [left; by eexists|right] end);
    (destruct (psched _ _ _) as [[r s]|]; [|done]); by destruct r.
Qed.

Lemma sim_step_inv pid w w' :
  step pid (sim_world w) = Some w' ->
  result w' = unspecified \/ exists w1, step pid w = Some w1 /\ w' = sim_world w1.
Proof.
  intros E. destruct (sim_step pid w) as [(w2 & E2 & Hr)|Hs]; [left; congruence|right].
  rewrite E in Hs. destruct (step pid w) as [w1|]; [|done]. injection Hs as <-. eauto.
Qed.

Lemma sim_terminal w : terminal (sim_world w) -> terminal w.
Proof.
  intros Ht pid. destruct (sim_step pid w) as [(w' & E & _)|Hs]; [by rewrite Ht in E|].
  rewrite Ht in Hs. by destruct (step pid w).
Qed.

(** Where nothing is said, nothing is shown. *)
Lemma always_result P (w : @world K') o : always P w -> result w = Some o -> P (Some o).
Proof. intros [_ HP|Hn _] E; [by rewrite <- E|]. by apply result_terminal in E. Qed.

Lemma sim_always P w : ~ P unspecified -> always P (sim_world w) -> always P w.
Proof.
  intros HP Ha. remember (sim_world w) as w0 eqn:E. revert w E.
  induction Ha as [w0 Ht Hw|w0 Hn Hall IH]; intros w ->.
  - apply always_done; [by apply sim_terminal|done].
  - assert (forall pid, sim_world <$> step pid w = step pid (sim_world w)) as Hs.
    { intros pid. destruct (sim_step pid w) as [(w' & Es & Hr)|Hs]; [|done].
      by apply Hall, (always_result _ _ _) with (2 := Hr) in Es. }
    apply always_go.
    + intros Ht. apply Hn. intros pid. by rewrite <- Hs, Ht.
    + intros pid w' Es. eapply IH; [|done]. by rewrite <- Hs, Es.
Qed.

Lemma sim_may P w : ~ P unspecified -> may P (sim_world w) -> may P w.
Proof.
  intros HP Ha. remember (sim_world w) as w0 eqn:E. revert w E.
  induction Ha as [w0 Ht Hw|w0 pid w' Es Hm IH]; intros w ->.
  - apply may_done; [by apply sim_terminal|done].
  - apply sim_step_inv in Es as [Hr|(w1 & Es & ->)]; [|eapply may_go; eauto].
    destruct Hm as [_ Hw|pid' w2 Es2 _]; [by rewrite Hr in Hw|].
    by rewrite (result_terminal _ _ Hr pid') in Es2.
Qed.

(** A path that the test is not over on has no unspecified request. *)
Lemma sim_follow l w w' :
  follow l (sim_world w) = Some w' -> result w' <> unspecified ->
  exists w1, follow l w = Some w1 /\ w' = sim_world w1.
Proof.
  intros Hf Hr. revert w Hf. induction l as [|pid l IH]; intros w; simpl; [intros [= <-]; eauto|].
  destruct (step pid (sim_world w)) as [w2|] eqn:Es; [|done].
  apply sim_step_inv in Es as [Hu|(w1 & -> & ->)]; [|apply IH].
  destruct l as [|pid' l]; simpl; [congruence|]. by rewrite (result_terminal _ _ Hu pid').
Qed.

Lemma sim_start p s k : view s = k -> sim_world (start p s) = @start K' p k.
Proof. intros E. unfold sim_world, start. cbn. by rewrite E. Qed.

Lemma sim_results w l : unspecified ∉ l -> results (sim_world w) l -> results w l.
Proof.
  intros Hl [Ha Hm]. split; [by apply sim_always|]. intros o Ho. apply sim_may; [|by apply Hm].
  by intros ->.
Qed.

(** The processes act in the order of a list; the test is then over with the result [o]. *)
Lemma sim_scheduled p s k l o (Q : @world K' -> bool) :
  Some o <> unspecified -> view s = k ->
  match follow l (@start K' p k) with
  | Some w => outcome_eqb (result w) (Some o) && Q w
  | None => false
  end = true ->
  exists w tr, steps (start p s) tr w /\ result w = Some o /\ Q (sim_world w) = true.
Proof.
  intros Ho E Hf. destruct (follow l (@start K' p k)) as [w|] eqn:Ef; [|done].
  apply andb_true_iff in Hf as [Hr%outcome_eqb_eq HQ].
  rewrite <- (sim_start _ _ _ E) in Ef. apply sim_follow in Ef as (w1 & Ef & ->); [|by rewrite Hr]. destruct (follow_steps _ _ _ Ef) as [tr Htr].
  exists w1, tr. auto.
Qed.

End simulation.
End Procs.
