(* ===== verification/ProcSpec.v ===== *)
(** * What the process tests rely on

    The documented behaviour of fork(2), vfork(2), execve(2), wait4(2), waitid(2), kill(2), process
    groups, signal handlers, pipes, ptrace(2), POSIX semaphores and anonymous shared mappings, as far
    as the tests use it, as an executable kernel [Spec].  What a request that is not [specified] comes to
    is left open.  [ProcLaws] is the interface: a kernel whose answers to specified requests are those of
    [Spec] on what [view] shows of its state; what is proved of the tests on [Spec] then holds on it
    ([always_view], [may_view]).

    Where a manual page leaves a choice, it is a field of [config], or [Spec] makes it: memory is there
    for every mapping and block, the processes of the test are the only ones that a signal of theirs can
    reach, and [sleep] is over at once, which no test can tell from a longer sleep, since every
    interleaving is considered. *)
From S2P Require Import Prelude CMachine Procs.
Import Procs.
#[local] Open Scope Z_scope.

Module ProcSpec.

Definition page : Z := 4096.

(** ** Processes *)

(** What is delivered to a process when it acts next: a signal with its [si_code], or a trace stop
    with the code its status carries. *)
Inductive pend : Set := PendSignal (sig code : Z) | PendStop (code : Z).

(** A stop is reported once to whoever waits for it; a dead process stays until it is waited for;
    [Lent]: the caller of [vfork] until its child executes a program or leaves; [Asleep]: waiting in a
    call that a handler can interrupt. *)
Inductive life : Set := Running | Stopped (status : Z) (reported : bool) | Dead (status : Z) | Lent | Asleep.

(** What concerns the other processes of the session: the process group, the descriptors (the pipe
    and whether it is its write end), the handlers of signals with their flags, whether the process
    has executed a program, and who lent it its memory ([vfork]). *)
Record job := Job {
  pgid : Z;
  fds : gmap Z (Z * bool);
  actions : gmap Z (string * Z);
  execd : bool;
  lender : option Z
}.
Definition with_pgid (g : Z) (j : job) : job := Job g (fds j) (actions j) (execd j) (lender j).
Definition with_fds (f : gmap Z (Z * bool)) (j : job) : job := Job (pgid j) f (actions j) (execd j) (lender j).
Definition with_actions (a : gmap Z (string * Z)) (j : job) : job := Job (pgid j) (fds j) a (execd j) (lender j).
Definition with_lender (l : option Z) (j : job) : job := Job (pgid j) (fds j) (actions j) (execd j) l.

Record pcb := Pcb {
  parent : Z;
  tracer : option Z;
  state : life;
  pending : list pend;
  vars : gmap Z Z;
  maps : list Z;
  info : siginfo;
  options : Z;
  eventmsg : Z;
  swd : Z;
  jobs : job
}.

(** What does not change.  [may_trace]: tracing is permitted; [user_area]: the USER area of a tracee can
    be accessed at offset 0 (it can on x86, it cannot on arm64); [may_fork]: there is room for another
    process; [mckernel]: the kernel has the call get_cpu_id; [answer_first]: a call that can be answered
    when a signal with a handler arrives is answered, and not interrupted (Linux answers wait4(2) first;
    POSIX leaves it open); [groups]: the groups of the session that have members other than the processes
    of the test; [programs]: the programs that can be executed, with the status they leave with; [code]:
    what a signal handler does to the static variables. *)
Record config := Config {
  may_trace : bool;
  user_area : bool;
  may_fork : bool;
  mckernel : bool;
  answer_first : bool;
  groups : list Z;
  programs : string -> option Z;
  code : string -> gmap Z Z -> gmap Z Z
}.

(** Semaphores lie in shared memory. *)
Record kern := Kern {
  procs : gmap Z pcb;
  sems : gmap Z Z;
  next_pid : Z;
  next_addr : Z;
  pipes : gmap Z (list Z);
  conf : config
}.

Definition set_procs (f : gmap Z pcb -> gmap Z pcb) (s : kern) : kern :=
  Kern (f (procs s)) (sems s) (next_pid s) (next_addr s) (pipes s) (conf s).
Definition set_sem (a v : Z) (s : kern) : kern :=
  Kern (procs s) (<[a := v]> (sems s)) (next_pid s) (next_addr s) (pipes s) (conf s).
Definition set_pipe (p : Z) (data : list Z) (s : kern) : kern :=
  Kern (procs s) (sems s) (next_pid s) (next_addr s) (<[p := data]> (pipes s)) (conf s).
Definition upd (pid : Z) (f : pcb -> pcb) : kern -> kern := set_procs (alter f pid).

Definition with_state (l : life) (b : pcb) : pcb :=
  Pcb (parent b) (tracer b) l (pending b) (vars b) (maps b) (info b) (options b) (eventmsg b) (swd b) (jobs b).
Definition with_tracer (t : option Z) (b : pcb) : pcb :=
  Pcb (parent b) t (state b) (pending b) (vars b) (maps b) (info b) (options b) (eventmsg b) (swd b) (jobs b).
Definition with_parent (p : Z) (b : pcb) : pcb :=
  Pcb p (tracer b) (state b) (pending b) (vars b) (maps b) (info b) (options b) (eventmsg b) (swd b) (jobs b).
Definition with_pending (l : list pend) (b : pcb) : pcb :=
  Pcb (parent b) (tracer b) (state b) l (vars b) (maps b) (info b) (options b) (eventmsg b) (swd b) (jobs b).
Definition with_vars (v : gmap Z Z) (b : pcb) : pcb :=
  Pcb (parent b) (tracer b) (state b) (pending b) v (maps b) (info b) (options b) (eventmsg b) (swd b) (jobs b).
Definition with_maps (l : list Z) (b : pcb) : pcb :=
  Pcb (parent b) (tracer b) (state b) (pending b) (vars b) l (info b) (options b) (eventmsg b) (swd b) (jobs b).
Definition with_info (i : siginfo) (b : pcb) : pcb :=
  Pcb (parent b) (tracer b) (state b) (pending b) (vars b) (maps b) i (options b) (eventmsg b) (swd b) (jobs b).
Definition with_options (o : Z) (b : pcb) : pcb :=
  Pcb (parent b) (tracer b) (state b) (pending b) (vars b) (maps b) (info b) o (eventmsg b) (swd b) (jobs b).
Definition with_eventmsg (m : Z) (b : pcb) : pcb :=
  Pcb (parent b) (tracer b) (state b) (pending b) (vars b) (maps b) (info b) (options b) m (swd b) (jobs b).
Definition with_swd (x : Z) (b : pcb) : pcb :=
  Pcb (parent b) (tracer b) (state b) (pending b) (vars b) (maps b) (info b) (options b) (eventmsg b) x (jobs b).

Definition with_jobs (f : job -> job) (b : pcb) : pcb :=
  Pcb (parent b) (tracer b) (state b) (pending b) (vars b) (maps b) (info b) (options b) (eventmsg b) (swd b)
    (f (jobs b)).

Definition alive (b : pcb) : bool := match state b with Dead _ => false | _ => true end.
Definition send (p : pend) (b : pcb) : pcb := with_pending (pending b ++ [p]) b.
Definition traced_by (me : Z) (b : pcb) : bool := bool_decide (tracer b = Some me).

(** SIGKILL comes first, and wakes a stopped process. *)
Definition send_kill (b : pcb) : pcb :=
  with_state Running (with_pending (PendSignal SIGKILL 0 :: pending b) b).

(** ** Death *)

(** The children of a dead process go to init, its tracees are released. *)
Definition orphan (me : Z) (b : pcb) : pcb :=
  let b := if parent b =? me then with_parent 1 b else b in
  if traced_by me b then
    let b := with_tracer None b in
    match state b with Stopped _ _ => with_state Running b | _ => b end
  else b.

(** The memory goes back to the process that lent it, which goes on. *)
Definition give_back (b : pcb) : kern -> kern :=
  match lender (jobs b) with
  | Some p => upd p (fun l => with_state Running (with_vars (vars b) l))
  | None => id
  end.

(** The parent gets SIGCHLD; a signal that would do nothing is dropped at once. *)
Definition listens (sig : Z) (b : pcb) : bool :=
  bool_decide (is_Some (tracer b)) || bool_decide (is_Some (actions (jobs b) !! sig)).
Definition notify (b : pcb) : kern -> kern :=
  upd (parent b) (fun p => if alive p && listens SIGCHLD p then send (PendSignal SIGCHLD 0) p else p).

Definition die (me status : Z) (s : kern) : kern :=
  let s' := set_procs (fmap (orphan me)) s in
  match procs s !! me with
  | None => s'
  | Some b =>
      notify b (give_back b (upd me (fun b =>
        with_state (Dead status) (with_pending [] (with_jobs (fun j => with_lender None (with_fds ∅ j)) b))) s'))
  end.

(** ** Signals *)

Definition stop_status (code : Z) : Z := Z.shiftl code 8 .| 0x7f.

(** The default action: SIGCHLD, SIGCONT, SIGURG and SIGWINCH do nothing, SIGSTOP, SIGTSTP, SIGTTIN
    and SIGTTOU stop the process, all others kill it. *)
Definition ignored (sig : Z) : bool := bool_decide (sig ∈ [17; 18; 23; 28]).
Definition stopping (sig : Z) : bool := bool_decide (sig ∈ [19; 20; 21; 22]).

(** The handler runs to its end before the process goes on. *)
Definition handle (c : config) (sig : Z) (fn : string) (flags : Z) (b : pcb) : pcb :=
  with_vars (code c fn (vars b))
    (if flags .& SA_RESETHAND =? 0 then b
     else with_jobs (fun j => with_actions (delete sig (actions j)) j) b).

(** The first pending item is delivered; a tracee stops at every signal but SIGKILL. *)
Definition deliver {a : action} (me : Z) (b : pcb) (x : pend) (l : list pend) (s : kern) : response a * kern :=
  let b := with_pending l b in
  let put b := (Delayed, set_procs <[me := b]> s) in
  match x with
  | PendStop code =>
      put (with_info (Siginfo SIGTRAP 0 code 0) (with_state (Stopped (stop_status code) false) b))
  | PendSignal sig code =>
      if sig =? SIGKILL then (Killed sig, die me sig s)
      else if bool_decide (is_Some (tracer b)) then
        put (with_info (Siginfo sig 0 code 0) (with_state (Stopped (stop_status sig) false) b))
      else match actions (jobs b) !! sig with
      | Some (fn, flags) => put (handle (conf s) sig fn flags b)
      | None =>
      if ignored sig then put b
      else if stopping sig then put (with_state (Stopped (stop_status sig) true) b)
      else (Killed sig, die me sig s)
      end
  end.

(** ** wait4 *)

Definition WNOHANG : Z := 1.

(** Whom the caller may wait for, and what there is to report of it. *)
Definition mine (me pid : Z) (q : Z) (b : pcb) : bool :=
  ((parent b =? me) || traced_by me b) && ((pid =? -1) || (pid =? q)).
Definition report (me : Z) (b : pcb) : option Z :=
  match state b with
  | Dead st => if traced_by me b || ((parent b =? me) && bool_decide (tracer b = None)) then Some st else None
  | Stopped st false => if traced_by me b then Some st else None
  | _ => None
  end.

(** Who has been reported: a stop is marked; the dead are removed, or left to their parent. *)
Definition reported (me q : Z) (b : pcb) : kern -> kern :=
  match state b with
  | Stopped st _ => upd q (with_state (Stopped st true))
  | _ => if parent b =? me then set_procs (delete q) else upd q (with_tracer None)
  end.

(** Processes in the order of their numbers. *)
Definition below (x y : Z * pcb) : bool := x.1 <=? y.1.
Fixpoint insert_sorted (x : Z * pcb) (l : list (Z * pcb)) : list (Z * pcb) :=
  match l with
  | [] => [x]
  | y :: l' => if below x y then x :: l else y :: insert_sorted x l'
  end.
Definition in_order (m : gmap Z pcb) : list (Z * pcb) := foldr insert_sorted [] (map_to_list m).

Definition wait4_call (me pid options : Z) (s : kern) : option (Z * Z * kern) :=
  let l := List.filter (fun '(q, b) => mine me pid q b) (in_order (procs s)) in
  match l with
  | [] => Some (- ECHILD, 0, s)
  | _ =>
      match omap (fun '(q, b) => st ← report me b; Some (q, b, st)) l with
      | (q, b, st) :: _ => Some (q, st, reported me q b s)
      | [] => if options .& WNOHANG =? WNOHANG then Some (0, 0, s) else None
      end
  end.

(** ** waitid *)

Definition P_ALL : Z := 0.
Definition P_PID : Z := 1.
Definition P_PGID : Z := 2.
Definition WEXITED : Z := 4.

(** The children that are meant, and the first of them that is dead; the number of the process is
    stored in the [si_pid] of the siginfo. *)
Definition meant (me idtype id : Z) (b : pcb) (q : Z) : bool :=
  (parent b =? me) &&
  ((idtype =? P_ALL) || (idtype =? P_PID) && (q =? id) || (idtype =? P_PGID) && (pgid (jobs b) =? id)).
Definition waitid_call (me idtype id opts : Z) (s : kern) : option (Z * Z * kern) :=
  if negb (opts =? WEXITED) then Some (- EINVAL, 0, s) else
  match List.filter (fun '(q, b) => meant me idtype id b q) (in_order (procs s)) with
  | [] => Some (- ECHILD, 0, s)
  | l =>
      match List.filter (fun '(_, b) => negb (alive b)) l with
      | (q, b) :: _ => Some (0, q, set_procs (delete q) s)
      | [] => None
      end
  end.

(** ** Process groups *)

(** The group of the process [pid], 0 being the caller. *)
Definition getpgid_call (me pid : Z) (s : kern) : Z :=
  match procs s !! (if pid =? 0 then me else pid) with
  | Some b => pgid (jobs b)
  | None => - ESRCH
  end.

(** The caller may move itself, and its children until they execute a program, into a group of their
    own or into one that exists in the session. *)
Definition setpgid_call (me pid g : Z) (s : kern) : Z * kern :=
  let pid := if pid =? 0 then me else pid in
  let g := if g =? 0 then pid else g in
  if g <? 0 then (- EINVAL, s) else
  match procs s !! pid with
  | None => (- ESRCH, s)
  | Some b =>
      if negb ((pid =? me) || (parent b =? me)) then (- ESRCH, s)
      else if negb (pid =? me) && execd (jobs b) then (- EACCES, s)
      else if (g =? pid) || existsb (Z.eqb g) (groups (conf s))
              || existsb (fun '(_, b) => pgid (jobs b) =? g) (map_to_list (procs s))
      then (0, upd pid (with_jobs (with_pgid g)) s) else (- EPERM, s)
  end.

(** ** Pipes *)

(** A descriptor that is not in use. *)
Definition new_fd (j : job) : Z := foldr Z.max 2 (map_to_list (fds j)).*1 + 1.

(** A new pipe, its read end and its write end. *)
Definition pipe_call (me : Z) (b : pcb) (s : kern) : Z * Z * kern :=
  let p := next_addr s in
  let r := new_fd (jobs b) in
  (r, r + 1,
   Kern (<[me := with_jobs (fun j => with_fds (<[r := (p, false)]> (<[r + 1 := (p, true)]> (fds j))) j) b]> (procs s))
     (sems s) (next_pid s) (p + 1) (<[p := []]> (pipes s)) (conf s)).

(** Some process holds the write (read) end of the pipe. *)
Definition held (p : Z) (wr : bool) (s : kern) : bool :=
  existsb (fun '(_, b) => existsb (fun '(_, e) => bool_decide (e = (p, wr))) (map_to_list (fds (jobs b))))
    (map_to_list (procs s)).

(** A read waits for data while somebody can write; at the end of the data it yields nothing. *)
Definition read_call (b : pcb) (fd len : Z) (s : kern) : option (Z * list Z * kern) :=
  match fds (jobs b) !! fd with
  | Some (p, false) =>
      match default [] (pipes s !! p) with
      | [] => if held p true s then None else Some (0, [], s)
      | data => let got := take (Z.to_nat len) data in
                Some (Z.of_nat (length got), got, set_pipe p (drop (Z.to_nat len) data) s)
      end
  | _ => Some (- EBADF, [], s)
  end.
Definition write_call (me : Z) (b : pcb) (fd : Z) (data : list Z) (s : kern) : Z * kern :=
  match fds (jobs b) !! fd with
  | Some (p, true) =>
      if held p false s then (Z.of_nat (length data), set_pipe p (default [] (pipes s !! p) ++ data) s)
      else (- EPIPE, upd me (send (PendSignal SIGPIPE 0)) s)
  | _ => (- EBADF, s)
  end.
Definition close_call (me : Z) (b : pcb) (fd : Z) (s : kern) : Z * kern :=
  match fds (jobs b) !! fd with
  | Some _ => (0, upd me (with_jobs (fun j => with_fds (delete fd (fds j)) j)) s)
  | None => (- EBADF, s)
  end.

(** ** fork, execve, kill *)

(** Process numbers only grow. *)
Definition PTRACE_EVENT_FORK : Z := 1.
Definition O_TRACEFORK : Z := 0x2.

Definition fork_call (me : Z) (b : pcb) (s : kern) : Z * kern :=
  if negb (may_fork (conf s)) then (- EAGAIN, s) else
  let c := Z.max (next_pid s) (main_pid + 1) in
  let traced := bool_decide (is_Some (tracer b)) && negb (options b .& O_TRACEFORK =? 0) in
  let child := Pcb me (if traced then tracer b else None) Running
                 (if traced then [PendSignal SIGSTOP 0] else []) (vars b) (maps b)
                 (Siginfo 0 0 0 0) (if traced then options b else 0) 0 (swd b) (with_lender None (jobs b)) in
  let caller := if traced
                then with_eventmsg c (send (PendStop (SIGTRAP .| Z.shiftl PTRACE_EVENT_FORK 8)) b) else b in
  (c, Kern (<[c := child]> (<[me := caller]> (procs s))) (sems s) (c + 1) (next_addr s)
        (pipes s) (conf s)).

(** The caller of [vfork] waits, and its child has its memory. *)
Definition vfork_call (me : Z) (b : pcb) (s : kern) : Z * kern :=
  let '(c, s) := fork_call me b s in
  if c <? 0 then (c, s)
  else (c, upd c (with_jobs (with_lender (Some me))) (upd me (with_state Lent) s)).

(** A new program takes the place of the caller: it keeps the number, the group and the
    descriptors. *)
Definition execve_call (me : Z) (b : pcb) (path : string) (s : kern) : Z * kern :=
  match programs (conf s) path with
  | None => (- ENOENT, s)
  | Some st =>
      (st, give_back b (upd me (fun b =>
             with_vars ∅ (with_maps [] (with_jobs (fun j => Job (pgid j) (fds j) ∅ true None) b))) s))
  end.

(** A process is named, or the group of the caller (0), or all processes but the caller (-1), or a
    group by the negative of its number. *)
Definition target (me g pid q : Z) (b : pcb) : bool :=
  if 0 <? pid then q =? pid
  else if pid =? 0 then pgid (jobs b) =? g
  else if pid =? -1 then negb (q =? me)
  else pgid (jobs b) =? - pid.
Definition kill_call (me g pid sig : Z) (s : kern) : Z * kern :=
  if negb (existsb (fun '(q, b) => target me g pid q b) (map_to_list (procs s))) then (- ESRCH, s)
  else if negb (in_range 0 65 sig) then (- EINVAL, s)
  else if sig =? 0 then (0, s)
  else (0, set_procs (map_imap (fun q b => Some (
             if target me g pid q b && alive b
             then (if sig =? SIGKILL then send_kill else send (PendSignal sig 0)) b else b))) s).

(** ** ptrace *)

(** The options there are (PTRACE_O_MASK). *)
Definition O_MASK : Z := 0x3000ff.

Definition resume_call (pid : Z) (p : option pend) (s : kern) : Z * kern :=
  (0, upd pid (fun b => with_state Running (match p with Some p => send p b | None => b end)) s).

(** Requests to a tracee that is stopped. *)
Definition ptrace_stopped (req : ptrace_req) (pid : Z) (b : pcb) (s : kern) : Z * ptrace_out req * kern :=
  match req with
  | PTRACE_PEEK USER _ => if user_area (conf s) then (0, 0, s) else (- EIO, 0, s)
  | PTRACE_PEEK _ a => match vars b !! a with Some v => (0, v, s) | None => (- EIO, 0, s) end
  | PTRACE_POKE USER _ _ => if user_area (conf s) then (0, tt, s) else (- EIO, tt, s)
  | PTRACE_POKE _ a v =>
      match vars b !! a with
      | Some _ => (0, tt, upd pid (fun b => with_vars (<[a := v]> (vars b)) b) s)
      | None => (- EIO, tt, s)
      end
  | PTRACE_CONT => let '(r, s) := resume_call pid None s in (r, tt, s)
  | PTRACE_SINGLESTEP | PTRACE_SYSCALL =>
      let '(r, s) := resume_call pid (Some (PendStop SIGTRAP)) s in (r, tt, s)
  | PTRACE_KILL => (0, tt, upd pid send_kill s)
  | PTRACE_GETFPREGS => (0, swd b, s)
  | PTRACE_DETACH => (0, tt, upd pid (fun b => with_state Running (with_tracer None (with_options 0 b))) s)
  | PTRACE_SETOPTIONS o =>
      if o .& O_MASK =? o then (0, tt, upd pid (with_options o) s) else (- EINVAL, tt, s)
  | PTRACE_GETEVENTMSG => (0, eventmsg b, s)
  | PTRACE_GETSIGINFO => (0, info b, s)
  | PTRACE_SETSIGINFO i => (0, tt, upd pid (with_info i) s)
  | PTRACE_TRACEME | PTRACE_ATTACH => (- EIO, tt, s)
  end.

Definition ptrace_call (me : Z) (b : pcb) (req : ptrace_req) (pid : Z) (s : kern) : Z * ptrace_out req * kern :=
  match req with
  | PTRACE_TRACEME =>
      if may_trace (conf s) && bool_decide (tracer b = None)
      then (0, no_out req, upd me (with_tracer (Some (parent b))) s) else (- EPERM, no_out req, s)
  | PTRACE_ATTACH =>
      match procs s !! pid with
      | None => (- ESRCH, no_out req, s)
      | Some t =>
          if may_trace (conf s) && alive t && bool_decide (tracer t = None) && negb (pid =? me)
          then (0, no_out req, upd pid (fun t => send (PendSignal SIGSTOP 0) (with_tracer (Some me) t)) s)
          else (- EPERM, no_out req, s)
      end
  | _ =>
      match procs s !! pid with
      | Some t =>
          if traced_by me t then
            match state t, req with
            | Stopped _ _, _ => ptrace_stopped req pid t s
            | _, PTRACE_KILL => (0, no_out req, s)
            | _, _ => (- ESRCH, no_out req, s)
            end
          else (- ESRCH, no_out req, s)
      | None => (- ESRCH, no_out req, s)
      end
  end.

(** ** Requests of a running process *)

Definition mapped (a : Z) (b : pcb) : bool := existsb (Z.eqb a) (maps b).
Definition sem_value (a : Z) (s : kern) : Z := default 0 (sems s !! a).
Definition bad_access {A} : access A := Fault SIGSEGV SIG_DFL.

Definition request (me : Z) (b : pcb) (c : cmd) (s : kern) : option (reply c * kern) :=
  match c with
  | SYS_mmap addr _ _ flags _ _ =>
      if (addr =? 0) && (flags =? MAP_SHARED .| MAP_ANONYMOUS) then
        let a := next_addr s in
        Some (a, Kern (<[me := with_maps (a :: maps b) b]> (procs s)) (sems s) (next_pid s) (a + page)
                   (pipes s) (conf s))
      else Some (- EINVAL, s)
  | SYS_munmap a _ =>
      if a mod page =? 0 then Some (0, upd me (with_maps (List.filter (fun x => negb (x =? a)) (maps b))) s)
      else Some (- EINVAL, s)
  | SYS_fork => Some (fork_call me b s)
  | SYS_vfork => Some (vfork_call me b s)
  | SYS_execve path _ => Some (execve_call me b path s)
  | SYS_rt_sigaction sig fn flags =>
      if negb (in_range 1 64 sig) || (sig =? SIGKILL) || (sig =? SIGSTOP) then Some (- EINVAL, s) else
      Some (0, upd me (with_jobs (fun j => with_actions (<[sig := (fn, flags)]> (actions j)) j)) s)
  | SYS_pipe => let '(r, w, s) := pipe_call me b s in Some ((0, (r, w)), s)
  | SYS_read fd len => read_call b fd len s
  | SYS_write fd data => Some (write_call me b fd data s)
  | SYS_close fd => Some (close_call me b fd s)
  | SYS_wait4 pid opts => wait4_call me pid opts s
  | SYS_waitid idtype id opts => waitid_call me idtype id opts s
  | SYS_get_cpu_id => Some (if mckernel (conf s) then 0 else - ENOSYS, s)
  | LIBC_malloc _ =>
      let a := next_addr s in
      Some (Some (a, 0), Kern (procs s) (sems s) (next_pid s) (a + page) (pipes s) (conf s))
  | SYS_getppid => Some (parent b, s)
  | SYS_gettid => Some (me, s)
  | SYS_getpgid pid => Some (getpgid_call me pid s, s)
  | SYS_setpgid pid g => Some (setpgid_call me pid g s)
  | SYS_kill pid sig => Some (kill_call me (pgid (jobs b)) pid sig s)
  | SYS_ptrace req pid => Some (ptrace_call me b req pid s)
  | SYS_getpid => Some (me, s)
  | LIBC_raise sig => Some (0, upd me (send (PendSignal sig (-6))) s)
  | LIBC_sleep _ => Some (0, s)
  | LIBC_sem_init a _ v => Some (if mapped a b then (Ok 0, set_sem a v s) else (bad_access, s))
  | LIBC_sem_wait a =>
      if mapped a b then if 0 <? sem_value a s then Some (Ok 0, set_sem a (sem_value a s - 1) s) else None
      else Some (bad_access, s)
  | LIBC_sem_post a =>
      Some (if mapped a b then (Ok 0, set_sem a (sem_value a s + 1) s) else (bad_access, s))
  | LIBC_feraiseexcept x => Some (0, upd me (with_swd (swd b .| x)) s)
  | LIBC_feclearexcept x => Some (0, upd me (with_swd (Z.ldiff (swd b) x)) s)
  | VAR_load a => Some (default 0 (vars b !! a), s)
  | VAR_store a v => Some (tt, upd me (with_vars (<[a := v]> (vars b))) s)
  | c => Some (no_reply c, s)
  end.

(** ** Requests that are specified

    The others: mappings other than new shared ones, descriptors that are not pipes, semaphores in
    memory that is not shared, and all calls that no test of the processes makes. *)
Definition sem_place (b : pcb) (a : Z) : bool := mapped a b || (a =? NULL) || (a =? MAP_FAILED).
Definition specified (b : pcb) (c : cmd) : bool :=
  match c with
  | SYS_mmap addr _ _ flags _ _ => (addr =? 0) && (flags =? MAP_SHARED .| MAP_ANONYMOUS)
  | SYS_read fd _ | SYS_write fd _ | SYS_close fd => 2 <? fd
  | SYS_wait4 _ opts => (opts =? 0) || (opts =? WNOHANG)
  | SYS_waitid _ _ opts => opts =? WEXITED
  | LIBC_sem_init a _ _ | LIBC_sem_wait a | LIBC_sem_post a => sem_place b a
  | SYS_munmap _ _ | SYS_fork | SYS_vfork | SYS_execve _ _ | SYS_rt_sigaction _ _ _ | SYS_pipe
  | SYS_get_cpu_id | SYS_getppid | SYS_gettid | SYS_getpgid _ | SYS_setpgid _ _ | SYS_kill _ _
  | SYS_ptrace _ _ | SYS_getpid | LIBC_malloc _ | LIBC_free _ | LIBC_release _ | LIBC_raise _
  | LIBC_sleep _ | LIBC_feraiseexcept _ | LIBC_feclearexcept _ | VAR_load _ | VAR_store _ _ => true
  | _ => false
  end.

(** ** Calls that are interrupted

    A process that waits in a call when a handler runs gets EINTR, unless the handler was installed with
    SA_RESTART (signal(7)); a signal that arrives before the call, or that stops the process or does
    nothing, does not interrupt it. *)
Definition interrupted (c : cmd) : option (reply c) :=
  match c return option (reply c) with
  | SYS_wait4 _ _ | SYS_waitid _ _ _ => Some (- EINTR, 0)
  | SYS_read _ _ => Some (- EINTR, [])
  | LIBC_sem_wait _ => Some (Ok (- EINTR))
  | _ => None
  end.
Definition interrupts (b : pcb) (x : pend) : bool :=
  match x with
  | PendSignal sig _ =>
      match tracer b, actions (jobs b) !! sig with
      | None, Some (_, flags) => negb (sig =? SIGKILL) && (flags .& SA_RESTART =? 0)
      | _, _ => false
      end
  | PendStop _ => false
  end.

(** A process that has no such handler need not fall asleep: nothing can interrupt it. *)
Definition interruptible (b : pcb) (c : cmd) : bool :=
  bool_decide (is_Some (interrupted c)) &&
  existsb (fun '(_, (_, flags)) => flags .& SA_RESTART =? 0) (map_to_list (actions (jobs b))).

(** The request of a process that is up. *)
Definition answer (me : Z) (b : pcb) (c : cmd) (s : kern) : option (response (Request c) * kern) :=
  if negb (specified b c) then Some (Unspecified, s) else
  match request me b c s with
  | Some (r, s) => Some (@Replied (Request c) r, s)
  | None => if interruptible b c then Some (Delayed, upd me (with_state Asleep) s) else None
  end.

(** A process that is asleep is woken by its answer or by a signal; [again]: its answer, if there is one
    now; [hit]: what the first signal does. *)
Definition wake {S} (first : bool) (b : pcb) (c : cmd) (again : option (reply c * S))
    (hit : pend -> list pend -> response (Request c) * S) : option (response (Request c) * S) :=
  match pending b with
  | [] => '(r, s) ← again; Some (@Replied (Request c) r, s)
  | x :: l =>
      match interrupted c, interrupts b x with
      | Some r, true =>
          match (if first then again else None), hit x l with
          | Some (r, s), _ => Some (@Replied (Request c) r, s)
          | None, (Delayed, s) => Some (@Replied (Request c) r, s)
          | None, ended => Some ended
          end
      | _, _ => Some (hit x l)
      end
  end.

Definition sched (me : Z) (a : action) (s : kern) : option (response a * kern) :=
  b ← procs s !! me;
  match state b, pending b, a with
  | Running, x :: l, _ => Some (deliver me b x l s)
  | Running, [], Request c => answer me b c s
  | Running, [], Leave status => Some (@Replied (Leave status) tt, die me status s)
  | Asleep, _, Request c =>
      let b := with_state Running b in
      let s := upd me (with_state Running) s in
      wake (answer_first (conf s)) b c (request me b c s) (fun x l => deliver me b x l s)
  | _, _, _ => None
  end.

Definition Spec : ProcKernel := {| pstate := kern; psched := sched |}.

(** One process of the group [g], with the variables at [image], about to run a test. *)
Definition boot_in (g : Z) (image : list Z) (c : config) : kern :=
  Kern {[ main_pid := Pcb 1 None Running [] (list_to_map ((., 0) <$> image)) [] (Siginfo 0 0 0 0) 0 0 0
                        (Job g ∅ ∅ false None) ]}
    ∅ (main_pid + 1) 0x7f0000000000 ∅ c.
Definition boot (image : list Z) (trace user : bool) : kern :=
  boot_in main_pid image (Config trace user true true true [] (fun _ => None) (fun _ => id)).

(** ** The interface *)

Class ProcLaws `(K : ProcKernel) := {
  view : pstate -> kern;
  view_sched : forall pid a s,
    (exists k, sched pid a (view s) = Some (Unspecified, k)) \/
    prod_map id view <$> psched pid a s = sched pid a (view s)
}.

Lemma spec_view pid a s :
  (exists k, sched pid a (id s) = Some (Unspecified, k)) \/
  prod_map id id <$> @psched Spec pid a s = sched pid a (id s).
Proof. right. simpl. by destruct (sched pid a s) as [[? ?]|]. Qed.
Definition SpecLaws : ProcLaws Spec := {| view := id : @pstate Spec -> kern; view_sched := spec_view |}.

Section laws.
Context `{ProcLaws}.

(** New processes do not get the number of the test process. *)
Lemma fork_call_fresh pid b k : (fork_call pid b k).1 <> main_pid.
Proof. unfold fork_call, main_pid, EAGAIN. destruct (may_fork _); simpl; lia. Qed.

Lemma vfork_call_fresh pid b k : (vfork_call pid b k).1 <> main_pid.
Proof.
  unfold vfork_call. pose proof (fork_call_fresh pid b k) as Hf.
  destruct (fork_call pid b k) as [c k']. by destruct (c <? 0).
Qed.

(** A reply of a call that is not interrupted is that of the request. *)
Lemma deliver_no_reply (a : action) me b x l s r s' : @deliver a me b x l s <> (Replied r, s').
Proof. unfold deliver. destruct x; [|done]. by repeat case_match. Qed.

Lemma sched_replied me c s (r : areply (Request c)) s' :
  interrupted c = None -> sched me (Request c) s = Some (Replied r, s') ->
  exists b k, request me b c k = Some (r, s').
Proof.
  intros Hc. unfold sched. destruct (procs s !! me) as [b|]; [|done]. simpl.
  destruct (state b); [..|]; try (by destruct (pending b)).
  - destruct (pending b) as [|x l]; [|by intros [= E%deliver_no_reply]].
    unfold answer. destruct (specified b c); [|done]. simpl.
    destruct (request me b c s) as [[r' k]|] eqn:E; [|by destruct (interruptible b c)]. intros [= -> ->]. eauto.
  - assert (forall first b again k, wake first b c again (fun x l => deliver me b x l k) = Some (Replied r, s') ->
      again = Some (r, s')) as Hw.
    { clear b. intros first b again k0. unfold wake. destruct (pending _) as [|x l].
      - destruct again as [[r' k]|]; [|done]. by intros [= -> ->].
      - rewrite Hc. by intros [= E%deliver_no_reply]. }
    intros E%Hw. eauto.
Qed.

Lemma spec_fresh : fresh_forks (K := Spec).
Proof.
  intros pid s. split_and!; intros r s' (b & k & E)%sched_replied; try done; simpl in E.
  - pose proof (fork_call_fresh pid b k). by destruct (fork_call pid b k); simplify_eq.
  - pose proof (vfork_call_fresh pid b k). by destruct (vfork_call pid b k); simplify_eq.
  - by simplify_eq.
Qed.

Definition view_world : @world K -> @world Spec := sim_world (K' := Spec) view.

Lemma view_follow l w w' :
  follow l (view_world w) = Some w' -> result w' <> unspecified ->
  exists w1, follow l w = Some w1 /\ w' = view_world w1.
Proof. apply (sim_follow (K' := Spec) view view_sched). Qed.
Lemma view_start (p : prog verdict) s k : view s = k -> view_world (start p s) = @start Spec p k.
Proof. apply (sim_start (K' := Spec) view). Qed.
Lemma always_view P w : ~ P unspecified -> always P (view_world w) -> always P w.
Proof. apply (sim_always (K' := Spec) view view_sched). Qed.
Lemma may_view P w : ~ P unspecified -> may P (view_world w) -> may P w.
Proof. apply (sim_may (K' := Spec) view view_sched). Qed.
Lemma results_view w l : unspecified ∉ l -> results (view_world w) l -> results w l.
Proof. apply (sim_results (K' := Spec) view view_sched). Qed.

(** A computed table on the specification. *)
Lemma results_b_view n p s k l :
  view s = k -> results_b n (@start Spec p k) l = true -> results (start p s) l.
Proof.
  intros E Hb. apply results_view; [exact (results_b_specified (K := Spec) _ _ _ Hb)|]. rewrite (view_start _ _ _ E).
  exact (results_b_sound (K := Spec) _ _ _ Hb).
Qed.

End laws.
End ProcSpec.
