(* ===== verification/Ptrace.v ===== *)
(** * The ptrace suite

    src/src/test_mck/src/ptrace/: a test forks; the child asks to be traced (or is attached) and
    meets the parent at two semaphores; the parent stops it, makes the requests under test, lets it
    go on and waits for its end.  The functions keep their names with the number of the test case;
    the parts that every file repeats are written once ([run_func], [parent_stop], [cont]).  A
    [goto out] or [goto cont] is the result, or the call of [cont], at that place. *)
From S2P Require Import Prelude CMachine Libc FileMap.
Import Libc FileMap.
#[local] Open Scope Z_scope.

Module Ptrace.

(** The addresses of the static variables, the text of the error numbers, and what 013 finds in the
    [si_addr] that it does not initialise. *)
Record image := Image {
  at_buf : Z; at_addr : Z; at_regno : Z; at_eventpid : Z;
  strerror : Z -> string;
  junk : Z
}.

Definition sizeof_sem_t : Z := 32.
Definition FE_ALL_EXCEPT : Z := 0x3d.
Definition TRAP_BRKPT : Z := 1.
Definition TRAP_HWBKPT : Z := 4.
Definition NR_getpid : Z := 39.

(** A condition of C. *)
Definition nz (x : Z) : bool := negb (x =? 0).

(** ** arch/x86/arch_test_ptrace.c *)

Definition MODE_GET_INST_ADDR : Z := 1.
Definition MODE_DO_INST : Z := 2.
Definition MODE_DO_STORE_INST : Z := 3.
Definition NOP_INST : Z := 0.
Definition BRK_INST : Z := 0.

(** The instructions of mode DO_INST are four nops. *)
Definition get_or_do_inst (mode : Z) : Z :=
  if mode =? MODE_GET_INST_ADDR then u64 (-1) else if mode =? MODE_DO_INST then 0 else u64 (-1).
Definition get_or_do_store_inst (mode buf change : Z) : Z := u64 (-1).
Definition pre_getregset : prog unit := Ret tt.
Definition setregset_check (cpid gregno fregno : Z) : Z := -1.
Definition setregset_child_check (gregno fregno : Z) : Z := -1.
Definition set_hw_watchpt (cpid addr : Z) : Z := -1.
Definition clear_hw_watchpt (cpid : Z) : Z := -1.
Definition check_trap_addr (cpid addr : Z) : Z := -1.
Definition set_hw_breakpt (cpid addr : Z) : Z := -1.
Definition clear_hw_breakpt (cpid : Z) : Z := -1.
Definition get_check_syscallno (cpid expno : Z) : Z := -1.

Section suite.
Context (im : image).

Definition perror (s : string) : prog unit := FileMap.perror (strerror im) s.
Definition say (s : string) : prog unit := printf (s +:+ nl).

(** ** The frame of all tests *)

(** The child: its function, the unmapping, its exit. *)
Definition child_main (pwait cwait : Z) (child_func : Z -> Z -> prog Z) : prog verdict :=
  func_ret ← child_func cwait pwait;
  r1 ← munmap cwait sizeof_sem_t;
  r2 ← munmap pwait sizeof_sem_t;
  if nz (r1 .| r2) then perror "[child] munmap()";; exit (-1) else exit func_ret.

(** The parent; [final] is its check of the status of the child. *)
Definition parent_main (pwait cwait pid : Z) (parent_func : Z -> Z -> Z -> prog Z)
    (final : Z -> prog verdict -> prog verdict) : prog verdict :=
  func_ret ← parent_func pwait cwait pid;
  r1 ← munmap cwait sizeof_sem_t;
  r2 ← munmap pwait sizeof_sem_t;
  if nz (r1 .| r2) then perror "[parent] munmap()";; Ret (Some "munmap() failed.") else
  '(pid, status) ← wait;
  if pid =? -1 then perror "wait()";; Ret (Some "wait() failed.") else
  final status (if nz func_ret then Ret (Some "TP failed.") else Ret None).

Definition run_with (final : Z -> prog verdict -> prog verdict)
    (child_func : Z -> Z -> prog Z) (parent_func : Z -> Z -> Z -> prog Z) : prog verdict :=
  pwait ← mmap NULL sizeof_sem_t (PROT_READ .| PROT_WRITE) (MAP_SHARED .| MAP_ANONYMOUS) (-1) 0;
  cwait ← mmap NULL sizeof_sem_t (PROT_READ .| PROT_WRITE) (MAP_SHARED .| MAP_ANONYMOUS) (-1) 0;
  if (pwait =? NULL) || (cwait =? NULL) then perror "mmap()";; Ret (Some "mmap() failed.") else
  r1 ← sem_init pwait 1 0;
  r2 ← sem_init cwait 1 0;
  if nz (r1 .| r2) then perror "sem_init()";; Ret (Some "sem_init() failed.") else
  pid ← fork;
  if pid =? -1 then perror "fork()";; Ret (Some "fork() failed.")
  else if pid =? 0 then child_main pwait cwait child_func
  else parent_main pwait cwait pid parent_func final.

Definition exit_check (status : Z) (k : prog verdict) : prog verdict :=
  if nz (WEXITSTATUS status) then Ret (Some "TP failed.") else k.
Definition run_func := run_with exit_check.

(** ** The child's side *)

(** PTRACE_TRACEME comes first in most children; the rest of the function is [k]. *)
Definition child_traceme (k : prog Z) : prog Z :=
  '(r, _) ← ptrace PTRACE_TRACEME 0;
  if nz r then perror "ptrace(PTRACE_TRACEME)";; Ret (-1) else k.

Definition child_meet (swait swake : Z) (k : prog Z) : prog Z :=
  sem_post swake;; sem_wait swait;; k.

(** ** The parent's side *)

(** [wait(&status)] until the child has stopped. *)
Definition wait_stopped (cpid : Z) (k : prog Z) : prog Z :=
  '(pid, status) ← wait;
  if pid =? cpid then if WIFSTOPPED status then k else say "child is not stopped.";; Ret (-1)
  else perror "wait()";; Ret (-1).

Definition parent_stop (swait swake cpid : Z) (k : prog Z) : prog Z :=
  sem_wait swait;;
  r ← kill cpid SIGSTOP;
  if nz r then perror "kill()";; Ret (-1) else
  sem_post swake;; wait_stopped cpid k.

(** The label [cont], reached with [ret]. *)
Definition cont (cpid ret : Z) : prog Z :=
  '(r, _) ← ptrace PTRACE_CONT cpid;
  if nz r then perror "ptrace(PTRACE_CONT)";; Ret (-1) else Ret ret.

(** A PTRACE_CONT on the way; a failure goes to [out]. *)
Definition go_on (cpid : Z) (k : prog Z) : prog Z :=
  '(r, _) ← ptrace PTRACE_CONT cpid;
  if nz r then perror "ptrace(PTRACE_CONT)";; Ret (-1) else k.

(** A request whose failure goes to [cont], with the message of [perror]. *)
Definition ptrace_ok (req : ptrace_req) (cpid : Z) (msg : string) (k : ptrace_out req -> prog Z) : prog Z :=
  '(r, out) ← ptrace req cpid;
  if nz r then perror msg;; cont cpid (-1) else k out.

(** A PEEK whose failure, -1 with [errno] set, goes to [cont]. *)
Definition peek (area : ptrace_area) (cpid addr : Z) (msg : string) (k : Z -> prog Z) : prog Z :=
  read_val ← ptrace_peek area cpid addr;
  e ← get_errno;
  if (read_val =? -1) && nz e then perror msg;; cont cpid (-1) else k read_val.

(** [if (b) printf(yes); else { printf(no); goto cont; }] *)
Definition check (b : bool) (cpid : Z) (yes no : string) (k : prog Z) : prog Z :=
  if b then say yes;; k else say no;; cont cpid (-1).

(** A wait for a stop by SIGTRAP; [ind] indents the messages. *)
Definition wait_trap (ind : string) (cpid : Z) (k : prog Z) : prog Z :=
  '(pid, status) ← wait;
  if pid =? cpid then
    if WIFSTOPPED status then
      if WSTOPSIG status =? SIGTRAP then k
      else say (ind +:+ "child is stopped by not SIGTRAP (" +:+ pretty (WSTOPSIG status) +:+ ").");; cont cpid (-1)
    else say (ind +:+ "child is not stopped.");; Ret (-1)
  else perror (ind +:+ "wait()");; Ret (-1).

(** The checks of [si_signo], [si_errno] and [si_code] after such a stop. *)
Definition trap_info (ind : string) (cpid code : Z) (name : string) (k : siginfo -> prog Z) : prog Z :=
  say (ind +:+ "child is stopped by SIGTRAP.");;
  ptrace_ok PTRACE_GETSIGINFO cpid (ind +:+ "ptrace(PTRACE_GETSIGINFO)") (fun info =>
  check (si_signo info =? SIGTRAP) cpid (ind +:+ "child si_signo == SIGTRAP")
    (ind +:+ "child si_signo(" +:+ pretty (si_signo info) +:+ ") != SIGTRAP(" +:+ pretty SIGTRAP +:+ ")") (
  check (si_errno info =? 0) cpid (ind +:+ "child si_errno == 0")
    (ind +:+ "child si_errno(" +:+ pretty (si_errno info) +:+ ") != 0") (
  check (si_code info =? code) cpid (ind +:+ "child si_code == " +:+ name)
    (ind +:+ "child si_code(" +:+ pretty (si_code info) +:+ ") != " +:+ name +:+ "(" +:+ pretty code +:+ ")") (
  k info)))).

(** ** 000: PTRACE_KILL of a process that is not traced *)

Definition test_000 : prog verdict :=
  child_pid ← fork;
  if child_pid =? -1 then Ret (Some "fork failed.")
  else if child_pid =? 0 then trigger (LIBC_sleep 1000000);; exit 0
  else
    '(result, _) ← ptrace PTRACE_KILL child_pid;
    e ← get_errno;
    say ("ptrace()=" +:+ pretty result +:+ ", errno=" +:+ pretty e);;
    Ret None.

(** ** 001: PTRACE_TRACEME and PTRACE_CONT *)

Definition child_func_001 (swait swake : Z) : prog Z :=
  child_traceme (child_meet swait swake (Ret 0)).
Definition parent_func_001 (swait swake cpid : Z) : prog Z :=
  parent_stop swait swake cpid (
  say "child is stopped.";;
  go_on cpid (Ret 0)).
Definition test_001 : prog verdict := run_func child_func_001 parent_func_001.

(** ** 002: PTRACE_PEEKDATA *)

Definition CHILD_MAGIC : Z := 0x1234567890abcdef.
Definition PARENT_MAGIC : Z := 0xffaaffaaffaaffaa.

Definition child_func_002 (swait swake : Z) : prog Z :=
  child_traceme (
  var_store (at_buf im) CHILD_MAGIC;;
  child_meet swait swake (
  buf ← var_load (at_buf im);
  if negb (buf =? CHILD_MAGIC)
  then say ("why child process buf rewrite ??? (0x" +:+ hex buf +:+ ")");; Ret (-1) else
  Ret 0)).
Definition parent_func_002 (swait swake cpid : Z) : prog Z :=
  var_store (at_buf im) PARENT_MAGIC;;
  parent_stop swait swake cpid (
  peek DATA cpid (at_buf im) "ptrace(PTRACE_PEEKDATA)" (fun read_val =>
  buf ← var_load (at_buf im);
  if negb (buf =? PARENT_MAGIC)
  then say ("why parent process buf rewrite ??? (0x" +:+ hex buf +:+ ")");; cont cpid (-1) else
  check (read_val =? CHILD_MAGIC) cpid
    ("PTRACE_PEEKDATA read_val(0x" +:+ hex (u64 read_val) +:+ ") == 0x" +:+ hex CHILD_MAGIC)
    ("PTRACE_PEEKDATA read_val(0x" +:+ hex (u64 read_val) +:+ ") != 0x" +:+ hex CHILD_MAGIC) (
  cont cpid 0))).
Definition test_002 : prog verdict := run_func child_func_002 parent_func_002.

(** ** 003: PTRACE_PEEKTEXT *)

Definition child_func_003 (swait swake : Z) : prog Z :=
  child_traceme (
  var_store (at_addr im) (get_or_do_inst MODE_GET_INST_ADDR);;
  child_meet swait swake (Ret 0)).
Definition parent_func_003 (swait swake cpid : Z) : prog Z :=
  parent_stop swait swake cpid (
  peek DATA cpid (at_addr im) "ptrace(PTRACE_PEEKDATA)" (fun read_val =>
  peek TEXT cpid (u64 read_val) "ptrace(PTRACE_PEEKTEXT)" (fun read_val =>
  let inst_code := u32 (Z.shiftr read_val 32) in
  check (inst_code =? NOP_INST) cpid
    ("PTRACE_PEEKTEXT inst_code(0x" +:+ hex inst_code +:+ ") == 0x" +:+ hex NOP_INST)
    ("PTRACE_PEEKTEXT inst_code(0x" +:+ hex inst_code +:+ ") != 0x" +:+ hex NOP_INST) (
  cont cpid 0)))).
Definition test_003 : prog verdict := run_func child_func_003 parent_func_003.

(** ** 004: PTRACE_PEEKUSER, which is expected to fail with EIO *)

Definition child_func_004 (swait swake : Z) : prog Z :=
  child_traceme (child_meet swait swake (Ret 0)).

(** The check of the result and of [errno], common to 004 and 007. *)
Definition expect_eio (cpid read_val : Z) (name : string) : prog Z :=
  e ← get_errno;
  if negb (read_val =? -1) && (e =? 0) then say (name +:+ " why successed ???");; cont cpid (-1) else
  if e =? EIO then say (name +:+ " expected errno EIO(" +:+ pretty EIO +:+ ") catch");; cont cpid 0
  else
    say (name +:+ " unexpected errno(" +:+ pretty e +:+ ")");;
    say ("expected errno = EIO(" +:+ pretty EIO +:+ ")");;
    cont cpid (-1).
Definition parent_func_004 (swait swake cpid : Z) : prog Z :=
  parent_stop swait swake cpid (
  read_val ← ptrace_peek USER cpid 0;
  expect_eio cpid read_val "ptrace(PTRACE_PEEKUSER)").
Definition test_004 : prog verdict := run_func child_func_004 parent_func_004.

(** ** 005: PTRACE_POKEDATA *)

Definition child_func_005 (swait swake : Z) : prog Z :=
  child_traceme (
  var_store (at_buf im) CHILD_MAGIC;;
  buf ← var_load (at_buf im);
  say ("before PTRACE_POKEDATA buf(0x" +:+ hex buf +:+ ")");;
  child_meet swait swake (
  buf ← var_load (at_buf im);
  if buf =? PARENT_MAGIC
  then say ("after PTRACE_POKEDATA buf(0x" +:+ hex buf +:+ ") == 0x" +:+ hex PARENT_MAGIC);; Ret 0
  else say ("after PTRACE_POKEDATA buf(0x" +:+ hex buf +:+ ") != 0x" +:+ hex PARENT_MAGIC);; Ret (-1))).
Definition parent_func_005 (swait swake cpid : Z) : prog Z :=
  var_store (at_buf im) CHILD_MAGIC;;
  parent_stop swait swake cpid (
  ptrace_ok (PTRACE_POKE DATA (at_buf im) PARENT_MAGIC) cpid "ptrace(PTRACE_POKEDATA)" (fun _ =>
  buf ← var_load (at_buf im);
  if negb (buf =? CHILD_MAGIC)
  then say ("why parent process buf rewrite ??? (0x" +:+ hex buf +:+ ")");; cont cpid (-1) else
  cont cpid 0)).
Definition test_005 : prog verdict := run_func child_func_005 parent_func_005.

(** ** 006: PTRACE_POKETEXT of a breakpoint *)

(** The children of 006, 012 and 017 run the instruction that the parent changes. *)
Definition child_do_inst (swait swake : Z) : prog Z :=
  child_traceme (
  let addr := get_or_do_inst MODE_GET_INST_ADDR in
  var_store (at_addr im) addr;;
  if addr =? u64 (-1)
  then say "get_or_do_rewrite_inst(MODE_GET_INST_ADDR) failed.";; sem_post swake;; Ret (-1) else
  child_meet swait swake (
  if nz (get_or_do_inst MODE_DO_INST)
  then say "get_or_do_rewrite_inst(MODE_DO_INST) failed.";; Ret (-1) else
  Ret 0)).

(** 006 and 017: the instruction is read, a breakpoint written over it, and the child continued.
    The second test is of [read_val], as in the code. *)
Definition write_brk (cpid : Z) (k : Z -> Z -> prog Z) : prog Z :=
  peek DATA cpid (at_addr im) "ptrace(PTRACE_PEEKDATA)" (fun read_val =>
  inst_val ← ptrace_peek TEXT cpid (u64 read_val);
  e ← get_errno;
  if (read_val =? -1) && nz e then perror "ptrace(PTRACE_PEEKTEXT)";; cont cpid (-1) else
  let write_val := (u64 inst_val .& 0xffffffff00000000) .| BRK_INST in
  ptrace_ok (PTRACE_POKE TEXT (u64 read_val) write_val) cpid "ptrace(PTRACE_POKETEXT)" (fun _ =>
  go_on cpid (k read_val inst_val))).

Definition child_func_006 := child_do_inst.
Definition parent_func_006 (swait swake cpid : Z) : prog Z :=
  parent_stop swait swake cpid (
  write_brk cpid (fun read_val inst_val =>
  wait_trap "" cpid (
  trap_info "" cpid TRAP_BRKPT "TRAP_BRKPT" (fun info =>
  if si_addr info =? u64 read_val then
    say "child is stopped change TEXT addr.";;
    ptrace_ok (PTRACE_POKE TEXT (u64 read_val) (u64 inst_val)) cpid "ptrace(PTRACE_POKETEXT)" (fun _ =>
    cont cpid 0)
  else
    say "child is stopped not change TEXT addr.";;
    say ("expection:0x" +:+ hex (u64 read_val) +:+ ", info.si_addr:0x" +:+ hex (si_addr info));;
    cont cpid (-1))))).
Definition test_006 : prog verdict := run_func child_func_006 parent_func_006.

(** ** 007: PTRACE_POKEUSER, which is expected to fail with EIO *)

Definition child_func_007 (swait swake : Z) : prog Z :=
  child_traceme (child_meet swait swake (Ret 0)).
Definition parent_func_007 (swait swake cpid : Z) : prog Z :=
  parent_stop swait swake cpid (
  '(read_val, _) ← ptrace (PTRACE_POKE USER 0 0) cpid;
  expect_eio cpid read_val "ptrace(PTRACE_POKEUSER)").
Definition test_007 : prog verdict := run_func child_func_007 parent_func_007.

(** ** 008: PTRACE_GETFPREGS *)

Definition child_func_008 (swait swake : Z) : prog Z :=
  child_traceme (
  pre_getregset;;
  sem_post swake;;
  trigger (LIBC_feraiseexcept FE_ALL_EXCEPT);;
  sem_wait swait;;
  Ret 0).
Definition parent_func_008 (swait swake cpid : Z) : prog Z :=
  sem_wait swait;;
  trigger (LIBC_sleep 1000);;
  r ← kill cpid SIGSTOP;
  if nz r then perror "kill()";; Ret (-1) else
  sem_post swake;;
  wait_stopped cpid (
  ptrace_ok PTRACE_GETFPREGS cpid "ptrace(PTRACE_GETFPREGS)" (fun swd =>
  say ("child's fpregs.swd is 0x" +:+ hex swd +:+ " (expected NOT ZERO)");;
  if swd =? 0 then cont cpid (-1) else
  cont cpid 0)).
Definition test_008 : prog verdict := run_func child_func_008 parent_func_008.

(** ** 009: PTRACE_GETSIGINFO *)

Definition child_func_009 (swait swake : Z) : prog Z :=
  child_traceme (child_meet swait swake (Ret 0)).
Definition parent_func_009 (swait swake cpid : Z) : prog Z :=
  parent_stop swait swake cpid (
  ptrace_ok PTRACE_GETSIGINFO cpid "ptrace(PTRACE_GETSIGINFO)" (fun info =>
  say ("si_signo = 0x" +:+ hex (u32 (si_signo info)));;
  say ("si_errno = 0x" +:+ hex (u32 (si_errno info)));;
  say ("si_code  = 0x" +:+ hex (u32 (si_code info)));;
  if negb (si_signo info =? SIGSTOP)
  then say ("si_signo value invalid, expection SIGSTOP(0x" +:+ hex SIGSTOP +:+ ")");; cont cpid (-1) else
  if nz (si_errno info) then say "si_errno value invalid, expection 0";; cont cpid (-1) else
  if nz (si_code info) then say "si_code value invalid, expection 0";; cont cpid (-1) else
  cont cpid 0)).
Definition test_009 : prog verdict := run_func child_func_009 parent_func_009.

(** ** 010: PTRACE_GETREGSET and PTRACE_SETREGSET *)

Definition child_func_010 (swait swake : Z) : prog Z :=
  child_traceme (
  pre_getregset;;
  child_meet swait swake (
  gregno ← var_load (at_regno im);
  fregno ← var_load (at_regno im + 8);
  if nz (setregset_child_check gregno fregno) then say "setregset_child_check failed.";; Ret (-1) else
  Ret 0)).
Definition parent_func_010 (swait swake cpid : Z) : prog Z :=
  parent_stop swait swake cpid (
  if nz (setregset_check cpid (at_regno im) (at_regno im + 8))
  then say "setregset_check failed.";; cont cpid (-1) else
  gregno ← var_load (at_regno im);
  ptrace_ok (PTRACE_POKE DATA (at_regno im) gregno) cpid "ptrace(PTRACE_POKEDATA)" (fun _ =>
  fregno ← var_load (at_regno im + 8);
  ptrace_ok (PTRACE_POKE DATA (at_regno im + 8) fregno) cpid "ptrace(PTRACE_POKEDATA)" (fun _ =>
  cont cpid 0))).
Definition test_010 : prog verdict := run_func child_func_010 parent_func_010.

(** ** 011: a hardware watchpoint *)

Definition CHILD_MAGIC_011 : Z := 0xcafecafecafecafe.

Definition child_func_011 (swait swake : Z) : prog Z :=
  child_traceme (
  let addr := get_or_do_store_inst MODE_GET_INST_ADDR NULL 0 in
  var_store (at_addr im) addr;;
  if addr =? u64 (-1)
  then say "get_or_do_store_inst(MODE_GET_INST_ADDR) failed.";; sem_post swake;; Ret (-1) else
  child_meet swait swake (
  if nz (get_or_do_store_inst MODE_DO_STORE_INST (at_buf im) CHILD_MAGIC_011)
  then say "get_or_do_store_inst(MODE_DO_STORE_INST) failed.";; Ret (-1) else
  Ret 0)).
Definition parent_func_011 (swait swake cpid : Z) : prog Z :=
  parent_stop swait swake cpid (
  peek DATA cpid (at_addr im) "ptrace(PTRACE_PEEKDATA)" (fun inst_addr =>
  if nz (set_hw_watchpt cpid (at_buf im)) then say "set_hw_watchpt failed.";; cont cpid (-1) else
  go_on cpid (
  wait_trap "" cpid (
  trap_info "" cpid TRAP_HWBKPT "TRAP_HWBKPT" (fun info =>
  if si_addr info =? at_buf im then
    say "child si_addr == change value addr";;
    if nz (check_trap_addr cpid (u64 inst_addr)) then say "check_trap_addr failed.";; cont cpid (-1) else
    if nz (clear_hw_watchpt cpid) then say "clear_hw_watchpt failed.";; cont cpid (-1) else
    cont cpid 0
  else
    say "child si_addr != change value addr";;
    say ("expection:0x" +:+ hex (at_buf im) +:+ ", info.si_addr:0x" +:+ hex (si_addr info));;
    cont cpid (-1)))))).
Definition test_011 : prog verdict := run_func child_func_011 parent_func_011.

(** ** 012: a hardware breakpoint *)

Definition child_func_012 := child_do_inst.
Definition parent_func_012 (swait swake cpid : Z) : prog Z :=
  parent_stop swait swake cpid (
  peek DATA cpid (at_addr im) "ptrace(PTRACE_PEEKDATA)" (fun inst_addr =>
  if nz (set_hw_breakpt cpid (u64 inst_addr)) then say "set_hw_breakpt failed.";; cont cpid (-1) else
  go_on cpid (
  wait_trap "" cpid (
  trap_info "" cpid TRAP_HWBKPT "TRAP_HWBKPT" (fun info =>
  if si_addr info =? u64 inst_addr then
    say "child si_addr == hwbreakpoint addr";;
    if nz (clear_hw_breakpt cpid) then say "clear_hw_breakpt failed.";; cont cpid (-1) else
    cont cpid 0
  else
    say "child si_addr != hwbreakpoint addr";;
    say ("expection:0x" +:+ hex (u64 inst_addr) +:+ ", info.si_addr:0x" +:+ hex (si_addr info));;
    cont cpid (-1)))))).
Definition test_012 : prog verdict := run_func child_func_012 parent_func_012.

(** ** 013: PTRACE_SETSIGINFO *)

Definition child_func_013 (swait swake : Z) : prog Z :=
  child_traceme (child_meet swait swake (Ret 0)).
Definition parent_func_013 (swait swake cpid : Z) : prog Z :=
  parent_stop swait swake cpid (
  ptrace_ok PTRACE_GETSIGINFO cpid "ptrace(PTRACE_GETSIGINFO)" (fun org_info =>
  let write_info := Siginfo (s32 (si_signo org_info + 1)) (s32 (si_errno org_info + 1))
                      (s32 (si_code org_info + 1)) (junk im) in
  ptrace_ok (PTRACE_SETSIGINFO write_info) cpid "ptrace(PTRACE_SETSIGINFO)" (fun _ =>
  ptrace_ok PTRACE_GETSIGINFO cpid "ptrace(PTRACE_GETSIGINFO)" (fun tmp_info =>
  if negb (si_signo write_info =? si_signo tmp_info) then say "si_signo not change.";; cont cpid (-1) else
  if negb (si_errno write_info =? si_errno tmp_info) then say "si_errno not change.";; cont cpid (-1) else
  if negb (si_code write_info =? si_code tmp_info) then say "si_code not change.";; cont cpid (-1) else
  say "siginfo change value check OK.";;
  ptrace_ok (PTRACE_SETSIGINFO org_info) cpid "ptrace(PTRACE_SETSIGINFO)" (fun _ =>
  cont cpid 0))))).
Definition test_013 : prog verdict := run_func child_func_013 parent_func_013.

(** ** 014: PTRACE_SETOPTIONS *)

Definition PTRACE_O_TRACESYSGOOD : Z := 0x1.
Definition PTRACE_O_TRACEFORK : Z := 0x2.
Definition PTRACE_O_TRACEVFORK : Z := 0x4.
Definition PTRACE_O_TRACECLONE : Z := 0x8.
Definition PTRACE_O_TRACEEXEC : Z := 0x10.
Definition PTRACE_O_TRACEVFORKDONE : Z := 0x20.

Definition child_func_014 (swait swake : Z) : prog Z :=
  child_traceme (child_meet swait swake (Ret 0)).
Definition parent_func_014 (swait swake cpid : Z) : prog Z :=
  let options := PTRACE_O_TRACESYSGOOD .| PTRACE_O_TRACEFORK .| PTRACE_O_TRACEVFORK .|
                 PTRACE_O_TRACECLONE .| PTRACE_O_TRACEEXEC .| PTRACE_O_TRACEVFORKDONE in
  parent_stop swait swake cpid (
  ptrace_ok (PTRACE_SETOPTIONS options) cpid "ptrace(PTRACE_SETOPTIONS)" (fun _ =>
  say "set supported options, OK.";;
  '(r, _) ← ptrace (PTRACE_SETOPTIONS 0x1234567890abcdef) cpid;
  if negb (nz r)
  then say "ptrace(PTRACE_SETOPTIONS) why successed illigal option ???";; cont cpid (-1) else
  e ← get_errno;
  check (e =? EINVAL) cpid "set illigal option, errno == EINVAL."
    ("set illigal option, errno(" +:+ pretty e +:+ ") != EINVAL(" +:+ pretty EINVAL +:+ ").") (
  cont cpid 0))).
Definition test_014 : prog verdict := run_func child_func_014 parent_func_014.

(** ** 015: PTRACE_O_TRACEFORK and PTRACE_GETEVENTMSG *)

Definition child_func_015 (swait swake : Z) : prog Z :=
  child_traceme (
  child_meet swait swake (
  gcpid ← fork;
  if gcpid =? -1 then perror "grandchild fork()";; Ret (-1)
  else if gcpid =? 0 then exit 0
  else
    var_store (at_eventpid im) (u64 gcpid);;
    say ("eventpid = 0x" +:+ hex (u64 gcpid));;
    raise SIGSTOP;;
    Ret 0)).
Definition parent_func_015 (swait swake cpid : Z) : prog Z :=
  parent_stop swait swake cpid (
  ptrace_ok (PTRACE_SETOPTIONS PTRACE_O_TRACEFORK) cpid "ptrace(PTRACE_SETOPTIONS)" (fun _ =>
  go_on cpid (
  wait_stopped cpid (
  go_on cpid (
  '(pid, status) ← wait4 cpid 0;
  if negb (pid =? cpid) then perror "wait()";; Ret (-1) else
  if negb (WIFSTOPPED status) then say "child is not stopped.";; Ret (-1) else
  peek DATA cpid (at_eventpid im) "ptrace(PTRACE_PEEKDATA)" (fun read_val =>
  ptrace_ok PTRACE_GETEVENTMSG cpid "ptrace(PTRACE_GETEVENTMSG)" (fun eventmsg =>
  if u64 read_val =? eventmsg then
    say "eventmsg value OK.";;
    kill (s32 eventmsg) SIGKILL;;
    cont cpid 0
  else
    say "eventmsg value NG.";;
    say ("expection:0x" +:+ hex (u64 read_val) +:+ " eventmsg:0x" +:+ hex eventmsg);;
    cont cpid (-1)))))))).
Definition test_015 : prog verdict := run_func child_func_015 parent_func_015.

(** ** 016: PTRACE_SYSCALL *)

Definition child_func_016 (swait swake : Z) : prog Z :=
  child_traceme (
  child_meet swait swake (
  getpid;;
  Ret 0)).
Definition parent_func_016 (swait swake cpid : Z) : prog Z :=
  parent_stop swait swake cpid (
  ptrace_ok PTRACE_SYSCALL cpid "ptrace(PTRACE_SYSCALL)" (fun _ =>
  wait_stopped cpid (
  if nz (get_check_syscallno cpid NR_getpid) then say "get_check_syscallno failed.";; cont cpid (-1) else
  cont cpid 0))).
Definition test_016 : prog verdict := run_func child_func_016 parent_func_016.

(** ** 017: PTRACE_SINGLESTEP *)

Definition child_func_017 := child_do_inst.

(** The rounds [i], [i + 1], ... of the loop, [n] of them. *)
Fixpoint singlestep_loop (n : nat) (i read_val cpid : Z) (k : prog Z) : prog Z :=
  match n with
  | O => k
  | S n =>
      say ("[count0" +:+ pretty i +:+ "]");;
      ptrace_ok PTRACE_SINGLESTEP cpid "  ptrace(PTRACE_SINGLESTEP)" (fun _ =>
      wait_trap "  " cpid (
      trap_info "  " cpid TRAP_HWBKPT "TRAP_HWBKPT" (fun info =>
      if si_addr info =? u64 read_val then
        say "  child is stopped singlestep addr.";;
        singlestep_loop n (i + 1) (s64 (read_val + 4)) cpid k
      else
        say "  child is stopped not singlestep addr.";;
        say ("  expection:0x" +:+ hex (u64 read_val) +:+ ", info.si_addr:0x" +:+ hex (si_addr info));;
        cont cpid (-1))))
  end.
Definition loop_count : nat := 5.
Definition parent_func_017 (swait swake cpid : Z) : prog Z :=
  parent_stop swait swake cpid (
  write_brk cpid (fun read_val inst_val =>
  wait_trap "" cpid (
  ptrace_ok (PTRACE_POKE TEXT (u64 read_val) (u64 inst_val)) cpid "ptrace(PTRACE_POKETEXT)" (fun _ =>
  singlestep_loop loop_count 0 (s64 (read_val + 4)) cpid (
  cont cpid 0))))).
Definition test_017 : prog verdict := run_func child_func_017 parent_func_017.

(** ** 018: PTRACE_KILL *)

Definition child_func_018 (swait swake : Z) : prog Z :=
  child_traceme (child_meet swait swake (Ret 0)).
Definition parent_func_018 (swait swake cpid : Z) : prog Z :=
  parent_stop swait swake cpid (
  '(r, _) ← ptrace PTRACE_KILL cpid;
  if nz r then perror "ptrace(PTRACE_KILL)";; Ret (-1) else Ret 0).
Definition kill_check (status : Z) (k : prog verdict) : prog verdict :=
  if WIFSIGNALED status then
    if negb (WTERMSIG status =? SIGKILL) then Ret (Some "child is not terminated by SIGKILL")
    else say "child terminated by SIGKILL";; k
  else Ret (Some "child is not terminated by signal").
Definition test_018 : prog verdict := run_with kill_check child_func_018 parent_func_018.

(** ** 019 and 020: PTRACE_ATTACH, and PTRACE_DETACH *)

Definition child_func_019 (swait swake : Z) : prog Z := child_meet swait swake (Ret 0).
Definition parent_attach (swait swake cpid : Z) (k : prog Z) : prog Z :=
  sem_wait swait;;
  '(r, _) ← ptrace PTRACE_ATTACH cpid;
  if nz r then perror "ptrace(PTRACE_ATTACH)";; Ret (-1) else
  sem_post swake;; wait_stopped cpid k.
Definition parent_func_019 (swait swake cpid : Z) : prog Z :=
  parent_attach swait swake cpid (
  say "child is stopped.";;
  go_on cpid (Ret 0)).
Definition test_019 : prog verdict := run_func child_func_019 parent_func_019.

Definition child_func_020 (swait swake : Z) : prog Z := child_meet swait swake (Ret 0).
Definition parent_func_020 (swait swake cpid : Z) : prog Z :=
  parent_attach swait swake cpid (
  '(r, _) ← ptrace PTRACE_DETACH cpid;
  if nz r then perror "ptrace(PTRACE_DETACH)";; Ret (-1) else
  say "child detach OK.";;
  Ret 0).
Definition test_020 : prog verdict := run_func child_func_020 parent_func_020.

Definition tests : list (prog verdict) :=
  [test_000; test_001; test_002; test_003; test_004; test_005; test_006; test_007; test_008; test_009;
   test_010; test_011; test_012; test_013; test_014; test_015; test_016; test_017; test_018; test_019;
   test_020].

End suite.
End Ptrace.
