(* ===== verification/Script.v ===== *)
(** * Scripts: what a passing test has seen

    A [script] says which requests a trace must contain, in which order, with which replies; later
    demands may depend on earlier replies.  [sees p a s]: whatever the kernel replies, a run of [p]
    that returns [a] follows the script [s].  The rules below follow the structure of a program. *)
From S2P Require Import Prelude CMachine Libc FileMap.
#[local] Open Scope Z_scope.

Module Script.

Inductive script : Type :=
| Done
| Holds (P : Prop) (next : script)
| Saw (c : cmd) (P : reply c -> Prop) (next : reply c -> script).

Fixpoint follows (s : script) (tr : list event) : Prop :=
  match s with
  | Done => True
  | Holds P next => P /\ follows next tr
  | Saw c P next => exists tr1 r tr2, tr = tr1 ++ ev c r :: tr2 /\ P r /\ follows (next r) tr2
  end.

(** No trace follows this one. *)
Definition Impossible : script := Holds False Done.

(** One script behind another. *)
Fixpoint andthen (s s' : script) : script :=
  match s with
  | Done => s'
  | Holds P next => Holds P (andthen next s')
  | Saw c P next => Saw c P (fun r => andthen (next r) s')
  end.

Lemma follows_skip s tr0 tr : follows s tr -> follows s (tr0 ++ tr).
Proof.
  induction s as [|P next IH|c P next _]; simpl; [done|naive_solver|].
  intros (tr1 & r & tr2 & -> & HP & H). exists (tr0 ++ tr1), r, tr2. by rewrite <- app_assoc.
Qed.

Lemma follows_cons s x tr : follows s tr -> follows s (x :: tr).
Proof. apply (follows_skip s [x]). Qed.

Lemma follows_saw c (P : reply c -> Prop) next r tr :
  P r -> follows (next r) tr -> follows (Saw c P next) (ev c r :: tr).
Proof. intros HP H. by exists [], r, tr. Qed.

Lemma follows_andthen s s' tr tr' : follows s tr -> follows s' tr' -> follows (andthen s s') (tr ++ tr').
Proof.
  revert tr. induction s as [|P next IH|c P next IH]; intros tr; simpl; [|naive_solver|].
  - intros _. apply follows_skip.
  - intros (tr1 & r & tr2 & -> & HP & H) H'. exists tr1, r, (tr2 ++ tr').
    split; [by rewrite <- app_assoc|]. auto.
Qed.

Lemma follows_more s tr tr' : follows s tr -> follows s (tr ++ tr').
Proof.
  revert tr. induction s as [|P next IH|c P next IH]; intros tr; simpl; [done|naive_solver|].
  intros (tr1 & r & tr2 & -> & HP & H). exists tr1, r, (tr2 ++ tr'). rewrite <- app_assoc. auto.
Qed.

Definition sees {A} (p : prog A) (a : A) (s : script) : Prop :=
  forall e tr e', run p e tr (Returned a) e' -> follows s tr.

(** ** Rules *)

Section rules.
Context {A : Type} (a : A).

Lemma sees_done p : sees p a Done.
Proof. by intros e tr e' _. Qed.

(** A result other than [a] proves nothing and needs nothing. *)
Lemma sees_ret_other b s : b <> a -> sees (Ret b) a s.
Proof. intros Hb e tr e' (_ & [= E] & _). congruence. Qed.

Lemma sees_exit n s : sees (Exit n) a s.
Proof. by intros e tr e' (_ & [=] & _). Qed.

Lemma sees_if (b : bool) p q s :
  (b = true -> sees p a s) -> (b = false -> sees q a s) -> sees (if b then p else q) a s.
Proof. destruct b; auto. Qed.

(** The script may ask for what a test of the code decides. *)
Lemma sees_test (b : bool) p q s :
  (b = true -> sees p a s) -> (forall s', sees q a s') -> sees (if b then p else q) a (Holds (b = true) s).
Proof.
  intros Hp Hq. destruct b; [|apply Hq]. intros e tr e' H. split; [done|]. by eapply Hp.
Qed.

Lemma sees_test_not (b : bool) p q s :
  (b = false -> sees q a s) -> (forall s', sees p a s') -> sees (if b then p else q) a (Holds (b = false) s).
Proof.
  intros Hp Hq. destruct b; [apply Hq|]. intros e tr e' H. split; [done|]. by eapply Hp.
Qed.

Lemma sees_vis c k s : (forall r, sees (k r) a s) -> sees (Vis c k) a s.
Proof. intros Hk e tr e' (r & tr' & -> & H). apply follows_cons. by eapply Hk. Qed.

Lemma sees_get_errno (k : Z -> prog A) s : (forall e, sees (k e) a s) -> sees (get_errno ≫= k) a s.
Proof. intros Hk e tr e' H. exact (Hk e e tr e' H). Qed.

Lemma sees_printf t (k : prog A) s : sees k a s -> sees (printf t;; k) a s.
Proof. intros Hk. apply sees_vis. done. Qed.

Lemma sees_perror strerror t (k : prog A) s : sees k a s -> sees (FileMap.perror strerror t;; k) a s.
Proof. intros Hk e tr e' (r & tr' & -> & H). apply follows_cons. by eapply Hk. Qed.

(** A part whose replies do not matter. *)
Lemma sees_bind {B} (p : prog B) (k : B -> prog A) s : (forall b, sees (k b) a s) -> sees (p ≫= k) a s.
Proof.
  intros Hk e tr e' H. apply run_bind_returned in H as (b & e1 & tr1 & tr2 & _ & H & ->).
  apply follows_skip. by eapply Hk.
Qed.

(** A function followed by the code that uses its result. *)
Lemma sees_call {B} (p : prog B) (k : B -> prog A) s1 s2 b :
  sees p b s1 -> (forall b', b' <> b -> sees (k b') a Impossible) -> sees (k b) a s2 ->
  (forall b', b' = b \/ b' <> b) -> sees (p ≫= k) a (andthen s1 s2).
Proof.
  intros Hp Hno Hk Hdec e tr e' H. apply run_bind_returned in H as (b' & e1 & tr1 & tr2 & H1 & H2 & ->).
  destruct (Hdec b') as [->|Hne]; [|by destruct (Hno b' Hne e1 tr2 e')].
  apply follows_andthen; [by eapply Hp|by eapply Hk].
Qed.

Lemma run_ptrace req pid (k : Z * ptrace_out req -> prog A) e tr o e' :
  run (ptrace req pid ≫= k) e tr o e' ->
  exists r out tr', tr = ev (SYS_ptrace req pid) (r, out) :: tr' /\
    run (k (ret_int r, out)) (errno_after e r) tr' o e'.
Proof.
  intros ([r out] & tr' & -> & H). exists r, out, tr'. split; [done|].
  unfold ret_int, errno_after, syscall_ret in *. cbn in H. by destruct (is_error r).
Qed.

(** A PEEK returns the word and clears [errno], or returns -1 and sets it. *)
Lemma run_ptrace_peek area pid addr (k : Z -> prog A) e tr o e' :
  run (ptrace_peek area pid addr ≫= k) e tr o e' ->
  exists r w tr', tr = ev (SYS_ptrace (PTRACE_PEEK area addr) pid) (r, w) :: tr' /\
    run (k (if is_error r then -1 else s64 w)) (if is_error r then - r else 0) tr' o e'.
Proof.
  intros ([r w] & tr' & -> & H). exists r, w, tr'. split; [done|]. cbn in H. by destruct (is_error r).
Qed.

Lemma run_fork (k : Z -> prog A) e tr o e' :
  run (fork ≫= k) e tr o e' ->
  exists r tr', tr = ev SYS_fork r :: tr' /\ run (k (ret_int r)) (errno_after e r) tr' o e'.
Proof. follow_wrapper. Qed.

Lemma run_kill pid sig (k : Z -> prog A) e tr o e' :
  run (kill pid sig ≫= k) e tr o e' ->
  exists r tr', tr = ev (SYS_kill pid sig) r :: tr' /\ run (k (ret_int r)) (errno_after e r) tr' o e'.
Proof. follow_wrapper. Qed.

Lemma run_wait4 pid opts (k : Z * Z -> prog A) e tr o e' :
  run (wait4 pid opts ≫= k) e tr o e' ->
  exists r st tr', tr = ev (SYS_wait4 pid opts) (r, st) :: tr' /\
    run (k (ret_int r, st)) (errno_after e r) tr' o e'.
Proof.
  intros ([r st] & tr' & -> & H). exists r, st, tr'. split; [done|].
  unfold ret_int, errno_after, syscall_ret in *. cbn in H. by destruct (is_error r).
Qed.

Lemma ret_int_zero r : (ret_int r =? 0) = true -> r = 0.
Proof. unfold ret_int. destruct (is_error r); [done|]. by intros ?%Z.eqb_eq. Qed.

Lemma ret_int_eq r n : n <> -1 -> ret_int r = n -> r = n.
Proof. unfold ret_int. destruct (is_error r); lia. Qed.

(** Requests whose reply the script names. *)
Lemma sees_fork (k : Z -> prog A) (P : Z -> Prop) next :
  (forall r, is_error r = false -> r <> 0 -> P r /\ sees (k r) a (next r)) ->
  (forall s, sees (k (-1)) a s) -> (forall s, sees (k 0) a s) ->
  sees (fork ≫= k) a (Saw SYS_fork P next).
Proof.
  intros Hk Hf H0 e tr e' (r & tr' & -> & H)%run_fork. unfold ret_int in H.
  destruct (is_error r) eqn:E; [exact (follows_cons _ _ _ (Hf _ _ _ _ H))|].
  destruct (decide (r = 0)) as [->|Hne]; [exact (follows_cons _ _ _ (H0 _ _ _ _ H))|].
  destruct (Hk r E Hne) as [HP Hs]. apply follows_saw; [done|]. exact (Hs _ _ _ H).
Qed.

End rules.

(** A run in the context becomes the goal [sees]. *)
Ltac by_sees H :=
  match type of H with run ?p _ _ (Returned ?a) _ =>
    match goal with |- follows ?s _ =>
      let Hs := fresh "Hs" in assert (sees p a s) as Hs; [clear H|exact (Hs _ _ _ H)]
    end end.

End Script.
