(* ===== verification/PtraceProofs.v ===== *)
(** * What a passing ptrace test has seen

    For every reply a kernel could give: a test of the ptrace suite that returns NULL follows the
    script of its number ([expected]).  The scripts of the tests that need register or breakpoint
    access are impossible on x86, whose functions for it are stubs. *)
From S2P Require Import Prelude CMachine Libc FileMap Ptrace Script.
Import Libc FileMap Ptrace Script.
#[local] Open Scope Z_scope.

Module PtraceProofs.

Section scripts.
Context (im : image).

(** ** The scripts *)

Definition zero {A} (r : Z * A) : Prop := r.1 = 0.
Definition stops (cpid : Z) (r : Z * Z) : Prop := r.1 = cpid /\ WIFSTOPPED r.2 = true.

(** [wait] has reported the stop of the child; a request has succeeded; the child goes on. *)
Definition stopped (cpid : Z) (next : script) : script :=
  Saw (SYS_wait4 (-1) 0) (stops cpid) (fun _ => next).
Definition granted (req : ptrace_req) (cpid : Z) (next : ptrace_out req -> script) : script :=
  Saw (SYS_ptrace req cpid) zero (fun r => next r.2).
Definition continued (cpid : Z) (next : script) : script := granted PTRACE_CONT cpid (fun _ => next).
Definition peeked (area : ptrace_area) (addr cpid : Z) (next : Z -> script) : script :=
  Saw (SYS_ptrace (PTRACE_PEEK area addr) cpid) (fun r => is_error r.1 = false) (fun r => next r.2).

(** The child was sent SIGSTOP and its stop reported. *)
Definition stop (cpid : Z) (next : script) : script :=
  Saw (SYS_kill cpid SIGSTOP) (eq 0) (fun _ => stopped cpid next).
Definition attached (cpid : Z) (next : script) : script :=
  granted PTRACE_ATTACH cpid (fun _ => stopped cpid next).

(** A stop by SIGTRAP whose siginfo has the code [code] and the address [addr]. *)
Definition trapped (cpid : Z) (next : script) : script :=
  Saw (SYS_wait4 (-1) 0) (fun r => stops cpid r /\ WSTOPSIG r.2 = SIGTRAP) (fun _ => next).
Definition trap_at (cpid code addr : Z) (next : script) : script :=
  granted PTRACE_GETSIGINFO cpid (fun info => Holds (info = Siginfo SIGTRAP 0 code addr) next).

(** 006 and 017: a breakpoint was written at the address the child gave.  The code does not check
    that the instruction could be read ([peek_text_unchecked]). *)
Definition broken (cpid : Z) (next : Z -> Z -> script) : script :=
  peeked DATA (at_addr im) cpid (fun word =>
  Saw (SYS_ptrace (PTRACE_PEEK TEXT (u64 (s64 word))) cpid) (fun _ => True) (fun r =>
  let inst := if is_error r.1 then -1 else s64 r.2 in
  granted (PTRACE_POKE TEXT (u64 (s64 word)) ((u64 inst .& 0xffffffff00000000) .| BRK_INST)) cpid (fun _ =>
  continued cpid (next (s64 word) inst)))).

Fixpoint singlesteps (n : nat) (addr cpid : Z) (next : script) : script :=
  match n with
  | O => next
  | S n =>
      granted PTRACE_SINGLESTEP cpid (fun _ =>
      trapped cpid (trap_at cpid TRAP_HWBKPT (u64 addr) (singlesteps n (s64 (addr + 4)) cpid next)))
  end.

Definition parent_script (n : nat) (cpid : Z) : script :=
  match n with
  | 1 => stop cpid (continued cpid Done)
  | 2 => stop cpid (peeked DATA (at_buf im) cpid (fun word =>
           Holds (s64 word = CHILD_MAGIC) (continued cpid Done)))
  | 3 => stop cpid (peeked DATA (at_addr im) cpid (fun word =>
           peeked TEXT (u64 (s64 word)) cpid (fun inst =>
           Holds (u32 (Z.shiftr (s64 inst) 32%Z) = NOP_INST) (continued cpid Done))))
  | 4 => stop cpid (Saw (SYS_ptrace (PTRACE_PEEK USER 0%Z) cpid) (fun r => r.1 = - EIO)%Z
           (fun _ => continued cpid Done))
  | 5 => stop cpid (granted (PTRACE_POKE DATA (at_buf im) PARENT_MAGIC) cpid (fun _ => continued cpid Done))
  | 6 => stop cpid (broken cpid (fun addr inst =>
           trapped cpid (trap_at cpid TRAP_BRKPT (u64 addr)
             (granted (PTRACE_POKE TEXT (u64 addr) (u64 inst)) cpid (fun _ => continued cpid Done)))))
  | 7 => stop cpid (Saw (SYS_ptrace (PTRACE_POKE USER 0%Z 0%Z) cpid)
           (fun r => is_error r.1 = true -> r.1 = - EIO)%Z (fun _ => continued cpid Done))
  | 8 => stop cpid (granted PTRACE_GETFPREGS cpid (fun swd => Holds (swd <> 0)%Z (continued cpid Done)))
  | 9 => stop cpid (granted PTRACE_GETSIGINFO cpid (fun info =>
           Holds (info = Siginfo SIGSTOP 0%Z 0%Z (si_addr info)) (continued cpid Done)))
  | 13 => stop cpid (granted PTRACE_GETSIGINFO cpid (fun org =>
            let write_info := Siginfo (s32 (si_signo org + 1)%Z) (s32 (si_errno org + 1)%Z)
                                (s32 (si_code org + 1)%Z) (junk im) in
            granted (PTRACE_SETSIGINFO write_info) cpid (fun _ =>
            granted PTRACE_GETSIGINFO cpid (fun info =>
            Holds (si_signo info = si_signo write_info /\ si_errno info = si_errno write_info /\
                   si_code info = si_code write_info)
            (granted (PTRACE_SETSIGINFO org) cpid (fun _ => continued cpid Done))))))
  | 14 => stop cpid (granted (PTRACE_SETOPTIONS 0x3f%Z) cpid (fun _ =>
            Saw (SYS_ptrace (PTRACE_SETOPTIONS 0x1234567890abcdef%Z) cpid) (fun r => r.1 <> 0)%Z
            (fun _ => continued cpid Done)))
  | 15 => stop cpid (granted (PTRACE_SETOPTIONS PTRACE_O_TRACEFORK) cpid (fun _ =>
            continued cpid (stopped cpid (continued cpid (
            Saw (SYS_wait4 cpid 0) (stops cpid) (fun _ =>
            peeked DATA (at_eventpid im) cpid (fun word =>
            granted PTRACE_GETEVENTMSG cpid (fun msg =>
            Holds (u64 (s64 word) = msg) (continued cpid Done)))))))))
  | 17 => stop cpid (broken cpid (fun addr inst =>
            trapped cpid (granted (PTRACE_POKE TEXT (u64 addr) (u64 inst)) cpid (fun _ =>
            singlesteps loop_count (s64 (addr + 4)%Z) cpid (continued cpid Done)))))
  | 18 => stop cpid (granted PTRACE_KILL cpid (fun _ => Done))
  | 19 => attached cpid (continued cpid Done)
  | 20 => attached cpid (granted PTRACE_DETACH cpid (fun _ => Done))
  | _ => Impossible
  end%nat.

(** The end of the child that the test accepts. *)
Definition child_end (n : nat) (r : Z * Z) : Prop :=
  is_error r.1 = false /\
  if Nat.eqb n 18 then WIFSIGNALED r.2 = true /\ WTERMSIG r.2 = SIGKILL else WEXITSTATUS r.2 = 0.

(** 000 passes whatever happens once fork succeeds. *)
Definition expected (n : nat) : script :=
  match n with
  | O => Saw SYS_fork (fun pid => is_error pid = false /\ pid <> 0) (fun _ => Done)
  | _ => Saw SYS_fork (fun cpid => is_error cpid = false /\ cpid <> 0) (fun cpid =>
           andthen (parent_script n cpid) (Saw (SYS_wait4 (-1) 0) (child_end n) (fun _ => Done)))
  end.

(** ** The parts *)

Context (cpid : Z) (Hcpid : cpid <> -1).

Lemma nz_false r : nz r = false <-> r = 0.
Proof. unfold nz. rewrite negb_false_iff. apply Z.eqb_eq. Qed.

Lemma nz_ret_int r : nz (ret_int r) = false -> r = 0.
Proof. rewrite nz_false. apply ret_int_eq. lia. Qed.

(** The label [cont] with -1 never leads to 0. *)
Lemma sees_cont_fail s : sees (cont im cpid (-1)) 0 s.
Proof.
  apply sees_bind. intros [r _]. apply sees_if; intros _; [apply sees_perror|]; by apply sees_ret_other.
Qed.

Lemma sees_say {A} (a : A) t k s : sees k a s -> sees (say t;; k) a s.
Proof. apply sees_printf. Qed.

Lemma sees_perror_out t s : sees (perror im t;; Ret (-1)) 0 s.
Proof. by apply sees_perror, sees_ret_other. Qed.

Lemma sees_say_out t s : sees (say t;; Ret (-1)) 0 s.
Proof. by apply sees_say, sees_ret_other. Qed.

(** A request whose failure ends the function without success. *)
Lemma sees_granted req (bad : prog Z) (k : ptrace_out req -> prog Z) next :
  (forall out, sees (k out) 0 (next out)) -> (forall s, sees bad 0 s) ->
  sees ('(r, out) ← ptrace req cpid; if nz r then bad else k out) 0 (granted req cpid next).
Proof.
  intros Hk Hbad e tr e' (r & out & tr' & -> & H)%run_ptrace. cbv beta iota in H.
  destruct (nz (ret_int r)) eqn:E; [apply follows_cons; by eapply Hbad|].
  apply nz_ret_int in E as ->. apply follows_saw; [done|]. by eapply Hk.
Qed.

Lemma sees_ptrace_ok req msg k next :
  (forall out, sees (k out) 0 (next out)) -> sees (ptrace_ok im req cpid msg k) 0 (granted req cpid next).
Proof. intros Hk. apply sees_granted; [done|]. intros s. apply sees_perror, sees_cont_fail. Qed.

Lemma sees_go_on k s : sees k 0 s -> sees (go_on im cpid k) 0 (continued cpid s).
Proof.
  intros Hk. apply (sees_granted PTRACE_CONT _ (fun _ => k)); [done|]. apply sees_perror_out.
Qed.

Lemma sees_cont : sees (cont im cpid 0) 0 (continued cpid Done).
Proof. apply sees_go_on, sees_done. Qed.

Lemma sees_peek area addr msg k next :
  (forall w, sees (k (s64 w)) 0 (next w)) ->
  sees (peek im area cpid addr msg k) 0 (peeked area addr cpid next).
Proof.
  intros Hk e tr e' ([r w] & tr' & -> & H). cbn in H. destruct (is_error r) eqn:E; cbn in H.
  - apply follows_cons. unfold nz in H. replace (- r =? 0) with false in H by (unfold is_error in E; lia).
    refine (sees_perror 0 (strerror im) msg _ _ (sees_cont_fail _) _ _ _ H).
  - rewrite andb_false_r in H. apply follows_saw; [done|]. by eapply Hk.
Qed.

Lemma sees_check b yes no k s : sees k 0 s -> sees (check im b cpid yes no k) 0 (Holds (b = true) s).
Proof. intros Hk. apply sees_test; intros; apply sees_say; [done|apply sees_cont_fail]. Qed.

(** A weaker demand. *)
Lemma sees_weaken {A} (p : prog A) a s s' :
  (forall tr, follows s tr -> follows s' tr) -> sees p a s -> sees p a s'.
Proof. intros Hs Hp e tr e' H. by eapply Hs, Hp. Qed.

Lemma sees_wait (k : Z -> Z -> prog Z) (P : Z * Z -> Prop) next pid :
  (forall st, P (cpid, st) -> sees (k cpid st) 0 (next (cpid, st))) ->
  (forall r st s, r <> cpid \/ ~ P (cpid, st) -> sees (k r st) 0 s) ->
  (forall st, Decision (P (cpid, st))) ->
  sees ('(r, st) ← wait4 pid 0; k r st) 0 (Saw (SYS_wait4 pid 0) (fun r => r.1 = cpid /\ P r) next).
Proof.
  intros Hk Hno Hdec e tr e' (r & st & tr' & -> & H)%run_wait4. cbv beta iota in H.
  destruct (decide (ret_int r = cpid)) as [E|Hne]; [|apply follows_cons; eapply Hno; eauto].
  rewrite E in H. destruct (decide (P (cpid, st))) as [HP|HP]; [|apply follows_cons; eapply Hno; eauto].
  apply ret_int_eq in E as ->; [|done]. apply follows_saw; [done|]. by eapply Hk.
Qed.

Lemma sees_wait_stopped k s : sees k 0 s -> sees (wait_stopped im cpid k) 0 (stopped cpid s).
Proof.
  intros Hk. refine (sees_wait _ (fun r => WIFSTOPPED r.2 = true) (fun _ => s) (-1) _ _ _); cbn.
  - intros st Hst. by rewrite Z.eqb_refl, Hst.
  - intros r st s' Hno. apply sees_if; intros E; [|apply sees_perror_out].
    apply Z.eqb_eq in E as ->. apply sees_if; intros Hst; [naive_solver|apply sees_say_out].
Qed.

Lemma sees_wait_trap ind k s : sees k 0 s -> sees (wait_trap im ind cpid k) 0 (trapped cpid s).
Proof.
  intros Hk. apply (sees_weaken _ _ (Saw (SYS_wait4 (-1) 0)
    (fun r => r.1 = cpid /\ (WIFSTOPPED r.2 = true /\ WSTOPSIG r.2 = SIGTRAP)) (fun _ => s))).
  { intros tr (tr1 & r & tr2 & -> & HP & H). exists tr1, r, tr2. unfold stops. naive_solver. }
  apply sees_wait; cbn.
  - intros st [H1 H2]. by rewrite Z.eqb_refl, H1, H2.
  - intros r st s' Hno. apply sees_if; intros E; [|apply sees_perror_out]. apply Z.eqb_eq in E as ->.
    apply sees_if; intros H1; [|apply sees_say_out].
    apply sees_if; intros H2; [apply Z.eqb_eq in H2; naive_solver|apply sees_say, sees_cont_fail].
  - intros st. apply _.
Qed.

Lemma sees_trap_info ind code addr name (yes no : siginfo -> prog Z) s :
  (forall info, sees (yes info) 0 s) -> (forall info s', sees (no info) 0 s') ->
  sees (trap_info im ind cpid code name (fun info => if si_addr info =? addr then yes info else no info)) 0
    (trap_at cpid code addr s).
Proof.
  intros Hy Hno. apply sees_say, sees_ptrace_ok. intros info.
  apply (sees_weaken _ _ (Holds ((si_signo info =? SIGTRAP) = true) (Holds ((si_errno info =? 0) = true)
    (Holds ((si_code info =? code) = true) (Holds ((si_addr info =? addr) = true) s))))).
  { intros tr. destruct info. cbn. intros (?%Z.eqb_eq & ?%Z.eqb_eq & ?%Z.eqb_eq & ?%Z.eqb_eq & H). by subst. }
  apply sees_check, sees_check, sees_check. apply sees_test; intros; [apply Hy|apply Hno].
Qed.

Lemma sees_parent_stop swait swake k s :
  sees k 0 s -> sees (parent_stop im swait swake cpid k) 0 (stop cpid s).
Proof.
  intros Hk. apply sees_bind. intros _ e tr e' (r & tr' & -> & H)%run_kill.
  destruct (nz (ret_int r)) eqn:E; [by apply follows_cons; eapply sees_perror_out|].
  apply nz_ret_int in E as ->. apply follows_saw; [done|].
  eapply (sees_bind 0 _ (fun _ => wait_stopped im cpid k)); [|exact H]. intros _. by apply sees_wait_stopped.
Qed.

Lemma sees_parent_attach swait swake k s :
  sees k 0 s -> sees (parent_attach im swait swake cpid k) 0 (attached cpid s).
Proof.
  intros Hk. apply sees_bind. intros _.
  apply (sees_granted PTRACE_ATTACH _ (fun _ => _)); [|apply sees_perror_out].
  intros _. apply sees_bind. intros _. by apply sees_wait_stopped.
Qed.

Lemma sees_write_brk k next :
  (forall addr inst, sees (k addr inst) 0 (next addr inst)) ->
  sees (write_brk im cpid k) 0 (broken cpid next).
Proof.
  intros Hk. apply sees_peek. intros word e tr e' (r & w & tr' & -> & H)%run_ptrace_peek.
  apply follows_saw; [done|]. cbn [fst snd]. revert H. generalize (if is_error r then -1 else s64 w).
  intros inst H. change (run (if (s64 word =? -1) && nz (if is_error r then - r else 0)
    then perror im "ptrace(PTRACE_PEEKTEXT)";; cont im cpid (-1)
    else ptrace_ok im (PTRACE_POKE TEXT (u64 (s64 word)) ((u64 inst .& 0xffffffff00000000) .| BRK_INST)) cpid
           "ptrace(PTRACE_POKETEXT)" (fun _ => go_on im cpid (k (s64 word) inst)))
    (if is_error r then - r else 0) tr' (Returned 0) e') in H.
  by_sees H.
  apply sees_if; intros _; [apply sees_perror, sees_cont_fail|].
  apply sees_ptrace_ok. intros _. apply sees_go_on, Hk.
Qed.

Lemma sees_singlestep_loop n i addr k s :
  sees k 0 s -> sees (singlestep_loop im n i addr cpid k) 0 (singlesteps n addr cpid s).
Proof.
  intros Hk. revert i addr. induction n as [|n IH]; intros i addr; cbn [singlestep_loop singlesteps]; [done|].
  apply sees_say, sees_ptrace_ok. intros _. apply sees_wait_trap, sees_trap_info.
  - intros info. apply sees_say, IH.
  - intros info s'. apply sees_say, sees_say, sees_cont_fail.
Qed.

(** 004 and 007 pass with EIO in [errno] only. *)
Lemma run_expect_eio read_val name e tr e' :
  run (expect_eio im cpid read_val name) e tr (Returned 0) e' -> e = EIO /\ follows (continued cpid Done) tr.
Proof.
  change (run (expect_eio im cpid read_val name) e) with (run
    (if negb (read_val =? -1) && (e =? 0) then say (name +:+ " why successed ???");; cont im cpid (-1) else
     if e =? EIO then say (name +:+ " expected errno EIO(" +:+ pretty EIO +:+ ") catch");; cont im cpid 0
     else say (name +:+ " unexpected errno(" +:+ pretty e +:+ ")");;
          say ("expected errno = EIO(" +:+ pretty EIO +:+ ")");; cont im cpid (-1)) e).
  destruct (negb (read_val =? -1) && (e =? 0)); [|destruct (Z.eqb_spec e EIO) as [->|]]; intros H.
  - by apply (sees_say 0 _ _ Impossible (sees_cont_fail _)) in H as [].
  - split; [done|]. by apply (sees_say 0 _ _ _ sees_cont) in H.
  - by apply (sees_say 0 _ _ Impossible (sees_say 0 _ _ _ (sees_cont_fail _))) in H as [].
Qed.

Lemma sees_peek_user name :
  sees (read_val ← ptrace_peek USER cpid 0; expect_eio im cpid read_val name) 0
    (Saw (SYS_ptrace (PTRACE_PEEK USER 0) cpid) (fun r => r.1 = - EIO) (fun _ => continued cpid Done)).
Proof.
  intros e tr e' (r & w & tr' & -> & H)%run_ptrace_peek. apply run_expect_eio in H as [He H].
  apply follows_saw; [|done]. destruct (is_error r); [cbn; lia|done].
Qed.

Lemma sees_poke_user name :
  sees ('(read_val, _) ← ptrace (PTRACE_POKE USER 0 0) cpid; expect_eio im cpid read_val name) 0
    (Saw (SYS_ptrace (PTRACE_POKE USER 0 0) cpid) (fun r => is_error r.1 = true -> r.1 = - EIO)
       (fun _ => continued cpid Done)).
Proof.
  intros e tr e' (r & w & tr' & -> & H)%run_ptrace. apply run_expect_eio in H as [He H].
  apply follows_saw; [|done]. cbn. intros Hr. unfold errno_after in He. rewrite Hr in He. lia.
Qed.

(** ** The parents *)

(** The parent function of a test case. *)
Definition parent_func (n : nat) : Z -> Z -> Z -> prog Z :=
  match n with
  | 1 => parent_func_001 im | 2 => parent_func_002 im | 3 => parent_func_003 im | 4 => parent_func_004 im
  | 5 => parent_func_005 im | 6 => parent_func_006 im | 7 => parent_func_007 im | 8 => parent_func_008 im
  | 9 => parent_func_009 im | 10 => parent_func_010 im | 11 => parent_func_011 im | 12 => parent_func_012 im
  | 13 => parent_func_013 im | 14 => parent_func_014 im | 15 => parent_func_015 im | 16 => parent_func_016 im
  | 17 => parent_func_017 im | 18 => parent_func_018 im | 19 => parent_func_019 im
  | _ => parent_func_020 im
  end%nat.

Create HintDb sees.
Hint Resolve sees_parent_stop sees_parent_attach sees_peek sees_ptrace_ok sees_go_on sees_cont sees_wait_stopped
  sees_wait_trap sees_write_brk sees_singlestep_loop sees_say sees_check sees_done sees_cont_fail
  sees_peek_user sees_poke_user sees_ret_other : sees.

(** A test that was decided by [=?]. *)
Lemma sees_eqb {A} (a : A) x y (p q : prog A) s :
  (x = y -> sees p a s) -> (forall s', sees q a s') -> sees (if x =? y then p else q) a (Holds (x = y) s).
Proof.
  intros Hp Hq. destruct (Z.eqb_spec x y) as [E|E]; [|apply Hq]. intros e tr e' H. split; [done|]. by eapply Hp.
Qed.

Lemma sees_neqb {A} (a : A) x y (p q : prog A) s :
  (x = y -> sees q a s) -> (forall s', sees p a s') ->
  sees (if negb (x =? y) then p else q) a (Holds (x = y) s).
Proof. rewrite if_negb. apply sees_eqb. Qed.

(** A message and [goto cont]. *)
Lemma sees_say_cont t s : sees (say t;; cont im cpid (-1)) 0 s.
Proof. apply sees_say, sees_cont_fail. Qed.
Hint Resolve sees_say_cont sees_say_out : sees.

Lemma sees_holds {A} (p : prog A) a (P Q : Prop) s : (P -> Q) -> sees p a (Holds P s) -> sees p a (Holds Q s).
Proof. intros HPQ. apply sees_weaken. cbn. naive_solver. Qed.

Section parents.
Context (swait swake : Z).

Lemma parent_002_sees : sees (parent_func_002 im swait swake cpid) 0 (parent_script 2 cpid).
Proof.
  apply sees_bind. intros _. apply sees_parent_stop, sees_peek. intros word. apply sees_bind. intros buf.
  apply sees_if; intros _; [auto with sees|]. eapply sees_holds; [apply Z.eqb_eq|]. auto with sees.
Qed.

Lemma parent_003_sees : sees (parent_func_003 im swait swake cpid) 0 (parent_script 3 cpid).
Proof.
  apply sees_parent_stop, sees_peek. intros word. apply sees_peek. intros inst.
  eapply sees_holds; [apply Z.eqb_eq|]. auto with sees.
Qed.

Lemma parent_005_sees : sees (parent_func_005 im swait swake cpid) 0 (parent_script 5 cpid).
Proof.
  apply sees_bind. intros _. apply sees_parent_stop, sees_ptrace_ok. intros _. apply sees_bind. intros buf.
  apply sees_if; intros _; auto with sees.
Qed.

Lemma parent_006_sees : sees (parent_func_006 im swait swake cpid) 0 (parent_script 6 cpid).
Proof.
  apply sees_parent_stop, sees_write_brk. intros addr inst. apply sees_wait_trap, sees_trap_info; intros info.
  - apply sees_say, sees_ptrace_ok. auto with sees.
  - intros s. apply sees_say. auto with sees.
Qed.

Lemma parent_008_sees : sees (parent_func_008 im swait swake cpid) 0 (parent_script 8 cpid).
Proof.
  apply sees_bind. intros _. apply sees_bind. intros _ e tr e' (r & tr' & -> & H)%run_kill.
  destruct (nz (ret_int r)) eqn:E; [by apply follows_cons; eapply sees_perror_out|].
  apply nz_ret_int in E as ->. apply follows_saw; [done|]. by_sees H.
  apply sees_bind. intros _. apply sees_wait_stopped, sees_ptrace_ok. intros swd. apply sees_say.
  eapply sees_holds; [apply Z.eqb_neq|]. apply sees_test_not; auto with sees.
Qed.

Lemma parent_009_sees : sees (parent_func_009 im swait swake cpid) 0 (parent_script 9 cpid).
Proof.
  apply sees_parent_stop, sees_ptrace_ok. intros info. apply sees_say, sees_say, sees_say.
  apply (sees_weaken _ _ (Holds (si_signo info = SIGSTOP) (Holds (si_errno info = 0)
    (Holds (si_code info = 0) (continued cpid Done))))).
  { intros tr. destruct info. cbn. intros (-> & -> & -> & H). done. }
  apply sees_neqb; [intros _|auto with sees]. unfold nz.
  apply sees_neqb; [intros _|auto with sees]. apply sees_neqb; auto with sees.
Qed.

Lemma parent_013_sees : sees (parent_func_013 im swait swake cpid) 0 (parent_script 13 cpid).
Proof.
  apply sees_parent_stop, sees_ptrace_ok. intros org. apply sees_ptrace_ok. intros _.
  apply sees_ptrace_ok. intros info. cbn [si_signo si_errno si_code].
  match goal with |- sees _ _ (Holds (?a = ?b /\ ?c = ?d /\ ?e = ?f) ?s) =>
    apply (sees_weaken _ _ (Holds (b = a) (Holds (d = c) (Holds (f = e) s)))) end.
  { cbn. naive_solver. }
  apply sees_neqb; [intros _|auto with sees]. apply sees_neqb; [intros _|auto with sees].
  apply sees_neqb; [intros _|auto with sees]. apply sees_say, sees_ptrace_ok. auto with sees.
Qed.

Lemma parent_014_sees : sees (parent_func_014 im swait swake cpid) 0 (parent_script 14 cpid).
Proof.
  apply sees_parent_stop, sees_ptrace_ok. intros _.
  apply sees_say. intros e tr e' (r & out & tr' & -> & H)%run_ptrace. cbv beta iota in H.
  destruct (nz (ret_int r)) eqn:E.
  - apply follows_saw; [cbn; intros E0; by rewrite E0 in E|]. by_sees H. cbn [negb].
    apply sees_get_errno. intros e0. apply (sees_weaken _ _ (Holds ((e0 =? EINVAL) = true) (continued cpid Done))).
    { intros ? [_ ?]. done. } auto with sees.
  - apply follows_cons. by_sees H. apply sees_say_cont.
Qed.

Lemma parent_015_sees : sees (parent_func_015 im swait swake cpid) 0 (parent_script 15 cpid).
Proof.
  apply sees_parent_stop, sees_ptrace_ok. intros _. apply sees_go_on, sees_wait_stopped, sees_go_on.
  apply sees_wait; cbn [fst snd]; [|intros r st s Hno|intros st; apply _].
  - intros st Hst. rewrite Z.eqb_refl, Hst. apply sees_peek. intros word. apply sees_ptrace_ok. intros msg.
    apply sees_eqb; [intros _|auto with sees]. apply sees_say, sees_bind. intros _. auto with sees.
  - rewrite if_negb. apply sees_if; intros E; [|apply sees_perror_out]. apply Z.eqb_eq in E as ->. rewrite if_negb.
    apply sees_if; intros Hst; [naive_solver|auto with sees].
Qed.

Lemma parent_017_sees : sees (parent_func_017 im swait swake cpid) 0 (parent_script 17 cpid).
Proof.
  apply sees_parent_stop, sees_write_brk. intros addr inst. apply sees_wait_trap, sees_ptrace_ok. auto with sees.
Qed.

(** Behind the calls of x86 that always fail. *)
Lemma parent_stub_sees n : n ∈ [10; 11; 12; 16]%nat -> sees (parent_func n swait swake cpid) 0 Impossible.
Proof.
  intros Hn. assert (forall p, sees p 0 Impossible -> sees (parent_stop im swait swake cpid p) 0 Impossible) as Hs.
  { intros p Hp e tr e' H. apply (sees_parent_stop _ _ _ _ Hp) in H. cbn in H. naive_solver. }
  assert (forall area addr msg k, (forall w, sees (k w) 0 Impossible) ->
    sees (peek im area cpid addr msg k) 0 Impossible) as Hp.
  { intros area addr msg k Hk e tr e' H. apply (sees_peek _ _ _ _ (fun _ => Impossible)) in H; [|done].
    cbn in H. naive_solver. }
  assert (forall b t p, b = true -> sees (if b : bool then say t;; cont im cpid (-1) else p) 0 Impossible) as Hb.
  { intros b t p ->. apply sees_say_cont. }
  repeat (apply elem_of_cons in Hn as [->|Hn]); [..|by apply elem_of_nil in Hn]; apply Hs.
  - by apply Hb.
  - apply Hp. intros w. by apply Hb.
  - apply Hp. intros w. by apply Hb.
  - intros e tr e' H. apply (sees_ptrace_ok PTRACE_SYSCALL _ _ (fun _ => Impossible)) in H; [cbn in H; naive_solver|].
    intros _ e1 tr1 e1' H1. apply (sees_wait_stopped _ Impossible) in H1; [cbn in H1; naive_solver|]. by apply Hb.
Qed.

Lemma parent_sees n : (1 <= n <= 20)%nat -> sees (parent_func n swait swake cpid) 0 (parent_script n cpid).
Proof.
  intros Hn. assert (n ∈ seq 1 20) as Hs by (apply elem_of_seq; lia). clear Hn. cbn [seq] in Hs.
  repeat (apply elem_of_cons in Hs as [->|Hs]); [..|by apply elem_of_nil in Hs].
  - apply sees_parent_stop. auto with sees.
  - apply parent_002_sees.
  - apply parent_003_sees.
  - apply sees_parent_stop. auto with sees.
  - apply parent_005_sees.
  - apply parent_006_sees.
  - apply sees_parent_stop. auto with sees.
  - apply parent_008_sees.
  - apply parent_009_sees.
  - apply (parent_stub_sees 10); set_solver.
  - apply (parent_stub_sees 11); set_solver.
  - apply (parent_stub_sees 12); set_solver.
  - apply parent_013_sees.
  - apply parent_014_sees.
  - apply parent_015_sees.
  - apply (parent_stub_sees 16); set_solver.
  - apply parent_017_sees.
  - apply sees_parent_stop, (sees_granted PTRACE_KILL _ (fun _ => Ret 0)); [|apply sees_perror_out].
    intros _. apply sees_done.
  - apply sees_parent_attach. auto with sees.
  - apply sees_parent_attach, (sees_granted PTRACE_DETACH _ (fun _ => _)); [|apply sees_perror_out].
    intros _. apply sees_done.
Qed.

End parents.

End scripts.

(** ** The frame *)

Lemma accepts_exit st k s :
  (WEXITSTATUS st = 0 -> sees k None s) -> sees (exit_check st k) None (Holds (WEXITSTATUS st = 0) s).
Proof. intros Hk. unfold exit_check, nz. apply sees_neqb; [done|]. intros s'. by apply sees_ret_other. Qed.

Lemma accepts_kill st k s :
  sees k None s ->
  sees (kill_check st k) None (Holds (WIFSIGNALED st = true /\ WTERMSIG st = SIGKILL) s).
Proof.
  intros Hk. apply (sees_weaken _ _ (Holds (WIFSIGNALED st = true) (Holds (WTERMSIG st = SIGKILL) s))).
  { cbn. naive_solver. }
  apply sees_test; [intros _|intros s'; by apply sees_ret_other].
  apply sees_neqb; [intros _; by apply sees_say|intros s'; by apply sees_ret_other].
Qed.

(** The final check of test case [n] passes for [child_end n] only. *)
Lemma final_sees n st k s :
  sees k None s ->
  sees ((if Nat.eqb n 18 then kill_check else exit_check) st k) None
    (Holds (if Nat.eqb n 18 then WIFSIGNALED st = true /\ WTERMSIG st = SIGKILL else WEXITSTATUS st = 0) s).
Proof. intros Hk. destruct (Nat.eqb n 18); [by apply accepts_kill|by apply accepts_exit]. Qed.

Lemma child_main_exits im pwait cwait f a s : sees (child_main im pwait cwait f) a s.
Proof.
  apply sees_bind. intros ret. apply sees_bind. intros r1. apply sees_bind. intros r2.
  apply sees_if; intros _; [apply sees_perror|]; apply sees_exit.
Qed.

Lemma parent_main_sees im n pwait cwait cpid :
  cpid <> -1 -> (1 <= n <= 20)%nat ->
  sees (parent_main im pwait cwait cpid (parent_func im n) (if Nat.eqb n 18 then kill_check else exit_check)) None
    (andthen (parent_script im n cpid) (Saw (SYS_wait4 (-1) 0) (child_end n) (fun _ => Done))).
Proof.
  intros Hc Hn. apply (sees_call _ _ _ _ _ 0); [by apply parent_sees| | |intros b; lia].
  - intros b Hb. do 2 (apply sees_bind; intros ?).
    apply sees_if; intros _; [apply sees_perror; by apply sees_ret_other|].
    intros e tr e' (r & st & tr' & -> & H)%run_wait4. apply follows_cons. by_sees H.
    apply sees_if; intros _; [apply sees_perror; by apply sees_ret_other|].
    eapply sees_weaken; [|apply (final_sees n st _ Impossible)]; [intros ? [_ H]; exact H|].
    unfold nz. replace (b =? 0) with false by lia. by apply sees_ret_other.
  - do 2 (apply sees_bind; intros ?).
    apply sees_if; intros _; [apply sees_perror; by apply sees_ret_other|].
    intros e tr e' (r & st & tr' & -> & H)%run_wait4. cbv beta iota in H.
    destruct (ret_int r =? -1) eqn:E.
    + apply follows_cons. by_sees H. apply sees_perror. by apply sees_ret_other.
    + apply ret_int_ok in E as [Hr _]. apply (final_sees n _ _ Done (sees_done _ _)) in H as [Hst _].
      by apply follows_saw.
Qed.

Lemma run_with_sees im n child_func :
  (1 <= n <= 20)%nat ->
  sees (run_with im (if Nat.eqb n 18 then kill_check else exit_check) child_func (parent_func im n)) None
    (expected im n).
Proof.
  intros Hn. apply sees_bind. intros pwait. apply sees_bind. intros cwait.
  apply sees_if; intros _; [apply sees_perror; by apply sees_ret_other|].
  do 2 (apply sees_bind; intros ?). apply sees_if; intros _; [apply sees_perror; by apply sees_ret_other|].
  destruct n as [|n]; [lia|]. apply sees_fork.
  - intros r Hr H0. split; [done|]. replace (r =? -1) with false by (unfold is_error in Hr; lia).
    replace (r =? 0) with false by lia. apply parent_main_sees; [unfold is_error in Hr; lia|done].
  - intros s. apply sees_perror. by apply sees_ret_other.
  - intros s. apply child_main_exits.
Qed.

(** 006 and 017 test the address again where they mean the instruction: a PEEKTEXT that fails goes
    unnoticed, and the text written is made of its -1. *)
Lemma peek_text_unchecked im cpid k e word inst tr o e' :
  s64 word <> -1 ->
  run (write_brk im cpid k) e
    (ev (SYS_ptrace (PTRACE_PEEK DATA (at_addr im)) cpid) (0, word) ::
     ev (SYS_ptrace (PTRACE_PEEK TEXT (u64 (s64 word))) cpid) (- EIO, inst) :: tr) o e' <->
  run (ptrace_ok im (PTRACE_POKE TEXT (u64 (s64 word)) 0xffffffff00000000) cpid "ptrace(PTRACE_POKETEXT)"
         (fun _ => go_on im cpid (k (s64 word) (-1)))) EIO tr o e'.
Proof.
  intros Hw. unfold write_brk, peek, ptrace_peek, trigger, mbind, prog_mbind. cbn [bind]. rewrite run_vis.
  cbn [bind fst snd is_error get_errno run andb Z.leb Z.compare]. rewrite andb_false_r, run_vis.
  cbn [bind fst snd run]. by replace (s64 word =? -1) with false by lia.
Qed.

(** Whatever the kernel replies, a test of the ptrace suite that returns NULL has seen what its
    number stands for, in this order: the child created; SIGSTOP sent (or the child attached) and its
    stop reported; the request under test granted with the values the test checks; the child
    continued; its end reported with the status the test demands.  010, 011, 012 and 016 have no
    such trace: with the stubs of x86 they cannot pass on any kernel. *)
Lemma ptrace_pass_follows im n p e tr e' :
  tests im !! n = Some p -> run p e tr (Returned None) e' -> follows (expected im n) tr.
Proof.
  intros Hp. destruct n as [|n].
  { injection Hp as <-. intros (r & tr' & -> & H)%run_fork. cbv beta in H.
    destruct (ret_int r =? -1) eqn:E; [by destruct H as (_ & [=] & _)|]. apply ret_int_ok in E as [Hr E]. rewrite E in H.
    destruct (Z.eqb_spec r 0) as [->|H0]; [destruct H as (? & ? & _ & ?); naive_solver|]. by apply follows_saw. }
  assert (S n ∈ seq 1 20) as Hn.
  { apply elem_of_seq. apply lookup_lt_Some in Hp. cbn in Hp. lia. }
  intros H. revert H. cut (sees p None (expected im (S n))); [intros Hs; apply Hs|].
  cbn [seq] in Hn. repeat (apply elem_of_cons in Hn as [E|Hn]); [..|by apply elem_of_nil in Hn];
    injection E as ->; injection Hp as <-;
    match goal with |- sees _ _ (expected _ ?k) => apply (run_with_sees im k); lia end.
Qed.


End PtraceProofs.
