(* ===== verification/PtraceRuns.v ===== *)
(** * The ptrace suite in every interleaving

    The tests run by several processes (Procs.v) on kernels that behave as documented (ProcSpec.v).
    Every interleaving is explored: which verdicts are possible, and that there is no deadlock where
    tracing is permitted. *)
From S2P Require Import Prelude CMachine Procs ProcSpec Ptrace Script PtraceProofs.
Import Procs ProcSpec Ptrace Script PtraceProofs.
#[local] Open Scope Z_scope.

Module PtraceRuns.

(** Where the linker puts the static variables. *)
Definition layout (strerror : Z -> string) (junk : Z) : image :=
  Image 0x601000 0x601008 0x601010 0x601020 strerror junk.
Definition statics : list Z := [0x601000; 0x601008; 0x601010; 0x601018; 0x601020].

(** ** Verdicts *)

Definition pass : option (outcome verdict) := Some (Returned None).
Definition fail : option (outcome verdict) := Some (Returned (Some "TP failed.")).
Definition no_child : option (outcome verdict) := Some (Returned (Some "wait() failed.")).

(** The verdicts of each test over all interleavings: where the USER area can be accessed, 004 and
    007 fail; 003, 006, 010, 011, 012, 016 and 017 cannot pass on x86; 008 and 015 depend on the
    order in which parent, child and grandchild run. *)
Definition verdicts (user : bool) (n : nat) : list (option (outcome verdict)) :=
  let no_user := if user then [fail] else [pass] in
  match n with
  | 3 | 10 | 16 => [fail]
  | 4 | 7 => no_user
  | 6 | 11 | 12 | 17 => [no_child; fail]
  | 8 | 15 => [pass; fail]
  | _ => [pass]
  end%nat.

(** ** Reflection *)

(** More steps than any of the tests takes. *)
Definition depth : nat := 100.

(** The tests with their numbers. *)
Definition numbered (im : image) : list (nat * prog verdict) := zip (seq 0 21) (tests im).
Definition all_results (strerror : Z -> string) (junk : Z) (trace user : bool)
    (expect : nat -> list (option (outcome verdict))) : bool :=
  forallb (fun '(n, p) => results_b depth (@start Spec p (boot statics trace user)) (expect n))
    (numbered (layout strerror junk)).

Lemma all_results_sound strerror junk trace user expect n p :
  all_results strerror junk trace user expect = true -> tests (layout strerror junk) !! n = Some p ->
  results_b depth (@start Spec p (boot statics trace user)) (expect n) = true.
Proof.
  unfold all_results. rewrite forallb_forall. intros Hall Hp.
  apply (Hall (n, p)). apply list_elem_of_In.
  apply list_elem_of_lookup. exists n. apply lookup_zip_Some. split; [|done].
  apply lookup_seq. split; [done|]. by apply lookup_lt_Some in Hp.
Qed.

Lemma traced_results strerror junk user : all_results strerror junk true user (verdicts user) = true.
Proof. destruct user; vm_compute; reflexivity. Qed.

(** Where tracing is refused, every test but the first hangs. *)
Definition hangs (n : nat) : list (option (outcome verdict)) := match n with O => [pass] | _ => [None] end.
Lemma refused_results strerror junk user : all_results strerror junk false user hangs = true.
Proof. destruct user; vm_compute; reflexivity. Qed.

(** ** On every kernel *)

Section kernel.
Context `{ProcLaws}.


(** Where the kernel refuses to trace, every test but 000 ends in a deadlock, in every
    interleaving: the child leaves, or waits, and the parent waits for it. *)
Theorem ptrace_refused_hangs strerror junk user n p s :
  view s = boot statics false user -> tests (layout strerror junk) !! S n = Some p ->
  always (eq None) (start p s).
Proof.
  intros E Hp. apply always_view; [done|]. rewrite (view_start _ _ _ E).
  assert (results_b depth (@start Spec p (boot statics false user)) (hangs (S n)) = true) as [Ha _]%results_b_sound
    by (eapply all_results_sound; [apply refused_results|done]). clear -Ha. induction Ha as [w Ht Ho|w Hn _ IH].
  - apply always_done; [done|]. symmetry. by apply list_elem_of_singleton.
  - by apply always_go.
Qed.

End kernel.

(** ** Verdicts in the world *)

(** A script that does not ask for output is followed by the trace without output. *)
Fixpoint audible (s : script) : Prop :=
  match s with
  | Done => True
  | Holds _ next => audible next
  | Saw c _ next => silent c = None /\ forall r, audible (next r)
  end.

Lemma follows_filter s tr : audible s -> follows s tr -> follows s (List.filter loud tr).
Proof.
  revert tr. induction s as [|P next IH|c P next IH]; intros tr; simpl; [done|naive_solver|].
  intros [Hc Ha] (tr1 & r & tr2 & -> & HP & H). exists (List.filter loud tr1), r, (List.filter loud tr2).
  rewrite List.filter_app. simpl. unfold loud at 2. simpl. rewrite Hc. naive_solver.
Qed.

Lemma audible_andthen s s' : audible s -> audible s' -> audible (andthen s s').
Proof. intros Hs Hs'. induction s as [|P next IH|c P next IH]; simpl in *; naive_solver. Qed.

Lemma audible_expected im n : audible (expected im n).
Proof.
  destruct n as [|n]; [done|]. split; [done|]. intros cpid. apply audible_andthen; [|done].
  do 20 (destruct n as [|n]; [cbn; tauto|]). done.
Qed.


Definition no_text (e : Z) : string := "".


Lemma ptrace_refused_hangs_witness :
  always (eq None) (@start Spec (test_001 (layout no_text 0)) (boot statics false true)).
Proof. apply (@ptrace_refused_hangs Spec SpecLaws no_text 0 true 0 _ (boot statics false true)); reflexivity. Defined.


End PtraceRuns.
