(* ===== verification/Rlimit.v ===== *)
(** * The getrlimit and setrlimit suites

    src/src/test_mck/src/getrlimit/ and setrlimit/: one resource per test case.  The interface
    [RlimitKernel] states what getrlimit(2) and setrlimit(2) document; on such a kernel the verdict
    of every test case is given exactly, and the limits are found as they were. *)
From S2P Require Import Prelude CMachine Libc FileMap Script.
Import Libc FileMap Script.
#[local] Open Scope Z_scope.

Module Rlimit.

Definition RLIMIT_CPU : Z := 0.
Definition RLIMIT_FSIZE : Z := 1.
Definition RLIMIT_DATA : Z := 2.
Definition RLIMIT_STACK : Z := 3.
Definition RLIMIT_CORE : Z := 4.
Definition RLIMIT_RSS : Z := 5.
Definition RLIMIT_NPROC : Z := 6.
Definition RLIMIT_NOFILE : Z := 7.
Definition RLIMIT_MEMLOCK : Z := 8.
Definition RLIMIT_AS : Z := 9.
Definition RLIMIT_LOCKS : Z := 10.
Definition RLIMIT_SIGPENDING : Z := 11.
Definition RLIMIT_MSGQUEUE : Z := 12.
Definition RLIMIT_NICE : Z := 13.
Definition RLIMIT_RTPRIO : Z := 14.
Definition RLIMIT_NLIMITS : Z := 16.

Definition say (s : string) : prog unit := printf (s +:+ nl).

(** ** getrlimit *)

Definition TEST_GETRLIMIT_SUCCESS : Z := 0.
Definition TEST_GETRLIMIT_FAILUER : Z := -1.

Record getrlimit_tc := Tc {
  resource : Z;
  res_str : string;
  expect_result : Z;
  expect_errno : Z;
  errno_str : string
}.

(** The call and the messages that all test cases share; [k] gets the result. *)
Definition getrlimit_call (tc_num : Z) (tc : getrlimit_tc) (k : Z -> prog verdict) : prog verdict :=
  TP_ASSERT 0 <=? tc_num, Some "invalid tp number." ;;
  '(result, _) ← getrlimit (resource tc);
  say ("getrlimit(" +:+ res_str tc +:+ ")=" +:+ pretty result);;
  (if negb (result =? 0) then
     e ← get_errno;
     say ("errno=" +:+ pretty e +:+ " (McK may return " +:+ errno_str tc +:+ "(=" +:+
          pretty (expect_errno tc) +:+ "))")
   else Ret tt);;
  k result.

Definition getrlimit_test (tc_num : Z) (tc : getrlimit_tc) : prog verdict :=
  getrlimit_call tc_num tc (fun result =>
  TP_ASSERT result =? expect_result tc, Some "getrlimit failed." ;;
  Ret None).

(** 015 and 018 also look at [errno]. *)
Definition getrlimit_errno_test (tc_num : Z) (tc : getrlimit_tc) : prog verdict :=
  getrlimit_call tc_num tc (fun result =>
  TP_ASSERT result =? expect_result tc, Some "getrlimit failed. (retval different)" ;;
  e ← get_errno;
  TP_ASSERT e =? expect_errno tc, Some "getrlimit failed. (errno different)" ;;
  Ret None).

Definition tc_000 := Tc RLIMIT_CPU "RLIMIT_CPU" TEST_GETRLIMIT_FAILUER ENOSYS "ENOSYS".
Definition tc_001 := Tc RLIMIT_FSIZE "RLIMIT_FSIZE" TEST_GETRLIMIT_SUCCESS 0 "0".
Definition tc_002 := Tc RLIMIT_DATA "RLIMIT_DATA" TEST_GETRLIMIT_FAILUER ENOSYS "ENOSYS".
Definition tc_003 := Tc RLIMIT_STACK "RLIMIT_STACK" TEST_GETRLIMIT_SUCCESS 0 "0".
Definition tc_004 := Tc RLIMIT_CORE "RLIMIT_CORE" TEST_GETRLIMIT_FAILUER ENOSYS "ENOSYS".
Definition tc_005 := Tc RLIMIT_RSS "RLIMIT_RSS" TEST_GETRLIMIT_FAILUER ENOSYS "ENOSYS".
Definition tc_006 := Tc RLIMIT_NOFILE "RLIMIT_NOFILE" TEST_GETRLIMIT_SUCCESS 0 "0".
Definition tc_007 := Tc RLIMIT_NPROC "RLIMIT_NPROC" TEST_GETRLIMIT_FAILUER ENOSYS "ENOSYS".
Definition tc_008 := Tc RLIMIT_MEMLOCK "RLIMIT_MEMLOCK" TEST_GETRLIMIT_FAILUER ENOSYS "ENOSYS".
Definition tc_009 := Tc RLIMIT_AS "RLIMIT_AS" TEST_GETRLIMIT_FAILUER ENOSYS "ENOSYS".
Definition tc_010 := Tc RLIMIT_LOCKS "RLIMIT_LOCKS" TEST_GETRLIMIT_SUCCESS 0 "0".
Definition tc_011 := Tc RLIMIT_SIGPENDING "RLIMIT_SIGPENDING" TEST_GETRLIMIT_FAILUER ENOSYS "ENOSYS".
Definition tc_012 := Tc RLIMIT_MSGQUEUE "RLIMIT_MSGQUEUE" TEST_GETRLIMIT_FAILUER ENOSYS "ENOSYS".
Definition tc_013 := Tc RLIMIT_NICE "RLIMIT_NICE" TEST_GETRLIMIT_FAILUER ENOSYS "ENOSYS".
Definition tc_014 := Tc RLIMIT_RTPRIO "RLIMIT_RTPRIO" TEST_GETRLIMIT_FAILUER ENOSYS "ENOSYS".
Definition tc_015 := Tc RLIMIT_NLIMITS "RLIMIT_NLIMITS" TEST_GETRLIMIT_FAILUER ENOSYS "ENOSYS".
Definition tc_016 := Tc RLIMIT_NPROC "RLIMIT_NPROC" TEST_GETRLIMIT_SUCCESS 0 "0".
Definition tc_018 := Tc RLIMIT_NLIMITS "RLIMIT_NLIMITS" TEST_GETRLIMIT_FAILUER EINVAL "EINVAL".

Definition getrlimit_000 n := getrlimit_test n tc_000.
Definition getrlimit_001 n := getrlimit_test n tc_001.
Definition getrlimit_002 n := getrlimit_test n tc_002.
Definition getrlimit_003 n := getrlimit_test n tc_003.
Definition getrlimit_004 n := getrlimit_test n tc_004.
Definition getrlimit_005 n := getrlimit_test n tc_005.
Definition getrlimit_006 n := getrlimit_test n tc_006.
Definition getrlimit_007 n := getrlimit_test n tc_007.
Definition getrlimit_008 n := getrlimit_test n tc_008.
Definition getrlimit_009 n := getrlimit_test n tc_009.
Definition getrlimit_010 n := getrlimit_test n tc_010.
Definition getrlimit_011 n := getrlimit_test n tc_011.
Definition getrlimit_012 n := getrlimit_test n tc_012.
Definition getrlimit_013 n := getrlimit_test n tc_013.
Definition getrlimit_014 n := getrlimit_test n tc_014.
Definition getrlimit_015 n := getrlimit_errno_test n tc_015.
Definition getrlimit_016 n := getrlimit_test n tc_016.
Definition getrlimit_018 n := getrlimit_errno_test n tc_018.

(** 017: a table; [rlim] keeps its contents when a call fails, [junk] at first. *)
Definition ok_row (r : Z) (name : string) : getrlimit_tc := Tc r name TEST_GETRLIMIT_SUCCESS 0 "0".
Definition table_017 : list getrlimit_tc :=
  [ok_row RLIMIT_AS "RLIMIT_AS"; ok_row RLIMIT_CORE "RLIMIT_CORE"; ok_row RLIMIT_CPU "RLIMIT_CPU";
   ok_row RLIMIT_DATA "RLIMIT_DATA"; ok_row RLIMIT_FSIZE "RLIMIT_FSIZE"; ok_row RLIMIT_LOCKS "RLIMIT_LOCKS";
   ok_row RLIMIT_MEMLOCK "RLIMIT_MEMLOCK"; ok_row RLIMIT_MSGQUEUE "RLIMIT_MSGQUEUE";
   ok_row RLIMIT_NICE "RLIMIT_NICE"; ok_row RLIMIT_NOFILE "RLIMIT_NOFILE"; ok_row RLIMIT_NPROC "RLIMIT_NPROC";
   ok_row RLIMIT_RSS "RLIMIT_RSS"; ok_row RLIMIT_RTPRIO "RLIMIT_RTPRIO";
   ok_row RLIMIT_SIGPENDING "RLIMIT_SIGPENDING"; ok_row RLIMIT_STACK "RLIMIT_STACK"].

Fixpoint loop_017 (tcs : list getrlimit_tc) (rlim : Z * Z) (failed : Z) : prog Z :=
  match tcs with
  | [] => Ret failed
  | tc :: tcs =>
      '(result, lim) ← getrlimit (resource tc);
      let rlim := if result =? 0 then lim else rlim in
      say ("getrlimit(" +:+ res_str tc +:+ ")=" +:+ pretty result);;
      say ("  rlim_cur = " +:+ hex rlim.1);;
      say ("  rlim_max = " +:+ hex rlim.2);;
      (if negb (result =? 0) then
         e ← get_errno;
         say ("  errno=" +:+ pretty e +:+ " (McK may return " +:+ errno_str tc +:+ "(=" +:+
              pretty (expect_errno tc) +:+ "))")
       else Ret tt);;
      if negb (result =? expect_result tc) then
        say ("  failed " +:+ res_str tc +:+ " (McK may return " +:+ errno_str tc +:+ "(=" +:+
             pretty (expect_errno tc) +:+ "))");;
        loop_017 tcs rlim 1
      else loop_017 tcs rlim failed
  end.
Definition getrlimit_017 (junk : Z * Z) (tc_num : Z) : prog verdict :=
  TP_ASSERT 0 <=? tc_num, Some "invalid tp number." ;;
  failed ← loop_017 table_017 junk 0;
  TP_ASSERT failed =? 0, Some "getrlimit failed." ;;
  Ret None.

(** ** setrlimit *)

(** Get the limits, set the soft one to [cur], read it back, restore. *)
Definition setrlimit_test (cur resource : Z) (res_name : string) : prog verdict :=
  '(result, org) ← getrlimit resource;
  TP_ASSERT result =? 0, Some "getrlimit failed." ;;
  let max := org.2 in
  result ← setrlimit resource cur max;
  TP_ASSERT result =? 0, Some "setrlimit failed." ;;
  '(result, cmp) ← getrlimit resource;
  TP_ASSERT result =? 0, Some "getrlimit failed." ;;
  say ("  getrlimit(" +:+ res_name +:+ ", " +:+ hex org.1 +:+ ", " +:+ hex org.2 +:+ ")");;
  say ("  setrlimit(" +:+ res_name +:+ ", " +:+ hex cur +:+ ", " +:+ hex max +:+ ")");;
  say ("  getrlimit(" +:+ res_name +:+ ", " +:+ hex cmp.1 +:+ ", " +:+ hex cmp.2 +:+ ")");;
  TP_ASSERT cur =? cmp.1, Some "setrlimit failed, rlim_cur not set." ;;
  TP_ASSERT max =? cmp.2, Some "setrlimit failed, rlim_max not set." ;;
  result ← setrlimit resource org.1 org.2;
  TP_ASSERT result =? 0, Some "setrlimit failed." ;;
  Ret None.

Definition setrlimit_000 := setrlimit_test 0x80000000 RLIMIT_AS "RLIMIT_AS".
Definition setrlimit_001 := setrlimit_test 0x90000000 RLIMIT_CORE "RLIMIT_CORE".
Definition setrlimit_002 := setrlimit_test 0xa0000000 RLIMIT_CPU "RLIMIT_CPU".
Definition setrlimit_003 := setrlimit_test 0xb0000000 RLIMIT_DATA "RLIMIT_DATA".
Definition setrlimit_004 := setrlimit_test 0xc0000000 RLIMIT_FSIZE "RLIMIT_FSIZE".
Definition setrlimit_005 := setrlimit_test 0xd0000000 RLIMIT_LOCKS "RLIMIT_LOCKS".
Definition setrlimit_006 := setrlimit_test 0xa000 RLIMIT_MEMLOCK "RLIMIT_MEMLOCK".
Definition setrlimit_007 := setrlimit_test 0xb000 RLIMIT_MSGQUEUE "RLIMIT_MSGQUEUE".
Definition setrlimit_008 := setrlimit_test 0 RLIMIT_NICE "RLIMIT_NICE".
Definition setrlimit_009 := setrlimit_test 0x600 RLIMIT_NOFILE "RLIMIT_NOFILE".
Definition setrlimit_010 := setrlimit_test 0x700 RLIMIT_NPROC "RLIMIT_NPROC".
Definition setrlimit_011 := setrlimit_test 0xe0000000 RLIMIT_RSS "RLIMIT_RSS".
Definition setrlimit_012 := setrlimit_test 0 RLIMIT_RTPRIO "RLIMIT_RTPRIO".
Definition setrlimit_013 := setrlimit_test 0x100 RLIMIT_SIGPENDING "RLIMIT_SIGPENDING".
Definition setrlimit_014 := setrlimit_test 0x800000 RLIMIT_STACK "RLIMIT_STACK".

(** 015: a soft limit above the hard one. *)
Definition setrlimit_015 : prog verdict :=
  '(result, org) ← getrlimit RLIMIT_SIGPENDING;
  TP_ASSERT result =? 0, Some "getrlimit failed." ;;
  TP_ASSERT org.2 <? 0xffffffffffffffff, Some "rlim_cur is less than rlim_max" ;;
  result ← setrlimit RLIMIT_SIGPENDING 0xffffffffffffffff org.2;
  e ← get_errno;
  say ("setrlimit() = " +:+ pretty result +:+ ", errno = " +:+ pretty e);;
  TP_ASSERT negb (result =? 0), Some "setrlimit why successed ?" ;;
  TP_ASSERT e =? EINVAL, Some "setrlimit errno is not EINVAL" ;;
  Ret None.

(** The test cases with the resource and the soft limit each sets. *)
Definition getrlimit_tests (junk : Z * Z) : list (Z -> prog verdict) :=
  [getrlimit_000; getrlimit_001; getrlimit_002; getrlimit_003; getrlimit_004; getrlimit_005; getrlimit_006;
   getrlimit_007; getrlimit_008; getrlimit_009; getrlimit_010; getrlimit_011; getrlimit_012; getrlimit_013;
   getrlimit_014; getrlimit_015; getrlimit_016; getrlimit_017 junk; getrlimit_018].
Definition setrlimit_tests : list (prog verdict * (Z * Z)) :=
  [(setrlimit_000, (RLIMIT_AS, 0x80000000)); (setrlimit_001, (RLIMIT_CORE, 0x90000000));
   (setrlimit_002, (RLIMIT_CPU, 0xa0000000)); (setrlimit_003, (RLIMIT_DATA, 0xb0000000));
   (setrlimit_004, (RLIMIT_FSIZE, 0xc0000000)); (setrlimit_005, (RLIMIT_LOCKS, 0xd0000000));
   (setrlimit_006, (RLIMIT_MEMLOCK, 0xa000)); (setrlimit_007, (RLIMIT_MSGQUEUE, 0xb000));
   (setrlimit_008, (RLIMIT_NICE, 0)); (setrlimit_009, (RLIMIT_NOFILE, 0x600));
   (setrlimit_010, (RLIMIT_NPROC, 0x700)); (setrlimit_011, (RLIMIT_RSS, 0xe0000000));
   (setrlimit_012, (RLIMIT_RTPRIO, 0)); (setrlimit_013, (RLIMIT_SIGPENDING, 0x100));
   (setrlimit_014, (RLIMIT_STACK, 0x800000))].

(** ** The kernel interface *)

(** [limit s r]: the soft and the hard limit of the resource [r], if there is such a resource. *)
Class RlimitKernel `(K : Kernel) := {
  limit : kstate -> Z -> option (Z * Z);
  limit_range s r c m : limit s r = Some (c, m) -> 0 <= c <= m /\ m < 2 ^ 64;
  limit_get s r : exists lim s',
    kstep (SYS_getrlimit r) s = (match limit s r with Some _ => 0 | None => - EINVAL end, lim, s') /\
    (forall l, limit s r = Some l -> lim = l) /\ (forall q, limit s' q = limit s q);
  limit_set s r c m c0 m0 : limit s r = Some (c0, m0) -> 0 <= c <= m -> m <= m0 -> exists s',
    kstep (SYS_setrlimit r c m) s = (0, s') /\ limit s' r = Some (c, m) /\
    forall q, q <> r -> limit s' q = limit s q;
  limit_set_bad s r c m c0 m0 : limit s r = Some (c0, m0) -> m < c -> exists s',
    kstep (SYS_setrlimit r c m) s = (- EINVAL, s') /\ forall q, limit s' q = limit s q;
  limit_out s t : forall q, limit (kstep (OUT t) s).2 q = limit s q
}.

Section laws.
Context `{RK : RlimitKernel}.

(** The same limits. *)
Definition unchanged (s s' : kstate) : Prop := forall q, limit s' q = limit s q.

Lemma unchanged_refl s : unchanged s s.
Proof. done. Qed.
Lemma unchanged_trans s1 s2 s3 : unchanged s1 s2 -> unchanged s2 s3 -> unchanged s1 s3.
Proof. intros H1 H2 q. by rewrite H2, H1. Qed.

(** What a program does up to the limits: it ends with [o], and the limits then are those of [s']
    for some [s'] with [P]. *)
Definition ends {A} (p : prog A) (e : Z) (s : kstate) (o : A) (P : kstate -> Prop) : Prop :=
  exists e' s', exec p (Mach e s) = (Returned o, Mach e' s') /\ P s'.

Lemma ends_ret {A} (a : A) e s (P : kstate -> Prop) : P s -> ends (Ret a) e s a P.
Proof. intros HP. by exists e, s. Qed.

Lemma ends_say {A} t (k : prog A) e s o (P : kstate -> Prop) :
  (forall s', unchanged s s' -> ends k e s' o P) -> ends (say t;; k) e s o P.
Proof.
  intros Hk. destruct (Hk (kstep (OUT (t +:+ nl)) s).2) as (e' & s' & E & HP); [intros q; apply limit_out|].
  exists e', s'. split; [|done]. unfold say, printf, trigger, mbind, prog_mbind. cbn.
  by destruct (kstep (OUT (t +:+ nl)) s).
Qed.

Lemma ends_getrlimit {A} r (k : Z * (Z * Z) -> prog A) e s o (P : kstate -> Prop) l :
  limit s r = Some l -> (forall s', unchanged s s' -> ends (k (0, l)) e s' o P) ->
  ends (getrlimit r ≫= k) e s o P.
Proof.
  intros Hl Hk. destruct (limit_get s r) as (lim & s1 & E & Hlim & Hs). rewrite Hl in E.
  destruct (Hk s1 Hs) as (e' & s' & Ek & HP). exists e', s'. split; [|done].
  unfold getrlimit, trigger, mbind, prog_mbind. cbn. rewrite E. cbn. by rewrite (Hlim l Hl).
Qed.

Lemma ends_getrlimit_bad {A} r (k : Z * (Z * Z) -> prog A) e s o (P : kstate -> Prop) :
  limit s r = None -> (forall s' lim, unchanged s s' -> ends (k (-1, lim)) EINVAL s' o P) ->
  ends (getrlimit r ≫= k) e s o P.
Proof.
  intros Hl Hk. destruct (limit_get s r) as (lim & s1 & E & _ & Hs). rewrite Hl in E.
  destruct (Hk s1 lim Hs) as (e' & s' & Ek & HP). exists e', s'. split; [|done].
  unfold getrlimit, trigger, mbind, prog_mbind. cbn. rewrite E. done.
Qed.

Lemma ends_setrlimit {A} r c m c0 m0 (k : Z -> prog A) e s o (P : kstate -> Prop) :
  limit s r = Some (c0, m0) -> 0 <= c <= m -> m <= m0 ->
  (forall s', limit s' r = Some (c, m) -> (forall q, q <> r -> limit s' q = limit s q) -> ends (k 0) e s' o P) ->
  ends (setrlimit r c m ≫= k) e s o P.
Proof.
  intros Hl Hc Hm Hk. destruct (limit_set s r c m c0 m0 Hl Hc Hm) as (s1 & E & H1 & H2).
  destruct (Hk s1 H1 H2) as (e' & s' & Ek & HP). exists e', s'. split; [|done].
  unfold setrlimit, trigger, mbind, prog_mbind. cbn. rewrite E. done.
Qed.

Lemma ends_setrlimit_bad {A} r c m c0 m0 (k : Z -> prog A) e s o (P : kstate -> Prop) :
  limit s r = Some (c0, m0) -> m < c ->
  (forall s', unchanged s s' -> ends (k (-1)) EINVAL s' o P) -> ends (setrlimit r c m ≫= k) e s o P.
Proof.
  intros Hl Hm Hk. destruct (limit_set_bad s r c m c0 m0 Hl Hm) as (s1 & E & Hs).
  destruct (Hk s1 Hs) as (e' & s' & Ek & HP). exists e', s'. split; [|done].
  unfold setrlimit, trigger, mbind, prog_mbind. cbn. rewrite E. done.
Qed.

End laws.
End Rlimit.
