(* ===== verification/RlimitProofs.v ===== *)
(** * Verdicts of the getrlimit and setrlimit suites

    On every [RlimitKernel]: the verdict of each test case, and the limits afterwards.  Then what a
    passing setrlimit test has seen on any kernel. *)
From S2P Require Import Prelude CMachine Libc FileMap Script Rlimit.
Import Libc FileMap Script Rlimit.
#[local] Open Scope Z_scope.

Module RlimitProofs.

Section verdicts.
Context `{RK : RlimitKernel}.

(** ** setrlimit *)

Lemma setrlimit_ends r v name c m e s :
  limit s r = Some (c, m) -> 0 <= v ->
  ends (setrlimit_test v r name) e s (if v <=? m then None else Some "setrlimit failed.") (unchanged s).
Proof.
  intros Hl Hv. destruct (limit_range s r c m Hl) as [Hc _]. unfold setrlimit_test.
  eapply ends_getrlimit; [done|]. intros s1 H1. cbn [tp_assert Z.eqb fst snd].
  destruct (Z.leb_spec v m) as [Hle|Hlt].
  - eapply ends_setrlimit; [by rewrite H1|lia|lia|]. intros s2 Hr Ho. cbn [tp_assert Z.eqb].
    eapply ends_getrlimit; [done|]. intros s3 H3. cbn [tp_assert Z.eqb fst snd].
    apply ends_say. intros sa Ha. apply ends_say. intros sb Hb. apply ends_say. intros sc Hd.
    rewrite !Z.eqb_refl. cbn [tp_assert].
    assert (unchanged s2 sc) as Hs by (intros q; by rewrite Hd, Hb, Ha, H3).
    eapply ends_setrlimit; [by rewrite Hs, Hr|lia|lia|]. intros s4 Hr4 Ho4. cbn [tp_assert Z.eqb].
    apply ends_ret. intros q. destruct (decide (q = r)) as [->|Hq]; [congruence|].
    by rewrite Ho4, Hs, Ho, H1.
  - eapply ends_setrlimit_bad; [by rewrite H1|lia|]. intros s2 H2. apply ends_ret.
    by eapply unchanged_trans.
Qed.

(** C15: On every kernel with the documented behaviour of setrlimit, test case [n] of 000 to 014
    passes exactly when the soft limit it sets is within the hard limit of its resource, fails with
    "setrlimit failed." otherwise, and in both cases leaves every limit as it was. *)
Theorem setrlimit_verdicts n p r v c m e s :
  setrlimit_tests !! n = Some (p, (r, v)) -> limit s r = Some (c, m) ->
  exists e' s', exec p (Mach e s) = (Returned (if v <=? m then None else Some "setrlimit failed."), Mach e' s') /\
    forall q, limit s' q = limit s q.
Proof.
  intros Hn Hl. assert (exists name, 0 <= v /\ p = setrlimit_test v r name) as (name & Hv & ->).
  { do 15 (destruct n as [|n]; [injection Hn as <- <- <-; eexists; split; [|reflexivity]; done|]). done. }
  exact (setrlimit_ends r v name c m e s Hl Hv).
Qed.

(** 015 passes where the hard limit is not the largest value there is. *)
Lemma setrlimit_015_verdict c m e s :
  limit s RLIMIT_SIGPENDING = Some (c, m) ->
  ends setrlimit_015 e s (if m =? 2 ^ 64 - 1 then Some "rlim_cur is less than rlim_max" else None) (unchanged s).
Proof.
  intros Hl. destruct (limit_range _ _ _ _ Hl) as [Hc Hm]. unfold setrlimit_015.
  eapply ends_getrlimit; [done|]. intros s1 H1. cbn [fst snd].
  destruct (Z.eqb_spec m (2 ^ 64 - 1)) as [->|Hne]; [by apply ends_ret|].
  replace (m <? 0xffffffffffffffff) with true by lia. cbn [tp_assert Z.eqb].
  eapply ends_setrlimit_bad; [by rewrite H1|lia|]. intros s2 H2.
  unfold get_errno, mbind, prog_mbind. cbn [bind].
  apply (ends_say _ _ EINVAL s2 None (unchanged s)). intros s3 H3. apply ends_ret.
  eauto using unchanged_trans.
Qed.

(** ** getrlimit *)

(** The message of a failed call; a successful one leaves [errno] alone. *)
Lemma getrlimit_call_ends n tc (k : Z -> prog verdict) e s o :
  0 <= n ->
  (forall e' s', unchanged s s' -> e' = (match limit s (resource tc) with Some _ => e | None => EINVAL end) ->
     ends (k (match limit s (resource tc) with Some _ => 0 | None => -1 end)) e' s' o (unchanged s')) ->
  ends (getrlimit_call n tc k) e s o (unchanged s).
Proof.
  intros Hn Hk. unfold getrlimit_call. replace (0 <=? n) with true by lia. cbn [tp_assert].
  assert (forall s1, unchanged s s1 -> ends (k (match limit s (resource tc) with Some _ => 0 | None => -1 end))
    (match limit s (resource tc) with Some _ => e | None => EINVAL end) s1 o (unchanged s)) as Hk'.
  { intros s1 H1. destruct (Hk _ s1 H1 eq_refl) as (e' & s' & E & H'). exists e', s'. split; [done|].
    by eapply unchanged_trans. }
  destruct (limit s (resource tc)) as [l|] eqn:Hl.
  - eapply ends_getrlimit; [done|]. intros s1 H1. apply ends_say. intros s2 H2. apply Hk'.
    by eapply unchanged_trans.
  - eapply ends_getrlimit_bad; [done|]. intros s1 lim H1. apply ends_say. intros s2 H2.
    unfold get_errno, mbind, prog_mbind. cbn [negb Z.eqb bind].
    apply (ends_say _ (k (-1)) EINVAL s2 o (unchanged s)).
    intros s3 H3. apply Hk'. eauto using unchanged_trans.
Qed.

(** The table of 017, when every resource of it is known. *)
Lemma loop_017_ends tcs rlim e s failed :
  Forall (fun tc => expect_result tc = 0 /\ limit s (resource tc) <> None) tcs ->
  ends (loop_017 tcs rlim failed) e s failed (unchanged s).
Proof.
  revert rlim s. induction tcs as [|tc tcs IH]; intros rlim s Hall; cbn [loop_017].
  { by apply ends_ret. }
  apply Forall_cons in Hall as [[He Hr] Hall]. destruct (limit s (resource tc)) as [l|] eqn:Hl; [|done].
  eapply ends_getrlimit; [done|]. intros s1 H1. cbn [Z.eqb negb].
  apply ends_say. intros sa Ha. apply ends_say. intros sb Hb. apply ends_say. intros sc Hd.
  rewrite He. cbn [Z.eqb negb].
  assert (unchanged s sc) as Hs by (intros q; by rewrite Hd, Hb, Ha, H1).
  destruct (IH (if 0 =? 0 then l else rlim) sc) as (e' & s'' & E & H').
  { eapply Forall_impl; [done|]. intros tc' [E1 E2]. by rewrite Hs. }
  exists e', s''. split; [done|]. by eapply unchanged_trans.
Qed.

(** On every kernel that knows the resources up to RLIMIT_RTPRIO and no RLIMIT_NLIMITS, exactly
    the test cases 001, 003, 006, 010 and 016 to 018 pass: the cases that expect ENOSYS contradict
    those that expect success or EINVAL for the same resource.  No limit changes. *)
Theorem getrlimit_verdicts junk n t num e s :
  getrlimit_tests junk !! n = Some t -> 0 <= num ->
  (forall r, 0 <= r <= RLIMIT_RTPRIO -> limit s r <> None) -> limit s RLIMIT_NLIMITS = None ->
  exists e' s', exec (t num) (Mach e s) =
      (Returned (if bool_decide (n ∈ [1; 3; 6; 10; 16; 17; 18]%nat) then None
                 else Some (if Nat.eqb n 15 then "getrlimit failed. (errno different)" else "getrlimit failed.")),
       Mach e' s') /\ forall q, limit s' q = limit s q.
Proof.
  intros Hn Hnum Hr Hno.
  assert (forall tc, 0 <= resource tc <= RLIMIT_RTPRIO ->
    ends (getrlimit_test num tc) e s (if 0 =? expect_result tc then None else Some "getrlimit failed.") (unchanged s)) as Ht.
  { intros tc Htc. apply getrlimit_call_ends; [done|]. intros e' s' _ _. specialize (Hr _ Htc).
    destruct (limit s (resource tc)); [|done]. destruct (0 =? expect_result tc); by apply ends_ret. }
  assert (forall tc, resource tc = RLIMIT_NLIMITS -> expect_result tc = -1 ->
    ends (getrlimit_errno_test num tc) e s
      (if EINVAL =? expect_errno tc then None else Some "getrlimit failed. (errno different)") (unchanged s)) as Hb.
  { intros tc E1 E2. apply getrlimit_call_ends; [done|]. intros e' s' _ He'. rewrite E1, Hno in He' |- *.
    subst e'. rewrite E2. cbn [tp_assert Z.eqb]. unfold get_errno, mbind, prog_mbind.
    change (ends (tp_assert (EINVAL =? expect_errno tc) (Some "getrlimit failed. (errno different)") (Ret None))
      EINVAL s' (if EINVAL =? expect_errno tc then None else Some "getrlimit failed. (errno different)") (unchanged s')).
    destruct (EINVAL =? expect_errno tc); by apply ends_ret. }
  destruct (decide (n = 17%nat)) as [->|H17].
  - injection Hn as <-. unfold getrlimit_017. replace (0 <=? num) with true by lia. cbn [tp_assert].
    destruct (loop_017_ends table_017 junk e s 0) as (e' & s' & E & Hs).
    { assert (forallb (fun tc => (expect_result tc =? 0) && in_range 0 15 (resource tc)) table_017 = true) as Ha
        by reflexivity. rewrite forallb_forall in Ha. apply Forall_forall. intros tc Htc%list_elem_of_In%Ha.
      apply andb_true_iff in Htc as [E1%Z.eqb_eq E2%in_range_spec]. split; [done|].
      apply Hr. unfold RLIMIT_RTPRIO. lia. }
    exists e', s'. split; [|done]. by rewrite (exec_mbind _ _ _ _ _ E).
  - do 19 (destruct n as [|n]; [injection Hn as <-;
      match goal with |- context [exec (?f num)] =>
        first [by destruct H17 |
          lazymatch eval unfold f in (f num) with
          | getrlimit_test _ ?tc => apply (Ht tc); split; discriminate
          | getrlimit_errno_test _ ?tc => apply (Hb tc); reflexivity
          end] end|]).
    discriminate Hn.
Qed.

End verdicts.

(** ** On any kernel *)

Lemma run_getrlimit {A} r (k : Z * (Z * Z) -> prog A) e tr o e' :
  run (getrlimit r ≫= k) e tr o e' ->
  exists x lim tr', tr = ev (SYS_getrlimit r) (x, lim) :: tr' /\
    run (k (ret_int x, lim)) (errno_after e x) tr' o e'.
Proof.
  intros ([x lim] & tr' & -> & H). exists x, lim, tr'. split; [done|].
  unfold ret_int, errno_after, syscall_ret in *. cbn in H. by destruct (is_error x).
Qed.

Lemma run_setrlimit {A} r c m (k : Z -> prog A) e tr o e' :
  run (setrlimit r c m ≫= k) e tr o e' ->
  exists x tr', tr = ev (SYS_setrlimit r c m) x :: tr' /\ run (k (ret_int x)) (errno_after e x) tr' o e'.
Proof. follow_wrapper. Qed.

Lemma sees_getrlimit r (k : Z * Z -> prog verdict) msg next :
  (forall lim, sees (k lim) None (next lim)) ->
  sees ('(result, lim) ← getrlimit r; TP_ASSERT result =? 0, Some msg ;; k lim) None
    (Saw (SYS_getrlimit r) (fun x => x.1 = 0) (fun x => next x.2)).
Proof.
  intros Hk e tr e' (x & lim & tr' & -> & H)%run_getrlimit. cbv beta iota in H.
  apply run_tp_assert in H as [[E%ret_int_zero H]|(_ & _ & ? & _)]; [|done]. apply follows_saw; [done|].
  by eapply Hk.
Qed.

Lemma sees_setrlimit r c m (k : prog verdict) msg s :
  sees k None s ->
  sees (result ← setrlimit r c m; TP_ASSERT result =? 0, Some msg ;; k) None
    (Saw (SYS_setrlimit r c m) (fun x => x = 0) (fun _ => s)).
Proof.
  intros Hk e tr e' (x & tr' & -> & H)%run_setrlimit.
  apply run_tp_assert in H as [[E%ret_int_zero H]|(_ & _ & ? & _)]; [|done]. apply follows_saw; [done|].
  by eapply Hk.
Qed.

(** C16: Whatever the kernel replies, a passing test of setrlimit 000 to 014 has read the limits of its
    resource, set the soft one, read back exactly the limits it set, and restored what it read. *)
Theorem setrlimit_pass_evidence n p r v e tr e' :
  setrlimit_tests !! n = Some (p, (r, v)) -> run p e tr (Returned None) e' ->
  follows (Saw (SYS_getrlimit r) (fun x => x.1 = 0) (fun org =>
           Saw (SYS_setrlimit r v org.2.2) (fun x => x = 0) (fun _ =>
           Saw (SYS_getrlimit r) (fun x => x = (0, (v, org.2.2))) (fun _ =>
           Saw (SYS_setrlimit r org.2.1 org.2.2) (fun x => x = 0) (fun _ => Done))))) tr.
Proof.
  intros Hn. assert (exists name, p = setrlimit_test v r name) as (name & ->).
  { do 15 (destruct n as [|n]; [injection Hn as <- <- <-; by eexists|]). done. }
  intros H. by_sees H. apply (sees_getrlimit r _ _ (fun org => Saw (SYS_setrlimit r v org.2) (fun x => x = 0) (fun _ =>
    Saw (SYS_getrlimit r) (fun x => x = (0, (v, org.2))) (fun _ =>
    Saw (SYS_setrlimit r org.1 org.2) (fun x => x = 0) (fun _ => Done))))).
  intros org. apply sees_setrlimit. intros e1 tr1 e1' (x & cmp & tr2 & -> & H)%run_getrlimit. cbv beta iota in H.
  apply run_tp_assert in H as [[E%ret_int_zero H]|(_ & _ & ? & _)]; [|done]. subst x.
  assert (cmp = (v, org.2) /\ follows (Saw (SYS_setrlimit r org.1 org.2) (fun x => x = 0) (fun _ => Done)) tr2)
    as [-> H']; [|by apply follows_saw].
  change (follows (Holds (cmp = (v, org.2)) (Saw (SYS_setrlimit r org.1 org.2) (fun x => x = 0) (fun _ => Done))) tr2).
  by_sees H. do 3 apply sees_printf. destruct cmp as [c' m']. cbn [fst snd].
  destruct (Z.eqb_spec v c') as [<-|]; [|by apply sees_ret_other]. cbn [tp_assert].
  destruct (Z.eqb_spec org.2 m') as [<-|]; [|by apply sees_ret_other]. cbn [tp_assert].
  intros e2 tr3 e2' H2. split; [done|]. by_sees H2. apply sees_setrlimit, sees_done.
Qed.

(** ** A kernel of the interface *)

Abbreviation limits := (gmap Z (Z * Z)).

(** Only limits within the range of the type are limits. *)
Definition in_bounds (l : Z * Z) : bool := (0 <=? l.1) && (l.1 <=? l.2) && (l.2 <? 2 ^ 64).
Definition known (s : limits) (r : Z) : option (Z * Z) :=
  match s !! r with Some l => if in_bounds l then Some l else None | None => None end.
Definition limits_step (c : cmd) (s : limits) : reply c * limits :=
  match c with
  | SYS_getrlimit r => (match known s r with Some l => (0, l) | None => (- EINVAL, (0, 0)) end, s)
  | SYS_setrlimit r c m =>
      match known s r with
      | Some (c0, m0) =>
          if m <? c then (- EINVAL, s) else if m0 <? m then (- EPERM, s) else (0, <[r := (c, m)]> s)
      | None => (- EINVAL, s)
      end
  | c => (no_reply c, s)
  end.
Definition limits_kernel : Kernel := {| kstate := limits; kstep := limits_step |}.

Lemma known_bounded s r l : known s r = Some l -> in_bounds l = true.
Proof. unfold known. repeat case_match; naive_solver. Qed.

Lemma known_insert (s : limits) r l : in_bounds l = true -> known (<[r := l]> s) r = Some l.
Proof. intros Hl. unfold known. by rewrite lookup_insert_eq, Hl. Qed.
Lemma known_insert_ne (s : limits) r l q : q <> r -> known (<[r := l]> s) q = known s q.
Proof. intros Hq. unfold known. by rewrite lookup_insert_ne. Qed.

Definition limits_laws : RlimitKernel limits_kernel.
Proof.
  refine {| limit := known : @kstate limits_kernel -> _ |}.
  - intros s r c m H%known_bounded. unfold in_bounds in H. cbn in H. lia.
  - intros s r. cbn. exists (match known s r with Some l => l | None => (0, 0) end), s.
    split; [by destruct (known s r)|]. split; [by intros l ->|done].
  - intros s r c m c0 m0 Hl Hc Hm. cbn. rewrite Hl.
    replace (m <? c) with false by lia. replace (m0 <? m) with false by lia.
    eexists. split; [done|]. apply known_bounded in Hl. unfold in_bounds in Hl. cbn in Hl.
    split; [apply known_insert; unfold in_bounds; cbn; lia|]. intros q Hq. by apply known_insert_ne.
  - intros s r c m c0 m0 Hl Hm. cbn. rewrite Hl. replace (m <? c) with true by lia. by exists s.
  - done.
Defined.

(** The usual limits. *)
Definition usual : limits := list_to_map ((fun r => (Z.of_nat r, (0x1000, 2 ^ 64 - 1))) <$> seq 0 16).

Lemma setrlimit_verdicts_witness :
  exists e' s', @exec limits_kernel _ setrlimit_002 (@Mach limits_kernel 0 usual) = (Returned None, Mach e' s') /\
    forall q, known s' q = known usual q.
Proof.
  exact (setrlimit_verdicts (RK := limits_laws) 2 setrlimit_002 RLIMIT_CPU 0xa0000000 0x1000 (2 ^ 64 - 1) 0 usual
           eq_refl ltac:(vm_compute; reflexivity)).
Defined.

Lemma getrlimit_verdicts_witness :
  exists e' s', @exec limits_kernel _ (getrlimit_018 0) (@Mach limits_kernel 0 usual) = (Returned None, Mach e' s') /\
    forall q, known s' q = known usual q.
Proof.
  refine (getrlimit_verdicts (RK := limits_laws) (0, 0) 18 getrlimit_018 0 0 usual eq_refl ltac:(lia) _ _);
    [|by vm_compute]. unfold RLIMIT_RTPRIO. intros r Hr.
  assert (r = Z.of_nat (Z.to_nat r)) as -> by lia. assert (Z.to_nat r < 15)%nat as Hn by lia.
  revert Hn. generalize (Z.to_nat r). intros n Hn. do 15 (destruct n as [|n]; [by vm_compute|]). lia.
Defined.

Lemma setrlimit_pass_evidence_witness :
  exists tr, follows (Saw (SYS_getrlimit RLIMIT_NOFILE) (fun x => x.1 = 0) (fun org =>
           Saw (SYS_setrlimit RLIMIT_NOFILE 0x600 org.2.2) (fun x => x = 0) (fun _ =>
           Saw (SYS_getrlimit RLIMIT_NOFILE) (fun x => x = (0, (0x600, org.2.2))) (fun _ =>
           Saw (SYS_setrlimit RLIMIT_NOFILE org.2.1 org.2.2) (fun x => x = 0) (fun _ => Done))))) tr.
Proof.
  destruct (exec_run (H := limits_kernel) setrlimit_009 (@Mach limits_kernel 0 usual)) as [tr Htr].
  exists tr. eapply (setrlimit_pass_evidence 9); [reflexivity|].
  replace (Returned None) with (@exec limits_kernel _ setrlimit_009 (@Mach limits_kernel 0 usual)).1;
    [exact Htr|by vm_compute].
Defined.

End RlimitProofs.
