(* ===== verification/MemFile.v ===== *)
(** * Suites on mapped memory: mmap_file, mmap_locked, mmap_populate, madvise, mprotect, mincore

    src/src/test_mck/src/mmap_file/ maps a file with every combination of open mode, protection and
    sharing and touches its first byte; the other suites make one request on a mapping and judge its
    reply.  The text of [%p] is the parameter [pp]; what 000 of mmap_file would do with a pointer it
    has not set is the parameter [undefined]. *)
From S2P Require Import Prelude CMachine Align Libc FileMap.
Import Align Libc FileMap.
#[local] Open Scope Z_scope.

Module MemFile.

Definition MAP_LOCKED : Z := 0x2000.
Definition MAP_POPULATE : Z := 0x8000.

(** ** The arguments: option -f

    [filemap_parse_args], [madvise_parse_args], [mmap_locked_parse_args] and
    [mmap_populate_parse_args] differ in the message only.  The result is a pointer to the arguments,
    whose [file] is a pointer too: both can be NULL. *)

Abbreviation file_args := (option string) (only parsing).

Fixpoint parse_opts (evs : list opt_event) (missing : string) (file : file_args) : prog (option file_args) :=
  match evs with
  | [] => match file with None => fprintf_stderr missing;; Ret (Some file) | Some _ => Ret (Some file) end
  | Opt "f" (Some optarg) :: evs => parse_opts evs missing (Some optarg)
  | Bad msg :: _ => fprintf_stderr msg;; Ret None
  | _ :: _ => Ret None
  end.
Definition file_spec : optstring := [("f"%char, true)].
Definition parse_file (missing : string) (tc_argv : list string) : prog (option file_args) :=
  parse_opts (events (scan (default "" (tc_argv !! 0%nat)) file_spec [] (drop 1 tc_argv))) missing None.

Definition filemap_parse_args := parse_file ("mandatory parameter '-f <file>'" +:+ nl).
Definition madvise_parse_args := parse_file ("mandatory parameter '-f <mapping-file>'" +:+ nl).
Definition mmap_locked_parse_args := parse_file ("mandatory parameter '-f <mapping-file>'" +:+ nl).
Definition mmap_populate_parse_args := parse_file ("mandatory parameter '-f <mapping-file>'" +:+ nl).

(** [args->file]. *)
Definition deref (args : option file_args) (k : file_args -> prog verdict) : prog verdict :=
  match args with Some a => k a | None => Trap SIGSEGV SIG_DFL end.

(** ** mmap_file *)

Inductive callback : Set := filemap_cb_read | filemap_cb_write | filemap_cb_read_write.
Record filemap_params := Params {
  p_num : Z; open_flags : Z; mmap_prot : Z; mmap_flags : Z; cb : callback
}.

Definition print_char (c : Z) : prog unit := printf (String (Ascii.ascii_of_N (Z.to_N c)) nl).
Definition cb_read (buf : Z) : prog unit := temp ← load buf; print_char temp.
Definition cb_write (buf : Z) : prog unit := store buf (chr "Z");; c ← load buf; print_char c.
Definition run_cb (c : callback) (buf : Z) : prog unit :=
  match c with
  | filemap_cb_read => cb_read buf
  | filemap_cb_write => cb_write buf
  | filemap_cb_read_write => cb_read buf;; cb_write buf
  end.

Definition filemap_do_map (path : option string) (p : filemap_params) : prog verdict :=
  match path with
  | None => Ret (Some "invalid argument.")
  | Some path =>
      fd ← open path (open_flags p);
      TP_ASSERT negb (fd =? -1), Some "file open error." ;;
      '(status, st_size) ← stat path;
      TP_ASSERT negb (status =? -1), Some "stat error." ;;
      data ← mmap 0 st_size (mmap_prot p) (mmap_flags p) fd 0;
      TP_ASSERT negb (data =? MAP_FAILED), Some "mmap error." ;;
      run_cb (cb p) data;;
      status ← munmap data st_size;
      TP_ASSERT negb (status =? -1), Some "munmap error." ;;
      close fd;;
      Ret None
  end.

(** The table: for each open mode, each protection, shared and private, read and write; and one row
    that does both. *)
Definition rows (first flags prot : Z) : list filemap_params :=
  [Params first flags prot MAP_SHARED filemap_cb_read; Params (first + 1) flags prot MAP_SHARED filemap_cb_write;
   Params (first + 2) flags prot MAP_PRIVATE filemap_cb_read;
   Params (first + 3) flags prot MAP_PRIVATE filemap_cb_write].
Definition mode_rows (first flags : Z) : list filemap_params :=
  rows first flags PROT_EXEC ++ rows (first + 4) flags PROT_READ ++ rows (first + 8) flags PROT_WRITE ++
  rows (first + 12) flags PROT_NONE.
Definition filemap_table : list filemap_params :=
  mode_rows 0 O_RDONLY ++ mode_rows 16 O_WRONLY ++ mode_rows 32 O_RDWR ++
  [Params 48 O_RDWR PROT_WRITE MAP_SHARED filemap_cb_read_write].

(** All 49 test cases are this one, with their number. *)
Definition mmap_file_run (undefined : prog verdict) (tc_num : Z) (args : option file_args) : prog verdict :=
  deref args (fun file =>
  TP_ASSERT negb (bool_decide (file = None)), Some "invalid file path." ;;
  let param := List.find (fun p => p_num p =? tc_num) filemap_table in
  TP_ASSERT negb (tc_num =? Z.of_nat (length filemap_table)), Some "invalid tc#." ;;
  match param with Some p => filemap_do_map file p | None => undefined end).

(** ** mmap_locked and mmap_populate *)

Definition map_flags_run (flags : Z) (tc_num : Z) (args : option file_args) : prog verdict :=
  deref args (fun file =>
  match file with
  | None => Ret (Some "invalid -f option.")
  | Some path =>
      TP_ASSERT 0 <=? tc_num, Some "invalid tp number." ;;
      fd ← open path O_RDWR;
      TP_ASSERT negb (fd =? -1), Some "file open error." ;;
      '(status, st_size) ← stat path;
      TP_ASSERT negb (status =? -1), Some "stat error." ;;
      addr ← mmap 0 st_size (PROT_READ .| PROT_WRITE) flags fd 0;
      TP_ASSERT negb (addr =? MAP_FAILED), Some "mmap error." ;;
      status ← munmap addr st_size;
      TP_ASSERT negb (status =? -1), Some "munmap error." ;;
      close fd;;
      Ret None
  end).
Definition mmap_locked_000 := map_flags_run (MAP_PRIVATE .| MAP_LOCKED .| MAP_ANONYMOUS).
Definition mmap_populate_000 := map_flags_run (MAP_PRIVATE .| MAP_POPULATE).

(** ** madvise *)

Definition TEST_MADV_SUCCESS : Z := 0.
Definition TEST_MADV_FAILUER : Z := -1.

Definition str_for_file : string := "abcdefghijklmnopqrstuvwxyz12345" +:+ nl.

(** The loop that writes the string 1280 times, [n] of them left. *)
Fixpoint write_loop (n : nat) (fd : Z) (k : prog verdict) : prog verdict :=
  match n with
  | O => k
  | S n =>
      wrote_len ← write fd (bytes str_for_file);
      TP_ASSERT negb (wrote_len =? -1), Some "write failed" ;;
      write_loop n fd k
  end.

Definition madvise_simple (path : option string) (advise_flags expect_result expect_error : Z) : prog verdict :=
  match path with
  | None => Ret (Some "invalid argument.")
  | Some path =>
      fd ← open path (O_RDWR .| O_CREAT);
      TP_ASSERT negb (fd =? -1), Some "file open error." ;;
      write_loop 1280 fd (
      '(status, st_size) ← fstat fd;
      TP_ASSERT negb (status =? -1), Some "stat error." ;;
      data ← mmap 0 st_size PROT_READ MAP_SHARED fd 0;
      TP_ASSERT negb (data =? MAP_FAILED), Some "mmap error." ;;
      set_errno 0;;
      status ← madvise data st_size advise_flags;
      TP_ASSERT status =? expect_result, Some "madvise error." ;;
      e ← get_errno;
      TP_ASSERT e =? expect_error, Some "madvise unexpected error occur." ;;
      status ← munmap data st_size;
      TP_ASSERT negb (status =? -1), Some "munmap error." ;;
      close fd;;
      Ret None)
  end.

(** Advice, expected result, expected [errno]. *)
Definition madvise000_params : list (Z * Z * Z) :=
  [(4, TEST_MADV_SUCCESS, 0); (0, TEST_MADV_SUCCESS, 0); (1, TEST_MADV_SUCCESS, 0); (2, TEST_MADV_SUCCESS, 0);
   (3, TEST_MADV_SUCCESS, 0); (9, TEST_MADV_FAILUER, EACCES); (10, TEST_MADV_SUCCESS, 0);
   (11, TEST_MADV_SUCCESS, 0); (17, TEST_MADV_SUCCESS, 0); (16, TEST_MADV_SUCCESS, 0);
   (12, TEST_MADV_FAILUER, EINVAL); (13, TEST_MADV_FAILUER, EINVAL); (14, TEST_MADV_FAILUER, EINVAL);
   (15, TEST_MADV_FAILUER, EINVAL); (100, TEST_MADV_FAILUER, EPERM); (101, TEST_MADV_FAILUER, EPERM)].

Definition madvise_run (tc_num : Z) (args : option file_args) : prog verdict :=
  deref args (fun file =>
  TP_ASSERT negb (bool_decide (file = None)), Some "invalid -f option." ;;
  TP_ASSERT 0 <=? tc_num, Some "invalid tp number." ;;
  match madvise000_params !! Z.to_nat tc_num with
  | None => Ret (Some "invalid tp number.")
  | Some (advise_flags, expect_result, expect_error) =>
      madvise_simple file advise_flags expect_result expect_error
  end).

(** ** mprotect *)

Section texts.
Context (pp : Z -> string).

Definition mprotect_test (old_prot new_prot : Z) : prog verdict :=
  let size := PAGE_SIZE * 3 in
  p ← mmap NULL size old_prot (MAP_PRIVATE .| MAP_ANONYMOUS .| MAP_POPULATE) (-1) 0;
  printf ("mapped=" +:+ pp p +:+ nl);;
  TP_ASSERT negb (p =? MAP_FAILED), Some "out of memory.(mmap)" ;;
  ret ← mprotect (u64 (p + PAGE_SIZE)) PAGE_SIZE new_prot;
  TP_ASSERT ret =? 0, Some "mprotect error." ;;
  munmap p size;;
  Ret None.

Definition mprotect_000 := mprotect_test PROT_READ (PROT_WRITE .| PROT_READ).
Definition mprotect_001 := mprotect_test PROT_READ (PROT_WRITE .| PROT_READ .| PROT_EXEC).
Definition mprotect_002 := mprotect_test (PROT_READ .| PROT_EXEC) (PROT_WRITE .| PROT_READ).
Definition mprotect_003 := mprotect_test (PROT_READ .| PROT_EXEC) (PROT_WRITE .| PROT_READ .| PROT_EXEC).
Definition mprotect_004 := mprotect_test PROT_READ (PROT_READ .| PROT_EXEC).
Definition mprotect_005 := mprotect_test PROT_READ (PROT_WRITE .| PROT_READ .| PROT_EXEC).
Definition mprotect_006 := mprotect_test (PROT_WRITE .| PROT_READ) (PROT_READ .| PROT_EXEC).
Definition mprotect_007 := mprotect_test (PROT_WRITE .| PROT_READ) (PROT_WRITE .| PROT_READ .| PROT_EXEC).

End texts.

(** ** mincore

    [addr] is static: RUN_FUNC hands it to TEARDOWN_FUNC, which unmaps it. *)

Definition LENGTH_VALUE : Z := PAGE_SIZE * 2.

Fixpoint check_vec (vec : list Z) (k : prog verdict) : prog verdict :=
  match vec with
  | [] => k
  | v :: vec => TP_ASSERT v .& 1 =? 1, Some "invalid vector value." ;; check_vec vec k
  end.

(** The mapping, the access, then [call] on the address. *)
Definition mincore_test (call : Z -> prog verdict) : prog (Z * verdict) :=
  addr ← mmap NULL LENGTH_VALUE (PROT_WRITE .| PROT_READ) (MAP_PRIVATE .| MAP_ANONYMOUS .| MAP_LOCKED .| MAP_POPULATE) (-1) 0;
  v ← (TP_ASSERT negb (addr =? MAP_FAILED), Some "mmap error." ;;
       memset addr 0xff LENGTH_VALUE;; call addr);
  Ret (addr, v).
Definition mincore_teardown (addr : Z) : prog unit :=
  if negb (addr =? MAP_FAILED) then munmap addr LENGTH_VALUE;; Ret tt else Ret tt.
Definition mincore_case (call : Z -> prog verdict) : prog verdict :=
  '(addr, v) ← mincore_test call; mincore_teardown addr;; Ret v.

(** [vec] has room for two pages; what the kernel leaves alone stays 0. *)
Definition vec_of (l : list Z) : list Z := take 2 (l ++ [0; 0]).
Definition mincore_call_000 (addr : Z) : prog verdict :=
  '(ret, vec) ← mincore addr LENGTH_VALUE true;
  TP_ASSERT ret =? 0, Some "mincore error." ;;
  check_vec (vec_of vec) (Ret None).
Definition mincore_call_001 (addr : Z) : prog verdict :=
  '(ret, vec) ← mincore addr (LENGTH_VALUE - PAGE_SIZE + 1) true;
  TP_ASSERT ret =? 0, Some "mincore error." ;;
  check_vec (vec_of vec) (Ret None).
Definition mincore_call_002 (addr : Z) : prog verdict :=
  '(ret, _) ← mincore (u64 (addr - 1)) LENGTH_VALUE true;
  TP_ASSERT ret =? -1, Some "mincore error." ;;
  e ← get_errno;
  TP_ASSERT e =? EINVAL, Some "invalid errno." ;;
  Ret None.
Definition mincore_call_003 (addr : Z) : prog verdict :=
  '(ret, _) ← mincore addr LENGTH_VALUE false;
  TP_ASSERT ret =? -1, Some "mincore error." ;;
  e ← get_errno;
  TP_ASSERT e =? EFAULT, Some "invalid errno." ;;
  Ret None.
Definition mincore_000 := mincore_case mincore_call_000.
Definition mincore_001 := mincore_case mincore_call_001.
Definition mincore_002 := mincore_case mincore_call_002.
Definition mincore_003 := mincore_case mincore_call_003.

End MemFile.
