(* ===== verification/MemFileProofs.v ===== *)
(** * What the suites on mapped memory show

    [mmap_file_outcomes]: on every kernel with the documented permission checks, the end of each of
    the 49 test cases.  [filemap_descriptor_ledger]: what is left open.  [memory_pass_evidence]: what
    a passing test of madvise, mprotect and mincore has seen. *)
From S2P Require Import Prelude CMachine Align Libc FileMap Ledger Script MemFile.
Import Align Libc FileMap Script MemFile.
#[local] Open Scope Z_scope.

Module MemFileProofs.

(** ** The kernel interface *)

(** Whether a descriptor opened in mode [m] may be mapped: it must be readable, and writable if the
    mapping is shared and writable. *)
Definition has (bit prot : Z) : bool := negb (prot .& bit =? 0).
Definition may_map (m prot flags : Z) : bool :=
  negb (m =? O_WRONLY) && negb ((flags =? MAP_SHARED) && has PROT_WRITE prot && negb (m =? O_RDWR)).

(** [size_of s p]: the size of the file, for files the process may open in any mode; [mode_of s fd]:
    the file and mode of an open descriptor; [prot_of s a]: the protection of a mapped byte; [room]:
    there is address space for a mapping.  Which protections let a byte be read is up to the
    architecture, except that PROT_READ does and PROT_NONE does not. *)
Class MapKernel `(K : Kernel) := {
  size_of : kstate -> string -> option Z;
  mode_of : kstate -> Z -> option (string * Z);
  prot_of : kstate -> Z -> option Z;
  room : kstate -> Z -> Prop;
  readable : Z -> bool;
  readable_read prot : has PROT_READ prot = true -> readable prot = true;
  readable_none : readable PROT_NONE = false;
  map_open s p m n : size_of s p = Some n -> m ∈ [O_RDONLY; O_WRONLY; O_RDWR] -> exists fd s',
    kstep (SYS_open p m) s = (fd, s') /\ 0 <= fd < 2 ^ 31 /\ mode_of s' fd = Some (p, m) /\
    size_of s' = size_of s /\ (forall len, room s len -> room s' len);
  map_stat s p n : size_of s p = Some n -> exists s',
    kstep (SYS_stat p) s = ((0, n), s') /\ size_of s' = size_of s /\ mode_of s' = mode_of s /\
    (forall len, room s len -> room s' len);
  map_mmap s fd p m len prot flags :
    mode_of s fd = Some (p, m) -> size_of s p = Some len -> 0 < len -> room s len ->
    flags ∈ [MAP_SHARED; MAP_PRIVATE] -> exists r s',
    kstep (SYS_mmap 0 len prot flags fd 0) s = (r, s') /\ mode_of s' = mode_of s /\
    if may_map m prot flags
    then 0 < r < 2 ^ 63 /\ r mod PAGE_SIZE = 0 /\ (forall a, r <= a < r + len -> prot_of s' a = Some prot)
    else r = - EACCES;
  map_load s a prot : prot_of s a = Some prot -> exists r s',
    kstep (MEM_load a) s = (r, s') /\ prot_of s' = prot_of s /\ mode_of s' = mode_of s /\
    if readable prot then exists v, r = Ok v else r = Fault SIGSEGV SIG_DFL;
  map_store s a v prot : prot_of s a = Some prot -> exists r s',
    kstep (MEM_store a v) s = (r, s') /\ prot_of s' = prot_of s /\ mode_of s' = mode_of s /\
    r = if has PROT_WRITE prot then Ok tt else Fault SIGSEGV SIG_DFL;
  map_out s t : let s' := (kstep (OUT t) s).2 in prot_of s' = prot_of s /\ mode_of s' = mode_of s;
  map_munmap s a len : 0 < len -> a mod PAGE_SIZE = 0 -> prot_of s a <> None -> exists s',
    kstep (SYS_munmap a len) s = (0, s') /\ mode_of s' = mode_of s;
  map_close s fd : mode_of s fd <> None -> exists s', kstep (SYS_close fd) s = (0, s')
}.

(** ** The outcome of a test case *)

(** The end of the access to the first byte: a read, a write and a read back, or both. *)
Definition access_ends (read : bool) (prot : Z) (c : callback) : outcome verdict :=
  let bad := Signalled SIGSEGV SIG_DFL in
  match c with
  | filemap_cb_read => if read then Returned None else bad
  | filemap_cb_write => if has PROT_WRITE prot then if read then Returned None else bad else bad
  | filemap_cb_read_write => if read then if has PROT_WRITE prot then Returned None else bad else bad
  end.
Definition row_ends (readable : Z -> bool) (p : filemap_params) : outcome verdict :=
  if may_map (open_flags p) (mmap_prot p) (mmap_flags p)
  then access_ends (readable (mmap_prot p)) (mmap_prot p) (cb p)
  else Returned (Some "mmap error.").

(** The end of test case [n].  A file opened write-only cannot be mapped (16 to 31), one opened
    read-only cannot be mapped shared and writable (8 and 9).  Otherwise the protection decides
    (by groups of four: PROT_EXEC, PROT_READ, PROT_WRITE, PROT_NONE), and whether the case writes
    (the odd ones, and 48). *)
Definition case_ends (readable : Z -> bool) (n : nat) : outcome verdict :=
  let bad := Signalled SIGSEGV SIG_DFL in
  if bool_decide (16 <= n < 32 \/ n = 8 \/ n = 9)%nat then Returned (Some "mmap error.")
  else if (n =? 48)%nat then if readable PROT_WRITE then Returned None else bad
  else match (n / 4) mod 4, Nat.odd n with
       | 0, false => if readable PROT_EXEC then Returned None else bad
       | 1, false => Returned None
       | 2, _ => if readable PROT_WRITE then Returned None else bad
       | _, _ => bad
       end%nat.

Section outcomes.
Context `{MK : MapKernel}.

(** [p] ends with [o], however [errno] stands. *)
Definition ends_as (p : prog verdict) (s : kstate) (o : outcome verdict) : Prop :=
  forall e, (exec p (Mach e s)).1 = o.

Lemma ends_load a (k : Z -> prog verdict) s prot o :
  prot_of s a = Some prot ->
  (if readable prot
   then forall v s', prot_of s' = prot_of s -> mode_of s' = mode_of s -> ends_as (k v) s' o
   else o = Signalled SIGSEGV SIG_DFL) ->
  ends_as (load a ≫= k) s o.
Proof.
  intros Ha Hk e. destruct (map_load s a prot Ha) as (r & s' & E & Hp & Hm & Hr).
  unfold load, trigger, mbind, prog_mbind. cbn. rewrite E.
  destruct (readable prot); [destruct Hr as [v ->]; by apply Hk|]. by subst.
Qed.

Lemma ends_store a v (k : unit -> prog verdict) s prot o :
  prot_of s a = Some prot ->
  (if has PROT_WRITE prot
   then forall s', prot_of s' = prot_of s -> mode_of s' = mode_of s -> ends_as (k tt) s' o
   else o = Signalled SIGSEGV SIG_DFL) ->
  ends_as (store a v ≫= k) s o.
Proof.
  intros Ha Hk e. destruct (map_store s a v prot Ha) as (r & s' & E & Hp & Hm & ->).
  unfold store, trigger, mbind, prog_mbind. cbn. rewrite E.
  destruct (has PROT_WRITE prot); [by apply Hk|]. by subst.
Qed.

Lemma ends_printf t (k : unit -> prog verdict) s o :
  (forall s', prot_of s' = prot_of s -> mode_of s' = mode_of s -> ends_as (k tt) s' o) ->
  ends_as (printf t ≫= k) s o.
Proof.
  intros Hk e. destruct (map_out s t) as [Hp Hm]. unfold printf, trigger, mbind, prog_mbind. cbn.
  destruct (kstep (OUT t) s) as [[] s']. by apply Hk.
Qed.

Lemma bind_assoc {A B C} (p : prog A) (f : A -> prog B) (g : B -> prog C) s (o : outcome C) e :
  (exec (p ≫= fun a => f a ≫= g) (Mach e s)).1 = o -> (exec ((p ≫= f) ≫= g) (Mach e s)).1 = o.
Proof.
  intros <-. unfold mbind, prog_mbind. rewrite !exec_bind. destruct (exec p _) as [[a|n|sg d] m]; [|done..].
  by rewrite exec_bind.
Qed.

(** The callback; [k] is what follows it. *)
Lemma ends_cb c a (k : unit -> prog verdict) s prot :
  prot_of s a = Some prot ->
  (forall s', prot_of s' = prot_of s -> mode_of s' = mode_of s -> ends_as (k tt) s' (Returned None)) ->
  ends_as (run_cb c a ≫= k) s (access_ends (readable prot) prot c).
Proof.
  intros Ha Hk.
  assert (forall (k : unit -> prog verdict) s1 o, prot_of s1 = prot_of s -> mode_of s1 = mode_of s ->
    (if readable prot
     then forall s', prot_of s' = prot_of s -> mode_of s' = mode_of s -> ends_as (k tt) s' o
     else o = Signalled SIGSEGV SIG_DFL) -> ends_as (cb_read a ≫= k) s1 o) as Hread.
  { intros k0 s1 o Hp Hm Hk0 e. unfold cb_read. apply bind_assoc. apply (ends_load _ _ _ prot); [by rewrite Hp|].
    destruct (readable prot); [|done]. intros v s2 Hp2 Hm2. apply ends_printf. intros s3 Hp3 Hm3.
    apply Hk0; congruence. }
  assert (forall s1 o, prot_of s1 = prot_of s -> mode_of s1 = mode_of s ->
    (if has PROT_WRITE prot then if readable prot then o = Returned None else o = Signalled SIGSEGV SIG_DFL
     else o = Signalled SIGSEGV SIG_DFL) -> ends_as (cb_write a ≫= k) s1 o) as Hwrite.
  { intros s1 o Hp Hm Ho e. unfold cb_write. apply bind_assoc. apply (ends_store _ _ _ _ prot); [by rewrite Hp|].
    destruct (has PROT_WRITE prot); [|done]. intros s2 Hp2 Hm2. apply Hread; [congruence..|].
    destruct (readable prot); [|done]. intros s' H1 H2. subst. by apply Hk. }
  destruct c; cbn [run_cb access_ends].
  - apply Hread; [done..|]. destruct (readable prot); [|done]. by apply Hk.
  - apply Hwrite; [done..|]. by destruct (has PROT_WRITE prot), (readable prot).
  - intros e. apply bind_assoc. apply Hread; [done..|]. destruct (readable prot) eqn:Er; [|done].
    intros s' Hp Hm. apply Hwrite; [done..|]. by destruct (has PROT_WRITE prot).
Qed.

(** A system call whose reply is the value it returns. *)
Lemma exec_returns c e s r s' {conv : reply c -> prog Z} {v : Z} :
  kstep c s = (r, s') -> conv r = Ret v -> exec (trigger c ≫= conv) (Mach e s) = (Returned v, Mach e s').
Proof. intros E Hv. by apply (exec_syscall c conv (Mach e s) r s' v). Qed.

Lemma fd_ret fd : 0 <= fd < 2 ^ 31 -> syscall_ret fd = Ret fd.
Proof.
  intros H. unfold syscall_ret, is_error. replace (fd <=? -1) with false by lia. by rewrite andb_false_r.
Qed.

Lemma filemap_do_map_ends path p n s :
  size_of s path = Some n -> 0 < n -> room s n ->
  open_flags p ∈ [O_RDONLY; O_WRONLY; O_RDWR] -> mmap_flags p ∈ [MAP_SHARED; MAP_PRIVATE] ->
  ends_as (filemap_do_map (Some path) p) s (row_ends readable p).
Proof.
  intros Hs Hn Hroom Ho Hf e. unfold filemap_do_map.
  destruct (map_open s path _ n Hs Ho) as (fd & s1 & E1 & Hfd & Hm1 & Hs1 & Hr1).
  rewrite (exec_mbind _ _ _ _ _ (exec_returns _ e _ _ _ E1 (fd_ret fd Hfd))).
  replace (negb (fd =? -1)) with true by lia. cbn [tp_assert].
  destruct (map_stat s1 path n) as (s2 & E2 & Hs2 & Hm2 & Hr2); [by rewrite Hs1|].
  assert (exec (stat path) (Mach e s1) = (Returned (0, n), Mach e s2)) as Estat by (cbn; by rewrite E2).
  rewrite (exec_mbind _ _ _ _ _ Estat). cbn [negb Z.eqb tp_assert].
  destruct (map_mmap s2 fd path (open_flags p) n (mmap_prot p) (mmap_flags p)) as (r & s3 & E3 & Hm3 & Hr);
    [by rewrite Hm2|by rewrite Hs2, Hs1|done|auto|done|].
  unfold row_ends. destruct (may_map _ _ _).
  - destruct Hr as (Hr & Hal & Hprot).
    rewrite (exec_mbind _ _ _ _ _ (exec_mmap _ _ _ _ _ _ (Mach e s2) r s3 E3 ltac:(lia))).
    unfold MAP_FAILED. replace (negb (r =? 2 ^ 64 - 1)) with true by lia. cbn [tp_assert errno].
    apply ends_cb; [apply Hprot; lia|]. intros s4 Hp4 Hm4 e4.
    destruct (map_munmap s4 r n) as (s5 & E5 & Hm5); [done|done|rewrite Hp4, Hprot by lia; done|].
    rewrite (exec_mbind _ _ _ _ _ (exec_munmap r n (Mach e4 s4) s5 E5)). cbn [negb Z.eqb tp_assert errno].
    destruct (map_close s5 fd) as (s6 & E6); [by rewrite Hm5, Hm4, Hm3, Hm2, Hm1|].
    assert (exec (close fd) (Mach e4 s5) = (Returned 0, Mach e4 s6)) as Ec by (cbn; by rewrite E6).
    by rewrite (exec_mbind _ _ _ _ _ Ec).
  - subst r. assert (exec (mmap 0 n (mmap_prot p) (mmap_flags p) fd 0) (Mach e s2) = (Returned MAP_FAILED, Mach EACCES s3))
      as Emap by (cbn; by rewrite E3). by rewrite (exec_mbind _ _ _ _ _ Emap).
Qed.

Lemma table_row i :
  (i < 49)%nat -> exists p, List.find (fun q => p_num q =? Z.of_nat i) filemap_table = Some p /\
  open_flags p ∈ [O_RDONLY; O_WRONLY; O_RDWR] /\ mmap_flags p ∈ [MAP_SHARED; MAP_PRIVATE] /\
  row_ends readable p = case_ends readable i.
Proof.
  intros Hi. do 49 (destruct i as [|i]; [eexists; split; [reflexivity|]; split; [repeat first [by left | right]|];
    split; [repeat first [by left | right]|]; unfold row_ends, access_ends; cbn;
    try rewrite readable_read by done; try rewrite readable_none; reflexivity|]). lia.
Qed.

(** C17: On every kernel with the documented permission checks of open, mmap and of memory, test case
    [n] of mmap_file ends as [case_ends] says: with "mmap error." where the open mode does not permit
    the mapping, with SIGSEGV where the protection does not permit the access, else it passes. *)
Theorem mmap_file_outcomes undefined n path size s e :
  (n < 49)%nat -> size_of s path = Some size -> 0 < size -> room s size ->
  (exec (mmap_file_run undefined (Z.of_nat n) (Some (Some path))) (Mach e s)).1 = case_ends readable n.
Proof.
  intros Hn Hs Hsize Hroom. destruct (table_row n Hn) as (p & Hfind & Ho & Hf & <-).
  unfold mmap_file_run. cbn [deref]. rewrite bool_decide_false by done. cbn [negb tp_assert].
  change (Z.of_nat (length filemap_table)) with 49. replace (negb (Z.of_nat n =? 49)) with true by lia.
  cbn [tp_assert]. rewrite Hfind. by apply (filemap_do_map_ends path p size).
Qed.

End outcomes.

(** ** A kernel of the interface

    It has one descriptor and one mapping. *)
Record one := One { files : gmap string Z; opened : option (string * Z); mapping : option (Z * Z) }.
Definition one_base : Z := 0x10000000.
Definition one_prot (s : one) (a : Z) : option Z :=
  match mapping s with Some (len, prot) => if in_range one_base len a then Some prot else None | None => None end.
Definition one_step (c : cmd) (s : one) : reply c * one :=
  match c with
  | SYS_open p m =>
      match files s !! p with Some _ => (3, One (files s) (Some (p, m)) (mapping s)) | None => (-2, s) end
  | SYS_stat p => (match files s !! p with Some n => (0, n) | None => (-2, 0) end, s)
  | SYS_mmap _ len prot flags fd _ =>
      match opened s with
      | Some (_, m) => if may_map m prot flags then (one_base, One (files s) (opened s) (Some (len, prot)))
                       else (- EACCES, s)
      | None => (-9, s)
      end
  | SYS_munmap _ _ => (0, One (files s) (opened s) None)
  | SYS_close fd => (0, One (files s) None (mapping s))
  | MEM_load a =>
      (match one_prot s a with Some prot => if has PROT_READ prot then Ok 0 else Fault SIGSEGV SIG_DFL
       | None => Fault SIGSEGV SIG_DFL end, s)
  | MEM_store a v =>
      (match one_prot s a with Some prot => if has PROT_WRITE prot then Ok tt else Fault SIGSEGV SIG_DFL
       | None => Fault SIGSEGV SIG_DFL end, s)
  | c => (no_reply c, s)
  end.
Definition one_kernel : Kernel := {| kstate := one; kstep := one_step |}.

Definition one_laws : MapKernel one_kernel.
Proof.
  refine {| size_of := fun (s : @kstate one_kernel) p => files s !! p;
            mode_of := fun (s : @kstate one_kernel) fd => if fd =? 3 then opened s else None;
            prot_of := one_prot : @kstate one_kernel -> _;
            room := fun _ _ => True; readable := has PROT_READ |}.
  - done.
  - done.
  - intros s p m n Hs _. cbn. rewrite Hs. by eexists 3, _.
  - intros s p n Hs. cbn. rewrite Hs. by exists s.
  - intros s fd p m len prot flags Hm _ Hlen _ _. cbn. destruct (fd =? 3); [|done]. rewrite Hm.
    destruct (may_map m prot flags); [|exists (- EACCES), s; split; [done|by rewrite Hm]].
    eexists _, _. split; [done|]. split; [done|]. split; [done|]. split; [done|]. intros a Ha. unfold one_prot. cbn. by rewrite in_range_in.
  - intros s a prot Hp. cbn. rewrite Hp. eexists _, s. split; [done|]. split; [done|]. split; [done|].
    destruct (has PROT_READ prot); eauto.
  - intros s a v prot Hp. cbn. rewrite Hp. by eexists _, s.
  - done.
  - intros s a len _ _ _. by eexists.
  - intros s fd _. by eexists.
Defined.

Lemma mmap_file_outcomes_witness :
  (@exec one_kernel _ (mmap_file_run (Ret None) 37 (Some (Some "f")))
     (@Mach one_kernel 0 (One {[ "f" := 4096 ]} None None))).1 = Signalled SIGSEGV SIG_DFL.
Proof.
  apply (mmap_file_outcomes (MK := one_laws) (Ret None) 37 "f" 4096 (One {[ "f" := 4096 ]} None None) 0);
    [lia|by vm_compute|lia|exact I].
Defined.

(** ** What is left open *)

Import Ledger.

Lemma keeps_cb_read h a : keeps (cb_read a) h (fun _ => h).
Proof. eapply keeps_bind; [apply keeps_load|intros c; apply keeps_printf]. Qed.
Lemma keeps_cb_write h a : keeps (cb_write a) h (fun _ => h).
Proof.
  eapply keeps_bind; [apply keeps_store|intros []]. eapply keeps_bind; [apply keeps_load|intros c; apply keeps_printf].
Qed.
Lemma keeps_run_cb h c a : keeps (run_cb c a) h (fun _ => h).
Proof.
  destruct c; [apply keeps_cb_read|apply keeps_cb_write|].
  eapply keeps_bind; [apply keeps_cb_read|intros []; apply keeps_cb_write].
Qed.
#[local] Hint Resolve keeps_run_cb : ledger.

(** The verdicts that come without a [close]. *)
Definition leaves_open (v : verdict) : bool :=
  bool_decide (v ∈ [Some "stat error."; Some "mmap error."; Some "munmap error."]).

(** C19: Whatever the kernel replies, [filemap_do_map] returns with its descriptor still open exactly when
    it reports that stat, mmap or munmap failed, and with its mapping still there exactly when it reports
    that munmap failed: no path gives back what it holds once a call has failed. *)
Theorem filemap_descriptor_ledger path p e tr v e' :
  run (filemap_do_map path p) e tr (Returned v) e' ->
  exists fd m, after none tr =
    Held (if leaves_open v then [fd] else []) (if bool_decide (v = Some "munmap error."%string) then [m] else []) [] [].
Proof.
  destruct path as [path|]; [|intros (-> & [= ->] & _); by exists 0, (0, 0)]. intros H.
  apply run_bind_returned in H as (fd & e1 & tr1 & tr2 & H1 & H2 & ->).
  rewrite after_app, (keeps_open _ _ _ _ _ _ _ H1). exists fd.
  apply run_tp_assert in H2 as [[Hfd H2]|(Hfd & -> & [= ->] & _)];
    [apply negb_true_iff in Hfd|apply negb_false_iff in Hfd]; rewrite Hfd; [|by exists (0, 0)].
  apply run_bind_returned in H2 as ([status size] & e2 & tr3 & tr4 & H3 & H4 & ->).
  rewrite after_app, (keeps_stat _ _ _ _ _ _ H3).
  apply run_tp_assert in H4 as [[_ H4]|(_ & -> & [= ->] & _)]; [|by exists (0, 0)].
  apply run_bind_returned in H4 as (data & e3 & tr5 & tr6 & H5 & H6 & ->). exists (data, size).
  rewrite after_app, (keeps_mmap _ _ _ _ _ _ _ _ _ _ _ H5).
  apply run_tp_assert in H6 as [[Hd H6]|(Hd & -> & [= ->] & _)];
    [apply negb_true_iff in Hd|apply negb_false_iff in Hd]; rewrite Hd; [|done].
  revert H6. match goal with |- run ?q _ _ _ _ -> _ =>
    assert (keeps q (add_map (data, size) (add_fd fd none)) (fun v => Held (if leaves_open v then [fd] else [])
      (if bool_decide (v = Some "munmap error."%string) then [(data, size)] else []) [] [])) as Hk; [|apply Hk] end.
  clear. keep; [|by destruct (a0 =? -1)].
  destruct (a0 =? -1); [done|]. by rewrite del_add_fd.
Qed.

Lemma filemap_descriptor_ledger_witness :
  exists tr fd, after none tr = Held [fd] [] [] [].
Proof.
  pose (q := filemap_do_map (Some "f") (Params 9 O_RDONLY PROT_WRITE MAP_SHARED filemap_cb_write)).
  pose (m := @Mach one_kernel 0 (One {[ "f" := 4096 ]} None None)).
  destruct (exec_run (H := one_kernel) q m) as [tr Htr].
  assert ((@exec one_kernel _ q m).1 = Returned (Some "mmap error.")) as E by (vm_compute; reflexivity).
  rewrite E in Htr.
  destruct (filemap_descriptor_ledger _ _ _ _ _ _ Htr) as (fd & m' & Hfd). exists tr, fd. exact Hfd.
Defined.

(** ** What a passing test has seen *)

Section wrappers.
Context {A : Type} (e : Z) (tr : list event) (o : outcome A) (e' : Z).

Lemma run_mprotect a len prot (k : Z -> prog A) :
  run (mprotect a len prot ≫= k) e tr o e' ->
  exists r tr', tr = ev (SYS_mprotect a len prot) r :: tr' /\ run (k (ret_int r)) (errno_after e r) tr' o e'.
Proof. follow_wrapper. Qed.

Lemma run_madvise a len adv (k : Z -> prog A) :
  run (madvise a len adv ≫= k) e tr o e' ->
  exists r tr', tr = ev (SYS_madvise a len adv) r :: tr' /\ run (k (ret_int r)) (errno_after e r) tr' o e'.
Proof. follow_wrapper. Qed.

Lemma run_fstat fd (k : Z * Z -> prog A) :
  run (fstat fd ≫= k) e tr o e' ->
  exists r sz tr', tr = ev (SYS_fstat fd) (r, sz) :: tr' /\ run (k (ret_int r, sz)) (errno_after e r) tr' o e'.
Proof.
  intros ([r sz] & tr' & -> & H). exists r, sz, tr'. split; [done|].
  unfold ret_int, errno_after, syscall_ret in *. cbn in H. by destruct (is_error r).
Qed.

Lemma run_mincore a len valid (k : Z * list Z -> prog A) :
  run (mincore a len valid ≫= k) e tr o e' ->
  exists r vec tr', tr = ev (SYS_mincore a len valid) (r, vec) :: tr' /\
    run (k (ret_int r, vec)) (errno_after e r) tr' o e'.
Proof.
  intros ([r vec] & tr' & -> & H). exists r, vec, tr'. split; [done|].
  unfold ret_int, errno_after, syscall_ret in *. cbn in H. by destruct (is_error r).
Qed.

Lemma run_memset a v n (k : unit -> prog A) b :
  o = Returned b -> run (memset a v n ≫= k) e tr o e' ->
  exists tr', tr = ev (MEM_set a v n) (Ok tt) :: tr' /\ run (k tt) e tr' o e'.
Proof. intros -> ([[]|sg d] & tr' & -> & H); [by exists tr'|by destruct H as (_ & [=] & _)]. Qed.

End wrappers.

(** A test of the result that stops with a message. *)
Lemma sees_assert (b : bool) msg k s :
  (b = true -> sees k None s) -> sees (TP_ASSERT b, Some msg ;; k) None s.
Proof. intros Hk. destruct b; [by apply Hk|by apply sees_ret_other]. Qed.

(** A mapping that succeeded. *)
Definition mapped (len prot flags fd : Z) (next : Z -> script) : script :=
  Saw (SYS_mmap 0 len prot flags fd 0) (fun r => is_error r = false) (fun r => next (u64 r)).

Lemma sees_mmap len prot flags fd msg k next :
  (forall a, sees (k a) None (next a)) ->
  sees (a ← mmap 0 len prot flags fd 0; TP_ASSERT negb (a =? MAP_FAILED), Some msg ;; k a) None
    (mapped len prot flags fd next).
Proof.
  intros Hk e tr e' (r & tr' & -> & H)%run_mmap.
  apply run_tp_assert in H as [[E H]|(_ & _ & ? & _)]; [|done]. apply negb_true_iff in E.
  apply ret_ptr_ok in E as [Hr E]. rewrite E in H. apply follows_saw; [done|]. by eapply Hk.
Qed.

Lemma sees_write_loop n fd k s : sees k None s -> sees (write_loop n fd k) None s.
Proof.
  intros Hk. induction n as [|n IH]; cbn [write_loop]; [done|]. apply sees_bind. intros w.
  apply sees_assert. by intros _.
Qed.

Definition madvise_script (path : string) (advice expect_error : Z) : script :=
  Saw (SYS_open path (O_RDWR .| O_CREAT)) (fun fd => is_error fd = false) (fun fd =>
  Saw (SYS_fstat fd) (fun r => is_error r.1 = false) (fun r =>
  mapped r.2 PROT_READ MAP_SHARED fd (fun a =>
  Saw (SYS_madvise a r.2 advice) (fun x => x = - expect_error) (fun _ => Done)))).

Lemma ret_int_minus_one r : ret_int r = -1 -> is_error r = true.
Proof. unfold ret_int. destruct (is_error r) eqn:E; [done|]. intros ->. discriminate. Qed.

Lemma madvise_sees path advice res err :
  (res = 0 /\ err = 0 \/ res = -1 /\ 0 < err) ->
  sees (madvise_simple (Some path) advice res err) None (madvise_script path advice err).
Proof.
  intros Hexp e tr e' (fd & tr' & -> & H)%run_open.
  apply run_tp_assert in H as [[E H]|(_ & _ & ? & _)]; [|done]. apply negb_true_iff, ret_int_ok in E as [Hfd E].
  rewrite E in H. apply follows_saw; [done|]. by_sees H. apply sees_write_loop.
  intros e1 tr1 e1' (r & sz & tr2 & -> & H)%run_fstat. cbv beta iota in H.
  apply run_tp_assert in H as [[E1 H]|(_ & _ & ? & _)]; [|done]. apply negb_true_iff, ret_int_ok in E1 as [Hr _].
  apply follows_saw; [done|]. by_sees H. apply sees_mmap. intros a e2 tr3 e2' H.
  change (run (status ← madvise a sz advice;
    TP_ASSERT status =? res, Some "madvise error." ;;
    e ← get_errno;
    TP_ASSERT e =? err, Some "madvise unexpected error occur." ;;
    status ← munmap a sz;
    TP_ASSERT negb (status =? -1), Some "munmap error." ;;
    close fd;; Ret None) 0 tr3 (Returned None) e2') in H.
  apply run_madvise in H as (x & tr4 & -> & H).
  apply run_tp_assert in H as [[Ex%Z.eqb_eq H]|(_ & _ & ? & _)]; [|done].
  apply (run_tp_assert (errno_after 0 x =? err)) in H as [[Ee%Z.eqb_eq _]|(_ & _ & ? & _)]; [|done].
  apply follows_saw; [|done]. unfold errno_after in Ee. destruct Hexp as [[-> ->]|[-> He]].
  - apply ret_int_eq in Ex; [by subst|lia].
  - apply ret_int_minus_one in Ex. rewrite Ex in Ee. lia.
Qed.

(** ** mprotect and mincore *)

Definition mprotect_script (old_prot new_prot : Z) : script :=
  mapped (PAGE_SIZE * 3) old_prot (MAP_PRIVATE .| MAP_ANONYMOUS .| MAP_POPULATE) (-1) (fun p =>
  Saw (SYS_mprotect (u64 (p + PAGE_SIZE)) PAGE_SIZE new_prot) (fun x => x = 0) (fun _ => Done)).

Lemma mprotect_sees pp old_prot new_prot :
  sees (mprotect_test pp old_prot new_prot) None (mprotect_script old_prot new_prot).
Proof.
  intros e tr e' (r & tr' & -> & H)%run_mmap. destruct H as (u & tr2 & -> & H).
  apply run_tp_assert in H as [[E H]|(_ & _ & ? & _)]; [|done]. apply negb_true_iff, ret_ptr_ok in E as [Hr E].
  rewrite E in H. apply follows_saw; [done|]. apply follows_cons.
  apply run_mprotect in H as (x & tr3 & -> & H).
  apply run_tp_assert in H as [[Ex%ret_int_zero _]|(_ & _ & ? & _)]; [|done]. by apply follows_saw.
Qed.

(** The mapped area is filled; [next] is what the request under test must have given. *)
Definition mincore_script (next : Z -> script) : script :=
  mapped LENGTH_VALUE (PROT_WRITE .| PROT_READ) (MAP_PRIVATE .| MAP_ANONYMOUS .| MAP_LOCKED .| MAP_POPULATE) (-1)
    (fun a => Saw (MEM_set a 0xff LENGTH_VALUE) (fun r => r = Ok tt) (fun _ => next a)).

Lemma mincore_sees call next :
  (forall a, sees (call a) None (next a)) -> sees (mincore_case call) None (mincore_script next).
Proof.
  intros Hc e tr e' H. apply run_bind_returned in H as ([a v] & e1 & tr1 & tr2 & H1 & H2 & ->).
  apply follows_more.
  assert (v = None) as Hv.
  { apply run_bind_returned in H2 as (u & e2 & tr3 & tr4 & _ & (_ & [=] & _) & _). done. }
  rewrite Hv in H1. clear H2 Hv. apply run_mmap in H1 as (r & tr' & -> & H).
  apply run_bind_returned in H as (v' & e2 & tr3 & tr4 & H & (-> & [= _ Hv] & _) & ->). subst v'. rewrite app_nil_r.
  apply run_tp_assert in H as [[E H]|(_ & _ & ? & _)]; [|done]. apply negb_true_iff, ret_ptr_ok in E as [Hr E].
  rewrite E in H. apply follows_saw; [done|].
  apply (run_memset _ _ _ _ _ _ _ _ None) in H as (tr5 & -> & H); [|done].
  apply follows_saw; [done|]. by eapply Hc.
Qed.

Lemma sees_check_vec vec k s :
  sees k None s -> sees (check_vec vec k) None (Holds (Forall (fun v => v .& 1 = 1) vec) s).
Proof.
  intros Hk. induction vec as [|v vec IH]; cbn [check_vec].
  - intros e tr e' H. split; [apply Forall_nil_2|]. by eapply Hk.
  - destruct (Z.eqb_spec (v .& 1) 1) as [E|E]; [|by apply sees_ret_other].
    intros e tr e' H. destruct (IH e tr e' H) as [Hv Hs]. split; [by apply Forall_cons_2|done].
Qed.

Lemma mincore_good len a :
  sees ('(ret, vec) ← mincore a len true; TP_ASSERT ret =? 0, Some "mincore error." ;;
        check_vec (vec_of vec) (Ret None)) None
    (Saw (SYS_mincore a len true) (fun r => r.1 = 0)
       (fun r => Holds (Forall (fun v => v .& 1 = 1) (vec_of r.2)) Done)).
Proof.
  intros e tr e' (r & vec & tr' & -> & H)%run_mincore. cbv beta iota in H.
  apply run_tp_assert in H as [[E%ret_int_zero H]|(_ & _ & ? & _)]; [|done]. apply follows_saw; [done|].
  by_sees H. apply sees_check_vec, sees_done.
Qed.

Lemma mincore_bad len a valid err :
  sees ('(ret, _) ← mincore a len valid; TP_ASSERT ret =? -1, Some "mincore error." ;;
        e ← get_errno; TP_ASSERT e =? err, Some "invalid errno." ;; Ret None) None
    (Saw (SYS_mincore a len valid) (fun r => r.1 = - err) (fun _ => Done)).
Proof.
  intros e tr e' (r & vec & tr' & -> & H)%run_mincore. cbv beta iota in H.
  apply run_tp_assert in H as [[E%Z.eqb_eq%ret_int_minus_one H]|(_ & _ & ? & _)]; [|done].
  apply (run_tp_assert (errno_after e r =? err)) in H as [[Ee%Z.eqb_eq _]|(_ & _ & ? & _)]; [|done].
  apply follows_saw; [|done]. unfold errno_after in Ee. rewrite E in Ee. cbn [fst]. lia.
Qed.

Lemma madvise_expected :
  Forall (fun row : Z * Z * Z => row.1.2 = 0 /\ row.2 = 0 \/ row.1.2 = -1 /\ 0 < row.2) madvise000_params.
Proof. apply Forall_forall. intros row Hin. unfold madvise000_params in Hin. set_unfold. naive_solver. Qed.

(** The tests of the three suites with their scripts. *)
Definition madvise_row (path : string) (n : nat) (row : Z * Z * Z) : prog verdict * script :=
  (madvise_run (Z.of_nat n) (Some (Some path)), madvise_script path row.1.1 row.2).
Definition mprotect_cases (pp : Z -> string) : list (prog verdict * script) :=
  let R := PROT_READ in let RW := PROT_WRITE .| PROT_READ in
  let RX := PROT_READ .| PROT_EXEC in let RWX := PROT_WRITE .| PROT_READ .| PROT_EXEC in
  [(mprotect_000 pp, mprotect_script R RW); (mprotect_001 pp, mprotect_script R RWX);
   (mprotect_002 pp, mprotect_script RX RW); (mprotect_003 pp, mprotect_script RX RWX);
   (mprotect_004 pp, mprotect_script R RX); (mprotect_005 pp, mprotect_script R RWX);
   (mprotect_006 pp, mprotect_script RW RX); (mprotect_007 pp, mprotect_script RW RWX)].
Definition resident (len a : Z) : script :=
  Saw (SYS_mincore a len true) (fun r => r.1 = 0) (fun r => Holds (Forall (fun v => v .& 1 = 1) (vec_of r.2)) Done).
Definition refused (len a : Z) (valid : bool) (err : Z) : script :=
  Saw (SYS_mincore a len valid) (fun r => r.1 = - err) (fun _ => Done).
Definition mincore_cases : list (prog verdict * script) :=
  [(mincore_000, mincore_script (resident LENGTH_VALUE));
   (mincore_001, mincore_script (resident (LENGTH_VALUE - PAGE_SIZE + 1)));
   (mincore_002, mincore_script (fun a => refused LENGTH_VALUE (u64 (a - 1)) true EINVAL));
   (mincore_003, mincore_script (fun a => refused LENGTH_VALUE a false EFAULT))].
Definition memory_cases (pp : Z -> string) (path : string) : list (prog verdict * script) :=
  imap (madvise_row path) madvise000_params ++ mprotect_cases pp ++ mincore_cases.

(** C18: Whatever the kernel replies, a passing test of madvise has seen its advice on the mapped file
    answered with the result and error number of its row; one of mprotect has seen the change of the
    middle page granted; one of mincore has seen every page of the filled area reported resident, or
    the error it provokes. *)
Theorem memory_pass_evidence pp path p s e tr e' :
  (p, s) ∈ memory_cases pp path -> run p e tr (Returned None) e' -> follows s tr.
Proof.
  intros Hin H. by_sees H. unfold memory_cases in Hin. rewrite !elem_of_app in Hin.
  destruct Hin as [Hin|[Hin|Hin]].
  - apply elem_of_lookup_imap in Hin as (i & row & [= -> ->] & Hi).
    unfold madvise_run, deref. change (bool_decide (Some path = None)) with false.
    rewrite (proj2 (Z.leb_le 0 (Z.of_nat i))), Nat2Z.id, Hi by lia.
    pose proof (proj1 (Forall_lookup _ _) madvise_expected i row Hi) as He.
    destruct row as [[adv res] err]. by apply madvise_sees.
  - unfold mprotect_cases in Hin. cbv zeta in Hin.
    repeat (apply elem_of_cons in Hin as [[= -> ->]|Hin]; [apply mprotect_sees|]). by apply elem_of_nil in Hin.
  - unfold mincore_cases in Hin.
    repeat (apply elem_of_cons in Hin as [[= -> ->]|Hin];
      [apply mincore_sees; intros a; first [apply mincore_good|apply mincore_bad]|]). by apply elem_of_nil in Hin.
Qed.

Lemma memory_pass_evidence_witness :
  exists tr, follows (mprotect_script PROT_READ (PROT_WRITE .| PROT_READ)) tr.
Proof.
  pose (tr := [ev (SYS_mmap NULL (PAGE_SIZE * 3) PROT_READ (MAP_PRIVATE .| MAP_ANONYMOUS .| MAP_POPULATE) (-1) 0) 65536;
               ev (OUT ("mapped=" +:+ nl)) tt;
               ev (SYS_mprotect 69632 PAGE_SIZE (PROT_WRITE .| PROT_READ)) 0;
               ev (SYS_munmap 65536 (PAGE_SIZE * 3)) 0]).
  exists tr. apply (memory_pass_evidence (fun _ => "") "f" (mprotect_000 (fun _ => "")) _ 0 tr 0).
  - unfold memory_cases, mprotect_cases. set_solver.
  - eexists _, _. split; [reflexivity|]. eexists _, _. split; [reflexivity|].
    eexists _, _. split; [reflexivity|]. eexists _, _. split; [reflexivity|]. done.
Defined.

End MemFileProofs.
