(* ===== verification/Identity.v ===== *)
(** * The suites on user and group identities

    src/src/test_mck/src/: setuid, setgid, getuid, getgid, geteuid, getegid, setreuid, setregid,
    setresuid, setresgid, getresuid, getresgid, setfsuid and setfsgid, one test case each.  A suite
    for groups is the text of the one for users with another name, so the two are one definition
    with the kind as its argument. *)
From S2P Require Import Prelude CMachine Libc FileMap.
Import Libc FileMap.
#[local] Open Scope Z_scope.

Module Identity.

(** An [uid_t] or [gid_t] that is no identity: -1. *)
Definition no_id : Z := 2 ^ 32 - 1.

Definition uid (k : id_kind) : string := match k with UID => "uid" | GID => "gid" end.
Definition Uid (k : id_kind) : string := match k with UID => "Uid:" | GID => "Gid:" end.

(** ** The arguments *)

(** The loop over getopt; [set] stores the number of an option in the field it is for. *)
Fixpoint parse_opts {A} (set : ascii -> Z -> A -> A) (evs : list opt_event) (param : A) : prog (option A) :=
  match evs with
  | [] => Ret (Some param)
  | Opt c (Some optarg) :: evs => parse_opts set evs (set c (u32 (atoi optarg)) param)
  | Opt _ None :: _ => Ret None
  | Bad msg :: _ => fprintf_stderr msg;; Ret None
  end.
Definition parse {A} (spec : list ascii) (set : ascii -> Z -> A -> A) (zero : A) (check : A -> prog unit)
    (argv : list string) : prog (option A) :=
  param ← parse_opts set (events (scan (default "" (argv !! 0%nat)) ((fun c => (c, true)) <$> spec) [] (drop 1 argv))) zero;
  match param with Some p => check p;; Ret (Some p) | None => Ret None end.

Definition mandatory (v : Z) (opt : ascii) (name : string) : prog unit :=
  if (v =? no_id) || (v =? 0)
  then fprintf_stderr ("mandatory parameter '-" +:+ String opt (" <" +:+ name +:+ ">'" +:+ nl)) else Ret tt.

(** One number, two, or three. *)
Definition parse_id (opt : ascii) (name : string) : list string -> prog (option Z) :=
  parse [opt] (fun _ v _ => v) 0 (fun v => mandatory v opt name).
Definition setuid_opt (k : id_kind) : ascii := match k with UID => "u" | GID => "g" end.
Definition setid_parse_args (k : id_kind) := parse_id (setuid_opt k) (uid k).
Definition geteid_parse_args (k : id_kind) := parse_id "e" ("e" +:+ uid k).
Definition setfsid_parse_args (k : id_kind) := parse_id "f" ("fs" +:+ uid k).

Record setreid_args := ReArgs { re_ruid : Z; re_euid : Z }.
Definition setreid_parse_args (k : id_kind) : list string -> prog (option setreid_args) :=
  parse ["r"%char; "e"%char]
    (fun c v p => if Ascii.eqb c "r" then ReArgs v (re_euid p) else ReArgs (re_ruid p) v) (ReArgs 0 0)
    (fun p => mandatory (re_ruid p) "r" ("r" +:+ uid k);; mandatory (re_euid p) "e" ("e" +:+ uid k)).

Record setresid_args := ResArgs { ruid : Z; euid : Z; suid : Z }.
Definition setresid_parse_args (k : id_kind) : list string -> prog (option setresid_args) :=
  parse ["r"%char; "e"%char; "s"%char]
    (fun c v p => if Ascii.eqb c "r" then ResArgs v (euid p) (suid p)
                  else if Ascii.eqb c "e" then ResArgs (ruid p) v (suid p) else ResArgs (ruid p) (euid p) v)
    (ResArgs 0 0 0)
    (fun p => mandatory (ruid p) "r" ("r" +:+ uid k);; mandatory (euid p) "e" ("e" +:+ uid k);;
              mandatory (suid p) "s" ("s" +:+ uid k)).

(** ** Messages *)

(** "f(1, 2) = 0, errno = 0"; the numbers are printed with %d. *)
Definition int_text (n : Z) : string := pretty (s32 n).
Definition say_call (f : string) (args : list Z) (status : Z) : prog unit :=
  e ← get_errno;
  printf (f +:+ "(" +:+ String.concat ", " (int_text <$> args) +:+ ") = " +:+ pretty status +:+ ", errno = " +:+
          pretty e +:+ nl).
Definition say_id (f : string) (id : Z) : prog unit := printf (f +:+ "() = " +:+ int_text id +:+ nl).

Definition with_args {A} (args : option A) (k : A -> prog verdict) : prog verdict :=
  match args with None => Ret (Some "invalid arguement.") | Some a => k a end.

(** ** The test cases *)

Section kind.
Context (k : id_kind).

Definition failed (f : string) : verdict := Some (f +:+ uid k +:+ "() failed.").
Definition invalid_id (name : string) : verdict := Some ("invalid " +:+ name +:+ uid k +:+ ".").

(** setuid, setgid. *)
Definition setid_run (args : option Z) : prog verdict :=
  with_args args (fun id =>
  TP_ASSERT negb (id =? 0), invalid_id "" ;;
  status ← setid k id;
  say_call ("set" +:+ uid k) [id] status;;
  TP_ASSERT negb (status =? -1), failed "set" ;;
  get_uid ← get_id k false;
  say_id ("get" +:+ uid k) get_uid;;
  TP_ASSERT id =? get_uid, failed "set" ;;
  Ret None).

(** getuid, getgid. *)
Definition getid_run (args : option Z) : prog verdict :=
  with_args args (fun id =>
  TP_ASSERT negb (id =? 0), invalid_id "" ;;
  get_uid ← get_id k false;
  say_id ("get" +:+ uid k) get_uid;;
  status ← setid k id;
  say_call ("set" +:+ uid k) [id] status;;
  TP_ASSERT negb (status =? -1), failed "set" ;;
  get_uid ← get_id k false;
  say_id ("get" +:+ uid k) get_uid;;
  TP_ASSERT id =? get_uid, failed "get" ;;
  Ret None).

(** geteuid, getegid. *)
Definition geteid_run (args : option Z) : prog verdict :=
  with_args args (fun id =>
  TP_ASSERT negb (id =? 0), invalid_id "e" ;;
  get_euid ← get_id k true;
  say_id ("gete" +:+ uid k) get_euid;;
  status ← setreid k id id;
  say_call ("setre" +:+ uid k) [id; id] status;;
  TP_ASSERT negb (status =? -1), failed "setre" ;;
  get_euid ← get_id k true;
  say_id ("gete" +:+ uid k) get_euid;;
  TP_ASSERT id =? get_euid, failed "gete" ;;
  Ret None).

(** setreuid, setregid. *)
Definition setreid_run (args : option setreid_args) : prog verdict :=
  with_args args (fun a =>
  TP_ASSERT negb (re_ruid a =? 0), invalid_id "r" ;;
  TP_ASSERT negb (re_euid a =? 0), invalid_id "e" ;;
  status ← setreid k (re_ruid a) (re_euid a);
  say_call ("setre" +:+ uid k) [re_ruid a; re_euid a] status;;
  TP_ASSERT negb (status =? -1), failed "setre" ;;
  get_ruid ← get_id k false;
  say_id ("get" +:+ uid k) get_ruid;;
  TP_ASSERT re_ruid a =? get_ruid, failed "setre" ;;
  get_euid ← get_id k true;
  say_id ("gete" +:+ uid k) get_euid;;
  TP_ASSERT re_euid a =? get_euid, failed "setre" ;;
  Ret None).

(** The variables keep what they hold when getresuid fails. *)
Definition getresid_into (old : Z * Z * Z) : prog (Z * (Z * Z * Z)) :=
  '(status, ids) ← getresid k;
  let ids := if status =? -1 then old else ids in
  say_call ("getres" +:+ uid k) [ids.1.1; ids.1.2; ids.2] status;;
  Ret (status, ids).

Definition compare_resid (a : setresid_args) (ids : Z * Z * Z) : prog verdict :=
  TP_ASSERT ruid a =? ids.1.1, failed "setres" ;;
  TP_ASSERT euid a =? ids.1.2, failed "setres" ;;
  TP_ASSERT suid a =? ids.2, failed "setres" ;;
  Ret None.

(** setresuid, setresgid. *)
Definition setresid_run (args : option setresid_args) : prog verdict :=
  with_args args (fun a =>
  TP_ASSERT negb (ruid a =? 0), invalid_id "r" ;;
  TP_ASSERT negb (euid a =? 0), invalid_id "e" ;;
  TP_ASSERT negb (suid a =? 0), invalid_id "s" ;;
  status ← setresid k (ruid a) (euid a) (suid a);
  say_call ("setres" +:+ uid k) [ruid a; euid a; suid a] status;;
  TP_ASSERT negb (status =? -1), failed "setres" ;;
  '(status, ids) ← getresid_into (0, 0, 0);
  TP_ASSERT negb (status =? -1), failed "getres" ;;
  compare_resid a ids).

(** getresuid, getresgid. *)
Definition getresid_run (args : option setresid_args) : prog verdict :=
  with_args args (fun a =>
  TP_ASSERT negb (ruid a =? 0), invalid_id "r" ;;
  TP_ASSERT negb (euid a =? 0), invalid_id "e" ;;
  TP_ASSERT negb (suid a =? 0), invalid_id "s" ;;
  '(status, ids) ← getresid_into (0, 0, 0);
  TP_ASSERT negb (status =? -1), failed "getres" ;;
  status ← setresid k (ruid a) (euid a) (suid a);
  say_call ("setres" +:+ uid k) [ruid a; euid a; suid a] status;;
  TP_ASSERT negb (status =? -1), failed "setres" ;;
  '(status, ids) ← getresid_into ids;
  TP_ASSERT negb (status =? -1), failed "getres" ;;
  compare_resid a ids).

(** *** setfsuid, setfsgid: the identity is read back from the status file *)

Definition FREAD_BUF_SIZE : Z := 1024.

(** [strstr(s, pat) != NULL], and [strrchr(s, '\t') + 1]. *)
Definition strstr (s pat : string) : bool := match String.index 0 pat s with Some _ => true | None => false end.
Definition tab : ascii := "009".
Fixpoint behind_last_tab (s : string) : option string :=
  match s with
  | EmptyString => None
  | String c s' => match behind_last_tab s' with Some t => Some t | None => if Ascii.eqb c tab then Some s' else None end
  end.

(** The loop over the lines, at most [fuel] of them; the identity found, or the 0 it starts with. *)
Fixpoint find_line (fuel : nat) (fp : Z) : prog Z :=
  match fuel with
  | O => out_of_fuel
  | S fuel =>
      buf ← fgets fp FREAD_BUF_SIZE;
      match buf with
      | None => Ret 0
      | Some buf =>
          if strstr buf (Uid k) then
            printf buf;;
            Ret (match behind_last_tab buf with Some p => u32 (atoi p) | None => 0 end)
          else find_line fuel fp
      end
  end.
Definition check_procfs_status (fuel : nat) (set_fsid : Z) : prog Z :=
  pid ← getpid;
  let fname := "/proc/" +:+ pretty pid +:+ "/status" in
  fp ← fopen fname "r";
  match fp with
  | None => fprintf_stderr ("fopen error." +:+ nl);; Ret 0
  | Some fp =>
      p_fsid ← find_line fuel fp;
      r ← fclose fp;
      if negb (r =? 0) then fprintf_stderr ("fclose error." +:+ nl);; Ret 0
      else
        printf ("cmp " +:+ int_text set_fsid +:+ " == " +:+ int_text p_fsid +:+ " ? " +:+ nl);;
        Ret (if set_fsid =? p_fsid then 1 else 0)
  end.

Definition setfsid_run (fuel : nat) (args : option Z) : prog verdict :=
  with_args args (fun id =>
  TP_ASSERT negb (id =? 0), invalid_id "" ;;
  status ← setfsid k id;
  let status := s32 status in
  say_call ("setfs" +:+ uid k) [id] status;;
  TP_ASSERT negb (status =? -1), failed "setfs" ;;
  same ← check_procfs_status fuel id;
  TP_ASSERT same =? 1, failed "setfs" ;;
  Ret None).

End kind.

(** ** The suites

    Set-up and test of each. *)
Definition setuid_parse_args := setid_parse_args UID.
Definition setgid_parse_args := setid_parse_args GID.
Definition getuid_parse_args := setid_parse_args UID.
Definition getgid_parse_args := setid_parse_args GID.
Definition geteuid_parse_args := geteid_parse_args UID.
Definition getegid_parse_args := geteid_parse_args GID.
Definition setreuid_parse_args := setreid_parse_args UID.
Definition setregid_parse_args := setreid_parse_args GID.
Definition setresuid_parse_args := setresid_parse_args UID.
Definition setresgid_parse_args := setresid_parse_args GID.
Definition getresuid_parse_args := setresid_parse_args UID.
Definition getresgid_parse_args := setresid_parse_args GID.
Definition setfsuid_parse_args := setfsid_parse_args UID.
Definition setfsgid_parse_args := setfsid_parse_args GID.

Definition setuid_000 (argv : list string) : prog verdict :=
  args ← setuid_parse_args argv; setid_run UID args.
Definition setgid_000 (argv : list string) : prog verdict :=
  args ← setgid_parse_args argv; setid_run GID args.
Definition getuid_000 (argv : list string) : prog verdict :=
  args ← getuid_parse_args argv; getid_run UID args.
Definition getgid_000 (argv : list string) : prog verdict :=
  args ← getgid_parse_args argv; getid_run GID args.
Definition geteuid_000 (argv : list string) : prog verdict :=
  args ← geteuid_parse_args argv; geteid_run UID args.
Definition getegid_000 (argv : list string) : prog verdict :=
  args ← getegid_parse_args argv; geteid_run GID args.
Definition setreuid_000 (argv : list string) : prog verdict :=
  args ← setreuid_parse_args argv; setreid_run UID args.
Definition setregid_000 (argv : list string) : prog verdict :=
  args ← setregid_parse_args argv; setreid_run GID args.
Definition setresuid_000 (argv : list string) : prog verdict :=
  args ← setresuid_parse_args argv; setresid_run UID args.
Definition setresgid_000 (argv : list string) : prog verdict :=
  args ← setresgid_parse_args argv; setresid_run GID args.
Definition getresuid_000 (argv : list string) : prog verdict :=
  args ← getresuid_parse_args argv; getresid_run UID args.
Definition getresgid_000 (argv : list string) : prog verdict :=
  args ← getresgid_parse_args argv; getresid_run GID args.
Definition setfsuid_000 (fuel : nat) (argv : list string) : prog verdict :=
  args ← setfsuid_parse_args argv; setfsid_run UID fuel args.
Definition setfsgid_000 (fuel : nat) (argv : list string) : prog verdict :=
  args ← setfsgid_parse_args argv; setfsid_run GID fuel args.

End Identity.
