(* ===== verification/IdentityProofs.v ===== *)
(** * The identity suites implement their specification

    The specification knows the four identities of a process and what credentials(7) and the manual
    pages of the set calls allow; [permitted] and [after] say in these terms when a test case passes
    and what it leaves.  [identity_refines]: run from its command line on any kernel that documents
    these calls, each of the 14 test cases does just that. *)
From S2P Require Import Prelude CMachine Libc FileMap Identity.
Import Libc FileMap Identity.
#[local] Open Scope Z_scope.

Module IdentityProofs.

(** ** The specification *)

Record creds := Creds { real : Z; effective : Z; saved : Z; fs : Z }.

(** The set calls: the new identities, or the error; [priv] is the privilege to choose any. *)
Definition keep (id old : Z) : Z := if id =? no_id then old else id.
Definition among (id : Z) (ids : list Z) : bool := existsb (Z.eqb id) ids.

Definition set_id (priv : bool) (c : creds) (id : Z) : creds + Z :=
  if id =? no_id then inr EINVAL
  else if priv then inl (Creds id id id id)
  else if among id [real c; saved c] then inl (Creds (real c) id (saved c) id) else inr EPERM.

Definition set_reid (priv : bool) (c : creds) (r e : Z) : creds + Z :=
  if priv || (among r [no_id; real c; effective c] && among e [no_id; real c; effective c; saved c]) then
    let e' := keep e (effective c) in
    let s' := if negb (r =? no_id) || negb (among e [no_id; real c]) then e' else saved c in
    inl (Creds (keep r (real c)) e' s' e')
  else inr EPERM.

Definition set_resid (priv : bool) (c : creds) (r e s : Z) : creds + Z :=
  let own := [no_id; real c; effective c; saved c] in
  if priv || (among r own && among e own && among s own) then
    let e' := keep e (effective c) in inl (Creds (keep r (real c)) e' (keep s (saved c)) e')
  else inr EPERM.

Definition set_fsid (priv : bool) (c : creds) (f : Z) : creds :=
  if negb (f =? no_id) && (priv || among f [real c; effective c; saved c; fs c])
  then Creds (real c) (effective c) (saved c) f else c.

(** The test cases, with the numbers of their options. *)
Inductive call : Set :=
| C_setid (id : Z) | C_getid (id : Z) | C_geteid (id : Z) | C_setreid (r e : Z)
| C_setresid (r e s : Z) | C_getresid (r e s : Z) | C_setfsid (id : Z).

(** When a test case passes. *)
Definition permitted (priv : bool) (c : creds) (t : call) : bool :=
  priv ||
  match t with
  | C_setid id | C_getid id => id =? real c
  | C_geteid id => among id [real c; effective c]
  | C_setreid r e => among r [real c; effective c] && among e [real c; effective c; saved c]
  | C_setresid r e s | C_getresid r e s =>
      let own := [real c; effective c; saved c] in among r own && among e own && among s own
  | C_setfsid id => among id [real c; effective c; saved c; fs c]
  end.

(** The identities it leaves. *)
Definition after (priv : bool) (c : creds) (t : call) : creds :=
  let made x := match x with inl c' => c' | inr _ => c end in
  match t with
  | C_setid id | C_getid id => made (set_id priv c id)
  | C_geteid id => made (set_reid priv c id id)
  | C_setreid r e => made (set_reid priv c r e)
  | C_setresid r e s | C_getresid r e s => made (set_resid priv c r e s)
  | C_setfsid id => set_fsid priv c id
  end.

(** ** The test cases as programs, and their command lines *)

Definition program (fuel : nat) (k : id_kind) (t : call) : list string -> prog verdict :=
  match t, k with
  | C_setid _, UID => setuid_000 | C_setid _, GID => setgid_000
  | C_getid _, UID => getuid_000 | C_getid _, GID => getgid_000
  | C_geteid _, UID => geteuid_000 | C_geteid _, GID => getegid_000
  | C_setreid _ _, UID => setreuid_000 | C_setreid _ _, GID => setregid_000
  | C_setresid _ _ _, UID => setresuid_000 | C_setresid _ _ _, GID => setresgid_000
  | C_getresid _ _ _, UID => getresuid_000 | C_getresid _ _ _, GID => getresgid_000
  | C_setfsid _, UID => setfsuid_000 fuel | C_setfsid _, GID => setfsgid_000 fuel
  end.
Definition numbers (t : call) : list Z :=
  match t with
  | C_setid id | C_getid id | C_geteid id | C_setfsid id => [id]
  | C_setreid r e => [r; e]
  | C_setresid r e s | C_getresid r e s => [r; e; s]
  end.
Definition options (k : id_kind) (t : call) : list string :=
  match t with
  | C_setid id | C_getid id => [match k with UID => "-u" | GID => "-g" end; pretty id]
  | C_geteid id => ["-e"; pretty id]
  | C_setreid r e => ["-r"; pretty r; "-e"; pretty e]
  | C_setresid r e s | C_getresid r e s => ["-r"; pretty r; "-e"; pretty e; "-s"; pretty s]
  | C_setfsid id => ["-f"; pretty id]
  end.

(** ** The kernel *)

(** The line of /proc/<pid>/status with the identities. *)
Definition status_line (k : id_kind) (c : creds) : string :=
  let t := String tab "" in
  Uid k +:+ t +:+ pretty (real c) +:+ t +:+ pretty (effective c) +:+ t +:+ pretty (saved c) +:+ t +:+
  pretty (fs c) +:+ nl.

(** [s'] has the identities [c] for [k], and those of [s] for the other kind. *)
Definition moved {S} (view : S -> id_kind -> creds) (s s' : S) (k : id_kind) (c : creds) : Prop :=
  view s' k = c /\ forall k', k' <> k -> view s' k' = view s k'.

(** A set call changes the identities it is for, or replies with the error and changes nothing. *)
Definition effect {S} (view : S -> id_kind -> creds) (s s' : S) (k : id_kind) (x : creds + Z) (r : Z) : Prop :=
  match x with inl c => r = 0 /\ moved view s s' k c | inr e => r = - e /\ moved view s s' k (view s k) end.

(** The requests that change no identity. *)
Definition quiet (c : cmd) : bool :=
  match c with OUT _ | ERR _ | SYS_get_id _ _ | SYS_getresid _ | SYS_getpid => true | _ => false end.

Class CredKernel (K : Kernel) := {
  creds_of : kstate -> id_kind -> creds;
  privileged : kstate -> id_kind -> bool;
  self : kstate -> Z;
  (** The lines still to be read of an open stream; a status file has at most [status_max]. *)
  stream : kstate -> Z -> option (list string);
  status_max : nat;
  creds_range s k : let c := creds_of s k in
    Forall (fun id => 0 <= id < no_id) [real c; effective c; saved c; fs c];
  cred_quiet s c : quiet c = true -> let s' := (kstep c s).2 in
    creds_of s' = creds_of s /\ privileged s' = privileged s /\ self s' = self s /\ stream s' = stream s;
  cred_getpid s : (kstep SYS_getpid s).1 = self s;
  cred_get s k eff : (kstep (SYS_get_id k eff) s).1 = (if eff then effective else real) (creds_of s k);
  cred_getres s k : let c := creds_of s k in (kstep (SYS_getresid k) s).1 = (0, (real c, effective c, saved c));
  cred_setid s k id : 0 <= id <= no_id -> let '(r, s') := kstep (SYS_setid k id) s in
    effect creds_of s s' k (set_id (privileged s k) (creds_of s k) id) r;
  cred_setreid s k rid eid : 0 <= rid <= no_id -> 0 <= eid <= no_id -> let '(r, s') := kstep (SYS_setreid k rid eid) s in
    effect creds_of s s' k (set_reid (privileged s k) (creds_of s k) rid eid) r;
  cred_setresid s k rid eid sid : 0 <= rid <= no_id -> 0 <= eid <= no_id -> 0 <= sid <= no_id -> let '(r, s') := kstep (SYS_setresid k rid eid sid) s in
    effect creds_of s s' k (set_resid (privileged s k) (creds_of s k) rid eid sid) r;
  cred_setfsid s k id : 0 <= id <= no_id -> let '(r, s') := kstep (SYS_setfsid k id) s in
    r = fs (creds_of s k) /\ moved creds_of s s' k (set_fsid (privileged s k) (creds_of s k) id);
  (** The status file: for each kind, the line with its identities is the first with its name. *)
  cred_fopen s : exists fp lines s',
    kstep (FILE_fopen ("/proc/" +:+ pretty (self s) +:+ "/status") "r") s = (Some fp, s') /\
    creds_of s' = creds_of s /\ stream s' fp = Some lines /\ (length lines <= status_max)%nat /\
    Forall (fun l => Z.of_nat (String.length l) < FREAD_BUF_SIZE) lines /\
    forall k, exists before behind, lines = before ++ status_line k (creds_of s k) :: behind /\
      Forall (fun l => strstr l (Uid k) = false) before;
  cred_fgets s fp lines size :
    stream s fp = Some lines -> Forall (fun l => Z.of_nat (String.length l) < size) lines -> exists s',
    kstep (FILE_fgets fp size) s = (head lines, s') /\ creds_of s' = creds_of s /\ stream s' fp = Some (tail lines);
  cred_fclose s fp : stream s fp <> None -> exists s',
    kstep (FILE_fclose fp) s = (0, s') /\ creds_of s' = creds_of s
}.

(** ** Parts of the specification *)

Lemma set_id_spec priv c id :
  id <> no_id ->
  match set_id priv c id with
  | inl c' => (id =? real c') = permitted priv c (C_setid id)
  | inr e => permitted priv c (C_setid id) = false /\ e = EPERM
  end.
Proof.
  intros Hid. unfold set_id. apply Z.eqb_neq in Hid as ->. destruct priv; cbn; [by rewrite Z.eqb_refl|].
  unfold permitted, among. cbn. destruct (id =? real c) eqn:E; cbn; [done|]. by destruct (id =? saved c).
Qed.

Lemma among_own id ids : id <> no_id -> among id (no_id :: ids) = among id ids.
Proof. intros Hid%Z.eqb_neq. unfold among. cbn. by rewrite Hid. Qed.

Lemma keep_id id old : id <> no_id -> keep id old = id.
Proof. intros Hid%Z.eqb_neq. unfold keep. by rewrite Hid. Qed.

Lemma set_reid_spec priv c r e :
  r <> no_id -> e <> no_id ->
  match set_reid priv c r e with
  | inl c' => permitted priv c (C_setreid r e) = true /\ real c' = r /\ effective c' = e
  | inr err => permitted priv c (C_setreid r e) = false /\ err = EPERM
  end.
Proof.
  intros Hr He. unfold set_reid. rewrite !among_own, !keep_id by done.
  change (priv || (among r [real c; effective c] && among e [real c; effective c; saved c]))
    with (permitted priv c (C_setreid r e)).
  by destruct (permitted priv c (C_setreid r e)).
Qed.

Lemma permitted_geteid priv c id : permitted priv c (C_geteid id) = permitted priv c (C_setreid id id).
Proof.
  unfold permitted, among. cbn. destruct (id =? real c), (id =? effective c); cbn; by rewrite ?orb_true_r.
Qed.

Lemma set_resid_spec priv c r e s :
  r <> no_id -> e <> no_id -> s <> no_id ->
  match set_resid priv c r e s with
  | inl c' => permitted priv c (C_setresid r e s) = true /\ real c' = r /\ effective c' = e /\ saved c' = s
  | inr err => permitted priv c (C_setresid r e s) = false /\ err = EPERM
  end.
Proof.
  intros Hr He Hs. unfold set_resid. rewrite !among_own, !keep_id by done.
  match goal with |- context [if ?b then _ else _] => change b with (permitted priv c (C_setresid r e s)) end.
  by destruct (permitted priv c (C_setresid r e s)).
Qed.

Lemma set_fsid_spec priv c id : id <> no_id -> (id =? fs (set_fsid priv c id)) = permitted priv c (C_setfsid id).
Proof.
  intros Hid%Z.eqb_neq. unfold set_fsid, permitted. rewrite Hid. cbn [negb andb].
  destruct (priv || among id _) eqn:E; cbn [fs]; [apply Z.eqb_refl|]. unfold among in E. cbn in E.
  by destruct priv, (id =? real c), (id =? effective c), (id =? saved c), (id =? fs c).
Qed.

(** ** The command line *)

Lemma u32_atoi id t :
  0 <= id < 2 ^ 32 -> (forall c l, chars t = c :: l -> digit 10 c = None) -> u32 (atoi (pretty id +:+ t)) = id.
Proof.
  intros Hid Ht. unfold atoi. rewrite strtoll_pretty by (unfold LONG_MAX; lia || done).
  unfold wrap_u, wrap_s. change (2 ^ (32 - 1)) with 2147483648. change (2 ^ 32) with 4294967296 in *.
  rewrite Zminus_mod_idemp_l. rewrite Z.add_simpl_r. by apply Z.mod_small.
Qed.

Lemma option_value id : 0 < id < no_id -> u32 (atoi (pretty id)) = id.
Proof.
  intros Hid. rewrite <- (append_empty (pretty id)). apply u32_atoi; [unfold no_id in Hid; lia|done].
Qed.

Lemma mandatory_ok v opt name : 0 < v < no_id -> mandatory v opt name = Ret tt.
Proof.
  intros Hv. unfold mandatory. replace (v =? no_id) with false by lia. by replace (v =? 0) with false by lia.
Qed.

(** The arguments each test case is called with. *)
Lemma parse_ok k t :
  Forall (fun id => 0 < id < no_id) (numbers t) ->
  forall fuel app, program fuel k t (app :: options k t) =
    match t with
    | C_setid id => setid_run k (Some id) | C_getid id => getid_run k (Some id) | C_geteid id => geteid_run k (Some id)
    | C_setreid r e => setreid_run k (Some (ReArgs r e))
    | C_setresid r e s => setresid_run k (Some (ResArgs r e s)) | C_getresid r e s => getresid_run k (Some (ResArgs r e s))
    | C_setfsid id => setfsid_run k fuel (Some id)
    end.
Proof.
  intros Hn fuel app. destruct t; cbn [numbers] in Hn; repeat (apply Forall_cons in Hn as [? Hn]); destruct k;
    cbn -[pretty mandatory atoi setid_run getid_run geteid_run setreid_run setresid_run getresid_run setfsid_run wrap_u];
    rewrite !option_value by done; cbn -[mandatory setid_run getid_run geteid_run setreid_run setresid_run getresid_run setfsid_run];
    rewrite !mandatory_ok by done; reflexivity.
Qed.

(** ** The line of the status file *)

Lemma behind_app a b t : behind_last_tab b = Some t -> behind_last_tab (a +:+ b) = Some t.
Proof.
  intros Hb. induction a as [|c a IH]; [done|]. change (String c a +:+ b) with (String c (a +:+ b)).
  cbn [behind_last_tab]. by rewrite IH.
Qed.

Lemma no_tab s : Forall (fun c => c <> tab) (chars s) -> behind_last_tab s = None.
Proof.
  induction s as [|c s IH]; intros Hs; [done|]. apply Forall_cons in Hs as [Hc%Ascii.eqb_neq Hs].
  cbn [behind_last_tab]. by rewrite IH, Hc.
Qed.

Lemma pretty_chars_not n c : 0 <= n -> digit 10 c = None -> Forall (fun d => d <> c) (chars (pretty n)).
Proof. intros Hn Hc. eapply Forall_impl; [by apply pretty_chars|]. intros d [v Hd] ->. congruence. Qed.

Lemma status_line_ok k c :
  0 <= fs c < no_id -> strstr (status_line k c) (Uid k) = true /\
  exists t, behind_last_tab (status_line k c) = Some t /\ u32 (atoi t) = fs c.
Proof.
  intros Hc. split; [by destruct k|]. exists (pretty (fs c) +:+ nl). split.
  - unfold status_line. do 7 apply behind_app. change (String tab "" +:+ ?x) with (String tab x). cbn [behind_last_tab].
    rewrite no_tab; [done|]. rewrite chars_app. apply Forall_app. split; [apply pretty_chars_not; [lia|done]|by repeat constructor].
  - apply u32_atoi; [unfold no_id in Hc; lia|]. by intros ch l [= <- <-].
Qed.

(** ** Steps on the kernel *)

Section kernel.
Context `{CK : CredKernel}.

(** The same identities, privileges and streams. *)
Definition same (s s' : kstate) : Prop :=
  creds_of s' = creds_of s /\ privileged s' = privileged s /\ self s' = self s /\ stream s' = stream s.
Lemma same_refl s : same s s.
Proof. done. Qed.
Lemma same_trans s1 s2 s3 : same s1 s2 -> same s2 s3 -> same s1 s3.
Proof. unfold same. naive_solver congruence. Qed.
Hint Resolve same_refl : core.

(** [same s0 s]: what the program has asked for since [s0] has changed nothing. *)
Section steps.
Context {A : Type} (s0 s : kstate) (Hs : same s0 s) (Q : A -> kstate -> Prop).

Lemma quiet_same c : quiet c = true -> returns (trigger c) s (fun r s' => r = (kstep c s).1 /\ same s0 s').
Proof.
  intros Hc. eapply returns_trigger; [apply surjective_pairing|]. split; [done|].
  eapply same_trans; [done|]. apply (cred_quiet s c Hc).
Qed.

Lemma step_quiet c (k : reply c -> prog A) :
  quiet c = true -> (forall s', same s0 s' -> returns (k (kstep c s).1) s' Q) -> returns (trigger c ≫= k) s Q.
Proof.
  intros Hc Hk. apply returns_bind. eapply returns_mono; [by apply quiet_same|]. intros r s' [-> Hs']. auto.
Qed.

Lemma step_printf t (k : unit -> prog A) : (forall s', same s0 s' -> returns (k tt) s' Q) -> returns (printf t ≫= k) s Q.
Proof.
  intros Hk. apply returns_bind. eapply returns_mono; [by apply (quiet_same (OUT t))|]. intros [] s' [_ Hs']. auto.
Qed.

Lemma step_say_id f id (k : unit -> prog A) : (forall s', same s0 s' -> returns (k tt) s' Q) -> returns (say_id f id ≫= k) s Q.
Proof. apply step_printf. Qed.

Lemma step_get_id kd (eff : bool) (k : Z -> prog A) :
  (forall s', same s0 s' -> returns (k ((if eff then effective else real) (creds_of s0 kd))) s' Q) ->
  returns (get_id kd eff ≫= k) s Q.
Proof.
  intros Hk. apply step_quiet; [done|]. intros s' Hs'. rewrite cred_get. destruct Hs as (-> & _). by apply Hk.
Qed.

End steps.

Lemma step_say_call {A} s0 s f args status (k : unit -> prog A) Q :
  same s0 s -> (forall s', same s0 s' -> returns (k tt) s' Q) -> returns (say_call f args status ≫= k) s Q.
Proof.
  intros Hs Hk. apply returns_bind. unfold say_call. apply returns_bind, returns_get_errno. intros e.
  eapply returns_mono; [by apply (quiet_same s0 s Hs (OUT _))|]. intros [] s' [_ Hs']. auto.
Qed.

Lemma step_getresid {A} s0 s kd old (k : Z * (Z * Z * Z) -> prog A) Q :
  same s0 s ->
  (forall s', same s0 s' -> let c := creds_of s0 kd in returns (k (0, (real c, effective c, saved c))) s' Q) ->
  returns (getresid_into kd old ≫= k) s Q.
Proof.
  intros Hs Hk. apply returns_bind. unfold getresid_into, getresid. apply returns_bind, returns_bind.
  eapply returns_mono; [by apply (quiet_same s0 s Hs (SYS_getresid kd))|]. intros r s' [-> Hs'].
  rewrite cred_getres. cbv zeta iota beta.
  apply returns_bind, returns_syscall_ret. cbn -[say_call]. apply returns_ret.
  apply (step_say_call s0); [done|]. intros s2 Hs2. apply returns_ret.
  destruct Hs as (-> & _). by apply Hk.
Qed.

(** A set call with the outcome [x] of the specification. *)
Lemma step_set {A} c s0 s kd x (conv : reply c -> prog Z) (k : Z -> prog A) Q :
  same s0 s ->
  (let '(r, s') := kstep c s in exists z, conv r = syscall_ret z /\ effect creds_of s s' kd x z) ->
  match x with
  | inl cr => forall s', moved creds_of s0 s' kd cr -> returns (k 0) s' Q
  | inr e => e = EPERM /\ forall s', moved creds_of s0 s' kd (creds_of s0 kd) -> returns (k (-1)) s' Q
  end ->
  returns ((trigger c ≫= conv) ≫= k) s Q.
Proof.
  intros Hs He Hk. apply returns_bind, returns_bind. destruct (kstep c s) as [r s'] eqn:E.
  apply (returns_trigger c _ _ _ _ E). destruct He as (z & -> & He). apply returns_syscall_ret.
  destruct Hs as (Hs & _). unfold effect, moved in *. rewrite Hs in He. destruct x as [cr|err].
  - destruct He as [-> He]. by apply Hk.
  - destruct Hk as [-> Hk], He as [-> He]. by apply Hk.
Qed.

(** The end of a test case: its verdict says whether [ok], the identities are [c]. *)
Definition ends_with (s0 : kstate) (kd : id_kind) (ok : bool) (c : creds) (v : verdict) (s' : kstate) : Prop :=
  (v = None <-> ok = true) /\ moved creds_of s0 s' kd c.

Lemma moved_same s0 s1 s2 kd c : moved creds_of s0 s1 kd c -> same s1 s2 -> moved creds_of s0 s2 kd c.
Proof. intros [H1 H2] (E & _). split; rewrite E; auto. Qed.

Section ends.
Context (s0 : kstate) (kd : id_kind) (ok : bool) (c : creds) (s : kstate) (Hm : moved creds_of s0 s kd c).

Lemma ends_pass : ok = true -> returns (Ret None) s (ends_with s0 kd ok c).
Proof. intros ->. by apply returns_ret. Qed.
Lemma ends_fail msg : ok = false -> returns (Ret (Some msg)) s (ends_with s0 kd ok c).
Proof. intros ->. by apply returns_ret. Qed.
Lemma ends_check (b : bool) msg (p : prog verdict) :
  (b = true -> returns p s (ends_with s0 kd ok c)) -> (b = false -> ok = false) ->
  returns (TP_ASSERT b, Some msg ;; p) s (ends_with s0 kd ok c).
Proof. intros Hp Hb. destruct b; [by apply Hp|by apply ends_fail, Hb]. Qed.
End ends.

(** The guards on the options are passed. *)
Lemma nonzero id : 0 < id < no_id -> (id =? 0) = false /\ id <> no_id /\ 0 <= id <= no_id.
Proof. lia. Qed.

Section tests.
Context (kd : id_kind) (s : kstate).
Notation priv := (privileged s kd).
Notation now := (creds_of s kd).
Notation ends t := (ends_with s kd (permitted priv now t) (after priv now t)).

Lemma setid_ends id : 0 < id < no_id -> returns (setid_run kd (Some id)) s (ends (C_setid id)).
Proof.
  intros (Hz & Hid & Hle)%nonzero. unfold setid_run, with_args. rewrite Hz. cbn [negb tp_assert].
  apply (step_set _ s s kd (set_id priv now id)); [done| |].
  { pose proof (cred_setid s kd id Hle) as He. destruct (kstep _ s) as [r s']. by exists r. }
  pose proof (set_id_spec priv now id Hid) as Hx. unfold after. destruct (set_id _ _ _) as [c|err].
  - intros s1 H1. apply (step_say_call s1); [done|]. intros s2 H2. cbn [Z.eqb negb tp_assert].
    apply (step_get_id s1); [done|]. intros s3 H3. apply (step_say_id s1); [done|]. intros s4 H4.
    rewrite <- Hx. pose proof (proj1 H1) as ->. pose proof (moved_same _ _ _ _ _ H1 H4).
    apply ends_check; [done|by apply ends_pass|done].
  - destruct Hx as [Hp ->]. split; [done|]. intros s1 H1. apply (step_say_call s1); [done|]. intros s2 H2.
    cbn. eapply ends_fail; [by eapply moved_same|done].
Qed.

Lemma getid_ends id : 0 < id < no_id -> returns (getid_run kd (Some id)) s (ends (C_getid id)).
Proof.
  intros (Hz & Hid & Hle)%nonzero. unfold getid_run, with_args. rewrite Hz. cbn [negb tp_assert].
  apply (step_get_id s); [done|]. intros s1 H1. apply (step_say_id s); [done|]. intros s2 H2.
  apply (step_set _ s s2 kd (set_id priv now id)); [done| |].
  { pose proof (cred_setid s2 kd id Hle) as He. destruct H2 as (E1 & E2 & _). rewrite E1, E2 in He.
    destruct (kstep _ s2) as [r s']. exists r. split; [done|]. by destruct (set_id _ _ _). }
  pose proof (set_id_spec priv now id Hid) as Hx. unfold after. destruct (set_id _ _ _) as [c|err].
  - intros s3 H3. apply (step_say_call s3); [done|]. intros s4 H4. cbn [Z.eqb negb tp_assert].
    apply (step_get_id s3); [done|]. intros s5 H5. apply (step_say_id s3); [done|]. intros s6 H6.
    change (permitted priv now (C_getid id)) with (permitted priv now (C_setid id)).
    rewrite <- Hx. pose proof (proj1 H3) as ->. pose proof (moved_same _ _ _ _ _ H3 H6).
    apply ends_check; [done|by apply ends_pass|done].
  - destruct Hx as [Hp ->]. split; [done|]. intros s3 H3. apply (step_say_call s3); [done|]. intros s4 H4.
    cbn. eapply ends_fail; [by eapply moved_same|done].
Qed.

Lemma geteid_ends id : 0 < id < no_id -> returns (geteid_run kd (Some id)) s (ends (C_geteid id)).
Proof.
  intros (Hz & Hid & Hle)%nonzero. unfold geteid_run, with_args. rewrite Hz. cbn [negb tp_assert].
  apply (step_get_id s); [done|]. intros s1 H1. apply (step_say_id s); [done|]. intros s2 H2.
  apply (step_set _ s s2 kd (set_reid priv now id id)); [done| |].
  { pose proof (cred_setreid s2 kd id id Hle Hle) as He. destruct H2 as (E1 & E2 & _). rewrite E1, E2 in He.
    destruct (kstep _ s2) as [r s']. by exists r. }
  rewrite permitted_geteid. pose proof (set_reid_spec priv now id id Hid Hid) as Hx. unfold after.
  destruct (set_reid _ _ _ _) as [c|err].
  - destruct Hx as (Hp & _ & He). intros s3 H3. apply (step_say_call s3); [done|]. intros s4 H4.
    cbn [Z.eqb negb tp_assert]. apply (step_get_id s3); [done|]. intros s5 H5.
    apply (step_say_id s3); [done|]. intros s6 H6. pose proof (proj1 H3) as ->. rewrite He, Z.eqb_refl.
    apply ends_pass; [by eapply moved_same|done].
  - destruct Hx as [Hp ->]. split; [done|]. intros s3 H3. apply (step_say_call s3); [done|]. intros s4 H4.
    cbn. eapply ends_fail; [by eapply moved_same|done].
Qed.

Lemma setreid_ends r e :
  0 < r < no_id -> 0 < e < no_id -> returns (setreid_run kd (Some (ReArgs r e))) s (ends (C_setreid r e)).
Proof.
  intros (Hzr & Hr & Hlr)%nonzero (Hze & He & Hle)%nonzero. unfold setreid_run, with_args. cbn [re_ruid re_euid].
  rewrite Hzr, Hze. cbn [negb tp_assert].
  apply (step_set _ s s kd (set_reid priv now r e)); [done| |].
  { pose proof (cred_setreid s kd r e Hlr Hle) as Hk. destruct (kstep _ s) as [z s']. by exists z. }
  pose proof (set_reid_spec priv now r e Hr He) as Hx. unfold after. destruct (set_reid _ _ _ _) as [c|err].
  - destruct Hx as (Hp & Er & Ee). intros s1 H1. apply (step_say_call s1); [done|]. intros s2 H2.
    cbn [Z.eqb negb tp_assert]. apply (step_get_id s1); [done|]. intros s3 H3.
    apply (step_say_id s1); [done|]. intros s4 H4. pose proof (proj1 H1) as E1. rewrite E1, Er, Z.eqb_refl.
    cbn [tp_assert]. apply (step_get_id s1); [done|]. intros s5 H5. apply (step_say_id s1); [done|].
    intros s6 H6. rewrite E1, Ee, Z.eqb_refl. apply ends_pass; [by eapply moved_same|done].
  - destruct Hx as [Hp ->]. split; [done|]. intros s1 H1. apply (step_say_call s1); [done|]. intros s2 H2.
    cbn. eapply ends_fail; [by eapply moved_same|done].
Qed.

(** The second half of setresuid and getresuid: the call and the comparison. *)
Lemma resid_ends r e z s1 :
  0 < r < no_id -> 0 < e < no_id -> 0 < z < no_id -> same s s1 ->
  forall old, returns
    (status ← setresid kd r e z;
     say_call ("setres" +:+ uid kd) [r; e; z] status;;
     TP_ASSERT negb (status =? -1), failed kd "setres" ;;
     '(status, ids) ← getresid_into kd old;
     TP_ASSERT negb (status =? -1), failed kd "getres" ;;
     compare_resid kd (ResArgs r e z) ids) s1 (ends (C_setresid r e z)).
Proof.
  intros (_ & Hr & Hlr)%nonzero (_ & He & Hle)%nonzero (_ & Hz & Hlz)%nonzero Hs old. apply (step_set _ s s1 kd (set_resid priv now r e z)); [done| |].
  { pose proof (cred_setresid s1 kd r e z Hlr Hle Hlz) as Hk. destruct Hs as (E1 & E2 & _). rewrite E1, E2 in Hk.
    destruct (kstep _ s1) as [x s']. by exists x. }
  pose proof (set_resid_spec priv now r e z Hr He Hz) as Hx. unfold after. destruct (set_resid _ _ _ _ _) as [c|err].
  - destruct Hx as (Hp & Er & Ee & Ez). intros s2 H2. apply (step_say_call s2); [done|]. intros s3 H3.
    cbn [Z.eqb negb tp_assert]. apply (step_getresid s2); [done|]. intros s4 H4. cbn zeta iota beta.
    pose proof (proj1 H2) as ->. unfold compare_resid. cbn [Z.eqb negb tp_assert ruid euid suid fst snd].
    rewrite Er, Ee, Ez, !Z.eqb_refl. apply ends_pass; [by eapply moved_same|done].
  - destruct Hx as [Hp ->]. split; [done|]. intros s2 H2. apply (step_say_call s2); [done|]. intros s3 H3.
    cbn. eapply ends_fail; [by eapply moved_same|done].
Qed.

Lemma setresid_ends r e z :
  0 < r < no_id -> 0 < e < no_id -> 0 < z < no_id ->
  returns (setresid_run kd (Some (ResArgs r e z))) s (ends (C_setresid r e z)).
Proof.
  intros Hr He Hz. pose proof (nonzero r Hr) as [Hzr _]. pose proof (nonzero e He) as [Hze _].
  pose proof (nonzero z Hz) as [Hzz _]. unfold setresid_run, with_args. cbn [ruid euid suid].
  rewrite Hzr, Hze, Hzz. by apply resid_ends.
Qed.

Lemma getresid_ends r e z :
  0 < r < no_id -> 0 < e < no_id -> 0 < z < no_id ->
  returns (getresid_run kd (Some (ResArgs r e z))) s (ends (C_getresid r e z)).
Proof.
  intros Hr He Hz. pose proof (nonzero r Hr) as [Hzr _]. pose proof (nonzero e He) as [Hze _].
  pose proof (nonzero z Hz) as [Hzz _]. unfold getresid_run, with_args. cbn [ruid euid suid].
  rewrite Hzr, Hze, Hzz. cbn [negb tp_assert]. apply (step_getresid s); [done|]. intros s1 H1. by apply resid_ends.
Qed.

(** Reading the file. *)
Lemma find_line_returns fuel s1 fp lines before behind :
  stream s1 fp = Some lines -> lines = before ++ status_line kd (creds_of s1 kd) :: behind ->
  Forall (fun l => strstr l (Uid kd) = false) before ->
  Forall (fun l => Z.of_nat (String.length l) < FREAD_BUF_SIZE) lines -> (length lines < fuel)%nat ->
  returns (find_line kd fuel fp) s1 (fun v s' => v = fs (creds_of s1 kd) /\ creds_of s' = creds_of s1 /\ stream s' fp <> None).
Proof.
  revert s1 lines before. induction fuel as [|fuel IH]; intros s1 lines before Hfp Hl Hb Hs Hn; [lia|].
  cbn [find_line]. destruct (cred_fgets s1 fp lines _ Hfp Hs) as (s2 & E & Ec & Ef).
  apply returns_bind, (returns_trigger _ _ _ _ _ E). subst lines. destruct before as [|l before]; cbn in Ef |- *.
  - pose proof (creds_range s1 kd) as Hr. cbn zeta in Hr. repeat (apply Forall_cons in Hr as [? Hr]).
    destruct (status_line_ok kd (creds_of s1 kd)) as (-> & t & -> & Ht); [done|].
    apply (step_printf s2); [done|]. intros s3 (E3 & _ & _ & Est). apply returns_ret. rewrite Ht, E3, Ec, Est, Ef. done.
  - apply Forall_cons in Hb as [-> Hb]. apply Forall_cons in Hs as [_ Hs]. cbn in Hn.
    eapply returns_mono; [eapply (IH s2); [done|by rewrite Ec|done..|lia]|]. cbn beta. by rewrite Ec.
Qed.

Lemma check_procfs_returns fuel s1 id :
  (status_max < fuel)%nat ->
  returns (check_procfs_status kd fuel id) s1
    (fun v s' => v = (if id =? fs (creds_of s1 kd) then 1 else 0) /\ creds_of s' = creds_of s1).
Proof.
  intros Hf. unfold check_procfs_status. apply (step_quiet s1); [done..|]. intros s2 (E2 & _ & Eself & _).
  rewrite cred_getpid, <- Eself. destruct (cred_fopen s2) as (fp & lines & s3 & E & Ec & Est & Hlen & Hs & Hk).
  apply returns_bind, (returns_trigger _ _ _ _ _ E). destruct (Hk kd) as (before & behind & Hl & Hb).
  apply returns_bind. eapply returns_mono; [apply (find_line_returns fuel s3 fp lines before behind); rewrite ?Ec; done || lia|].
  intros v s4 (-> & Ec4 & Hfp). destruct (cred_fclose s4 fp Hfp) as (s5 & E5 & Ec5).
  apply returns_bind, (returns_trigger _ _ _ _ _ E5). cbn [Z.eqb negb].
  apply (step_printf s5); [done|]. intros s6 (Ec6 & _). apply returns_ret.
  by rewrite Ec6, Ec5, Ec4, Ec, E2.
Qed.

Lemma setfsid_ends fuel id :
  (status_max < fuel)%nat -> 0 < id < no_id -> returns (setfsid_run kd fuel (Some id)) s (ends (C_setfsid id)).
Proof.
  intros Hf (Hz & Hid & Hle)%nonzero. unfold setfsid_run, with_args. rewrite Hz. cbn [negb tp_assert].
  pose proof (cred_setfsid s kd id Hle) as He. destruct (kstep (SYS_setfsid kd id) s) as [r s1] eqn:E.
  destruct He as [-> H1]. apply returns_bind. unfold setfsid.
  apply returns_bind, (returns_trigger _ _ _ _ _ E), returns_syscall_ret.
  pose proof (creds_range s kd) as Hr. cbn zeta in Hr. repeat (apply Forall_cons in Hr as [? Hr]).
  apply (step_say_call s1); [done|]. intros s2 Hs2.
  assert (negb (s32 (if is_error (fs now) then -1 else fs now) =? -1) = true) as ->.
  { unfold is_error. replace (fs now <=? -1) with false by lia. rewrite andb_false_r.
    apply negb_true_iff, Z.eqb_neq. unfold no_id in *. unfold wrap_s. change (2 ^ (32 - 1)) with 2147483648.
    change (2 ^ 32) with 4294967296 in *. intros Hm.
    pose proof (Z.div_mod (fs now + 2147483648) 4294967296). nia. }
  cbn [tp_assert]. apply returns_bind. eapply returns_mono; [by apply (check_procfs_returns fuel s2)|].
  intros v s3 [-> Hs3]. assert (moved creds_of s s3 kd (after priv now (C_setfsid id))) as Hm.
  { destruct H1 as [Ha Hb], Hs2 as (E2 & _). split; rewrite Hs3, E2; auto. }
  pose proof (proj1 Hm) as E3. rewrite <- Hs3, E3. cbn [after]. rewrite (set_fsid_spec priv now id Hid).
  destruct (permitted _ _ _); [by apply ends_pass|by apply ends_fail].
Qed.

(** C20: Run from its command line on any kernel with the documented behaviour, each of the 14 test
    cases on identities implements its specification: it returns NULL exactly when [permitted], and
    leaves the identities [after] of its kind, and those of the other kind as they were. *)
Theorem identity_refines fuel t app :
  (status_max < fuel)%nat -> Forall (fun id => 0 < id < no_id) (numbers t) ->
  returns (program fuel kd t (app :: options kd t)) s (fun v s' =>
    (v = None <-> permitted priv now t = true) /\
    creds_of s' kd = after priv now t /\ forall kd', kd' <> kd -> creds_of s' kd' = creds_of s kd').
Proof.
  intros Hf Hn. rewrite parse_ok by done.
  destruct t; cbn [numbers] in Hn; repeat (apply Forall_cons in Hn as [? Hn]).
  - by apply setid_ends.
  - by apply getid_ends.
  - by apply geteid_ends.
  - by apply setreid_ends.
  - by apply setresid_ends.
  - by apply getresid_ends.
  - by apply setfsid_ends.
Qed.

End tests.

End kernel.

(** ** A kernel with credentials

    The identities of a state are read modulo [no_id], so that every state is one. *)
Record cred_state := CState { ids : id_kind -> creds; priv_of : id_kind -> bool; number : Z; file : list string }.

Definition clamp (c : creds) : creds :=
  Creds (real c mod no_id) (effective c mod no_id) (saved c mod no_id) (fs c mod no_id).
Definition view_ids (s : cred_state) (k : id_kind) : creds := clamp (ids s k).
Definition with_ids (s : cred_state) (k : id_kind) (c : creds) : cred_state :=
  CState (fun k' => if decide (k' = k) then c else ids s k') (priv_of s) (number s) (file s).
Definition make (s : cred_state) (k : id_kind) (x : creds + Z) : Z * cred_state :=
  match x with inl c => (0, with_ids s k c) | inr e => (- e, s) end.
Definition status_file (s : cred_state) : list string :=
  ["Name:" +:+ String tab "test" +:+ nl; status_line UID (view_ids s UID); status_line GID (view_ids s GID)].

Definition cred_step (c : cmd) (s : cred_state) : reply c * cred_state :=
  match c return reply c * cred_state with
  | SYS_getpid => (number s, s)
  | SYS_get_id k eff => ((if eff then effective else real) (view_ids s k), s)
  | SYS_getresid k => let c := view_ids s k in ((0, (real c, effective c, saved c)), s)
  | SYS_setid k id => make s k (set_id (priv_of s k) (view_ids s k) id)
  | SYS_setreid k r e => make s k (set_reid (priv_of s k) (view_ids s k) r e)
  | SYS_setresid k r e z => make s k (set_resid (priv_of s k) (view_ids s k) r e z)
  | SYS_setfsid k id => (fs (view_ids s k), with_ids s k (set_fsid (priv_of s k) (view_ids s k) id))
  | FILE_fopen path _ =>
      if String.eqb path ("/proc/" +:+ pretty (number s) +:+ "/status")
      then (Some 3, CState (ids s) (priv_of s) (number s) (status_file s)) else (None, s)
  | FILE_fgets _ _ => (head (file s), CState (ids s) (priv_of s) (number s) (tail (file s)))
  | FILE_fclose _ => (0, s)
  | c => (no_reply c, s)
  end.
Definition cred_kernel : Kernel := {| kstate := cred_state; kstep := cred_step |}.

Definition valid (c : creds) : Prop := Forall (fun id => 0 <= id < no_id) [real c; effective c; saved c; fs c].

Lemma clamp_valid c : valid (clamp c).
Proof. repeat constructor; by apply Z.mod_pos_bound. Qed.

Lemma clamp_id c : valid c -> clamp c = c.
Proof.
  destruct c as [r e z f]. unfold valid. rewrite !Forall_cons. cbn. intros (? & ? & ? & ? & _).
  unfold clamp. cbn. by rewrite !Z.mod_small.
Qed.

Lemma valid_iff r e z f :
  valid (Creds r e z f) <-> 0 <= r < no_id /\ 0 <= e < no_id /\ 0 <= z < no_id /\ 0 <= f < no_id.
Proof. unfold valid. rewrite !Forall_cons, Forall_nil. cbn. tauto. Qed.

Lemma keep_valid id old : 0 <= id <= no_id -> 0 <= old < no_id -> 0 <= keep id old < no_id.
Proof. intros H1 H2. unfold keep. destruct (Z.eqb_spec id no_id); lia. Qed.

(** The set calls lead from valid identities to valid ones. *)
Lemma set_id_valid priv c id c' : 0 <= id <= no_id -> valid c -> set_id priv c id = inl c' -> valid c'.
Proof.
  destruct c. rewrite valid_iff. unfold set_id. intros Hid Hc. destruct (Z.eqb_spec id no_id); [done|].
  destruct priv; [|destruct (among _ _); [|done]]; intros [= <-]; apply valid_iff; cbn; lia.
Qed.

Lemma set_reid_valid priv c r e c' :
  0 <= r <= no_id -> 0 <= e <= no_id -> valid c -> set_reid priv c r e = inl c' -> valid c'.
Proof.
  destruct c. rewrite valid_iff. unfold set_reid. intros Hr He Hc. destruct (priv || _); [|done]. intros [= <-].
  apply valid_iff. cbn. pose proof (keep_valid r real0 Hr). pose proof (keep_valid e effective0 He).
  destruct (negb (r =? no_id) || _); lia.
Qed.

Lemma set_resid_valid priv c r e z c' :
  0 <= r <= no_id -> 0 <= e <= no_id -> 0 <= z <= no_id -> valid c -> set_resid priv c r e z = inl c' -> valid c'.
Proof.
  destruct c. rewrite valid_iff. unfold set_resid. intros Hr He Hz Hc. destruct (priv || _); [|done]. intros [= <-].
  apply valid_iff. cbn. pose proof (keep_valid r real0 Hr). pose proof (keep_valid e effective0 He).
  pose proof (keep_valid z saved0 Hz). lia.
Qed.

Lemma set_fsid_valid priv c id : 0 <= id <= no_id -> valid c -> valid (set_fsid priv c id).
Proof.
  intros Hid Hc. unfold set_fsid. destruct (Z.eqb_spec id no_id); [done|]. destruct (priv || _); [|done].
  destruct c. rewrite valid_iff in Hc. apply valid_iff. cbn. lia.
Qed.

Lemma with_ids_moved s k c : valid c -> moved view_ids s (with_ids s k c) k c.
Proof.
  intros Hc. unfold moved, view_ids, with_ids. cbn. rewrite decide_True by done. split; [by apply clamp_id|].
  intros k' Hk. by rewrite decide_False.
Qed.

Lemma make_effect s k x :
  (forall c, x = inl c -> valid c) -> let '(r, s') := make s k x in effect view_ids s s' k x r.
Proof. intros Hx. destruct x as [c|e]; cbn; [|done]. split; [done|]. by apply with_ids_moved, Hx. Qed.

(** The name of the other kind does not occur in a line. *)
Lemma strstr_absent c p s : Forall (fun d => d <> c) (chars s) -> strstr s (String c p) = false.
Proof.
  unfold strstr. induction s as [|d s IH]; intros Hs; [done|]. apply Forall_cons in Hs as [Hd Hs].
  cbn [String.index String.prefix]. destruct (Ascii.ascii_dec c d); [by subst|].
  specialize (IH Hs). by destruct (String.index 0 (String c p) s).
Qed.

Lemma status_line_chars k c (P : ascii -> Prop) :
  valid c -> Forall P (chars (Uid k)) -> P tab -> Forall P (chars nl) ->
  (forall n, 0 <= n -> Forall P (chars (pretty n))) -> Forall P (chars (status_line k c)).
Proof.
  destruct c. rewrite valid_iff. intros Hc Hk Ht Hn Hp. unfold status_line. rewrite !chars_app, !Forall_app. cbn [real effective saved fs].
  repeat split; try (by repeat constructor); try done; apply Hp; lia.
Qed.

Lemma status_line_length k c : valid c -> Z.of_nat (String.length (status_line k c)) < FREAD_BUF_SIZE.
Proof.
  destruct c as [r e z f]. rewrite valid_iff. unfold no_id. intros (? & ? & ? & ?). unfold status_line.
  rewrite !length_append. cbn [real effective saved fs].
  pose proof (pretty_length r). pose proof (pretty_length e). pose proof (pretty_length z). pose proof (pretty_length f).
  unfold FREAD_BUF_SIZE. assert (String.length (Uid k) = 4%nat) as -> by (by destruct k). cbn. lia.
Qed.

Definition cred_laws : CredKernel cred_kernel.
Proof.
  refine {| creds_of := view_ids : @kstate cred_kernel -> _; privileged := priv_of; self := number;
            stream := fun (s : @kstate cred_kernel) fp => if fp =? 3 then Some (file s) else None; status_max := 3 |}.
  - intros s k. apply clamp_valid.
  - intros s c Hc. by destruct c.
  - done.
  - done.
  - done.
  - intros s k id Hid. apply make_effect. intros c. apply set_id_valid; [done|apply clamp_valid].
  - intros s k r e Hr He. apply make_effect. intros c. apply set_reid_valid; [done..|apply clamp_valid].
  - intros s k r e z Hr He Hz. apply make_effect. intros c. apply set_resid_valid; [done..|apply clamp_valid].
  - intros s k id Hid. split; [done|]. by apply with_ids_moved, set_fsid_valid, clamp_valid.
  - intros s. exists 3, (status_file s). eexists. split; [cbn; by rewrite String.eqb_refl|]. split; [done|]. split; [done|].
    split; [done|]. split.
    { unfold status_file. rewrite !Forall_cons, Forall_nil. split; [done|].
      split; [apply status_line_length, clamp_valid|]. split; [apply status_line_length, clamp_valid|done]. }
    intros [|].
    + exists ["Name:" +:+ String tab "test" +:+ nl], [status_line GID (view_ids s GID)]. split; [done|]. by repeat constructor.
    + exists ["Name:" +:+ String tab "test" +:+ nl; status_line UID (view_ids s UID)], []. split; [done|].
      repeat constructor. apply strstr_absent, status_line_chars; [apply clamp_valid|by repeat constructor..|].
      intros n Hn. by apply pretty_chars_not.
  - intros s fp lines size Hs _. cbn in Hs. destruct (Z.eqb_spec fp 3) as [->|]; [|done]. injection Hs as <-.
    by eexists.
  - intros s fp _. by eexists.
Defined.

Lemma identity_refines_witness :
  let s := CState (fun _ => Creds 1000 1000 2000 1000) (fun _ => false) 42 [] in
  @returns cred_kernel _ (program 4 UID (C_setid 2000) ["app"; "-u"; "2000"]) s (fun v s' =>
    (v = None <-> false = true) /\ view_ids s' UID = Creds 1000 2000 2000 2000 /\
    forall k, k <> UID -> view_ids s' k = view_ids s k).
Proof.
  intros s. refine (identity_refines (CK := cred_laws) UID s 4 (C_setid 2000) "app" _ _); [cbn; lia|].
  repeat constructor; unfold no_id; lia.
Defined.

End IdentityProofs.
