(* ===== verification/Sched.v ===== *)
(** * The suites on scheduling policies and priorities

    src/src/test_mck/src/: sched_setparam, sched_getparam, sched_setscheduler, sched_getscheduler,
    sched_rr_get_interval, sched_get_priority_max and sched_get_priority_min, 22 test cases.  The
    text of [%p] is the parameter [pp], which gets the name of the variable. *)
From S2P Require Import Prelude CMachine.
#[local] Open Scope Z_scope.

Module Sched.

Definition SCHED_OTHER : Z := 0.
Definition SCHED_FIFO : Z := 1.
Definition SCHED_RR : Z := 2.
Definition SCHED_BATCH : Z := 3.
Definition policy_name (policy : Z) : string :=
  if policy =? SCHED_OTHER then "SCHED_OTHER" else if policy =? SCHED_FIFO then "SCHED_FIFO"
  else if policy =? SCHED_RR then "SCHED_RR" else "SCHED_BATCH".

(** "f(a, b) = 0, errno = 0". *)
Definition say_call (f : string) (args : list string) (status : Z) : prog unit :=
  e ← get_errno;
  printf (f +:+ "(" +:+ String.concat ", " args +:+ ") = " +:+ pretty status +:+ ", errno = " +:+ pretty e +:+
          String "010" "").

Section texts.
Context (pp : string -> string).

(** ** The calls with their messages and checks *)

Definition set_scheduler (pid policy priority : Z) (var : string) (k : prog verdict) : prog verdict :=
  status ← sched_setscheduler pid policy priority;
  say_call "sched_setscheduler" [pretty pid; policy_name policy; pp var] status;;
  TP_ASSERT negb (status =? -1), Some "sched_setscheduler() failed." ;;
  k.
Definition set_param (pid priority : Z) (k : prog verdict) : prog verdict :=
  status ← sched_setparam pid priority;
  say_call "sched_setparam" [pretty pid; pp "set_param"] status;;
  TP_ASSERT negb (status =? -1), Some "sched_setparam() failed." ;;
  k.
Definition get_param (pid : Z) (k : Z -> prog verdict) : prog verdict :=
  '(status, priority) ← sched_getparam pid;
  say_call "sched_getparam" [pretty pid; pp "get_param"] status;;
  TP_ASSERT negb (status =? -1), Some "sched_getparam() failed." ;;
  k priority.
Definition get_scheduler (pid : Z) (k : Z -> prog verdict) : prog verdict :=
  policy ← sched_getscheduler pid;
  say_call "sched_getscheduler" [pretty pid] policy;;
  k policy.

(** Some test cases name themselves with 0. *)
Definition who (zero : bool) (pid : Z) : Z := if zero then 0 else pid.

(** ** The test cases *)

Definition setparam_test (zero : bool) (policy dummy set : Z) : prog verdict :=
  pid ← getpid;
  set_scheduler pid policy dummy "dummy_param" (
  set_param (who zero pid) set (
  get_param pid (fun get =>
  TP_ASSERT set =? get, Some "sched_setparam() failed." ;;
  Ret None))).
Definition sched_setparam_000 := setparam_test false SCHED_RR 50 80.
Definition sched_setparam_001 := setparam_test true SCHED_RR 50 80.
Definition sched_setparam_002 := setparam_test false SCHED_FIFO 60 90.

Definition getparam_test (zero : bool) (policy dummy set : Z) : prog verdict :=
  pid ← getpid;
  get_param (who zero pid) (fun get =>
  TP_ASSERT get =? 0, Some "sched_getparam() failed." ;;
  set_scheduler pid policy dummy "dummy_param" (
  get_param (who zero pid) (fun get =>
  TP_ASSERT get =? dummy, Some "sched_getparam() failed." ;;
  set_param pid set (
  get_param (who zero pid) (fun get =>
  TP_ASSERT set =? get, Some "sched_getparam() failed." ;;
  Ret None))))).
Definition sched_getparam_000 := getparam_test false SCHED_RR 50 80.
Definition sched_getparam_001 := getparam_test true SCHED_RR 50 80.
Definition sched_getparam_002 := getparam_test false SCHED_FIFO 60 90.

Definition setscheduler_test (zero : bool) (policy set : Z) : prog verdict :=
  pid ← getpid;
  set_scheduler (who zero pid) policy set "set_param" (
  get_scheduler pid (fun p =>
  TP_ASSERT p =? policy, Some "sched_getscheduler() failed." ;;
  get_param pid (fun get =>
  TP_ASSERT set =? get, Some "sched_setscheduler() failed." ;;
  Ret None))).
Definition sched_setscheduler_000 := setscheduler_test false SCHED_RR 80.
Definition sched_setscheduler_001 := setscheduler_test true SCHED_RR 80.
Definition sched_setscheduler_002 := setscheduler_test false SCHED_FIFO 80.
Definition sched_setscheduler_003 := setscheduler_test false SCHED_OTHER 0.
Definition sched_setscheduler_004 := setscheduler_test false SCHED_BATCH 0.

Definition getscheduler_test (zero : bool) : prog verdict :=
  pid ← getpid;
  get_scheduler (who zero pid) (fun before =>
  TP_ASSERT negb (before =? -1), Some "sched_getscheduler() failed." ;;
  set_scheduler pid SCHED_RR 80 "set_param" (
  get_scheduler (who zero pid) (fun after =>
  TP_ASSERT negb (before =? after), Some "sched_getscheduler() failed." ;;
  Ret None))).
Definition sched_getscheduler_000 := getscheduler_test false.
Definition sched_getscheduler_001 := getscheduler_test true.

(** [time] starts as (-1, -1) and is printed also when the call fails. *)
Definition rr_get_interval_test (zero : bool) (policy set sec nsec : Z) : prog verdict :=
  pid ← getpid;
  set_scheduler pid policy set "set_param" (
  '(status, time) ← sched_rr_get_interval (who zero pid);
  let time := if status =? -1 then (-1, -1) else time in
  say_call "sched_rr_get_interval" [pretty (who zero pid); pp "time"] status;;
  printf ("  time.tv_sec = " +:+ pretty time.1 +:+ ", time.tv_nsec = " +:+ pretty time.2 +:+ String "010" "");;
  TP_ASSERT negb (status =? -1), Some "sched_rr_get_interval() failed." ;;
  TP_ASSERT time.1 =? sec, Some "sched_rr_get_interval() failed." ;;
  TP_ASSERT time.2 =? nsec, Some "sched_rr_get_interval() failed." ;;
  Ret None).
Definition sched_rr_get_interval_000 := rr_get_interval_test false SCHED_RR 80 0 10000.
Definition sched_rr_get_interval_001 := rr_get_interval_test true SCHED_RR 80 0 10000.
Definition sched_rr_get_interval_002 := rr_get_interval_test false SCHED_FIFO 80 0 0.
Definition sched_rr_get_interval_003 := rr_get_interval_test false SCHED_OTHER 0 0 0.
Definition sched_rr_get_interval_004 := rr_get_interval_test false SCHED_BATCH 0 0 0.

Definition priority_max_test (policy expected : Z) : prog verdict :=
  priority ← sched_get_priority_max policy;
  say_call "sched_get_priority_max" [policy_name policy] priority;;
  TP_ASSERT priority =? expected, Some "sched_get_priority_max() failed." ;;
  Ret None.
Definition sched_get_priority_max_000 := priority_max_test SCHED_RR 99.
Definition sched_get_priority_max_001 := priority_max_test SCHED_FIFO 99.
Definition sched_get_priority_max_002 := priority_max_test SCHED_OTHER 0.
Definition sched_get_priority_max_003 := priority_max_test SCHED_BATCH 0.

Definition priority_min_test (policy expected : Z) : prog verdict :=
  priority ← sched_get_priority_min policy;
  say_call "sched_get_priority_min" [policy_name policy] priority;;
  TP_ASSERT priority =? expected, Some "sched_get_priority_min() failed." ;;
  Ret None.
Definition sched_get_priority_min_000 := priority_min_test SCHED_RR 1.
Definition sched_get_priority_min_001 := priority_min_test SCHED_FIFO 1.
Definition sched_get_priority_min_002 := priority_min_test SCHED_OTHER 0.
Definition sched_get_priority_min_003 := priority_min_test SCHED_BATCH 0.

End texts.
End Sched.
