(* ===== verification/SchedProofs.v ===== *)
(** * The verdicts of the scheduling suites

    A process has a policy and a priority; sched(7) says which of them it may choose.  On every
    kernel that keeps to that, [sched_verdicts] gives the verdict of each of the 26 test cases and
    the policy and priority it leaves behind. *)
From S2P Require Import Prelude CMachine Sched.
Import Sched.
#[local] Open Scope Z_scope.

Module SchedProofs.

(** ** The specification *)

Definition is_realtime (policy : Z) : bool := (policy =? SCHED_FIFO) || (policy =? SCHED_RR).

(** The error of a request for a policy and a priority, if there is one. *)
Definition refused (rt : bool) (policy priority : Z) : option Z :=
  if is_realtime policy then
    if (1 <=? priority) && (priority <=? 99) then if rt then None else Some EPERM else Some EINVAL
  else if ((policy =? SCHED_OTHER) || (policy =? SCHED_BATCH)) && (priority =? 0) then None else Some EINVAL.

(** [self]: the number of the process; [rt]: it may use the real-time policies; [interval]: what
    sched_rr_get_interval replies for a policy.  [sched_of]: its policy and priority. *)
Class SchedKernel (K : Kernel) := {
  self : Z;
  rt : bool;
  interval : Z -> Z * Z;
  sched_of : kstate -> Z * Z;
  sched_range s : 0 <= (sched_of s).1 < 8;
  sched_out s t : sched_of (kstep (OUT t) s).2 = sched_of s;
  sched_getpid s : exists s', kstep SYS_getpid s = (self, s') /\ sched_of s' = sched_of s;
  sched_set s pid policy priority : pid = 0 \/ pid = self -> exists r s',
    kstep (SYS_sched_setscheduler pid policy priority) s = (r, s') /\
    match refused rt policy priority with
    | None => r = 0 /\ sched_of s' = (policy, priority)
    | Some e => r = - e /\ sched_of s' = sched_of s
    end;
  sched_set_param s pid priority : pid = 0 \/ pid = self -> exists r s',
    kstep (SYS_sched_setparam pid priority) s = (r, s') /\
    match refused rt (sched_of s).1 priority with
    | None => r = 0 /\ sched_of s' = ((sched_of s).1, priority)
    | Some e => r = - e /\ sched_of s' = sched_of s
    end;
  sched_get s pid : pid = 0 \/ pid = self -> exists s',
    kstep (SYS_sched_getscheduler pid) s = ((sched_of s).1, s') /\ sched_of s' = sched_of s;
  sched_get_param s pid : pid = 0 \/ pid = self -> exists s',
    kstep (SYS_sched_getparam pid) s = ((0, (sched_of s).2), s') /\ sched_of s' = sched_of s;
  sched_interval s pid : pid = 0 \/ pid = self -> exists s',
    kstep (SYS_sched_rr_get_interval pid) s = ((0, interval (sched_of s).1), s') /\ sched_of s' = sched_of s;
  sched_priority s max policy : 0 <= policy <= 3 -> exists s',
    kstep (SYS_sched_get_priority max policy) s =
      (if is_realtime policy then if max then 99 else 1 else 0, s') /\ sched_of s' = sched_of s
}.

(** The test cases, whether each passes when started in [policy] and [priority], and what it leaves. *)
Section suite.
Context `{SK : SchedKernel} (pp : string -> string) (start : Z * Z).

Definition after (ok : bool) (s : Z * Z) : Z * Z := if ok then s else start.
Definition interval_is (policy sec nsec : Z) : bool :=
  ((interval policy).1 =? sec) && ((interval policy).2 =? nsec).
Definition sched_cases : list (prog verdict * bool * (Z * Z)) :=
  let default := start.2 =? 0 in
  [(sched_setparam_000 pp, rt, after rt (SCHED_RR, 80)); (sched_setparam_001 pp, rt, after rt (SCHED_RR, 80));
   (sched_setparam_002 pp, rt, after rt (SCHED_FIFO, 90));
   (sched_getparam_000 pp, default && rt, after (default && rt) (SCHED_RR, 80));
   (sched_getparam_001 pp, default && rt, after (default && rt) (SCHED_RR, 80));
   (sched_getparam_002 pp, default && rt, after (default && rt) (SCHED_FIFO, 90));
   (sched_setscheduler_000 pp, rt, after rt (SCHED_RR, 80)); (sched_setscheduler_001 pp, rt, after rt (SCHED_RR, 80));
   (sched_setscheduler_002 pp, rt, after rt (SCHED_FIFO, 80));
   (sched_setscheduler_003 pp, true, (SCHED_OTHER, 0)); (sched_setscheduler_004 pp, true, (SCHED_BATCH, 0));
   (sched_getscheduler_000 pp, rt && negb (start.1 =? SCHED_RR), after rt (SCHED_RR, 80));
   (sched_getscheduler_001 pp, rt && negb (start.1 =? SCHED_RR), after rt (SCHED_RR, 80));
   (sched_rr_get_interval_000 pp, rt && interval_is SCHED_RR 0 10000, after rt (SCHED_RR, 80));
   (sched_rr_get_interval_001 pp, rt && interval_is SCHED_RR 0 10000, after rt (SCHED_RR, 80));
   (sched_rr_get_interval_002 pp, rt && interval_is SCHED_FIFO 0 0, after rt (SCHED_FIFO, 80));
   (sched_rr_get_interval_003 pp, interval_is SCHED_OTHER 0 0, (SCHED_OTHER, 0));
   (sched_rr_get_interval_004 pp, interval_is SCHED_BATCH 0 0, (SCHED_BATCH, 0));
   (sched_get_priority_max_000, true, start); (sched_get_priority_max_001, true, start);
   (sched_get_priority_max_002, true, start); (sched_get_priority_max_003, true, start);
   (sched_get_priority_min_000, true, start); (sched_get_priority_min_001, true, start);
   (sched_get_priority_min_002, true, start); (sched_get_priority_min_003, true, start)].
End suite.

(** ** Steps *)

Section kernel.
Context `{SK : SchedKernel} (pp : string -> string).

Notation ends := (ends sched_of).

Lemma sched_say f args status (k : prog verdict) s ok fin :
  (forall s', sched_of s' = sched_of s -> ends k s' ok fin) -> ends (say_call f args status;; k) s ok fin.
Proof.
  intros Hk. apply returns_bind. unfold say_call. apply returns_bind, returns_get_errno. intros e.
  apply (returns_trigger (OUT _) _ _ _ _ (surjective_pairing _)), Hk, sched_out.
Qed.

Lemma sched_printf t (k : prog verdict) s ok fin :
  (forall s', sched_of s' = sched_of s -> ends k s' ok fin) -> ends (printf t;; k) s ok fin.
Proof.
  intros Hk. apply returns_bind, (returns_trigger (OUT _) _ _ _ _ (surjective_pairing _)), Hk, sched_out.
Qed.

Lemma ends_getpid (k : Z -> prog verdict) s ok fin :
  (forall s', sched_of s' = sched_of s -> ends (k self) s' ok fin) -> ends (getpid ≫= k) s ok fin.
Proof. intros Hk. destruct (sched_getpid s) as (s' & E & Hs). apply returns_bind, (returns_trigger _ _ _ _ _ E), Hk, Hs. Qed.

Lemma who_mine zero : who zero self = 0 \/ who zero self = self.
Proof. destruct zero; auto. Qed.

Lemma ends_set_scheduler pid policy priority var k s ok fin :
  pid = 0 \/ pid = self ->
  (refused rt policy priority = None -> forall s', sched_of s' = (policy, priority) -> ends k s' ok fin) ->
  (refused rt policy priority <> None -> ok = false /\ sched_of s = fin) ->
  ends (set_scheduler pp pid policy priority var k) s ok fin.
Proof.
  intros Hp Hk Hf. destruct (sched_set s pid policy priority Hp) as (r & s' & E & Hr).
  unfold set_scheduler. apply returns_bind. unfold sched_setscheduler.
  apply returns_bind, (returns_trigger _ _ _ _ _ E), returns_syscall_ret. apply sched_say. intros s2 H2.
  destruct (refused rt policy priority) as [e|] eqn:Er.
  - destruct Hf as [-> <-]; [done|]. destruct Hr as [-> Hr].
    assert (e = EPERM \/ e = EINVAL) as He.
    { unfold refused in Er. destruct (is_realtime policy), rt, ((1 <=? priority) && (priority <=? 99)),
        (((policy =? SCHED_OTHER) || (policy =? SCHED_BATCH)) && (priority =? 0)); naive_solver. }
    destruct He as [-> | ->]; cbn; (apply ends_returned; [done|congruence]).
  - destruct Hr as [-> Hr]. cbn. apply Hk; [done|congruence].
Qed.

Lemma ends_set_param pid priority k s ok fin :
  pid = 0 \/ pid = self -> refused rt (sched_of s).1 priority = None ->
  (forall s', sched_of s' = ((sched_of s).1, priority) -> ends k s' ok fin) -> ends (set_param pp pid priority k) s ok fin.
Proof.
  intros Hp Hr Hk. destruct (sched_set_param s pid priority Hp) as (r & s' & E & Hs). rewrite Hr in Hs.
  destruct Hs as [-> Hs]. unfold set_param. apply returns_bind. unfold sched_setparam.
  apply returns_bind, (returns_trigger _ _ _ _ _ E), returns_syscall_ret. apply sched_say. intros s2 H2.
  cbn. apply Hk. congruence.
Qed.

Lemma ends_get_param pid k s ok fin :
  pid = 0 \/ pid = self -> (forall s', sched_of s' = sched_of s -> ends (k (sched_of s).2) s' ok fin) ->
  ends (get_param pp pid k) s ok fin.
Proof.
  intros Hp Hk. destruct (sched_get_param s pid Hp) as (s' & E & Hs). unfold get_param. apply returns_bind.
  unfold sched_getparam. apply returns_bind, (returns_trigger _ _ _ _ _ E).
  apply returns_bind, returns_syscall_ret, returns_ret. apply sched_say. intros s2 H2. cbn. apply Hk. congruence.
Qed.

Lemma ends_get_scheduler pid k s ok fin :
  pid = 0 \/ pid = self -> (forall s', sched_of s' = sched_of s -> ends (k (sched_of s).1) s' ok fin) ->
  ends (get_scheduler pid k) s ok fin.
Proof.
  intros Hp Hk. destruct (sched_get s pid Hp) as (s' & E & Hs). unfold get_scheduler. apply returns_bind.
  unfold sched_getscheduler. apply returns_bind, (returns_trigger _ _ _ _ _ E), returns_syscall_ret.
  apply sched_say. intros s2 H2. pose proof (sched_range s) as Hr. unfold is_error.
  replace ((sched_of s).1 <=? -1) with false by lia. rewrite andb_false_r. apply Hk. congruence.
Qed.

Lemma refused_rt policy priority :
  is_realtime policy = true -> 1 <= priority <= 99 -> refused rt policy priority = if rt then None else Some EPERM.
Proof. intros Hp Hr. unfold refused. rewrite Hp. by replace ((1 <=? priority) && (priority <=? 99)) with true by lia. Qed.

(** ** The test cases *)

Section realtime.
Context (s : kstate) (zero : bool) (policy : Z) (Hp : is_realtime policy = true).
Notation start := (sched_of s).

Lemma setparam_ends dummy set :
  1 <= dummy <= 99 -> 1 <= set <= 99 ->
  ends (setparam_test pp zero policy dummy set) s rt (after start rt (policy, set)).
Proof.
  intros Hd Hs. unfold setparam_test, after. apply ends_getpid. intros s1 H1.
  apply ends_set_scheduler; [by right| |]; rewrite refused_rt by done; destruct rt eqn:Er; try done.
  intros _ s2 H2. apply ends_set_param; [apply who_mine|by rewrite H2, refused_rt, Er|]. intros s3 H3.
  apply ends_get_param; [by right|]. intros s4 H4. rewrite H3, H2. cbn [fst snd]. rewrite Z.eqb_refl. cbn [tp_assert].
  apply ends_returned; [done|]. by rewrite H4, H3, H2.
Qed.

Lemma getparam_ends dummy set :
  1 <= dummy <= 99 -> 1 <= set <= 99 ->
  ends (getparam_test pp zero policy dummy set) s ((start.2 =? 0) && rt) (after start ((start.2 =? 0) && rt) (policy, set)).
Proof.
  intros Hd Hs. unfold getparam_test, after. apply ends_getpid. intros s1 H1.
  apply ends_get_param; [apply who_mine|]. intros s2 H2. rewrite H1.
  apply ends_assert; intros ->; [|by rewrite H2, H1]. cbn [andb].
  apply ends_set_scheduler; [by right| |]; rewrite refused_rt by done; destruct rt eqn:Er; try done;
    [|by intros _; rewrite H2, H1]. intros _ s3 H3.
  apply ends_get_param; [apply who_mine|]. intros s4 H4. rewrite H3. cbn [snd]. rewrite Z.eqb_refl. cbn [tp_assert].
  apply ends_set_param; [by right|by rewrite H4, H3, refused_rt, Er|]. intros s5 H5.
  apply ends_get_param; [apply who_mine|]. intros s6 H6. rewrite H5, H4, H3. cbn [fst snd]. rewrite Z.eqb_refl.
  apply ends_returned; [done|]. by rewrite H6, H5, H4, H3.
Qed.

Lemma getscheduler_ends :
  ends (getscheduler_test pp zero) s (rt && negb (start.1 =? SCHED_RR)) (after start rt (SCHED_RR, 80)).
Proof.
  unfold getscheduler_test, after. apply ends_getpid. intros s1 H1. apply ends_get_scheduler; [apply who_mine|].
  intros s2 H2. rewrite H1. pose proof (sched_range s).
  replace (negb (start.1 =? -1)) with true by lia. cbn [tp_assert].
  apply ends_set_scheduler; [by right| |]; rewrite refused_rt by done; destruct rt eqn:Er; try done;
    [|by intros _; rewrite H2, H1]. intros _ s3 H3.
  apply ends_get_scheduler; [apply who_mine|]. intros s4 H4. rewrite H3. cbn [fst andb].
  apply ends_assert; [|by intros ->; rewrite H4, H3]. intros ->. apply ends_returned; [done|by rewrite H4].
Qed.

End realtime.

(** A policy is set: whether it is granted, and what follows. *)
Definition granted (policy priority : Z) : bool := bool_decide (refused rt policy priority = None).

Lemma setscheduler_ends zero policy set s :
  ends (setscheduler_test pp zero policy set) s (granted policy set) (after (sched_of s) (granted policy set) (policy, set)).
Proof.
  unfold setscheduler_test, after, granted. apply ends_getpid. intros s1 H1.
  apply ends_set_scheduler; [apply who_mine| |].
  - intros Er s2 H2. rewrite Er. cbn. apply ends_get_scheduler; [by right|]. intros s3 H3. rewrite H2.
    cbn [fst]. rewrite Z.eqb_refl. cbn [tp_assert]. apply ends_get_param; [by right|]. intros s4 H4. rewrite H3, H2.
    cbn [snd]. rewrite Z.eqb_refl. apply ends_returned; [done|by rewrite H4, H3, H2].
  - intros Er. by rewrite bool_decide_false.
Qed.

Lemma rr_get_interval_ends zero policy set sec nsec s :
  ends (rr_get_interval_test pp zero policy set sec nsec) s (granted policy set && interval_is policy sec nsec)
    (after (sched_of s) (granted policy set) (policy, set)).
Proof.
  unfold rr_get_interval_test, after, granted, interval_is. apply ends_getpid. intros s1 H1.
  apply ends_set_scheduler; [by right| |].
  - intros Er s2 H2. rewrite Er. destruct (sched_interval s2 (who zero self) (who_mine _)) as (s3 & E3 & H3).
    apply returns_bind. unfold sched_rr_get_interval. apply returns_bind, (returns_trigger _ _ _ _ _ E3).
    apply returns_bind, returns_syscall_ret, returns_ret. change (is_error 0) with false. cbn [Z.eqb].
    apply sched_say. intros s4 H4. apply sched_printf. intros s5 H5. cbn [Z.eqb negb tp_assert]. rewrite H2. cbn [fst snd].
    assert (sched_of s5 = (policy, set)) as Hf by congruence.
    rewrite bool_decide_true by done. apply ends_assert; intros ->; [|done].
    apply ends_assert; intros ->; [|done]. by apply ends_returned.
  - intros Er. by rewrite bool_decide_false.
Qed.

Lemma priority_ends (max : bool) policy expected s :
  0 <= policy <= 3 -> expected = (if is_realtime policy then if max then 99 else 1 else 0) ->
  ends (if max then priority_max_test policy expected else priority_min_test policy expected) s true (sched_of s).
Proof.
  intros Hp He. destruct (sched_priority s max policy Hp) as (s1 & E1 & H1).
  assert (is_error expected = false) as Hn by (destruct (is_realtime policy), max; by subst).
  destruct max; apply returns_bind; (apply returns_bind, (returns_trigger _ _ _ _ _ E1), returns_syscall_ret);
    rewrite <- He, Hn; apply sched_say; intros s2 H2; rewrite Z.eqb_refl; (apply ends_returned; [done|congruence]).
Qed.

Ltac head t := lazymatch t with ?f _ => head f | _ => t end.

(** On every kernel that keeps to sched(7), each of the 26 test cases returns, passes exactly as
    [sched_cases] says for the policy and priority it starts in, and leaves the policy and priority
    given there: none of them restores what it found. *)
Theorem sched_verdicts p ok fin s :
  (p, ok, fin) ∈ sched_cases pp (sched_of s) ->
  returns p s (fun v s' => (v = None <-> ok = true) /\ sched_of s' = fin).
Proof.
  assert (forall policy set, is_realtime policy = true -> 1 <= set <= 99 -> granted policy set = rt) as Hg.
  { intros policy set Hp Hs. unfold granted. rewrite refused_rt by done. by destruct rt. }
  unfold sched_cases. cbv zeta. rewrite !elem_of_cons, elem_of_nil. intros Hin.
  repeat destruct Hin as [[= -> -> ->]|Hin]; [..|done].
  all: match goal with |- returns ?p _ _ => let f := head p in unfold f end.
  all: match goal with |- returns ?p ?s (fun v s' => (v = None <-> ?ok = true) /\ sched_of s' = ?fin) =>
    change (ends p s ok fin) end.
  1-3: by apply setparam_ends.
  1-3: by apply getparam_ends.
  1-2: rewrite <- (Hg SCHED_RR 80) by done; apply setscheduler_ends.
  1: rewrite <- (Hg SCHED_FIFO 80) by done; apply setscheduler_ends.
  1-2: apply setscheduler_ends.
  1-2: apply getscheduler_ends.
  1-2: rewrite <- (Hg SCHED_RR 80) by done; apply rr_get_interval_ends.
  1: rewrite <- (Hg SCHED_FIFO 80) by done; apply rr_get_interval_ends.
  1-2: apply rr_get_interval_ends.
  1-4: by apply (priority_ends true).
  all: by apply (priority_ends false).
Qed.

End kernel.
(** ** A kernel that keeps to sched(7)

    The policy of a state is read modulo 4, so that every state has one. *)
Definition of_state (s : Z * Z) : Z * Z := (s.1 mod 4, s.2).
Definition quantum (policy : Z) : Z * Z := if policy =? SCHED_RR then (0, 10000) else (0, 0).
Definition choose (policy priority : Z) (s : Z * Z) : Z * (Z * Z) :=
  match refused true policy priority with None => (0, (policy, priority)) | Some e => (- e, s) end.
Definition sched_step (c : cmd) (s : Z * Z) : reply c * (Z * Z) :=
  match c return reply c * (Z * Z) with
  | SYS_getpid => (42, s)
  | SYS_sched_setscheduler _ policy priority => choose policy priority s
  | SYS_sched_setparam _ priority => choose (of_state s).1 priority s
  | SYS_sched_getscheduler _ => ((of_state s).1, s)
  | SYS_sched_getparam _ => ((0, s.2), s)
  | SYS_sched_rr_get_interval _ => ((0, quantum (of_state s).1), s)
  | SYS_sched_get_priority max policy => (if is_realtime policy then if max then 99 else 1 else 0, s)
  | c => (no_reply c, s)
  end.
Definition sched_kernel : Kernel := {| kstate := Z * Z; kstep := sched_step |}.

Lemma choose_ok policy priority s :
  let '(r, s') := choose policy priority s in
  match refused true policy priority with
  | None => r = 0 /\ of_state s' = (policy, priority)
  | Some e => r = - e /\ of_state s' = of_state s
  end.
Proof.
  unfold choose. destruct (refused true policy priority) as [e|] eqn:E; [done|]. split; [done|].
  unfold of_state. cbn. rewrite Z.mod_small; [done|]. unfold refused, is_realtime in E.
  unfold SCHED_FIFO, SCHED_RR, SCHED_OTHER, SCHED_BATCH in E.
  destruct (Z.eqb_spec policy 1), (Z.eqb_spec policy 2), (Z.eqb_spec policy 0), (Z.eqb_spec policy 3); try lia; discriminate E.
Qed.

Definition sched_laws : SchedKernel sched_kernel.
Proof.
  refine {| self := 42; rt := true; interval := quantum; sched_of := of_state : @kstate sched_kernel -> _ |}; intros s;
    try (intros; by eexists).
  - pose proof (Z.mod_pos_bound s.1 4). cbn in *. lia.
  - intros pid policy priority _. pose proof (choose_ok policy priority s) as H. cbn.
    destruct (choose policy priority s) as [r s']. by exists r, s'.
  - intros pid priority _. pose proof (choose_ok (of_state s).1 priority s) as H. cbn -[of_state].
    destruct (choose (of_state s).1 priority s) as [r s']. by exists r, s'.
Defined.

Lemma sched_verdicts_witness :
  @returns sched_kernel _ (sched_getparam_002 (fun _ => "")) (0, 0) (fun v s' => (v = None <-> true = true) /\ of_state s' = (1, 90)).
Proof.
  apply (sched_verdicts (SK := sched_laws) (fun _ => "") (sched_getparam_002 (fun _ => "")) true (1, 90) (0, 0)).
  unfold sched_cases. rewrite !elem_of_cons. do 5 right. left. reflexivity.
Defined.

End SchedProofs.
