(* ===== verification/Affinity.v ===== *)
(** * The suites on CPU affinity, and show_affinity

    src/src/test_mck/src/: sched_setaffinity (000 to 007, and the target of a migration in 008),
    sched_getaffinity (000 to 004), get_cpu_id; and src/src/show_affinity/.

    A [cpu_set_t] on the heap is its address, the number of bytes allocated, and the number whose
    bits are the CPUs.  An access inside the allocation is a computation; one outside is a request to
    the memory at that address, so that it shows in every run. *)
From S2P Require Import Prelude CMachine Libc.
Import Libc.
#[local] Open Scope Z_scope.

Module Affinity.

Definition nl : string := String "010" "".

(** ** The CPU set macros of <sched.h> *)

Record cpu_set := CpuSet { cs_addr : Z; cs_bytes : Z; cs_bits : Z }.

(** The number of bytes for [n] CPUs, in whole 64-bit words; [n] becomes a [size_t]. *)
Definition CPU_ALLOC_SIZE (n : Z) : Z := u64 (u64 (u64 n + 63) / 64 * 8).
Definition CPU_ALLOC (n : Z) : prog (option cpu_set) :=
  r ← malloc (CPU_ALLOC_SIZE n);
  Ret (match r with Some (p, bits) => Some (CpuSet p (CPU_ALLOC_SIZE n) bits) | None => None end).
Definition CPU_FREE (set : cpu_set) : prog unit := free (cs_addr set).

Definition with_bits (set : cpu_set) (bits : Z) : cpu_set := CpuSet (cs_addr set) (cs_bytes set) bits.

Definition CPU_ZERO_S (size : Z) (set : cpu_set) : prog cpu_set :=
  (if size <=? cs_bytes set then Ret tt else memset (cs_addr set) 0 size);;
  Ret (with_bits set (Z.ldiff (cs_bits set) (Z.ones (8 * size)))).

(** The 64-bit word that has the bit of [cpu] lies in the allocation. *)
Definition inside (cpu : Z) (set : cpu_set) : bool := (cpu / 64 + 1) * 8 <=? cs_bytes set.

Definition CPU_SET_S (cpu size : Z) (set : cpu_set) : prog cpu_set :=
  let cpu := u64 cpu in
  if cpu / 8 <? size then
    if inside cpu set then Ret (with_bits set (Z.setbit (cs_bits set) cpu))
    else b ← load (cs_addr set + cpu / 8); store (cs_addr set + cpu / 8) (Z.setbit b (cpu mod 8));; Ret set
  else Ret set.

Definition CPU_ISSET_S (cpu size : Z) (set : cpu_set) : prog bool :=
  let cpu := u64 cpu in
  if cpu / 8 <? size then
    if inside cpu set then Ret (Z.testbit (cs_bits set) cpu)
    else b ← load (cs_addr set + cpu / 8); Ret (Z.testbit b (cpu mod 8))
  else Ret false.

(** [CPU_ISSET] goes by the size of the type, 1024 bits, whatever was allocated. *)
Definition sizeof_cpu_set_t : Z := 128.
Definition CPU_ISSET (cpu : Z) (set : cpu_set) : prog bool := CPU_ISSET_S cpu sizeof_cpu_set_t set.

(** The calls on such a set. *)
Definition get_affinity (pid size : Z) (set : cpu_set) : prog (Z * cpu_set) :=
  '(result, bits) ← sched_getaffinity pid size (Some (cs_bits set)); Ret (result, with_bits set bits).
Definition set_affinity (pid size : Z) (set : cpu_set) : prog Z :=
  sched_setaffinity pid size (Some (cs_bits set)).

(** ** The arguments *)

(** The loop over getopt, which goes on after a bad option. *)
Fixpoint getopt_loop {A} (set : ascii -> string -> A -> A) (evs : list opt_event) (args : A) : prog A :=
  match evs with
  | [] => Ret args
  | Opt c (Some optarg) :: evs => getopt_loop set evs (set c optarg args)
  | Opt _ None :: evs => getopt_loop set evs args
  | Bad msg :: evs => fprintf_stderr msg;; getopt_loop set evs args
  end.
Definition with_arguments (cs : list ascii) : optstring := (fun c => (c, true)) <$> cs.

Record sched_setaffinity_args := SetArgs { num_of_cpus : Z }.
Definition sched_setaffinity_parse_args (argv : list string) : prog sched_setaffinity_args :=
  getopt_loop (fun c optarg args => if Ascii.eqb c "p" then SetArgs (atoi optarg) else args)
    (events (scan (default "" (argv !! 0%nat)) (with_arguments ["p"%char]) [] (drop 1 argv))) (SetArgs 0).

(** [NULL] strings are [None]; [ga_argv] has [argc] elements. *)
Record sched_getaffinity_args :=
  GetArgs { ga_num_of_cpus : Z; file_path : option string; cpuset_path : option string; ga_argv : list string }.
Definition set_getaffinity_arg (c : ascii) (optarg : string) (a : sched_getaffinity_args) : sched_getaffinity_args :=
  if Ascii.eqb c "p" then GetArgs (atoi optarg) (file_path a) (cpuset_path a) (ga_argv a)
  else if Ascii.eqb c "f" then GetArgs (ga_num_of_cpus a) (Some optarg) (cpuset_path a) (ga_argv a)
  else if Ascii.eqb c "o" then GetArgs (ga_num_of_cpus a) (file_path a) (Some optarg) (ga_argv a)
  else a.
Definition sched_getaffinity_parse_args (argv : list string) : prog sched_getaffinity_args :=
  let res := scan (default "" (argv !! 0%nat)) (with_arguments ["f"; "p"; "o"]%char) [] (drop 1 argv) in
  a ← getopt_loop set_getaffinity_arg (events res) (GetArgs 0 None None []);
  Ret (GetArgs (ga_num_of_cpus a) (file_path a) (cpuset_path a) (operands res)).

(** ** get_cpu_id *)

Definition get_cpu_id : prog Z :=
  id ← sched_getcpu;
  (if id <? 0 then printf ("Why sched_getcpu failed?" +:+ nl) else Ret tt);;
  Ret id.

Definition get_cpu_id_000 : prog verdict :=
  cpuid ← get_cpu_id;
  TP_ASSERT negb (cpuid =? -1), Some "get wrong value." ;;
  pid ← getpid;
  tid ← gettid;
  printf ("[pid=" +:+ pretty pid +:+ ", tid=" +:+ pretty tid +:+ "] process running on cpu=" +:+ pretty cpuid +:+ nl);;
  Ret None.

(** ** Common parts of the test cases *)

Definition quoted (s : string) : string := String "034" (s +:+ String "034" "").

(** The report of a test case that expects the error [name], [e]. *)
Definition say_expect (f : string) (result : Z) (name : string) (e : Z) : prog unit :=
  err ← get_errno;
  printf (f +:+ " result:" +:+ pretty result +:+ ", errno:" +:+ pretty err +:+ " (expect error is " +:+
          quoted name +:+ "=" +:+ pretty e +:+ ")" +:+ nl).
Definition expect_error (f : string) (result : Z) (name : string) (e : Z) : prog verdict :=
  say_expect f result name e;;
  TP_ASSERT result =? -1, Some ("Why " +:+ f +:+ " didn't failed!?") ;;
  err ← get_errno;
  TP_ASSERT err =? e, Some "Unexpected error is occur." ;;
  Ret None.

Definition MANDATORY : verdict := Some "mandatory parameter '-p <num_of_cpus>'".
Definition MANDATORY_2 : verdict := Some "mandatory parameter '-p <num_of_cpus(2 or more)>'".

(** [CPU_ALLOC], the check, and what is done with the set. *)
Definition alloc_set (n : Z) (k : cpu_set -> prog verdict) : prog verdict :=
  r ← CPU_ALLOC n;
  match r with None => Ret (Some "alloc failed.") | Some set => k set end.

(** INT_MAX, which no header the suites include defines, and the search for the number of no
    process: at most [n] rounds.  The error EPERM makes the loop counter -1. *)
Definition INT_MAX : Z := u32 (-1).
Fixpoint search_pid (n : nat) (invalid_pid : Z) : prog Z :=
  match n with
  | O => Ret invalid_pid
  | S n =>
      if u32 invalid_pid <? INT_MAX then
        r ← kill invalid_pid 0;
        if r =? -1 then
          err ← get_errno;
          if err =? ESRCH then Ret invalid_pid
          else if err =? EPERM then search_pid n (s32 (s32 (INT_MAX - 1) + 1))
          else search_pid n (s32 (invalid_pid + 1))
        else search_pid n (s32 (invalid_pid + 1))
      else Ret invalid_pid
  end.
Definition search_rounds : N := Z.to_N (INT_MAX - 2).
Definition find_invalid_pid : prog Z := search_pid (N.to_nat search_rounds) 2.

(** [(x + y - 1) / y] for the arguments it is used with; ints, division towards zero. *)
Definition primitive_ceil (x y : Z) : Z :=
  if y =? 0 then 0 else Z.quot x y + (if Z.rem x y =? 0 then 0 else 1).
Definition sizeof_unsigned_long : Z := 8.

(** ** sched_setaffinity *)

Definition sched_setaffinity_000 (args : sched_setaffinity_args) : prog verdict :=
  TP_ASSERT negb (num_of_cpus args =? 0), MANDATORY ;;
  let num_cpus := num_of_cpus args in
  alloc_set num_cpus (fun cpusetp =>
  let size := CPU_ALLOC_SIZE num_cpus in
  cpusetp ← CPU_ZERO_S size cpusetp;
  before ← get_cpu_id;
  '(result, cpusetp) ← get_affinity 0 size cpusetp;
  if result =? -1 then CPU_FREE cpusetp;; Ret (Some "sched_getaffinity failed.") else
  result ← set_affinity 0 size cpusetp;
  if result =? -1 then CPU_FREE cpusetp;; Ret (Some "sched_setaffinity failed.") else
  after ← get_cpu_id;
  CPU_FREE cpusetp;;
  TP_ASSERT before =? after, Some "Really process running there?" ;;
  Ret None).

(** The last CPU, or the one before when the process is already there. *)
Definition migrate_target (num_cpus before : Z) : Z :=
  if num_cpus - 1 =? before then num_cpus - 1 - 1 else num_cpus - 1.

Definition sched_setaffinity_001 (args : sched_setaffinity_args) : prog verdict :=
  TP_ASSERT 2 <=? num_of_cpus args, MANDATORY_2 ;;
  let num_cpus := num_of_cpus args in
  alloc_set num_cpus (fun cpusetp =>
  let size := CPU_ALLOC_SIZE num_cpus in
  cpusetp ← CPU_ZERO_S size cpusetp;
  before ← get_cpu_id;
  cpusetp ← CPU_SET_S (migrate_target num_cpus before) size cpusetp;
  result ← set_affinity 0 size cpusetp;
  if result =? -1 then CPU_FREE cpusetp;; Ret (Some "sched_setaffinity failed.") else
  after ← get_cpu_id;
  CPU_FREE cpusetp;;
  TP_ASSERT negb (before =? after), Some "Really process running there?" ;;
  Ret None).

(** The extended registers exist on SPARC only: elsewhere [write_xg], [write_xf] and
    [show_extended_registers] are empty functions, called here as such. *)
Definition write_xg : prog unit := Ret tt.
Definition write_xf : prog unit := Ret tt.
Definition show_extended_registers : prog unit := Ret tt.
Definition show_floats (when : string) : prog unit :=
  printf ("==" +:+ when +:+ " migrate process==" +:+ nl);;
  printf ("f0 = 3.140000, f1 = 42.195000, f2 = 53.849998, f3 = 909.908997" +:+ nl);;
  show_extended_registers.

Definition sched_setaffinity_002 (args : sched_setaffinity_args) : prog verdict :=
  before ← get_cpu_id;
  TP_ASSERT 2 <=? num_of_cpus args, MANDATORY_2 ;;
  let num_cpus := num_of_cpus args in
  alloc_set num_cpus (fun cpusetp =>
  let size := CPU_ALLOC_SIZE num_cpus in
  cpusetp ← CPU_ZERO_S size cpusetp;
  cpusetp ← CPU_SET_S (migrate_target num_cpus before) size cpusetp;
  write_xg;; write_xf;;
  show_floats "before";;
  result ← set_affinity 0 size cpusetp;
  if result =? -1 then CPU_FREE cpusetp;; Ret (Some "sched_setaffinity failed.") else
  CPU_FREE cpusetp;;
  show_floats "after";;
  Ret None).

(** The address -1 is no mask. *)
Definition sched_setaffinity_003 (args : sched_setaffinity_args) : prog verdict :=
  TP_ASSERT negb (num_of_cpus args =? 0), MANDATORY ;;
  result ← sched_setaffinity 0 (CPU_ALLOC_SIZE (num_of_cpus args)) None;
  expect_error "sched_setaffinity" result "EFAULT" EFAULT.

Definition sched_setaffinity_004 (args : sched_setaffinity_args) : prog verdict :=
  TP_ASSERT negb (num_of_cpus args =? 0), MANDATORY ;;
  let num_cpus := num_of_cpus args in
  alloc_set num_cpus (fun cpusetp =>
  let size := CPU_ALLOC_SIZE num_cpus in
  cpusetp ← CPU_ZERO_S size cpusetp;
  cpusetp ← CPU_SET_S (num_cpus - 1) size cpusetp;
  result ← set_affinity 0 0 cpusetp;
  CPU_FREE cpusetp;;
  expect_error "sched_setaffinity" result "EINVAL" EINVAL).

Definition BIG_NG_CPUID : Z := 1024.
Definition sched_setaffinity_005 : prog verdict :=
  let num_cpus := BIG_NG_CPUID in
  alloc_set num_cpus (fun cpusetp =>
  let size := CPU_ALLOC_SIZE num_cpus in
  cpusetp ← CPU_ZERO_S size cpusetp;
  result ← set_affinity 0 size cpusetp;
  CPU_FREE cpusetp;;
  expect_error "sched_setaffinity" result "EINVAL" EINVAL).

Definition sched_setaffinity_006 (args : sched_setaffinity_args) : prog verdict :=
  TP_ASSERT negb (num_of_cpus args =? 0), MANDATORY ;;
  invalid_pid ← find_invalid_pid;
  let num_cpus := num_of_cpus args in
  alloc_set num_cpus (fun cpusetp =>
  let size := CPU_ALLOC_SIZE num_cpus in
  cpusetp ← CPU_ZERO_S size cpusetp;
  cpusetp ← CPU_SET_S (num_cpus - 1) size cpusetp;
  result ← set_affinity invalid_pid size cpusetp;
  CPU_FREE cpusetp;;
  expect_error "sched_setaffinity" result "ESRCH" ESRCH).

(** The set may be smaller than the memory it is in, and need not be whole words.  [args] is never
    NULL, which the code also checks. *)
Definition sched_setaffinity_007 (args : sched_setaffinity_args) : prog verdict :=
  let nr_cpus := num_of_cpus args in
  TP_ASSERT negb (nr_cpus =? 0), MANDATORY ;;
  alloc_set nr_cpus (fun cpusetp =>
  let size := u64 (primitive_ceil nr_cpus sizeof_unsigned_long) in
  let expect_error := 0 in
  cpusetp ← CPU_ZERO_S size cpusetp;
  cpusetp ← CPU_SET_S (nr_cpus - 1) size cpusetp;
  result ← set_affinity 0 size cpusetp;
  CPU_FREE cpusetp;;
  TP_ASSERT result =? expect_error, Some "sched_setaffinity returned unexpected value." ;;
  Ret None).

(** 008: a CPU that neither the parent nor the child runs on, from [target] downwards.  The
    recursion is at most three calls deep. *)
Fixpoint migrate_target_go (fuel : nat) (parent child target : Z) : option Z :=
  match fuel with
  | O => None
  | S fuel =>
      target ← (if child =? target then migrate_target_go fuel parent child (target - 1) else Some target);
      if (0 <=? target) && (parent =? target) then migrate_target_go fuel parent child (target - 1) else Some target
  end.
Definition get_migrate_target_cpuid (parent child target : Z) : Z :=
  default target (migrate_target_go 4 parent child target).

(** ** sched_getaffinity *)

Definition sched_getaffinity_000 (args : sched_getaffinity_args) : prog verdict :=
  current_cpuid ← get_cpu_id;
  TP_ASSERT negb (ga_num_of_cpus args =? 0), MANDATORY ;;
  let num_cpus := ga_num_of_cpus args in
  alloc_set num_cpus (fun cpusetp =>
  let size := CPU_ALLOC_SIZE num_cpus in
  cpusetp ← CPU_ZERO_S size cpusetp;
  '(result, cpusetp) ← get_affinity 0 size cpusetp;
  if result =? -1 then CPU_FREE cpusetp;; Ret (Some "sched_getaffinity failed.") else
  result ← CPU_ISSET current_cpuid cpusetp;
  CPU_FREE cpusetp;;
  TP_ASSERT result, Some "Really process running there?" ;;
  Ret None).

Definition sched_getaffinity_001 : prog verdict :=
  '(result, _) ← sched_getaffinity 0 sizeof_cpu_set_t None;
  expect_error "sched_getaffinity" result "EFAULT" EFAULT.

Definition sched_getaffinity_002 (args : sched_getaffinity_args) : prog verdict :=
  TP_ASSERT negb (ga_num_of_cpus args =? 0), MANDATORY ;;
  alloc_set (ga_num_of_cpus args) (fun cpusetp =>
  '(result, cpusetp) ← get_affinity 0 0 cpusetp;
  CPU_FREE cpusetp;;
  expect_error "sched_getaffinity" result "EINVAL" EINVAL).

Definition sched_getaffinity_003 (args : sched_getaffinity_args) : prog verdict :=
  TP_ASSERT negb (ga_num_of_cpus args =? 0), MANDATORY ;;
  invalid_pid ← find_invalid_pid;
  let num_cpus := ga_num_of_cpus args in
  alloc_set num_cpus (fun cpusetp =>
  let size := CPU_ALLOC_SIZE num_cpus in
  cpusetp ← CPU_ZERO_S size cpusetp;
  '(result, cpusetp) ← get_affinity invalid_pid size cpusetp;
  CPU_FREE cpusetp;;
  expect_error "sched_getaffinity" result "ESRCH" ESRCH).

Definition MAX_NR_CPUS : Z := 1024.
Definition sched_getaffinity_004 (args : sched_getaffinity_args) : prog verdict :=
  TP_ASSERT negb (ga_num_of_cpus args =? 0), MANDATORY ;;
  TP_ASSERT ga_num_of_cpus args <=? MAX_NR_CPUS, Some "value too big.(<= 1024)" ;;
  alloc_set MAX_NR_CPUS (fun cpusetp =>
  let size := u64 (primitive_ceil (ga_num_of_cpus args) sizeof_unsigned_long) in
  let expect_error := if u64 (s32 size) mod sizeof_unsigned_long =? 0 then 0 else -1 in
  cpusetp ← CPU_ZERO_S size cpusetp;
  '(result, cpusetp) ← get_affinity 0 size cpusetp;
  CPU_FREE cpusetp;;
  TP_ASSERT result =? expect_error, Some "sched_getaffinity returns unexpected error." ;;
  if negb (result =? 0) then
    err ← get_errno;
    printf ("[size=" +:+ pretty (s32 size) +:+ "] sched_getaffinity result:" +:+ pretty result +:+ ", errno:" +:+
            pretty err +:+ nl);;
    TP_ASSERT err =? EINVAL, Some "unexpected result is occured." ;;
    Ret None
  else Ret None).

(** ** show_affinity *)

Record show_args := ShowArgs { nr_cpus_arg : Z; out_path : option string }.
Definition set_show_arg (c : ascii) (optarg : string) (a : show_args) : show_args :=
  if Ascii.eqb c "p" then ShowArgs (atoi optarg) (out_path a)
  else if Ascii.eqb c "o" then ShowArgs (nr_cpus_arg a) (Some optarg) else a.

(** The loop over the CPUs: [n] rounds from [cpu]. *)
Definition isset_line (cpu : Z) (b : bool) : string :=
  "CPU_ISSET(" +:+ pretty cpu +:+ ")=" +:+ (if b then "TRUE" else "FALSE") +:+ nl.
Fixpoint print_set (n : nat) (fp cpu : Z) (set : cpu_set) : prog unit :=
  match n with
  | O => Ret tt
  | S n => b ← CPU_ISSET cpu set; fprintf fp (isset_line cpu b);; print_set n fp (cpu + 1) set
  end.

(** The result of [CPU_ALLOC] is not checked: NULL is an address with nothing allocated, and no mask
    for the kernel.  Nor is that of [sched_getaffinity]; the set is not cleared first. *)
Definition set_or_null (r : option cpu_set) : cpu_set := default (CpuSet NULL 0 0) r.
Definition show_affinity_main (argv : list string) : prog Z :=
  a ← getopt_loop set_show_arg
    (events (scan (default "" (argv !! 0%nat)) (with_arguments ["p"; "o"]%char) [] (drop 1 argv))) (ShowArgs 0 None);
  if nr_cpus_arg a =? 0 then printf ("nr_cpus is 0" +:+ nl);; Ret (-1) else
  match out_path a with
  | None => printf ("specify -o option" +:+ nl);; Ret (-1)
  | Some path =>
      r ← fopen path "w";
      match r with
      | None => printf ("main: error: opening " +:+ path +:+ nl);; Ret (-1)
      | Some fp =>
          set ← CPU_ALLOC (nr_cpus_arg a);
          '(_, bits) ← sched_getaffinity 0 (CPU_ALLOC_SIZE (nr_cpus_arg a)) (cs_bits <$> set);
          print_set (Z.to_nat (nr_cpus_arg a)) fp 0 (with_bits (set_or_null set) bits);;
          fclose fp;;
          CPU_FREE (set_or_null set);;
          Ret 0
      end
  end.

End Affinity.
