(* ===== verification/AffinityProofs.v ===== *)
(** * The verdicts of the affinity suites

    A process has a mask of CPUs and runs on one of them; sched_setaffinity(2) and the Linux kernel
    say what the calls do to the two.  On every kernel that keeps to that, [affinity_verdicts] gives
    the verdict of each test case, and where it leaves the process, for every number of CPUs the
    suite can be given. *)
From S2P Require Import Prelude CMachine Affinity.
Import Affinity.
#[local] Open Scope Z_scope.

Module AffinityProofs.

(** ** Sizes and masks *)

Definition words (n : Z) : Z := (n + 63) / 64.

Lemma CPU_ALLOC_SIZE_pos n : 0 < n < 2 ^ 31 -> CPU_ALLOC_SIZE n = words n * 8.
Proof.
  intros Hn. unfold CPU_ALLOC_SIZE, words. rewrite (wrap_u_small 64 n) by lia.
  rewrite (wrap_u_small 64 (n + 63)) by lia. apply wrap_u_small.
  pose proof (Z.div_mod (n + 63) 64). pose proof (Z.mod_pos_bound (n + 63) 64). lia.
Qed.

Lemma words_bounds n : 0 < n -> n <= 64 * words n < n + 64.
Proof.
  intros Hn. unfold words. pose proof (Z.div_mod (n + 63) 64). pose proof (Z.mod_pos_bound (n + 63) 64). lia.
Qed.

Lemma primitive_ceil_pos n : 0 < n < 2 ^ 31 -> u64 (primitive_ceil n sizeof_unsigned_long) = (n + 7) / 8.
Proof.
  intros Hn. unfold primitive_ceil, sizeof_unsigned_long. cbn [Z.eqb].
  rewrite Z.quot_div_nonneg, Z.rem_mod_nonneg by lia.
  pose proof (Z.div_mod n 8). pose proof (Z.mod_pos_bound n 8).
  assert ((n + 7) / 8 = n / 8 + (if n mod 8 =? 0 then 0 else 1)) as ->.
  { destruct (Z.eqb_spec (n mod 8) 0).
    - symmetry. apply Z.div_unique with (n mod 8 + 7); lia.
    - symmetry. apply Z.div_unique with (n mod 8 - 1); lia. }
  apply wrap_u_small. destruct (n mod 8 =? 0); lia.
Qed.

(** The mask with one CPU, as far as the kernel reads it. *)
Lemma single_bit b w m :
  0 <= m < w -> Z.land b (Z.ones w) = 0 -> Z.land (Z.setbit b m) (Z.ones w) = 2 ^ m.
Proof.
  intros Hm Hb. apply Z.bits_inj'. intros i Hi. apply (f_equal (fun x => Z.testbit x i)) in Hb. revert Hb.
  rewrite !Z.land_spec, Z.setbit_eqb, Z.testbit_ones, Z.pow2_bits_eqb, Z.bits_0 by lia.
  destruct (Z.eqb_spec m i), (Z.leb_spec 0 i), (Z.ltb_spec i w), (Z.testbit b i); cbn; try done; lia.
Qed.

Lemma no_bit b w : 0 <= w -> Z.land (Z.ldiff b (Z.ones w)) (Z.ones w) = 0.
Proof.
  intros Hw. apply Z.bits_inj'. intros i Hi. rewrite Z.land_spec, Z.ldiff_spec, Z.bits_0.
  by destruct (Z.testbit b i), (Z.testbit (Z.ones w) i).
Qed.

Lemma land_pow2 m x : 0 <= m -> Z.land (2 ^ m) x = if Z.testbit x m then 2 ^ m else 0.
Proof.
  intros Hm. apply Z.bits_inj'. intros i Hi. rewrite Z.land_spec, Z.pow2_bits_eqb by lia.
  destruct (Z.eqb_spec m i) as [->|Hne].
  - destruct (Z.testbit x i) eqn:E; [|by rewrite Z.bits_0]. by rewrite Z.pow2_bits_true.
  - destruct (Z.testbit x m); [|by rewrite Z.bits_0]. rewrite Z.pow2_bits_eqb by done.
    by destruct (Z.eqb_spec m i).
Qed.

Lemma land_le x y : 0 <= x -> 0 <= Z.land x y <= x.
Proof.
  intros Hx. split; [apply Z.land_nonneg; lia|]. rewrite <- (Z.lor_ldiff_and x y) at 2.
  assert (Z.land (Z.ldiff x y) (Z.land x y) = 0) as Hz.
  { apply Z.bits_inj'. intros i _. rewrite !Z.land_spec, Z.ldiff_spec, Z.bits_0.
    by destruct (Z.testbit x i), (Z.testbit y i). }
  rewrite <- Z.lxor_lor, <- Z.add_nocarry_lxor by done.
  assert (0 <= Z.ldiff x y) by (apply Z.ldiff_nonneg; lia). lia.
Qed.

(** The kernel stores [r] of [size] bytes, enough for [mask], and the library clears the others. *)
Lemma stored_mask mask old r size n :
  0 <= mask < 2 ^ n -> n <= 8 * r -> 0 < r <= size ->
  Z.land (Z.lor (Z.land mask (Z.ones (8 * Z.min r size))) (Z.ldiff old (Z.ones (8 * size)))) (Z.ones (8 * size)) = mask.
Proof.
  intros Hm Hr Hs. rewrite Z.min_l by lia. rewrite Z.land_lor_distr_l, no_bit, Z.lor_0_r by lia.
  assert (forall w, n <= w -> 0 <= w -> Z.land mask (Z.ones w) = mask) as Hl; [|rewrite !Hl by lia; done].
  intros w Hw Hp. rewrite Z.land_ones, Z.mod_small; [done| |lia].
  split; [lia|]. apply Z.lt_le_trans with (2 ^ n); [lia|]. by apply Z.pow_le_mono_r.
Qed.

(** ** The specification *)

(** No process has a number above this (proc(5)). *)
Definition PID_MAX : Z := 2 ^ 22.

Section spec.
Context (nr_cpus online : Z) (known : Z -> bool).

(** What sched_setaffinity replies for a process that is known or not, and the mask it grants. *)
Definition granted (size : Z) (mask : option Z) : Z := Z.land (Z.land (default 0 mask) (Z.ones (8 * size))) online.
Definition set_refused (pid size : Z) (mask : option Z) : option Z :=
  if negb (bool_decide (is_Some mask)) && (0 <? size) then Some EFAULT
  else if negb (pid =? 0) && negb (known pid) then Some ESRCH
  else if granted size mask =? 0 then Some EINVAL else None.

(** Linux wants room for all its CPUs, in whole words. *)
Definition get_refused (pid size : Z) (valid : bool) : option Z :=
  if (8 * size <? nr_cpus) || negb (size mod 8 =? 0) then Some EINVAL
  else if negb (pid =? 0) && negb (known pid) then Some ESRCH
  else if negb valid then Some EFAULT else None.
End spec.

(** [nr_cpus]: the CPUs the kernel has room for; [online]: those a process may run on; [known]: the
    numbers of processes; [mine]: those that may be signalled; [room]: what malloc can give;
    [place]: the mask of the process and the CPU it runs on, which it leaves only when it must. *)
Class AffinityKernel (K : Kernel) := {
  nr_cpus : Z;
  online : Z;
  known : Z -> bool;
  mine : Z -> bool;
  room : Z;
  place : kstate -> Z * Z;
  nr_cpus_range : 0 < nr_cpus < 2 ^ 31;
  online_range : 0 <= online < 2 ^ nr_cpus;
  known_range pid : known pid = true -> 0 < pid < PID_MAX;
  room_least : 128 <= room;
  place_ok s : 0 <= (place s).2 /\ Z.testbit (place s).1 (place s).2 = true /\ Z.land (place s).1 online = (place s).1;
  aff_out s t : place (kstep (OUT t) s).2 = place s;
  aff_malloc s n : 0 <= n <= room -> exists p bits s',
    kstep (LIBC_malloc n) s = (Some (p, bits), s') /\ place s' = place s;
  aff_free s p : place (kstep (LIBC_release p) s).2 = place s;
  aff_getcpu s : exists s', kstep SYS_getcpu s = ((place s).2, s') /\ place s' = place s;
  aff_getpid s : place (kstep SYS_getpid s).2 = place s;
  aff_gettid s : place (kstep SYS_gettid s).2 = place s;
  aff_kill s pid : 0 < pid -> exists s', place s' = place s /\
    kstep (SYS_kill pid 0) s = (if known pid then if mine pid then 0 else - EPERM else - ESRCH, s');
  aff_set s pid size mask : pid = 0 \/ known pid = false -> 0 <= size < 2 ^ 32 -> exists r s',
    kstep (SYS_sched_setaffinity pid size mask) s = (r, s') /\
    match set_refused online known pid size mask with
    | Some e => r = - e /\ place s' = place s
    | None => r = 0 /\ (place s').1 = granted online size mask /\
        (Z.testbit (granted online size mask) (place s).2 = true -> (place s').2 = (place s).2)
    end;
  aff_get s pid size valid : pid = 0 \/ known pid = false -> 0 <= size < 2 ^ 32 -> exists r mask s',
    kstep (SYS_sched_getaffinity pid size valid) s = ((r, mask), s') /\ place s' = place s /\
    match get_refused nr_cpus known pid size valid with
    | Some e => r = - e
    | None => 0 < r <= size /\ nr_cpus <= 8 * r /\ mask = (place s).1
    end
}.

(** The test cases run with [-p n], whether each passes when started at [start], and where it leaves
    the process. *)
Section suite.
Context `{AK : AffinityKernel} (n : Z) (start : Z * Z).

Definition seen : bool := nr_cpus <=? 64 * words n.
Definition target : Z := migrate_target n start.2.
Definition moved : bool := (2 <=? n) && Z.testbit online target.
Definition pinned (ok : bool) (cpu : Z) : Z * Z := if ok then (2 ^ cpu, cpu) else start.
Definition partial : bool := negb ((n + 7) / 8 mod 8 =? 0).

Definition affinity_cases : list (prog verdict * bool * (Z * Z)) :=
  let a := SetArgs n in
  let g := GetArgs n None None [] in
  let last := Z.testbit online (n - 1) in
  [(sched_setaffinity_000 a, seen, start); (sched_setaffinity_001 a, moved, pinned moved target);
   (sched_setaffinity_002 a, moved, pinned moved target); (sched_setaffinity_003 a, true, start);
   (sched_setaffinity_004 a, true, start); (sched_setaffinity_005, true, start);
   (sched_setaffinity_006 a, true, start); (sched_setaffinity_007 a, last, pinned last (n - 1));
   (sched_getaffinity_000 g, seen && (start.2 <? 1024), start); (sched_getaffinity_001, nr_cpus <=? 1024, start);
   (sched_getaffinity_002 g, true, start); (sched_getaffinity_003 g, seen, start);
   (sched_getaffinity_004 g, (n <=? 1024) && (partial || (nr_cpus <=? 8 * ((n + 7) / 8))), start);
   (get_cpu_id_000, true, start)].
End suite.

(** ** Steps *)

Section kernel.
Context `{AK : AffinityKernel}.
Notation ends := (ends place).

Lemma place_set s : 0 <= (place s).1 < 2 ^ nr_cpus /\ (place s).1 <> 0.
Proof.
  destruct (place_ok s) as (Hc & Hb & Hm). pose proof online_range as Ho. pose proof nr_cpus_range as Hn. split.
  - rewrite <- Hm, Z.land_comm. pose proof (land_le online (place s).1). lia.
  - intros Hz. by rewrite Hz, Z.bits_0 in Hb.
Qed.

Lemma place_printf t k s ok fin :
  (forall s', place s' = place s -> ends k s' ok fin) -> ends (printf t;; k) s ok fin.
Proof. intros Hk. apply returns_bind, (returns_trigger (OUT _) _ _ _ _ (surjective_pairing _)), Hk, aff_out. Qed.

Lemma ends_free set k s ok fin :
  (forall s', place s' = place s -> ends k s' ok fin) -> ends (CPU_FREE set;; k) s ok fin.
Proof. intros Hk. apply returns_bind, (returns_trigger (LIBC_release _) _ _ _ _ (surjective_pairing _)), Hk, aff_free. Qed.

Lemma ends_get_cpu_id k s ok fin :
  (forall s', place s' = place s -> ends (k (place s).2) s' ok fin) -> ends (get_cpu_id ≫= k) s ok fin.
Proof.
  intros Hk. destruct (aff_getcpu s) as (s' & E & Hs). destruct (place_ok s) as (Hc & _).
  apply returns_bind. unfold get_cpu_id, sched_getcpu.
  apply returns_bind, returns_bind, (returns_trigger _ _ _ _ _ E), returns_syscall_ret.
  unfold is_error. replace ((place s).2 <=? -1) with false by lia. rewrite andb_false_r.
  replace ((place s).2 <? 0) with false by lia. apply returns_bind, returns_ret, returns_ret, Hk, Hs.
Qed.

(** A set for [n] CPUs. *)
Definition holds (n : Z) (set : cpu_set) : Prop := cs_bytes set = words n * 8.

Lemma ends_alloc n k s ok fin :
  0 < n < 2 ^ 31 -> words n * 8 <= room ->
  (forall set s', holds n set -> place s' = place s -> ends (k set) s' ok fin) -> ends (alloc_set n k) s ok fin.
Proof.
  intros Hn Hr Hk. pose proof (words_bounds n). destruct (aff_malloc s (words n * 8)) as (p & bits & s' & E & Hs); [lia|].
  unfold alloc_set, CPU_ALLOC, malloc. rewrite CPU_ALLOC_SIZE_pos by done.
  apply returns_bind, returns_bind, (returns_trigger _ _ _ _ _ E), returns_ret, Hk; [done|apply Hs].
Qed.

Lemma CPU_ZERO_S_inside size set (k : cpu_set -> prog verdict) :
  size <= cs_bytes set ->
  (CPU_ZERO_S size set ≫= k) = k (with_bits set (Z.ldiff (cs_bits set) (Z.ones (8 * size)))).
Proof. intros Hs. unfold CPU_ZERO_S. by replace (size <=? cs_bytes set) with true by lia. Qed.

Lemma holds_inside n cpu set :
  holds n set -> 0 < n < 2 ^ 31 -> 0 <= cpu < 64 * words n -> inside cpu set = true.
Proof.
  unfold holds, inside. intros -> Hn Hc. apply Z.leb_le.
  pose proof (Z.div_mod cpu 64). pose proof (Z.mod_pos_bound cpu 64). lia.
Qed.

Lemma CPU_SET_S_inside n cpu size set (k : cpu_set -> prog verdict) :
  holds n set -> 0 < n < 2 ^ 31 -> 0 <= cpu < 8 * size -> size <= words n * 8 ->
  (CPU_SET_S cpu size set ≫= k) = k (with_bits set (Z.setbit (cs_bits set) cpu)).
Proof.
  intros Hh Hn Hc Hs. pose proof (words_bounds n). unfold CPU_SET_S. rewrite wrap_u_small by lia.
  replace (cpu / 8 <? size) with true.
  - by rewrite (holds_inside n cpu set) by (done || lia).
  - symmetry. apply Z.ltb_lt, Z.div_lt_upper_bound; lia.
Qed.

Lemma refused_range pid size mask e : set_refused online known pid size mask = Some e -> is_error (- e) = true /\ - - e = e.
Proof. unfold set_refused. repeat case_match; intros [= <-]; done. Qed.
Lemma get_refused_range pid size v e : get_refused nr_cpus known pid size v = Some e -> is_error (- e) = true /\ - - e = e.
Proof. unfold get_refused. repeat case_match; intros [= <-]; done. Qed.

(** A call that fails returns -1 and leaves the error in [errno]. *)
Definition fails {A} (p : prog A) (a : A) (e : Z) (s s' : kstate) : Prop :=
  forall e0, exec p (Mach e0 s) = (Returned a, Mach e s').

Lemma set_fails s pid size mask e :
  pid = 0 \/ known pid = false -> 0 <= size < 2 ^ 32 -> set_refused online known pid size mask = Some e ->
  exists s', fails (sched_setaffinity pid size mask) (-1) e s s' /\ place s' = place s.
Proof.
  intros Hp Hs He. destruct (aff_set s pid size mask Hp Hs) as (r & s' & E & Hr). rewrite He in Hr.
  destruct Hr as [-> Hr], (refused_range _ _ _ _ He) as [Hi Hn]. exists s'. split; [|done]. intros e0.
  unfold sched_setaffinity, mbind, prog_mbind. cbn. rewrite E. unfold syscall_ret. rewrite Hi. cbn. by rewrite Hn.
Qed.

Lemma get_fails s pid size (old : option Z) e :
  pid = 0 \/ known pid = false -> 0 <= size < 2 ^ 32 ->
  get_refused nr_cpus known pid size (if old then true else false) = Some e ->
  exists s', fails (sched_getaffinity pid size old) (-1, default 0 old) e s s' /\ place s' = place s.
Proof.
  intros Hp Hs He. destruct (aff_get s pid size (if old then true else false) Hp Hs) as (r & mask & s' & E & Hpl & Hr).
  rewrite He in Hr. subst r. destruct (get_refused_range _ _ _ _ He) as [Hi Hn]. exists s'. split; [|done]. intros e0.
  unfold sched_getaffinity, mbind, prog_mbind. cbn. rewrite E. unfold syscall_ret. cbn. rewrite Hi. cbn. by rewrite Hn.
Qed.

(** The same as [ends], from a known [errno]. *)
Definition ends_from (e : Z) (p : prog verdict) (s : kstate) (ok : bool) (fin : Z * Z) : Prop :=
  exists v e' s', exec p (Mach e s) = (Returned v, Mach e' s') /\ (v = None <-> ok = true) /\ place s' = fin.

Lemma ends_call {A} (p : prog A) (k : A -> prog verdict) a e s s' ok fin :
  fails p a e s s' -> ends_from e (k a) s' ok fin -> ends (p ≫= k) s ok fin.
Proof. intros Hf (v & e' & s2 & E & Hv) e0. exists v, e', s2. by rewrite (exec_mbind _ _ _ _ _ (Hf e0)). Qed.

Lemma from_free e set k s ok fin :
  (forall s', place s' = place s -> ends_from e k s' ok fin) -> ends_from e (CPU_FREE set;; k) s ok fin.
Proof.
  intros Hk. unfold ends_from, CPU_FREE, free, mbind, prog_mbind. cbn.
  pose proof (aff_free s (cs_addr set)) as Hs. destruct (kstep (LIBC_release (cs_addr set)) s) as [[] s']. apply Hk, Hs.
Qed.

Lemma from_ret e v s ok fin : (v = None <-> ok = true) -> place s = fin -> ends_from e (Ret v) s ok fin.
Proof. by exists v, e, s. Qed.

(** A test case that expects the error [e'] has seen [e]. *)
Lemma from_expect f name e e' s ok :
  ok = (e =? e') -> ends_from e (expect_error f (-1) name e') s ok (place s).
Proof.
  intros ->. unfold expect_error, say_expect, printf, ends_from, get_errno, mbind, prog_mbind. cbn.
  pose proof (aff_out s) as Ho. match goal with |- context [kstep (OUT ?t) s] => specialize (Ho t); destruct (kstep (OUT t) s) as [[] s'] end.
  cbn in *. destruct (e =? e'); (eexists _, _, _; split; [done|]; split; [done|apply Ho]).
Qed.

(** A mask is set, or the mask is got, and the call succeeds. *)
Lemma ends_set s size set g k ok fin :
  0 <= size < 2 ^ 32 -> Z.land (Z.land (cs_bits set) (Z.ones (8 * size))) online = g -> g <> 0 ->
  (forall s', (place s').1 = g -> (Z.testbit g (place s).2 = true -> (place s').2 = (place s).2) -> ends (k 0) s' ok fin) ->
  ends (set_affinity 0 size set ≫= k) s ok fin.
Proof.
  intros Hs Hg H0 Hk. destruct (aff_set s 0 size (Some (cs_bits set)) (or_introl eq_refl) Hs) as (r & s' & E & Hr).
  unfold set_refused in Hr. change (granted online size (Some (cs_bits set))) with
    (Z.land (Z.land (cs_bits set) (Z.ones (8 * size))) online) in Hr. rewrite Hg in Hr.
  cbn in Hr. replace (g =? 0) with false in Hr by lia. destruct Hr as (-> & Hm & Hc).
  apply returns_bind. unfold set_affinity, sched_setaffinity.
  apply returns_bind, (returns_trigger _ _ _ _ _ E), returns_syscall_ret. cbn. by apply Hk.
Qed.

Lemma ends_get s size set k ok fin :
  0 <= size < 2 ^ 32 -> nr_cpus <= 8 * size -> size mod 8 = 0 ->
  (forall s' set', cs_bytes set' = cs_bytes set -> Z.land (cs_bits set') (Z.ones (8 * size)) = (place s).1 -> place s' = place s ->
    ends (k (0, set')) s' ok fin) ->
  ends (get_affinity 0 size set ≫= k) s ok fin.
Proof.
  intros Hs Hn Hm Hk. destruct (aff_get s 0 size true (or_introl eq_refl) Hs) as (r & mask & s' & E & Hp & Hr).
  unfold get_refused in Hr. replace (8 * size <? nr_cpus) with false in Hr by lia. rewrite Hm in Hr.
  destruct Hr as (Hr & Hc & ->). apply returns_bind. unfold get_affinity. apply returns_bind.
  unfold sched_getaffinity. apply returns_bind, (returns_trigger _ _ _ _ _ E), returns_bind, returns_syscall_ret.
  assert (is_error r = false) as -> by (unfold is_error; lia). replace (r =? -1) with false by lia.
  apply returns_ret, returns_ret, Hk; [done| |done]. destruct (place_set s) as [Hb _].
  cbn [with_bits cs_bits default]. by apply (stored_mask _ _ _ _ nr_cpus).
Qed.

Lemma ends_get_fails s size set e k ok fin :
  0 <= size < 2 ^ 32 -> get_refused nr_cpus known 0 size true = Some e ->
  (forall s', place s' = place s -> ends_from e (k (-1, with_bits set (cs_bits set))) s' ok fin) ->
  ends (get_affinity 0 size set ≫= k) s ok fin.
Proof.
  intros Hs He Hk. destruct (get_fails s 0 size (Some (cs_bits set)) e (or_introl eq_refl) Hs He) as (s' & Hf & Hp).
  apply (ends_call _ _ (-1, with_bits set (cs_bits set)) e s s'); [|by apply Hk]. intros e0. unfold get_affinity.
  by rewrite (exec_mbind _ _ _ _ _ (Hf e0)).
Qed.

(** The search ends at the number of no process. *)
Lemma search_pid_finds n pid s :
  2 <= pid <= PID_MAX -> PID_MAX - pid < Z.of_nat n ->
  returns (search_pid n pid) s (fun pid' s' => pid' <> 0 /\ known pid' = false /\ place s' = place s).
Proof.
  assert (known (-1) = false) as Hm1.
  { destruct (known (-1)) eqn:E; [|done]. apply known_range in E. lia. }
  revert pid s. induction n as [|n IH]; intros pid s Hp Hn; [lia|]. cbn [search_pid].
  unfold PID_MAX in *. rewrite wrap_u_small by lia. change (pid <? INT_MAX) with (pid <? 4294967295).
  replace (pid <? 4294967295) with true by lia. destruct (aff_kill s pid) as (s' & Hs & E); [lia|].
  destruct (known pid) eqn:Hk; [destruct (mine pid)|].
  - apply returns_bind. unfold kill. apply returns_bind, (returns_trigger _ _ _ _ _ E), returns_syscall_ret.
    cbn [is_error Z.leb Z.compare andb Z.eqb]. apply known_range in Hk. unfold PID_MAX in Hk.
    rewrite wrap_s_small by lia. apply (returns_mono _ _ (fun pid' s2 => pid' <> 0 /\ known pid' = false /\ place s2 = place s')); [apply IH; lia|].
    intros ? ? (? & ? & ?). repeat split; congruence.
  - intros e. exists (-1), EPERM, s'. split; [|done || (repeat split; done)].
    unfold kill, mbind, prog_mbind. cbn -[s32]. rewrite E. cbn -[s32]. by destruct n.
  - intros e. exists pid, ESRCH, s'. split; [|repeat split; done || lia]. unfold kill, mbind, prog_mbind. cbn -[s32]. rewrite E. done.
Qed.

Lemma ends_find_invalid_pid k s ok fin :
  (forall pid s', pid <> 0 -> known pid = false -> place s' = place s -> ends (k pid) s' ok fin) ->
  ends (find_invalid_pid ≫= k) s ok fin.
Proof.
  intros Hk. apply (ends_bind _ _ _ _ (fun pid s' => pid <> 0 /\ known pid = false /\ place s' = place s)).
  - unfold find_invalid_pid. apply search_pid_finds; [unfold PID_MAX; lia|]. rewrite N_nat_Z.
    unfold PID_MAX. by vm_compute.
  - intros pid s' (? & ? & ?). by apply Hk.
Qed.

(** ** The test cases *)

Section cases.
Context (n : Z) (Hn : 0 < n < 2 ^ 31) (Hr : words n * 8 <= room).

Lemma size_range : 0 < words n * 8 < 2 ^ 32.
Proof. pose proof (words_bounds n). lia. Qed.
Lemma size_mod : (words n * 8) mod 8 = 0.
Proof. apply Z.mod_mul. lia. Qed.
Lemma n_nonzero : negb (n =? 0) = true.
Proof. lia. Qed.

(** The cleared set. *)
Lemma ends_cleared k s ok fin :
  (forall set s', holds n set -> Z.land (cs_bits set) (Z.ones (8 * (words n * 8))) = 0 -> place s' = place s -> ends (k set) s' ok fin) ->
  ends (alloc_set n (fun set => set ← CPU_ZERO_S (CPU_ALLOC_SIZE n) set; k set)) s ok fin.
Proof.
  intros Hk. apply ends_alloc; [done..|]. intros set s' Hh Hs. rewrite CPU_ALLOC_SIZE_pos by done.
  rewrite CPU_ZERO_S_inside by (rewrite Hh; lia). apply Hk; [done| |done]. cbn. apply no_bit.
  pose proof size_range. lia.
Qed.

(** One CPU is put in it. *)
Lemma single_cpu cpu set (k : cpu_set -> prog verdict) s ok fin :
  0 <= cpu < n -> holds n set -> Z.land (cs_bits set) (Z.ones (8 * (words n * 8))) = 0 ->
  (forall set, Z.land (cs_bits set) (Z.ones (8 * (words n * 8))) = 2 ^ cpu -> ends (k set) s ok fin) ->
  ends (CPU_SET_S cpu (words n * 8) set ≫= k) s ok fin.
Proof.
  intros Hc Hh Hz Hk. pose proof (words_bounds n).
  rewrite (CPU_SET_S_inside n) by (done || lia). apply Hk. cbn. apply single_bit; [lia|done].
Qed.

(** To be pinned to a CPU: granted when it is online. *)
Lemma ends_pin s size set cpu k ok fin :
  0 <= size < 2 ^ 32 -> 0 <= cpu -> Z.land (cs_bits set) (Z.ones (8 * size)) = 2 ^ cpu ->
  (Z.testbit online cpu = true -> forall s', place s' = (2 ^ cpu, cpu) -> ends (k 0) s' ok fin) ->
  (Z.testbit online cpu = false -> forall s', place s' = place s -> ends (k (-1)) s' ok fin) ->
  ends (set_affinity 0 size set ≫= k) s ok fin.
Proof.
  intros Hs Hc Hb Hk Hf. destruct (Z.testbit online cpu) eqn:E.
  - apply (ends_set _ _ _ (2 ^ cpu)); [done| |pose proof (Z.pow_pos_nonneg 2 cpu); lia|].
    + by rewrite Hb, land_pow2, E.
    + intros s' Hm _. apply (Hk eq_refl). destruct (place_ok s') as (H0 & H1 & _). rewrite Hm, Z.pow2_bits_eqb in H1 by done.
      destruct (place s') as [m c]. cbn in *. apply Z.eqb_eq in H1. congruence.
  - destruct (set_fails s 0 size (Some (cs_bits set)) EINVAL) as (s' & Hx & Hp); [by left|done| |].
    + unfold set_refused, granted. cbn. by rewrite Hb, land_pow2, E.
    + apply (ends_bind _ _ _ _ (fun a s2 => a = -1 /\ s2 = s')); [|by intros ? ? [-> ->]; apply Hf].
      intros e. by exists (-1), EINVAL, s'.
Qed.

Lemma set_000_ends s : ends (sched_setaffinity_000 (SetArgs n)) s (seen n) (place s).
Proof.
  unfold sched_setaffinity_000. cbn [num_of_cpus]. rewrite n_nonzero. cbn [tp_assert].
  pose proof size_range as Hs. apply ends_cleared. intros set s1 Hh Hz H1. rewrite CPU_ALLOC_SIZE_pos by done.
  apply ends_get_cpu_id. intros s2 H2. destruct (nr_cpus <=? 64 * words n) eqn:E; unfold seen; rewrite E; b2p.
  - apply ends_get; [lia|lia|apply size_mod|]. intros s3 set' _ Hb H3. cbn [Z.eqb].
    destruct (place_ok s2) as (Hc & Hbit & Hon).
    apply (ends_set _ _ _ (place s2).1); [lia|by rewrite Hb|apply place_set|]. intros s4 H4 H4'. rewrite H3 in H4'.
    cbn [Z.eqb]. apply ends_get_cpu_id. intros s5 H5. apply ends_free. intros s6 H6.
    rewrite H4', H2, Z.eqb_refl by done.
    apply ends_returned; [done|]. rewrite H6, H5. rewrite (surjective_pairing (place s4)), H4, H4' by done.
    rewrite <- surjective_pairing. congruence.
  - apply (ends_get_fails _ _ _ EINVAL); [lia| |].
    + unfold get_refused. by replace (8 * (words n * 8) <? nr_cpus) with true by lia.
    + intros s3 H3. apply from_free. intros s4 H4. apply from_ret; [done|congruence].
Qed.

Lemma target_range s : 2 <= n -> 0 <= target n (place s) < n /\ target n (place s) <> (place s).2.
Proof. unfold target, migrate_target. intros. destruct (Z.eqb_spec (n - 1) (place s).2); lia. Qed.

(** The verdict of a test case that moves to [cpu]. *)
Lemma moved_ends s : ends (sched_setaffinity_001 (SetArgs n)) s (moved n (place s)) (pinned (place s) (moved n (place s)) (target n (place s))).
Proof.
  unfold sched_setaffinity_001, moved, pinned. cbn [num_of_cpus]. pose proof size_range as Hs.
  apply ends_assert; [|by intros ->]. intros H2. rewrite H2. b2p. destruct (target_range s H2) as [Ht Hne]. cbn [andb].
  apply ends_cleared. intros set s1 Hh Hz H1. rewrite CPU_ALLOC_SIZE_pos by done.
  apply ends_get_cpu_id. intros s2 H2'. rewrite H1. change (migrate_target n (place s).2) with (target n (place s)).
  apply single_cpu; [lia|done..|]. clear set Hh Hz. intros set Hz.
  apply (ends_pin _ _ _ (target n (place s))); [lia|lia|done| |]; intros ->.
  - intros s3 H3. cbn [Z.eqb]. apply ends_get_cpu_id. intros s4 H4. apply ends_free. intros s5 H5.
    rewrite H3. cbn [snd]. replace ((place s).2 =? target n (place s)) with false by lia.
    apply ends_returned; [done|congruence].
  - intros s3 H3. cbn [Z.eqb]. apply ends_free. intros s4 H4. apply ends_returned; [done|congruence].
Qed.

Lemma ends_show when k s ok fin :
  (forall s', place s' = place s -> ends k s' ok fin) -> ends (show_floats when;; k) s ok fin.
Proof.
  intros Hk. apply (ends_bind _ _ _ _ (fun _ s' => place s' = place s)); [|by intros; apply Hk].
  unfold show_floats. apply returns_bind, (returns_trigger (OUT _) _ _ _ _ (surjective_pairing _)).
  apply returns_bind, (returns_trigger (OUT _) _ _ _ _ (surjective_pairing _)), returns_ret. by rewrite !aff_out.
Qed.

Lemma registers_ends s : ends (sched_setaffinity_002 (SetArgs n)) s (moved n (place s)) (pinned (place s) (moved n (place s)) (target n (place s))).
Proof.
  unfold sched_setaffinity_002, moved, pinned. cbn [num_of_cpus]. pose proof size_range as Hs.
  apply ends_get_cpu_id. intros s0 H0.
  apply ends_assert; [|by intros ->]. intros H2. rewrite H2. b2p. destruct (target_range s H2) as [Ht Hne]. cbn [andb].
  apply ends_cleared. intros set s1 Hh Hz H1. rewrite CPU_ALLOC_SIZE_pos by done.
  change (migrate_target n (place s).2) with (target n (place s)).
  apply single_cpu; [lia|done..|]. clear set Hh Hz. intros set Hz.
  unfold write_xg, write_xf. cbn [mbind prog_mbind bind].
  apply ends_show. intros s2 H2'.
  apply (ends_pin _ _ _ (target n (place s))); [lia|lia|done| |]; intros ->.
  - intros s3 H3. cbn [Z.eqb]. apply ends_free. intros s4 H4. apply ends_show. intros s5 H5.
    apply ends_returned; [done|congruence].
  - intros s3 H3. cbn [Z.eqb]. apply ends_free. intros s4 H4. apply ends_returned; [done|congruence].
Qed.

(** A test case that expects the error of its call gets it. *)
Lemma ends_set_error s pid size set name e :
  pid = 0 \/ known pid = false -> 0 <= size < 2 ^ 32 ->
  set_refused online known pid size (Some (cs_bits set)) = Some e ->
  ends (result ← set_affinity pid size set; CPU_FREE set;; expect_error "sched_setaffinity" result name e) s true (place s).
Proof.
  intros Hp Hs He. destruct (set_fails s pid size _ e Hp Hs He) as (s' & Hf & Hpl).
  apply (ends_call _ _ _ e _ _ _ _ Hf), from_free. intros s2 H2. rewrite <- Hpl, <- H2.
  apply from_expect. by rewrite Z.eqb_refl.
Qed.

Lemma ends_get_error s pid size set name e e' ok :
  pid = 0 \/ known pid = false -> 0 <= size < 2 ^ 32 ->
  get_refused nr_cpus known pid size true = Some e -> ok = (e =? e') ->
  ends ('(result, set) ← get_affinity pid size set; CPU_FREE set;; expect_error "sched_getaffinity" result name e') s ok (place s).
Proof.
  intros Hp Hs He Hok. destruct (get_fails s pid size (Some (cs_bits set)) e Hp Hs He) as (s' & Hf & Hpl).
  apply (ends_call _ _ (-1, with_bits set (cs_bits set)) e s s').
  - intros e0. unfold get_affinity. by rewrite (exec_mbind _ _ _ _ _ (Hf e0)).
  - cbn beta iota. apply from_free. intros s2 H2. rewrite <- Hpl, <- H2. by apply from_expect.
Qed.

Lemma set_007_ends s :
  ends (sched_setaffinity_007 (SetArgs n)) s (Z.testbit online (n - 1)) (pinned (place s) (Z.testbit online (n - 1)) (n - 1)).
Proof.
  unfold sched_setaffinity_007, pinned. cbn [num_of_cpus]. cbv zeta. rewrite n_nonzero, primitive_ceil_pos by done. cbn [tp_assert].
  pose proof (words_bounds n) as Hw. pose proof (Z.div_mod (n + 7) 8) as Hd. pose proof (Z.mod_pos_bound (n + 7) 8) as Hb.
  assert ((n + 7) / 8 <= words n * 8).
  { apply Z.lt_succ_r, Z.div_lt_upper_bound; lia. }
  apply ends_alloc; [done..|]. intros set s1 Hh H1. rewrite CPU_ZERO_S_inside by (rewrite Hh; lia).
  rewrite (CPU_SET_S_inside n) by (done || lia).
  apply (ends_pin _ _ _ (n - 1)); [lia|lia| | |].
  - cbn [with_bits cs_bits]. apply single_bit; [lia|]. apply no_bit. lia.
  - intros -> s2 H2. apply ends_free. intros s3 H3. apply ends_returned; [done|congruence].
  - intros -> s2 H2. apply ends_free. intros s3 H3. apply ends_returned; [done|congruence].
Qed.

Lemma get_000_ends s :
  ends (sched_getaffinity_000 (GetArgs n None None [])) s (seen n && ((place s).2 <? 1024)) (place s).
Proof.
  unfold sched_getaffinity_000, seen. cbn [ga_num_of_cpus]. rewrite n_nonzero. cbn [tp_assert].
  pose proof size_range as Hs. apply ends_get_cpu_id. intros s0 H0.
  apply ends_cleared. intros set s1 Hh Hz H1. rewrite CPU_ALLOC_SIZE_pos by done.
  destruct (Z.leb_spec nr_cpus (64 * words n)) as [E|E].
  - apply ends_get; [lia|lia|apply size_mod|]. intros s3 set' Hb Hm H3. cbn [Z.eqb].
    rewrite H1, H0 in Hm. destruct (place_ok s) as (Hc & Hbit & Hon). destruct (place_set s) as [Hlt _].
    assert (Z.testbit (place s).1 (place s).2 = Z.testbit (cs_bits set') (place s).2 && Z.testbit (Z.ones (8 * (words n * 8))) (place s).2) as Ht.
    { by rewrite <- Hm, Z.land_spec at 1. }
    rewrite Hbit in Ht. symmetry in Ht. apply andb_true_iff in Ht as [Ht Ho]. rewrite Z.testbit_ones in Ho by lia. b2p.
    unfold CPU_ISSET, CPU_ISSET_S, sizeof_cpu_set_t. pose proof (words_bounds n) as Hw. rewrite wrap_u_small by lia.
    rewrite (holds_inside n) by (first [done | lia | by unfold holds; rewrite Hb]).
    replace ((place s).2 / 8 <? 128) with ((place s).2 <? 1024).
    + destruct ((place s).2 <? 1024); apply ends_free; intros s4 H4; rewrite ?Ht; (apply ends_returned; [done|congruence]).
    + pose proof (Z.div_mod (place s).2 8). pose proof (Z.mod_pos_bound (place s).2 8).
      destruct (Z.ltb_spec (place s).2 1024), (Z.ltb_spec ((place s).2 / 8) 128); lia.
  - apply (ends_get_fails _ _ _ EINVAL); [lia| |].
    + unfold get_refused. by replace (8 * (words n * 8) <? nr_cpus) with true by lia.
    + intros s3 H3. apply from_free. intros s4 H4. apply from_ret; [done|congruence].
Qed.

Lemma get_004_ends s :
  ends (sched_getaffinity_004 (GetArgs n None None [])) s
    ((n <=? 1024) && (partial n || (nr_cpus <=? 8 * ((n + 7) / 8)))) (place s).
Proof.
  unfold sched_getaffinity_004, partial, MAX_NR_CPUS. cbn [ga_num_of_cpus]. rewrite n_nonzero, primitive_ceil_pos by done. cbn [tp_assert].
  apply ends_assert; intros E0; rewrite E0; [|done]. b2p.
  pose proof (Z.div_mod (n + 7) 8) as Hd. pose proof (Z.mod_pos_bound (n + 7) 8) as Hb. pose proof room_least.
  apply ends_alloc; [lia|by change (words 1024 * 8) with 128|]. intros set s1 Hh H1. change (words 1024) with 16 in Hh.
  rewrite CPU_ZERO_S_inside by (rewrite Hh; change (words 1024) with 16; lia).
  rewrite wrap_s_small, wrap_u_small by lia. unfold sizeof_unsigned_long.
  destruct (Z.eqb_spec ((n + 7) / 8 mod 8) 0) as [E|E]; cbn [negb andb orb].
  - destruct (Z.leb_spec nr_cpus (8 * ((n + 7) / 8))) as [E2|E2].
    + apply ends_get; [lia|lia|done|]. intros s3 set' _ _ H3. apply ends_free. intros s4 H4. cbn [Z.eqb tp_assert negb].
      apply ends_returned; [done|congruence].
    + apply (ends_get_fails _ _ _ EINVAL); [lia| |].
      * unfold get_refused. by replace (8 * ((n + 7) / 8) <? nr_cpus) with true by lia.
      * intros s3 H3. apply from_free. intros s4 H4. apply from_ret; [done|congruence].
  - apply (ends_get_fails _ _ _ EINVAL); [lia| |].
    + unfold get_refused. replace ((n + 7) / 8 mod 8 =? 0) with false by lia. by rewrite orb_true_r.
    + intros s3 H3. apply from_free. intros s4 H4. cbn [Z.eqb tp_assert negb].
      unfold ends_from, get_errno, printf, mbind, prog_mbind. cbn -[pretty].
      match goal with |- context [kstep (OUT ?t) s4] => pose proof (aff_out s4 t) as Ho; destruct (kstep (OUT t) s4) as [[] s5] end.
      eexists _, _, _. split; [done|]. split; [done|]. cbn in Ho. congruence.
Qed.

Lemma set_003_ends s : ends (sched_setaffinity_003 (SetArgs n)) s true (place s).
Proof.
  unfold sched_setaffinity_003. cbn [num_of_cpus]. rewrite n_nonzero, CPU_ALLOC_SIZE_pos by done. cbn [tp_assert].
  pose proof size_range as Hs. destruct (set_fails s 0 (words n * 8) None EFAULT) as (s' & Hf & Hp); [by left|lia| |].
  - unfold set_refused. cbn. by replace (0 <? words n * 8) with true by lia.
  - apply (ends_call _ _ _ _ _ _ _ _ Hf). rewrite <- Hp. by apply from_expect.
Qed.

Lemma set_004_ends s : ends (sched_setaffinity_004 (SetArgs n)) s true (place s).
Proof.
  unfold sched_setaffinity_004. cbn [num_of_cpus]. rewrite n_nonzero. cbn [tp_assert].
  apply ends_cleared. intros set s1 Hh Hz <-. rewrite CPU_ALLOC_SIZE_pos by done.
  apply single_cpu; [lia|done..|]. clear set Hh Hz. intros set Hz.
  apply (ends_set_error _ _ _ _ _ EINVAL); [by left|lia|]. unfold set_refused, granted. cbn.
  by rewrite Z.land_0_r.
Qed.

Lemma set_006_ends s : ends (sched_setaffinity_006 (SetArgs n)) s true (place s).
Proof.
  unfold sched_setaffinity_006. cbn [num_of_cpus]. rewrite n_nonzero. cbn [tp_assert]. pose proof size_range as Hs.
  apply ends_find_invalid_pid. intros pid s1 Hne Hk <-.
  apply ends_cleared. intros set s2 Hh Hz <-. rewrite CPU_ALLOC_SIZE_pos by done.
  apply single_cpu; [lia|done..|]. clear set Hh Hz. intros set Hz.
  apply (ends_set_error _ _ _ _ _ ESRCH); [by right|lia|]. unfold set_refused. rewrite Hk. cbn.
  by replace (pid =? 0) with false by lia.
Qed.

Lemma get_002_ends s : ends (sched_getaffinity_002 (GetArgs n None None [])) s true (place s).
Proof.
  unfold sched_getaffinity_002. cbn [ga_num_of_cpus]. rewrite n_nonzero. cbn [tp_assert].
  apply ends_alloc; [done..|]. intros set s1 Hh <-.
  apply (ends_get_error _ _ _ _ _ EINVAL); [by left|lia| |done]. unfold get_refused. cbn [Z.mul].
  pose proof nr_cpus_range. by replace (0 <? nr_cpus) with true by lia.
Qed.

Lemma get_003_ends s : ends (sched_getaffinity_003 (GetArgs n None None [])) s (seen n) (place s).
Proof.
  unfold sched_getaffinity_003, seen. cbn [ga_num_of_cpus]. rewrite n_nonzero. cbn [tp_assert]. pose proof size_range as Hs.
  apply ends_find_invalid_pid. intros pid s1 Hne Hk <-.
  apply ends_cleared. intros set s2 Hh Hz <-. rewrite CPU_ALLOC_SIZE_pos by done.
  apply (ends_get_error _ _ _ _ _ (if nr_cpus <=? 64 * words n then ESRCH else EINVAL)); [by right|lia| |by destruct (nr_cpus <=? _)].
  unfold get_refused. rewrite size_mod, Hk. cbn [Z.eqb negb].
  replace (8 * (words n * 8)) with (64 * words n) by lia. rewrite Z.ltb_antisym.
  destruct (nr_cpus <=? 64 * words n); [|done]. cbn. by replace (pid =? 0) with false by lia.
Qed.

End cases.

Lemma set_005_ends s : ends sched_setaffinity_005 s true (place s).
Proof.
  pose proof room_least. unfold sched_setaffinity_005, BIG_NG_CPUID.
  apply ends_cleared; [lia|by change (words 1024 * 8) with 128|]. intros set s1 Hh Hz <-.
  apply (ends_set_error _ _ _ _ _ EINVAL); [by left|by vm_compute|]. unfold set_refused, granted.
  change (CPU_ALLOC_SIZE 1024) with (words 1024 * 8). change (default 0 (Some (cs_bits set))) with (cs_bits set).
  by rewrite Hz.
Qed.

Lemma get_001_ends s : ends sched_getaffinity_001 s (nr_cpus <=? 1024) (place s).
Proof.
  unfold sched_getaffinity_001.
  destruct (get_fails s 0 sizeof_cpu_set_t None (if nr_cpus <=? 1024 then EFAULT else EINVAL)) as (s' & Hf & Hp); [by left|done| |].
  - unfold get_refused. change (8 * sizeof_cpu_set_t) with 1024. rewrite Z.ltb_antisym. by destruct (nr_cpus <=? 1024).
  - apply (ends_call _ _ _ _ _ _ _ _ Hf). rewrite <- Hp. apply from_expect. by destruct (nr_cpus <=? 1024).
Qed.

Lemma get_cpu_id_ends s : ends get_cpu_id_000 s true (place s).
Proof.
  unfold get_cpu_id_000. apply ends_get_cpu_id. intros s1 H1. destruct (place_ok s) as (Hc & _).
  replace (negb ((place s).2 =? -1)) with true by lia. cbn [tp_assert].
  apply returns_bind, (returns_trigger SYS_getpid _ _ _ _ (surjective_pairing _)).
  apply returns_bind, (returns_trigger SYS_gettid _ _ _ _ (surjective_pairing _)).
  apply place_printf. intros s2 H2. apply ends_returned; [done|]. by rewrite H2, aff_gettid, aff_getpid.
Qed.


End kernel.

(** ** A kernel that keeps to the specification

    Four CPUs; a state that is no place is read as the first CPU with all of them allowed. *)
Definition is_place (s : Z * Z) : bool := (0 <=? s.2) && Z.testbit s.1 s.2 && (Z.land s.1 15 =? s.1).
Definition at_place (s : Z * Z) : Z * Z := if is_place s then s else (15, 0).
Definition only_1 (pid : Z) : bool := pid =? 1.
Definition move (g : Z) (s : Z * Z) : Z * Z := (g, if Z.testbit g s.2 then s.2 else Z.log2 g).
Definition affinity_step (c : cmd) (s : Z * Z) : reply c * (Z * Z) :=
  match c return reply c * (Z * Z) with
  | SYS_getcpu => ((at_place s).2, s)
  | SYS_kill pid _ => (if only_1 pid then 0 else - ESRCH, s)
  | LIBC_malloc n => (if n <=? 2 ^ 20 then Some (4096, 7) else None, s)
  | SYS_sched_setaffinity pid size mask =>
      match set_refused 15 only_1 pid size mask with
      | Some e => (- e, s)
      | None => (0, move (granted 15 size mask) (at_place s))
      end
  | SYS_sched_getaffinity pid size valid =>
      match get_refused 4 only_1 pid size valid with Some e => ((- e, 0), s) | None => ((8, (at_place s).1), s) end
  | c => (no_reply c, s)
  end.
Definition affinity_kernel : Kernel := {| kstate := Z * Z; kstep := affinity_step |}.

Lemma at_place_ok s :
  0 <= (at_place s).2 /\ Z.testbit (at_place s).1 (at_place s).2 = true /\ Z.land (at_place s).1 15 = (at_place s).1.
Proof. unfold at_place. destruct (is_place s) eqn:E; [|done]. unfold is_place in E. b2p. done. Qed.

Lemma move_ok g s : 0 < g -> Z.land g 15 = g -> 0 <= s.2 -> at_place (move g s) = move g s.
Proof.
  intros Hg Hl Hs. unfold at_place. replace (is_place (move g s)) with true; [done|]. symmetry.
  unfold is_place, move. cbn [fst snd]. rewrite Hl, Z.eqb_refl, andb_true_r. apply andb_true_iff.
  destruct (Z.testbit g s.2) eqn:E; (split; [|try done; by apply Z.bit_log2]); apply Z.leb_le; [done|apply Z.log2_nonneg].
Qed.

Lemma granted_ok size mask : Z.land (granted 15 size mask) 15 = granted 15 size mask /\ 0 <= granted 15 size mask.
Proof.
  unfold granted. rewrite <- Z.land_assoc. split; [done|]. apply Z.land_nonneg. right. lia.
Qed.

Definition affinity_laws : AffinityKernel affinity_kernel.
Proof.
  refine {| nr_cpus := 4; online := 15; known := only_1; mine := only_1; room := 2 ^ 20;
            place := at_place : @kstate affinity_kernel -> _ |}; try done.
  - unfold only_1, PID_MAX. intros pid ->%Z.eqb_eq. lia.
  - apply at_place_ok.
  - intros s n Hn. cbn -[Z.pow]. replace (n <=? 2 ^ 20) with true by lia. by eexists _, _, _.
  - intros s. by eexists.
  - intros s pid _. cbn. unfold only_1. destruct (pid =? 1); by eexists.
  - intros s pid size mask _ _. cbn -[set_refused granted at_place]. destruct (set_refused _ _ pid size mask) eqn:E; [by eexists _, _|].
    eexists _, _. split; [done|]. split; [done|]. destruct (granted_ok size mask) as [Hl Hg]. destruct (at_place_ok s) as [Hs _].
    unfold set_refused in E. repeat case_match; try done. b2p. rewrite move_ok by (done || lia).
    unfold move. cbn. split; [done|]. by intros ->.
  - intros s pid size v _ Hs. cbn -[get_refused at_place]. destruct (get_refused _ _ pid size v) eqn:E; [by eexists _, _, _|].
    eexists _, _, _. split; [done|]. split; [done|]. unfold get_refused in E. repeat case_match; try done. b2p.
    pose proof (Z.div_mod size 8). lia.
Defined.


End AffinityProofs.
