(* ===== verification/AffinityRuns.v ===== *)
(** * The affinity suites on any kernel, and what show_affinity prints

    [affinity_sets_freed]: no CPU set is leaked; [get_migrate_target_cpuid_spec]: where 008 moves its
    child; [show_affinity_prints]: the text of show_affinity is the mask. *)
From S2P Require Import Prelude CMachine Libc Ledger Affinity AffinityProofs.
Import Libc Ledger Affinity AffinityProofs.
#[local] Open Scope Z_scope.

Module AffinityRuns.

(** ** CPU sets are given back *)

Section freed.
Context (h : held).

Lemma keeps_kill pid sig : keeps (kill pid sig) h (fun _ => h).
Proof. apply keeps_vis. intros r. by apply keeps_syscall_ret. Qed.
Lemma keeps_set pid size mask : keeps (sched_setaffinity pid size mask) h (fun _ => h).
Proof. apply keeps_vis. intros r. by apply keeps_syscall_ret. Qed.
Lemma keeps_get pid size mask : keeps (sched_getaffinity pid size mask) h (fun _ => h).
Proof.
  apply keeps_vis. intros [r m]. apply (keeps_bind _ _ _ (fun _ => h)); [by apply keeps_syscall_ret|].
  intros x. cbv beta zeta. destruct (x =? -1); by apply keeps_ret.
Qed.
Lemma keeps_getcpu : keeps sched_getcpu h (fun _ => h).
Proof. apply keeps_vis. intros r. by apply keeps_syscall_ret. Qed.
Lemma keeps_trigger c : (forall r, step h (ev c r) = h) -> keeps (trigger c) h (fun _ => h).
Proof. intros Hc. apply keeps_vis. intros r. by apply keeps_ret. Qed.

Lemma keeps_search n pid : keeps (search_pid n pid) h (fun _ => h).
Proof.
  revert pid. induction n as [|n IH]; intros pid; cbn [search_pid]; [by apply keeps_ret|].
  destruct (u32 pid <? INT_MAX); [|by apply keeps_ret].
  apply (keeps_bind _ _ _ (fun _ => h)); [apply keeps_kill|]. intros r.
  destruct (r =? -1); [|apply IH]. apply (keeps_bind _ _ _ (fun _ => h)); [apply keeps_get_errno|]. intros e.
  destruct (e =? ESRCH); [by apply keeps_ret|]. destruct (e =? EPERM); apply IH.
Qed.

End freed.
#[local] Hint Resolve keeps_kill keeps_set keeps_get keeps_getcpu keeps_search : ledger.

(** The operations on a set keep its block, at the address of the set they return. *)
Definition owning (h : held) (set : cpu_set) : held := add_block (cs_addr set) h.

Section sets.
Context (h : held).

Lemma keeps_zero size set : keeps (CPU_ZERO_S size set) (owning h set) (fun set' => owning h set').
Proof.
  unfold CPU_ZERO_S. apply (keeps_bind _ _ _ (fun _ => owning h set)); [|intros _; by apply keeps_ret].
  destruct (size <=? cs_bytes set); [by apply keeps_ret|apply keeps_memset].
Qed.
Lemma keeps_set_cpu cpu size set : keeps (CPU_SET_S cpu size set) (owning h set) (fun set' => owning h set').
Proof. unfold CPU_SET_S. cbv zeta. keep. Qed.
Lemma keeps_isset cpu set : keeps (CPU_ISSET cpu set) (owning h set) (fun _ => owning h set).
Proof. unfold CPU_ISSET, CPU_ISSET_S. cbv zeta. keep. Qed.
Lemma keeps_get_set pid size set : keeps (get_affinity pid size set) (owning h set) (fun r => owning h r.2).
Proof.
  apply (keeps_bind _ _ _ (fun _ => owning h set)); [apply keeps_get|]. intros [r bits]. by apply keeps_ret.
Qed.
Lemma keeps_set_affinity pid size set : keeps (set_affinity pid size set) h (fun _ => h).
Proof. apply keeps_set. Qed.
Lemma keeps_free_set set : keeps (CPU_FREE set) (owning h set) (fun _ => h).
Proof. intros e tr a e' H. rewrite (keeps_release _ _ _ _ _ _ H). apply del_add_block. Qed.

Lemma keeps_alloc_set n k :
  (forall set, keeps (k set) (owning h set) (fun _ => h)) -> keeps (alloc_set n k) h (fun _ => h).
Proof.
  intros Hk. unfold alloc_set, CPU_ALLOC. eapply keeps_bind.
  - eapply keeps_bind; [apply keeps_malloc|]. intros r.
    apply (keeps_ret _ _ (fun r => match r with Some set => owning h set | None => h end)). by destruct r as [[]|].
  - intros [set|]; [apply Hk|by apply keeps_ret].
Qed.

Lemma keeps_get_cpu_id : keeps get_cpu_id h (fun _ => h).
Proof.
  unfold get_cpu_id. keep1. apply (keeps_bind _ _ _ (fun _ => h)); [|intros _; by apply keeps_ret].
  keep1; [apply keeps_printf|by apply keeps_ret].
Qed.
Lemma keeps_find : keeps find_invalid_pid h (fun _ => h).
Proof. apply keeps_search. Qed.
Lemma keeps_expect f r name e : keeps (expect_error f r name e) h (fun _ => h).
Proof. unfold expect_error. apply (keeps_bind _ _ _ (fun _ => h)); [unfold say_expect; keep; apply keeps_printf|intros _; keep]. Qed.
Lemma keeps_floats when : keeps (show_floats when) h (fun _ => h).
Proof. unfold show_floats, show_extended_registers. keep. Qed.
Lemma keeps_id c : c = SYS_getpid \/ c = SYS_gettid -> keeps (trigger c) h (fun _ => h).
Proof. intros [-> | ->]; apply keeps_trigger; done. Qed.
Lemma keeps_unit : keeps (Ret tt) h (fun _ => h).
Proof. by apply keeps_ret. Qed.

End sets.
#[local] Hint Resolve keeps_zero keeps_set_cpu keeps_isset keeps_get_set keeps_set_affinity keeps_free_set
  keeps_get_cpu_id keeps_find keeps_expect keeps_floats keeps_unit : ledger.

(** The test cases with their arguments. *)
Definition affinity_tests (a : sched_setaffinity_args) (g : sched_getaffinity_args) : list (prog verdict) :=
  [sched_setaffinity_000 a; sched_setaffinity_001 a; sched_setaffinity_002 a; sched_setaffinity_003 a;
   sched_setaffinity_004 a; sched_setaffinity_005; sched_setaffinity_006 a; sched_setaffinity_007 a;
   sched_getaffinity_000 g; sched_getaffinity_001; sched_getaffinity_002 g; sched_getaffinity_003 g;
   sched_getaffinity_004 g].

Ltac keep_sets :=
  repeat first
    [ progress cbv beta zeta
    | lazymatch goal with
      | |- keeps (alloc_set _ _) _ _ => apply keeps_alloc_set; intros ?
      | |- keeps (expect_error _ _ _ _) _ _ => apply keeps_expect
      end
    | keep1; cbn [snd] ].

(** On every kernel, whatever it replies and whatever the number of CPUs is, a test case that returns
    has freed every CPU set it allocated. *)
Theorem affinity_sets_freed a g p e tr v e' :
  p ∈ affinity_tests a g -> run p e tr (Returned v) e' -> after none tr = none.
Proof.
  intros Hin. revert e tr v e'. change (keeps p none (fun _ => none)). revert Hin. generalize none. intros h.
  unfold affinity_tests. rewrite !elem_of_cons, elem_of_nil. intros Hin.
  repeat destruct Hin as [->|Hin]; [..|done].
  all: match goal with |- keeps (?f _) _ _ => unfold f | |- keeps ?f _ _ => unfold f end.
  all: keep_sets.
Qed.

(** ** Other properties *)

Lemma run_alloc_set n k e tr o e' :
  run (alloc_set n k) e tr o e' ->
  tr = [ev (LIBC_malloc (CPU_ALLOC_SIZE n)) None] \/
  exists p bits tr', tr = ev (LIBC_malloc (CPU_ALLOC_SIZE n)) (Some (p, bits)) :: tr' /\
    run (k (CpuSet p (CPU_ALLOC_SIZE n) bits)) e tr' o e'.
Proof.
  intros (r & tr' & -> & H). destruct r as [[p bits]|]; [right; by exists p, bits, tr'|]. destruct H as (-> & _). by left.
Qed.

Lemma run_zero_outside {A} size set (k : cpu_set -> prog A) e tr o e' :
  cs_bytes set < size -> run (CPU_ZERO_S size set ≫= k) e tr o e' ->
  exists r tr', tr = ev (MEM_set (cs_addr set) 0 size) r :: tr'.
Proof.
  intros Hs. unfold CPU_ZERO_S. replace (size <=? cs_bytes set) with false by lia.
  intros (r & tr' & -> & _). by exists r, tr'.
Qed.

(** The number of CPUs of 007 is not checked: with [-p -16] the set has no bytes, and its size, -2 as
    a [size_t], is what memset is asked to clear. *)
Theorem negative_cpus_clear_everything e tr o e' :
  run (sched_setaffinity_007 (SetArgs (-16))) e tr o e' ->
  tr = [ev (LIBC_malloc 0) None] \/
  exists p bits r tr', tr = ev (LIBC_malloc 0) (Some (p, bits)) :: ev (MEM_set p 0 (2 ^ 64 - 2)) r :: tr'.
Proof.
  unfold sched_setaffinity_007. cbn [num_of_cpus]. cbv zeta. change (negb (-16 =? 0)) with true. cbn [tp_assert].
  intros [->|(p & bits & tr' & -> & H)]%run_alloc_set; [by left|]. right.
  apply run_zero_outside in H as (r & tr2 & ->); [|by vm_compute]. by exists p, bits, r, tr2.
Qed.

(** The target of the migration in 008: the last CPU up to [target] that neither process runs on,
    below 0 when there is none; three calls are enough. *)
Lemma migrate_target_step fuel parent child target :
  migrate_target_go (S fuel) parent child target =
  match (if child =? target then migrate_target_go fuel parent child (target - 1) else Some target) with
  | None => None
  | Some t => if (0 <=? t) && (parent =? t) then migrate_target_go fuel parent child (t - 1) else Some t
  end.
Proof. done. Qed.

Lemma migrate_target_free fuel parent child t :
  t <> child -> t <> parent \/ t < 0 -> migrate_target_go (S fuel) parent child t = Some t.
Proof.
  intros H1 H2. rewrite migrate_target_step. replace (child =? t) with false by lia.
  destruct (Z.leb_spec 0 t); [|done]. by replace (parent =? t) with false by lia.
Qed.

Lemma migrate_target_child fuel parent child t t' :
  child = t -> migrate_target_go fuel parent child (t - 1) = Some t' -> t' <> parent \/ t' < 0 ->
  migrate_target_go (S fuel) parent child t = Some t'.
Proof.
  intros -> E Ht. rewrite migrate_target_step, Z.eqb_refl, E.
  destruct (Z.leb_spec 0 t'); [|done]. by replace (parent =? t') with false by lia.
Qed.

Lemma migrate_target_parent fuel parent child t :
  child <> t -> parent = t -> 0 <= t -> migrate_target_go (S fuel) parent child t = migrate_target_go fuel parent child (t - 1).
Proof.
  intros H -> Ht. rewrite migrate_target_step. replace (child =? t) with false by lia. rewrite Z.eqb_refl.
  by replace (0 <=? t) with true by lia.
Qed.

Theorem get_migrate_target_cpuid_spec parent child target :
  0 <= target -> 0 <= child ->
  let r := get_migrate_target_cpuid parent child target in
  migrate_target_go 3 parent child target = Some r /\ -1 <= r <= target /\ (0 <= r -> r <> parent /\ r <> child) /\
  forall cpu, r < cpu <= target -> cpu = parent \/ cpu = child.
Proof.
  intros Ht Hc. assert (exists r, (forall fuel, migrate_target_go (S (S (S fuel))) parent child target = Some r) /\
    -1 <= r <= target /\ (0 <= r -> r <> parent /\ r <> child) /\ forall cpu, r < cpu <= target -> cpu = parent \/ cpu = child)
    as (r & Hgo & H); [|unfold get_migrate_target_cpuid; by rewrite (Hgo 0%nat), (Hgo 1%nat)].
  destruct (decide (child = target)) as [H1|H1]; [|destruct (decide (parent = target)) as [H2|H2]].
  - destruct (decide (parent = target - 1 /\ 0 <= target - 1)) as [[H2 H3]|H2].
    + exists (target - 2). split; [|repeat split; intros; lia]. intros fuel. apply migrate_target_child; [done| |lia].
      rewrite migrate_target_parent by lia. replace (target - 1 - 1) with (target - 2) by lia. apply migrate_target_free; lia.
    + exists (target - 1). split; [|repeat split; intros; lia]. intros fuel. apply migrate_target_child; [done| |lia]. apply migrate_target_free; lia.
  - destruct (decide (child = target - 1)) as [H3|H3].
    + exists (target - 2). split; [|repeat split; intros; lia]. intros fuel. rewrite migrate_target_parent by lia.
      apply migrate_target_child; [done| |lia]. replace (target - 1 - 1) with (target - 2) by lia. apply migrate_target_free; lia.
    + exists (target - 1). split; [|repeat split; intros; lia]. intros fuel. rewrite migrate_target_parent by lia. apply migrate_target_free; lia.
  - exists target. split; [|repeat split; intros; lia]. intros fuel. apply migrate_target_free; lia.
Qed.

(** ** show_affinity *)

Section show.
Context (fp : Z) (set : cpu_set).

(** What is printed for the CPUs from [cpu] on, when no access leaves the set. *)
Definition set_lines (n : nat) (cpu : Z) : list event :=
  (fun i => ev (FILE_fprintf fp (isset_line i ((i <? 1024) && Z.testbit (cs_bits set) i))) tt) <$> seqZ cpu (Z.of_nat n).

Lemma CPU_ISSET_inside cpu :
  0 <= cpu < 8 * cs_bytes set -> cs_bytes set mod 8 = 0 -> cs_bytes set < 2 ^ 60 ->
  CPU_ISSET cpu set = Ret ((cpu <? 1024) && Z.testbit (cs_bits set) cpu).
Proof.
  intros Hc Hm Hb. unfold CPU_ISSET, CPU_ISSET_S, sizeof_cpu_set_t, inside. rewrite wrap_u_small by lia.
  pose proof (Z.div_mod cpu 8) as H8. pose proof (Z.mod_pos_bound cpu 8) as H8'.
  pose proof (Z.div_mod cpu 64) as H64. pose proof (Z.mod_pos_bound cpu 64) as H64'.
  pose proof (Z.div_mod (cs_bytes set) 8) as Hd.
  replace (cpu / 8 <? 128) with (cpu <? 1024) by (destruct (Z.ltb_spec cpu 1024), (Z.ltb_spec (cpu / 8) 128); lia).
  destruct (cpu <? 1024); [|done]. by replace ((cpu / 64 + 1) * 8 <=? cs_bytes set) with true by lia.
Qed.

Lemma run_print_set n cpu (k : unit -> prog Z) e tr o e' :
  0 <= cpu -> cpu + Z.of_nat n <= 8 * cs_bytes set -> cs_bytes set mod 8 = 0 -> cs_bytes set < 2 ^ 60 ->
  run (print_set n fp cpu set ≫= k) e tr o e' <-> exists tr', tr = set_lines n cpu ++ tr' /\ run (k tt) e tr' o e'.
Proof.
  revert cpu tr. induction n as [|n IH]; intros cpu tr Hc Hn Hm Hb.
  - split; [intros H; by exists tr|by intros (tr' & -> & H)].
  - cbn [print_set]. rewrite CPU_ISSET_inside by (done || lia). unfold set_lines. rewrite Nat2Z.inj_succ, seqZ_cons by lia.
    rewrite Z.pred_succ. change (run (fprintf fp (isset_line cpu ((cpu <? 1024) && Z.testbit (cs_bits set) cpu)) ≫=
      (fun _ => print_set n fp (cpu + 1) set ≫= k)) e tr o e' <->
      exists tr', tr = (ev (FILE_fprintf fp (isset_line cpu ((cpu <? 1024) && Z.testbit (cs_bits set) cpu))) tt :: set_lines n (Z.succ cpu)) ++ tr' /\ run (k tt) e tr' o e').
    split.
    + intros ([] & tr1 & -> & H). apply IH in H as (tr2 & -> & H); [|lia..|done|done]. by exists tr2.
    + intros (tr2 & -> & H). exists tt, (set_lines n (cpu + 1) ++ tr2). split; [done|]. apply IH; [lia..|done|done|]. by exists tr2.
Qed.

End show.

Lemma run_ret_bind {A B} (a : A) (k : A -> prog B) e tr o e' : run (Ret a ≫= k) e tr o e' <-> run (k a) e tr o e'.
Proof. done. Qed.
Lemma run_trigger {B} c (k : reply c -> prog B) e r tr o e' :
  run (trigger c ≫= k) e (ev c r :: tr) o e' <-> run (k r) e tr o e'.
Proof. apply run_vis. Qed.
Lemma run_assoc {A B C} (p : prog A) (f : A -> prog B) (k : B -> prog C) e tr o e' :
  run ((p ≫= f) ≫= k) e tr o e' <-> run (p ≫= fun a => f a ≫= k) e tr o e'.
Proof.
  revert e tr. induction p as [a|x|x d|q IH|x q IH|c q IH]; intros e tr; simpl; try apply IH; try done.
  split; intros (r & tr' & -> & H); exists r, tr'; (split; [done|]); by apply IH.
Qed.

(** The command line [show_affinity -p n -o path]. *)
Definition show_argv (n : Z) (path : string) : list string := ["show_affinity"; "-p"; pretty n; "-o"; path].

Lemma show_args_scan n path :
  events (scan "show_affinity" (with_arguments ["p"; "o"]%char) [] (drop 1 (show_argv n path)))
  = [Opt "p" (Some (pretty n)); Opt "o" (Some path)].
Proof. reflexivity. Qed.

(** With [-p n -o path], when the file opens, there is memory and the kernel stores a mask that fits,
    show_affinity writes one line for each CPU below [n] in order, TRUE for those of the mask below
    1024, closes the file, frees the set and returns 0. *)
Theorem show_affinity_prints n path fp p bits r mask e tr o e' :
  0 < n < 2 ^ 31 -> 0 < r <= CPU_ALLOC_SIZE n ->
  run (show_affinity_main (show_argv n path)) e
    (ev (FILE_fopen path "w") (Some fp) :: ev (LIBC_malloc (CPU_ALLOC_SIZE n)) (Some (p, bits)) ::
     ev (SYS_sched_getaffinity 0 (CPU_ALLOC_SIZE n) true) (r, mask) :: tr) o e' ->
  exists x, o = Returned 0 /\
    tr = ((fun i => ev (FILE_fprintf fp (isset_line i ((i <? 1024) && ((i <? 8 * r) && Z.testbit mask i)))) tt) <$> seqZ 0 n)
         ++ [ev (FILE_fclose fp) x; ev (LIBC_release p) tt].
Proof.
  intros Hn Hr. unfold show_affinity_main. change (default "" (show_argv n path !! 0%nat)) with "show_affinity"%string.
  rewrite show_args_scan. change (getopt_loop set_show_arg [Opt "p" (Some (pretty n)); Opt "o" (Some path)] (ShowArgs 0 None))
    with (Ret (ShowArgs (atoi (pretty n)) (Some path)) : prog show_args). rewrite atoi_pretty by lia.
  rewrite run_ret_bind. cbn [nr_cpus_arg out_path]. replace (n =? 0) with false by lia.
  pose proof (words_bounds n) as Hw. rewrite CPU_ALLOC_SIZE_pos in * by done.
  intros H. apply (run_trigger (FILE_fopen path "w")) in H. unfold CPU_ALLOC, malloc in H.
  rewrite CPU_ALLOC_SIZE_pos, run_assoc in H by done. apply (run_trigger (LIBC_malloc _)) in H.
  rewrite run_ret_bind in H. unfold sched_getaffinity in H. rewrite run_assoc in H.
  apply (run_trigger (SYS_sched_getaffinity _ _ _)) in H. cbv beta iota in H. unfold syscall_ret in H.
  assert (is_error r = false) as Er by (unfold is_error; lia). rewrite Er, run_assoc, run_ret_bind in H.
  replace (r =? -1) with false in H by lia. rewrite run_ret_bind in H. cbv beta iota zeta in H.
  apply run_print_set in H as (tr' & -> & H); [|lia| |apply Z.mod_mul; lia|cbn; lia]; [|cbn; lia].
  destruct H as (x & tr1 & -> & H). assert (exists y, tr1 = [ev (LIBC_release p) y] /\ o = Returned 0) as (y & -> & ->).
  { destruct H as (y & tr2 & -> & -> & -> & _). by exists y. }
  exists x. split; [done|]. destruct y. f_equal. unfold set_lines. rewrite Z2Nat.id by lia.
  apply list_fmap_ext. intros j i Hi. apply lookup_seqZ in Hi as [-> Hj]. cbn [set_or_null default with_bits cs_bits].
  repeat f_equal. rewrite Z.lor_spec, Z.land_spec, Z.ldiff_spec, !Z.testbit_ones by lia.
  replace (8 * Z.min r (words n * 8)) with (8 * r) by lia.
  destruct (Z.ltb_spec (0 + Z.of_nat j) (8 * (words n * 8))); [|lia]. destruct (Z.leb_spec 0 (0 + Z.of_nat j)); [|lia].
  cbn [andb negb]. by rewrite andb_false_r, orb_false_r, (andb_comm (Z.testbit mask _)).
Qed.


Lemma show_affinity_prints_witness : exists tr o e' x,
  run (show_affinity_main (show_argv 2 "f")) 0
    (ev (FILE_fopen "f" "w") (Some 5) :: ev (LIBC_malloc (CPU_ALLOC_SIZE 2)) (Some (64, 7)) ::
     ev (SYS_sched_getaffinity 0 (CPU_ALLOC_SIZE 2) true) (8, 2) :: tr) o e' /\
  tr = [ev (FILE_fprintf 5 (isset_line 0 false)) tt; ev (FILE_fprintf 5 (isset_line 1 true)) tt; ev (FILE_fclose 5) x; ev (LIBC_release 64) tt].
Proof.
  exists [ev (FILE_fprintf 5 (isset_line 0 false)) tt; ev (FILE_fprintf 5 (isset_line 1 true)) tt; ev (FILE_fclose 5) 0; ev (LIBC_release 64) tt], (Returned 0), 0.
  match goal with |- exists x, ?R /\ _ => assert R as HR by (cbn; repeat (eexists _, _; split; [reflexivity|]); done) end.
  destruct (show_affinity_prints 2 "f" 5 64 7 8 2 0 _ _ 0 ltac:(lia) ltac:(vm_compute; done) HR) as (x & _ & E).
  exists x. split; [exact HR|exact E].
Defined.

End AffinityRuns.
