(* ===== verification/LargeMem.v ===== *)
(** * The suites on large pages and memory limits

    src/src/test_mck/src/: mem_large_page, which maps memory, touches it and asks /proc/<pid>/pagemap
    for the size of its pages; mem_limits, which allocates until a limit; mem_stack_limits, which
    uses a given amount of stack.  The text of [%p] is the parameter [pp]; the build flag
    ENABLE_LARGEST_PAGE is the parameter [largest]. *)
From S2P Require Import Prelude CMachine Align Libc FileMap TestMck MemFile.
Import Align Libc FileMap TestMck MemFile.
#[local] Open Scope Z_scope.

Module LargeMem.

Definition MAP_HUGETLB : Z := 0x40000.
Definition MAP_HUGE_SHIFT : Z := 26.
Definition SHM_HUGETLB : Z := 0x800.
Definition IPC_CREAT : Z := 0x200.
Definition IPC_PRIVATE : Z := 0.
Definition IPC_RMID : Z := 0.
Definition SHM_R : Z := 0x100.
Definition SHM_W : Z := 0x80.
Definition SEEK_SET : Z := 0.

(** ** check_page_size *)

(** The bytes [read] stored at the start of a variable of eight bytes that was 0. *)
Fixpoint little_endian (bytes : list Z) : Z :=
  match bytes with [] => 0 | b :: bytes => u8 b + 256 * little_endian bytes end.
Definition PAGEMAP_PAGE_SHIFT_BITS : Z := 0x1F80000000000000.
Definition PAGEMAP_PAGE_SHIFT_SHIFT : Z := 55.
Definition pagemap_psize (pagemap : Z) : Z :=
  u64 (Z.shiftl 1 (Z.shiftr (pagemap .& PAGEMAP_PAGE_SHIFT_BITS) PAGEMAP_PAGE_SHIFT_SHIFT)).

(** [off_t] is signed, the page size unsigned. *)
Definition pagemap_offset (va : Z) : Z := s64 (u64 (s64 (va .& PAGE_MASK)) / PAGE_SIZE * 8).

Definition pagemap_path (pid : Z) : string := "/proc/" +:+ pretty pid +:+ "/pagemap".
Definition say_failed (what : string) : prog unit :=
  e ← get_errno; printf (what +:+ " failed. " +:+ pretty e +:+ nl).

Definition check_page_size (va pagesize : Z) : prog Z :=
  pid ← getpid;
  let pfname := pagemap_path pid in
  fd ← open pfname O_RDONLY;
  if fd =? -1 then say_failed (pfname +:+ " open()");; Ret 0 else
  let offset := pagemap_offset va in
  off ← lseek fd offset SEEK_SET;
  ret ← (if off =? -1 then say_failed (pfname +:+ " lseek()");; Ret 0 else
         '(r, bytes) ← read fd 8;
         if r =? -1 then say_failed (pfname +:+ " offset:" +:+ hex (u64 offset) +:+ " read()");; Ret 0 else
         let psize := pagemap_psize (little_endian (take 8 bytes)) in
         if psize =? pagesize then Ret 1
         else printf (pfname +:+ " pagesize = 0x" +:+ hex psize +:+ ", Not as expected." +:+ nl);; Ret 0);
  status ← close fd;
  (if status =? -1 then say_failed (pfname +:+ " close()") else Ret tt);;
  Ret ret.

Section texts.
Context (pp : Z -> string).

(** ** The loops over the pages

    [n] rounds are left; [flag] is [large_page_flag]. *)
Fixpoint store_loop (n : nat) (pagesize start flag : Z) : prog Z :=
  match n with
  | O => Ret flag
  | S n =>
      store start (chr "Z");;
      flag ← check_page_size start pagesize;
      if flag =? 0 then Ret flag else store_loop n pagesize (u64 (start + PAGE_SIZE)) flag
  end.
Fixpoint load_loop (n : nat) (pagesize start flag : Z) : prog Z :=
  match n with
  | O => Ret flag
  | S n =>
      ch ← load start;
      flag ← check_page_size start pagesize;
      if flag =? 0 then Ret 1 else load_loop n pagesize (u64 (start + PAGE_SIZE)) 0
  end.
(** The number of rounds of [while (start < end) { ... start += PAGE_SIZE; }]. *)
Definition page_rounds (bytes : Z) : nat := Z.to_nat (bytes / PAGE_SIZE).

Definition rw : Z := PROT_READ .| PROT_WRITE.
Definition anonymous : Z := MAP_PRIVATE .| MAP_ANONYMOUS.
Definition INVALID_PAGE_SIZE : verdict := Some "invalid page size?".
Definition OVERFLOW : verdict := Some "address overflow.".

(** *** mmap: 000, 001, 008, 009, 010

    The run and the teardown, which share the static variable [addr]. *)
Definition touch_aligned (addr length size : Z) : prog verdict :=
  let start := align_up addr size in
  let end_ := u64 (start + length / 2) in
  TP_ASSERT start <? end_, OVERFLOW ;;
  flag ← store_loop (page_rounds (length / 2)) size start (-1);
  TP_ASSERT negb (flag =? 0), INVALID_PAGE_SIZE ;;
  Ret None.
Definition mmap_run (flags size : Z) : prog (Z * verdict) :=
  let length := 2 * size in
  addr ← mmap NULL length rw flags (-1) 0;
  if addr =? MAP_FAILED then Ret (addr, Some "mmap error.") else
  printf ("mmap=" +:+ pp addr +:+ nl);;
  v ← touch_aligned addr length size;
  Ret (addr, v).
Definition mmap_teardown (addr length : Z) : prog unit :=
  if negb (addr =? MAP_FAILED) then munmap addr length;; Ret tt else Ret tt.
Definition mmap_case (flags size : Z) : prog verdict :=
  '(addr, v) ← mmap_run flags size;
  mmap_teardown addr (2 * size);;
  Ret v.

(** The test cases for the largest pages do nothing unless the build flag is set. *)
Definition if_enabled (largest : bool) (p : prog verdict) : prog verdict := if largest then p else Ret None.

Definition mem_large_page_000 : prog verdict := mmap_case anonymous LARGE_PAGE_SIZE.
Definition mem_large_page_001 (largest : bool) : prog verdict :=
  if_enabled largest (mmap_case anonymous LARGEST_PAGE_SIZE).
Definition mem_large_page_008 : prog verdict := mmap_case (anonymous .| MAP_HUGETLB) LARGE_PAGE_SIZE.
Definition mem_large_page_009 : prog verdict :=
  mmap_case (anonymous .| MAP_HUGETLB .| Z.shiftl LARGE_PAGE_SHIFT MAP_HUGE_SHIFT) LARGE_PAGE_SIZE.
Definition mem_large_page_010 (largest : bool) : prog verdict :=
  if_enabled largest
    (mmap_case (anonymous .| MAP_HUGETLB .| Z.shiftl LARGEST_PAGE_SHIFT MAP_HUGE_SHIFT) LARGEST_PAGE_SIZE).

(** *** sbrk: 002, 003.  Both align the start to large pages. *)
Definition sbrk_run (increment : Z) : prog (Z * verdict) :=
  before ← sbrk 0;
  printf ("sbrk(0)=" +:+ pp before +:+ nl);;
  if before =? MAP_FAILED then Ret (before, Some "sbrk error.") else
  let aligned_addr := align_up before LARGE_PAGE_SIZE in
  sbrk (s64 (aligned_addr - before));;
  addr ← sbrk increment;
  printf ("sbrk=" +:+ pp addr +:+ nl);;
  if negb (addr =? aligned_addr) then Ret (before, Some "sbrk error.") else
  if negb (addr <? u64 (addr + increment)) then Ret (before, OVERFLOW) else
  flag ← store_loop (page_rounds increment) increment addr (-1);
  Ret (before, if negb (flag =? 0) then None else INVALID_PAGE_SIZE).
Definition sbrk_teardown (before : Z) : prog unit :=
  if negb (before =? MAP_FAILED) then brk before;; Ret tt else Ret tt.
Definition sbrk_case (increment : Z) : prog verdict :=
  '(before, v) ← sbrk_run increment;
  sbrk_teardown before;;
  Ret v.
Definition mem_large_page_002 : prog verdict := sbrk_case LARGE_PAGE_SIZE.
Definition mem_large_page_003 (largest : bool) : prog verdict := if_enabled largest (sbrk_case LARGEST_PAGE_SIZE).

(** *** A mapped file: 004.  Its pages must be small. *)
Record file_vars := FileVars { fv_path : option string; fv_fd : Z; fv_addr : Z }.
Definition file_run (length : Z) : prog (file_vars * verdict) :=
  file_path ← test_mck_create_temp_file "mem_large_page_004" length;
  if bool_decide (file_path = None) then Ret (FileVars None (-1) MAP_FAILED, Some "create temp file error.") else
  fd ← open (default "" file_path) O_RDONLY;
  if fd =? -1 then Ret (FileVars file_path fd MAP_FAILED, Some "file open error.") else
  addr ← mmap NULL length PROT_READ MAP_PRIVATE fd 0;
  if addr =? MAP_FAILED then Ret (FileVars file_path fd addr, Some "mmap error.") else
  printf ("mmap=" +:+ pp addr +:+ nl);;
  let start := align_up addr LARGE_PAGE_SIZE in
  let end_ := u64 (start + length / 2) in
  if negb (start <? end_) then Ret (FileVars file_path fd addr, OVERFLOW) else
  flag ← load_loop (page_rounds (length / 2)) PAGE_SIZE start 0;
  Ret (FileVars file_path fd addr, if flag =? 0 then None else Some "invalid page size.").
Definition file_teardown (length : Z) (v : file_vars) : prog unit :=
  (if negb (fv_addr v =? MAP_FAILED) then munmap (fv_addr v) length;; Ret tt else Ret tt);;
  (if negb (fv_fd v =? -1) then close (fv_fd v);; Ret tt else Ret tt);;
  test_mck_delete_temp_file (fv_path v).
Definition mem_large_page_004 : prog verdict :=
  let length := 2 * LARGE_PAGE_SIZE in
  '(vars, v) ← file_run length;
  file_teardown length vars;;
  Ret v.

(** *** Shared memory: 005, 006, 007 *)
Fixpoint shm_fill (n : nat) (shmaddr step i : Z) : prog unit :=
  match n with
  | O => Ret tt
  | S n => store (u64 (shmaddr + i)) (u8 i);; shm_fill n shmaddr step (i + step)
  end.
Definition shm_run (size pgsize_log step : Z) : prog (Z * Z * verdict) :=
  let length := size * 2 in
  shmid ← shmget IPC_PRIVATE length (s32 (pgsize_log .| SHM_HUGETLB .| IPC_CREAT .| SHM_R .| SHM_W));
  if negb (0 <=? shmid) then Ret (shmid, NULL, Some "shmget error.") else
  printf ("shmid: 0x" +:+ hex (u32 shmid) +:+ nl);;
  shmaddr ← shmat shmid NULL 0;
  if shmaddr =? MAP_FAILED then Ret (shmid, shmaddr, Some "shmgat error.") else
  printf ("shmaddr: " +:+ pp shmaddr +:+ nl);;
  shm_fill (Z.to_nat (length / step)) shmaddr step 0;;
  flag ← check_page_size shmaddr size;
  Ret (shmid, shmaddr, if negb (flag =? 0) then None else INVALID_PAGE_SIZE).
Definition shm_teardown (shmid shmaddr : Z) : prog unit :=
  (if negb (shmaddr =? NULL) then shmdt shmaddr;; Ret tt else Ret tt);;
  (if 0 <=? shmid then shmctl shmid IPC_RMID;; Ret tt else Ret tt).
Definition shm_case (size pgsize_log step : Z) : prog verdict :=
  '(shmid, shmaddr, v) ← shm_run size pgsize_log step;
  shm_teardown shmid shmaddr;;
  Ret v.
Definition mem_large_page_005 : prog verdict := shm_case LARGE_PAGE_SIZE 0 PAGE_SIZE.
Definition mem_large_page_006 : prog verdict :=
  shm_case LARGE_PAGE_SIZE (Z.shiftl LARGE_PAGE_SHIFT MAP_HUGE_SHIFT) PAGE_SIZE.
Definition mem_large_page_007 (largest : bool) : prog verdict :=
  if_enabled largest (shm_case LARGEST_PAGE_SIZE (Z.shiftl LARGEST_PAGE_SHIFT MAP_HUGE_SHIFT) LARGE_PAGE_SIZE).

End texts.

(** ** mem_limits

    The loops of this suite end only when memory does, unless [-c] gives a count: [fuel] bounds the
    number of rounds, and [None] is a run that is not over. *)
Inductive mem_limits_function : Set :=
| MEM_LIMITS_FN_NULL | MEM_LIMITS_FN_MALLOC | MEM_LIMITS_FN_MMAP | MEM_LIMITS_FN_BRK.
#[global] Instance mem_limits_function_eq_dec : EqDecision mem_limits_function.
Proof. solve_decision. Defined.
Definition MEM_LIMITS_COUNT_INFINITE : Z := -1.
Record mem_limits_args := LimArgs { fn : mem_limits_function; size : Z; count : Z }.

Definition str2func (str : string) : mem_limits_function :=
  if String.eqb "malloc" str then MEM_LIMITS_FN_MALLOC
  else if String.eqb "mmap" str then MEM_LIMITS_FN_MMAP
  else if String.eqb "brk" str then MEM_LIMITS_FN_BRK
  else MEM_LIMITS_FN_NULL.

(** One option; [strtoull] and [strtoll] with base 10. *)
Definition mem_limits_opt (c : ascii) (optarg : string) (a : mem_limits_args) : mem_limits_args :=
  if Ascii.eqb c "f" then LimArgs (str2func optarg) (size a) (count a)
  else if Ascii.eqb c "s" then LimArgs (fn a) (c_value (strtoul optarg 10)) (count a)
  else if Ascii.eqb c "c" then LimArgs (fn a) (size a) (c_value (strtoll optarg 10))
  else if Ascii.eqb c "S" then if String.eqb optarg "mmap" then LimArgs (fn a) MMAP_AREA_SIZE (count a) else a
  else a.
Fixpoint mem_limits_opts (evs : list opt_event) (a : mem_limits_args) : prog mem_limits_args :=
  match evs with
  | [] => Ret a
  | Opt c (Some optarg) :: evs => mem_limits_opts evs (mem_limits_opt c optarg a)
  | Opt _ None :: evs => mem_limits_opts evs a
  | Bad msg :: evs => fprintf_stderr msg;; mem_limits_opts evs a
  end.
Definition mem_limits_setup (tc_argv : list string) : prog mem_limits_args :=
  mem_limits_opts
    (events (scan (default "" (tc_argv !! 0%nat)) [("f"%char, true); ("s"%char, true); ("c"%char, true); ("S"%char, true)]
               [] (drop 1 tc_argv))) (LimArgs MEM_LIMITS_FN_NULL 0 MEM_LIMITS_COUNT_INFINITE).

(** [for (off = 0; off < size; off += PAGE_SIZE) *(p + off) = 'Z';] *)
Fixpoint touch (fuel : nat) (p size off : Z) : prog (option unit) :=
  if off <? size then
    match fuel with
    | O => Ret None
    | S fuel => store (u64 (p + off)) (chr "Z");; touch fuel p size (u64 (off + PAGE_SIZE))
    end
  else Ret (Some tt).

(** The loop the three functions share; [alloc] yields a block or a message. *)
Fixpoint limit_loop (alloc : prog (string + Z)) (fuel : nat) (size count i : Z) : prog (option verdict) :=
  if (i <? count) || (count =? MEM_LIMITS_COUNT_INFINITE) then
    match fuel with
    | O => Ret None
    | S n =>
        r ← alloc;
        match r with
        | inl msg => Ret (Some (Some msg))
        | inr p =>
            t ← touch n p size 0;
            match t with None => Ret None | Some _ => limit_loop alloc n size count (s64 (i + 1)) end
        end
    end
  else Ret (Some None).

Definition alloc_malloc (size : Z) : prog (string + Z) :=
  r ← malloc size; Ret (match r with None => inl "out of memory.(malloc)"%string | Some (p, _) => inr p end).
Definition alloc_mmap (size : Z) : prog (string + Z) :=
  p ← mmap NULL size PROT_WRITE (MAP_PRIVATE .| MAP_ANONYMOUS .| MAP_POPULATE) (-1) 0;
  Ret (if p =? MAP_FAILED then inl "out of memory.(mmap)"%string else inr p).
Definition alloc_brk (size : Z) : prog (string + Z) :=
  old ← sbrk 0;
  if old =? MAP_FAILED then Ret (inl "sbrk error."%string) else
  p ← sbrk (s64 size);
  if p =? MAP_FAILED then Ret (inl "out of memory.(brk)"%string) else
  new ← sbrk 0;
  if new =? MAP_FAILED then Ret (inl "sbrk error."%string) else
  if negb (new =? u64 (old + size)) then Ret (inl "sbrk error.(size)"%string) else
  Ret (inr p).

Definition do_malloc (fuel : nat) (size count : Z) := limit_loop (alloc_malloc size) fuel size count 0.
Definition do_mmap (fuel : nat) (size count : Z) := limit_loop (alloc_mmap size) fuel size count 0.
Definition do_brk (fuel : nat) (size count : Z) := limit_loop (alloc_brk size) fuel size count 0.

Definition mem_limits_run (fuel : nat) (args : mem_limits_args) : prog (option verdict) :=
  if bool_decide (fn args = MEM_LIMITS_FN_NULL) then Ret (Some (Some "invalid parameter(-f)."%string)) else
  if size args =? 0 then Ret (Some (Some "invalid paramter(-s)."%string)) else
  if negb ((0 <=? count args) || (count args =? MEM_LIMITS_COUNT_INFINITE))
  then Ret (Some (Some "invalid paramter(-c)."%string)) else
  match fn args with
  | MEM_LIMITS_FN_MALLOC => do_malloc fuel (size args) (count args)
  | MEM_LIMITS_FN_MMAP => do_mmap fuel (size args) (count args)
  | MEM_LIMITS_FN_BRK => do_brk fuel (size args) (count args)
  | MEM_LIMITS_FN_NULL => Ret (Some (Some "internal error."%string))
  end.

(** ** mem_stack_limits *)

Record units := Units { gib : Z; mib : Z; kib : Z }.

(** [*gib] times [tmp_size -= 0x40000000]; the products are ints. *)
Definition value_to_unit (value : Z) : units :=
  let gib := s32 (value / 0x40000000) in
  let tmp_size := u64 (value - Z.max 0 gib * 0x40000000) in
  let mib := s32 (tmp_size / 0x100000) in
  let tmp_size := u64 (tmp_size - s32 (mib * 0x100000)) in
  Units gib mib (s32 (tmp_size / 0x400)).

(** A frame on the stack: the bytes of its array. *)
Definition ULONG_1KiB_COUNT : Z := 0x80.
Definition ULONG_1MiB_COUNT : Z := 0x20000.
Definition ULONG_1GiB_COUNT : Z := 0x8000000.
Definition frame (ulongs : Z) : Z := ulongs * 8.

(** The offsets the loop of a frame writes to, one in each page. *)
Definition frame_touches (bytes : Z) : list Z := (fun i => i * PAGE_SIZE) <$> seqZ 0 ((bytes + PAGE_SIZE - 1) / PAGE_SIZE).

(** [stack_limit_func] and the three functions it calls and that call it: the frames that are on the
    stack at the deepest point, outermost first, and the counters then.  A counter that is not 0 asks
    for a frame. *)
Fixpoint stack_limit_func (fuel : nat) (c : units) : option (list Z * units) :=
  match fuel with
  | O => None
  | S fuel =>
      if negb (gib c =? 0) then
        '(fs, c) ← stack_limit_func fuel (Units (s32 (gib c - 1)) (mib c) (kib c)); Some (frame ULONG_1GiB_COUNT :: fs, c)
      else if negb (mib c =? 0) then
        '(fs, c) ← stack_limit_func fuel (Units (gib c) (s32 (mib c - 1)) (kib c)); Some (frame ULONG_1MiB_COUNT :: fs, c)
      else if negb (kib c =? 0) then
        '(fs, c) ← stack_limit_func fuel (Units (gib c) (mib c) (s32 (kib c - 1))); Some (frame ULONG_1KiB_COUNT :: fs, c)
      else Some ([], c)
  end.

Definition say_units (u : units) : string :=
  pretty (gib u) +:+ " GiB + " +:+ pretty (mib u) +:+ " MiB + " +:+ pretty (kib u) +:+ " KiB".

(** [first_sp] and [last_sp] are the stack pointers the code reads, which depend on the compiler;
    [last_sp] is that of the deepest frame, 0 when there is none. *)
Definition mem_stack_limits_run (first_sp : Z) (sp_below : list Z -> Z) (fuel : nat) (size : Z) : prog (option verdict) :=
  if size =? 0 then Ret (Some (Some "invalid parameter.(-s is zero)"%string)) else
  let counts := value_to_unit size in
  printf ("call: " +:+ say_units counts +:+ nl);;
  match stack_limit_func fuel counts with
  | None => Ret None
  | Some (frames, _) =>
      let last_sp := if bool_decide (frames = []) then 0 else sp_below frames in
      let used_stack := u64 (first_sp - last_sp) in
      printf ("used_stack size: " +:+ pretty (s64 used_stack) +:+ " (" +:+ say_units (value_to_unit used_stack) +:+ ")" +:+ nl);;
      Ret (Some None)
  end.

Fixpoint stack_limits_opts (evs : list opt_event) (size : Z) : prog Z :=
  match evs with
  | [] => Ret size
  | Opt "s" (Some optarg) :: evs => stack_limits_opts evs (c_value (strtoul optarg 10))
  | Opt _ _ :: evs => stack_limits_opts evs size
  | Bad msg :: evs => fprintf_stderr msg;; stack_limits_opts evs size
  end.
Definition mem_stack_limits_setup (tc_argv : list string) : prog Z :=
  stack_limits_opts (events (scan (default "" (tc_argv !! 0%nat)) [("s"%char, true)] [] (drop 1 tc_argv))) 0.

End LargeMem.
