(* ===== verification/LargeMemProofs.v ===== *)
(** * What the suites on large pages and memory limits show

    [large_page_pass_evidence]: what a passing test case of mem_large_page has seen, on any kernel;
    [large_page_vacuous]: four of them see nothing unless they are built with a flag;
    [mem_limits_allocations]: the allocations of a run of mem_limits that passes; and the arithmetic of
    mem_stack_limits. *)
From S2P Require Import Prelude CMachine Align Libc FileMap TestMck MemFile LargeMem Ledger Script.
Import Align Libc FileMap TestMck MemFile LargeMem Ledger Script.
#[local] Open Scope Z_scope.

Module LargeMemProofs.

(** ** Scripts *)

(** The pagemap of the process says that the page at [va] has [pagesize] bytes. *)
Definition has_page_size (va pagesize : Z) (next : script) : script :=
  Saw SYS_getpid (fun _ => True) (fun pid =>
  Saw (SYS_open (pagemap_path pid) O_RDONLY) (fun fd => is_error fd = false) (fun fd =>
  Saw (SYS_lseek fd (pagemap_offset va) SEEK_SET) (fun off => is_error off = false) (fun _ =>
  Saw (SYS_read fd 8) (fun r => is_error r.1 = false /\ pagemap_psize (little_endian (take 8 r.2)) = pagesize)
    (fun _ => next)))).

(** [n] pages are touched in order, each is then seen to be part of a page of [pagesize] bytes. *)
Fixpoint pages_stored (n : nat) (pagesize start : Z) : script :=
  match n with
  | O => Done
  | S n => Saw (MEM_store start (chr "Z")) (fun r => r = Ok tt) (fun _ =>
           has_page_size start pagesize (pages_stored n pagesize (u64 (start + PAGE_SIZE))))
  end.
Fixpoint pages_loaded (n : nat) (pagesize start : Z) : script :=
  match n with
  | O => Done
  | S n => Saw (MEM_load start) (fun r => exists v, r = Ok v) (fun _ =>
           has_page_size start pagesize (pages_loaded n pagesize (u64 (start + PAGE_SIZE))))
  end.

Definition mmap_script (flags size : Z) : script :=
  Saw (SYS_mmap NULL (2 * size) rw flags (-1) 0) (fun a => is_error a = false) (fun a =>
  pages_stored (page_rounds (2 * size / 2)) size (align_up (u64 a) size)).
Definition sbrk_script (size : Z) : script :=
  Saw (LIBC_sbrk 0) (fun b => is_error b = false) (fun b =>
  let start := align_up (u64 b) LARGE_PAGE_SIZE in
  Saw (LIBC_sbrk size) (fun a => is_error a = false /\ u64 a = start) (fun _ =>
  pages_stored (page_rounds size) size start)).
Definition file_script : script :=
  Saw (LIBC_asprintf "mem_large_page_004-XXXXXX") (fun t => is_Some t) (fun t =>
  Saw (LIBC_mkstemp (default "" t)) (fun r => is_error r.1 = false) (fun r =>
  Saw (SYS_open r.2 O_RDONLY) (fun fd => is_error fd = false) (fun fd =>
  Saw (SYS_mmap NULL (2 * LARGE_PAGE_SIZE) PROT_READ MAP_PRIVATE fd 0) (fun a => is_error a = false) (fun a =>
  pages_loaded (page_rounds (2 * LARGE_PAGE_SIZE / 2)) PAGE_SIZE (align_up (u64 a) LARGE_PAGE_SIZE))))).
(** [n] bytes are stored in order, [step] apart, each without a fault. *)
Fixpoint shm_filled (n : nat) (shmaddr step i : Z) (next : script) : script :=
  match n with
  | O => next
  | S n => Saw (MEM_store (u64 (shmaddr + i)) (u8 i)) (fun r => r = Ok tt) (fun _ =>
           shm_filled n shmaddr step (i + step) next)
  end.
Definition shm_script (size pgsize_log step : Z) : script :=
  Saw (SYS_shmget IPC_PRIVATE (size * 2) (s32 (pgsize_log .| SHM_HUGETLB .| IPC_CREAT .| SHM_R .| SHM_W)))
    (fun id => 0 <= id) (fun id =>
  Saw (SYS_shmat id NULL 0) (fun a => is_error a = false) (fun a =>
  shm_filled (Z.to_nat (size * 2 / step)) (u64 a) step 0 (has_page_size (u64 a) size Done))).

(** ** Rules *)

Lemma run_lseek {A} fd off wh (k : Z -> prog A) e tr o e' :
  run (lseek fd off wh ≫= k) e tr o e' ->
  exists r tr', tr = ev (SYS_lseek fd off wh) r :: tr' /\ run (k (ret_int r)) (errno_after e r) tr' o e'.
Proof. follow_wrapper. Qed.

Lemma run_read {A} fd len (k : Z * list Z -> prog A) e tr o e' :
  run (read fd len ≫= k) e tr o e' ->
  exists r data tr', tr = ev (SYS_read fd len) (r, data) :: tr' /\ run (k (ret_int r, data)) (errno_after e r) tr' o e'.
Proof.
  intros ([r data] & tr' & -> & H). exists r, data, tr'. split; [done|].
  unfold ret_int, errno_after, syscall_ret in *. cbn in H. by destruct (is_error r).
Qed.

(** What is printed between a failure and the result 0 is no proof of a result 1. *)
Lemma sees_failed what s : sees (say_failed what;; Ret 0) 1 s.
Proof. apply sees_bind. intros u. by apply sees_ret_other. Qed.

(** [check_page_size] returns 1 only for the size it saw. *)
Lemma check_page_size_sees va pagesize : sees (check_page_size va pagesize) 1 (has_page_size va pagesize Done).
Proof.
  intros e tr e' (pid & tr1 & -> & H). apply follows_saw; [done|]. cbv zeta in H.
  apply run_open in H as (fd & tr2 & -> & H).
  destruct (ret_int fd =? -1) eqn:Ef; [exact (follows_cons _ _ _ (sees_failed _ _ _ _ _ H))|].
  apply ret_int_ok in Ef as [Ef Ef']. rewrite Ef' in H. apply follows_saw; [done|].
  apply run_lseek in H as (off & tr3 & -> & H).
  apply run_bind_returned in H as (ret & e1 & tr4 & tr5 & H & Hc & ->).
  assert (ret = 1) as ->.
  { apply run_bind_returned in Hc as (st & e2 & tr6 & tr7 & _ & Hc & ->).
    apply run_bind_returned in Hc as (u & e3 & tr8 & tr9 & _ & (_ & [= ->] & _) & ->). done. }
  clear Hc. change (follows (Saw (SYS_lseek fd (pagemap_offset va) SEEK_SET) (fun off => is_error off = false)
    (fun _ => Saw (SYS_read fd 8) (fun r => is_error r.1 = false /\ pagemap_psize (little_endian (take 8 r.2)) = pagesize)
    (fun _ => Done))) ((ev (SYS_lseek fd (pagemap_offset va) SEEK_SET) off :: tr4) ++ tr5)).
  apply follows_more.
  destruct (ret_int off =? -1) eqn:Eo; [exact (follows_cons _ _ _ (sees_failed _ _ _ _ _ H))|].
  apply ret_int_ok in Eo as [Eo _]. apply follows_saw; [done|].
  apply run_read in H as (r & data & tr6 & -> & H). cbv beta iota zeta in H.
  destruct (ret_int r =? -1) eqn:Er; [exact (follows_cons _ _ _ (sees_failed _ _ _ _ _ H))|].
  apply ret_int_ok in Er as [Er _].
  destruct (Z.eqb_spec (pagemap_psize (little_endian (take 8 data))) pagesize) as [Ep|Ep]; [by apply follows_saw|].
  apply run_bind_returned in H as (u & e2 & tr7 & tr8 & _ & (_ & [=] & _) & _).
Qed.

Lemma check_page_size_result va pagesize e tr f e' :
  run (check_page_size va pagesize) e tr (Returned f) e' -> f = 0 \/ f = 1.
Proof.
  intros (pid & tr1 & -> & H). cbv zeta in H. apply run_open in H as (fd & tr2 & -> & H).
  destruct (ret_int fd =? -1).
  { apply run_bind_returned in H as (u & e1 & tr3 & tr4 & _ & (_ & [= ->] & _) & _). by left. }
  apply run_lseek in H as (off & tr3 & -> & H).
  apply run_bind_returned in H as (ret & e1 & tr4 & tr5 & H & Hc & ->).
  assert (ret = f) as ->.
  { apply run_bind_returned in Hc as (st & e2 & tr6 & tr7 & _ & Hc & ->).
    apply run_bind_returned in Hc as (u & e3 & tr8 & tr9 & _ & (_ & [= ->] & _) & ->). done. }
  clear Hc. destruct (ret_int off =? -1).
  { apply run_bind_returned in H as (u & e2 & tr6 & tr7 & _ & (_ & [= ->] & _) & _). by left. }
  apply run_read in H as (r & data & tr6 & -> & H). cbv beta iota zeta in H.
  destruct (ret_int r =? -1).
  { apply run_bind_returned in H as (u & e2 & tr7 & tr8 & _ & (_ & [= ->] & _) & _). by left. }
  destruct (_ =? pagesize); [destruct H as (_ & [= ->] & _); by right|].
  apply run_bind_returned in H as (u & e2 & tr7 & tr8 & _ & (_ & [= ->] & _) & _). by left.
Qed.

(** The check and what follows it, when that does not accept a 0. *)
Lemma sees_page_check {A} (a : A) va pagesize (k : Z -> prog A) s :
  (forall s', sees (k 0) a s') -> sees (k 1) a s -> sees (check_page_size va pagesize ≫= k) a (has_page_size va pagesize s).
Proof.
  intros H0 H1 e tr e' H. apply run_bind_returned in H as (f & e1 & tr1 & tr2 & Hf & H & ->).
  change (has_page_size va pagesize s) with (andthen (has_page_size va pagesize Done) s).
  destruct (check_page_size_result _ _ _ _ _ _ Hf) as [-> | ->].
  - apply follows_skip, (H0 _ _ _ _ H).
  - apply follows_andthen; [apply (check_page_size_sees _ _ _ _ _ Hf)|apply (H1 _ _ _ H)].
Qed.

Lemma sees_store {A} (a : A) addr v (k : unit -> prog A) s :
  sees (k tt) a s -> sees (store addr v ≫= k) a (Saw (MEM_store addr v) (fun r => r = Ok tt) (fun _ => s)).
Proof.
  intros Hk e tr e' (r & tr' & -> & H). destruct r as [[]|sig d]; [|by destruct H as (_ & [=] & _)].
  apply follows_saw; [done|]. by eapply Hk.
Qed.

Lemma sees_load {A} (a : A) addr (k : Z -> prog A) s :
  (forall v, sees (k v) a s) -> sees (load addr ≫= k) a (Saw (MEM_load addr) (fun r => exists v, r = Ok v) (fun _ => s)).
Proof.
  intros Hk e tr e' (r & tr' & -> & H). destruct r as [v|sig d]; [|by destruct H as (_ & [=] & _)].
  apply follows_saw; [by exists v|]. exact (Hk v _ _ _ H).
Qed.

Lemma store_loop_sees n pagesize start flag f :
  f <> 0 -> sees (store_loop n pagesize start flag) f (pages_stored n pagesize start).
Proof.
  intros Hf. revert start flag. induction n as [|n IH]; intros start flag; [apply sees_done|].
  cbn [store_loop pages_stored]. apply sees_store, sees_page_check; [|apply IH].
  intros s'. apply sees_ret_other. lia.
Qed.

Lemma load_loop_sees n pagesize start : sees (load_loop n pagesize start 0) 0 (pages_loaded n pagesize start).
Proof.
  revert start. induction n as [|n IH]; intros start; [apply sees_done|].
  cbn [load_loop pages_loaded]. apply sees_load. intros v. apply sees_page_check; [|apply IH].
  intros s'. by apply sees_ret_other.
Qed.

(** ** The test cases *)

(** A test case is its run and its teardown; the run decides. *)
Lemma sees_case {S} (p : prog (S * verdict)) (teardown : S -> prog unit) s :
  (forall st, sees p (st, None) s) -> sees ('(st, v) ← p; teardown st;; Ret v) None s.
Proof.
  intros Hp e tr e' H. apply run_bind_returned in H as ([st v] & e1 & tr1 & tr2 & H1 & H2 & ->).
  apply run_bind_returned in H2 as (u & e2 & tr3 & tr4 & _ & (_ & [= <-] & _) & _).
  apply follows_more. exact (Hp st _ _ _ H1).
Qed.

Lemma sees_pointer {A} (a : A) c (r : reply c -> Z) (k : Z -> prog A) (P : reply c -> Prop) next :
  (forall s, sees (k MAP_FAILED) a s) ->
  (forall x, is_error (r x) = false -> (u64 (r x) =? MAP_FAILED) = false -> 
    P x /\ sees (k (u64 (r x))) a (next x) \/ forall s, sees (k (u64 (r x))) a s) ->
  sees ((x ← trigger c; syscall_ptr (r x)) ≫= k) a (Saw c P next).
Proof.
  intros Hf Hk e tr e' (x & tr' & -> & H). assert (run (k (ret_ptr (r x))) (errno_after e (r x)) tr' (Returned a) e') as H'.
  { unfold ret_ptr, ret_int, errno_after, syscall_ptr, syscall_ret in *. cbn in H. by destruct (is_error (r x)). }
  clear H. destruct (ret_ptr (r x) =? MAP_FAILED) eqn:E.
  - apply Z.eqb_eq in E. rewrite E in H'. exact (follows_cons _ _ _ (Hf _ _ _ _ H')).
  - pose proof (ret_ptr_ok _ E) as [Er Eu]. rewrite Eu in E, H'. destruct (Hk x Er E) as [[HP Hs]|Hs].
    + apply follows_saw; [done|]. exact (Hs _ _ _ H').
    + exact (follows_cons _ _ _ (Hs _ _ _ _ H')).
Qed.

Section texts.
Context (pp : Z -> string).

Lemma touch_aligned_sees addr length size :
  sees (touch_aligned addr length size) None (pages_stored (page_rounds (length / 2)) size (align_up addr size)).
Proof.
  unfold touch_aligned. cbv zeta. apply sees_if; intros _; [|by apply sees_ret_other].
  intros e tr e' H. apply run_bind_returned in H as (f & e1 & tr1 & tr2 & H1 & H2 & ->). apply follows_more.
  apply (store_loop_sees _ _ _ (-1) f) in H1; [done|]. intros ->. by destruct H2 as (_ & [=] & _).
Qed.

Lemma mmap_case_sees flags size : sees (mmap_case pp flags size) None (mmap_script flags size).
Proof.
  apply sees_case. intros addr. unfold mmap_run, mmap_script. cbv zeta. unfold mmap.
  apply (sees_pointer _ (SYS_mmap NULL (2 * size) rw flags (-1) 0) (fun r => r)); [intros s; by apply sees_ret_other|].
  intros r Er Eu. left. split; [done|]. rewrite Eu. apply sees_printf.
  intros e tr e' H. apply run_bind_returned in H as (v & e1 & tr1 & tr2 & H1 & (_ & [= _ <-] & _) & ->).
  apply follows_more. exact (touch_aligned_sees _ _ _ _ _ _ H1).
Qed.

Lemma aligned_not_failed a : (MAP_FAILED =? align_up a LARGE_PAGE_SIZE) = false.
Proof.
  apply Z.eqb_neq. intros E. apply (f_equal (fun x => Z.testbit x 0)) in E. unfold align_up, align_down in E.
  rewrite Z.land_spec, andb_false_r in E. done.
Qed.

Lemma sbrk_case_sees size : sees (sbrk_case pp size) None (sbrk_script size).
Proof.
  apply sees_case. intros before. unfold sbrk_run, sbrk_script. unfold sbrk at 1.
  apply (sees_pointer _ (LIBC_sbrk 0) (fun r => r)).
  { intros s. apply sees_printf. by apply sees_ret_other. }
  intros b Eb Ub. left. split; [done|]. apply sees_printf. rewrite Ub. cbv zeta. apply sees_bind. intros _. unfold sbrk.
  apply (sees_pointer _ (LIBC_sbrk size) (fun r => r)).
  { intros s. apply sees_printf. rewrite aligned_not_failed. by apply sees_ret_other. }
  intros a Ea Ua. destruct (Z.eqb_spec (u64 a) (align_up (u64 b) LARGE_PAGE_SIZE)) as [E|E]; cbn [negb].
  - left. split; [done|]. apply sees_printf. apply sees_if; intros _; [by apply sees_ret_other|]. rewrite E.
    intros e tr e' H. apply run_bind_returned in H as (f & e1 & tr1 & tr2 & H1 & H2 & ->). apply follows_more.
    apply (store_loop_sees _ _ _ (-1) f) in H1; [done|]. intros ->. by destruct H2 as (_ & [=] & _).
  - right. intros s. apply sees_printf. by apply sees_ret_other.
Qed.

Lemma sees_shm_fill n shmaddr step i (k : unit -> prog (Z * Z * verdict)) a s :
  sees (k tt) a s -> sees (shm_fill n shmaddr step i ≫= k) a (shm_filled n shmaddr step i s).
Proof.
  intros Hk. revert i. induction n as [|n IH]; intros i; [exact Hk|].
  intros e tr e' (r & tr' & -> & H). destruct r as [[]|sig d]; [|by destruct H as (_ & [=] & _)].
  apply follows_saw; [done|]. exact (IH _ _ _ _ H).
Qed.

Lemma shm_case_sees size pgsize_log step : sees (shm_case pp size pgsize_log step) None (shm_script size pgsize_log step).
Proof.
  unfold shm_case. intros e tr e' H. apply run_bind_returned in H as ([[shmid shmaddr] v] & e1 & tr1 & tr2 & H & H2 & ->).
  apply run_bind_returned in H2 as (u & e2 & tr3 & tr4 & _ & (_ & [= <-] & _) & _). apply follows_more.
  destruct H as (id & tr0 & -> & H). assert (run (
    if negb (0 <=? ret_int id) then Ret (ret_int id, NULL, Some "shmget error."%string) else
    printf ("shmid: 0x" +:+ hex (u32 (ret_int id)) +:+ nl);;
    shmaddr ← shmat (ret_int id) NULL 0;
    if shmaddr =? MAP_FAILED then Ret (ret_int id, shmaddr, Some "shmgat error."%string) else
    printf ("shmaddr: " +:+ pp shmaddr +:+ nl);;
    shm_fill (Z.to_nat (size * 2 / step)) shmaddr step 0;;
    flag ← check_page_size shmaddr size;
    Ret (ret_int id, shmaddr, if negb (flag =? 0) then None else INVALID_PAGE_SIZE))
    (errno_after e id) tr0 (Returned (shmid, shmaddr, None)) e1) as H'.
  { unfold ret_int, errno_after, syscall_ret in *. cbn in H. by destruct (is_error id). }
  clear H. destruct (Z.leb_spec 0 (ret_int id)) as [Hid|Hid]; [|by destruct H' as (_ & [=] & _)]. cbn [negb] in H'.
  assert (is_error id = false /\ ret_int id = id) as [Ei Ei'].
  { unfold ret_int in *. by destruct (is_error id). }
  rewrite Ei' in *. apply follows_saw; [done|]. by_sees H'. apply sees_printf.
  apply (sees_pointer _ (SYS_shmat id NULL 0) (fun r => r)); [intros s; by apply sees_ret_other|].
  intros a Ea Ua. left. split; [done|]. rewrite Ua. apply sees_printf, sees_shm_fill.
  apply sees_page_check; [|apply sees_done]. intros s. by apply sees_ret_other.
Qed.

Lemma run_mkstemp {A} t (k : Z * string -> prog A) e tr o e' :
  run (mkstemp t ≫= k) e tr o e' ->
  exists r path tr', tr = ev (LIBC_mkstemp t) (r, path) :: tr' /\ run (k (ret_int r, path)) (errno_after e r) tr' o e'.
Proof.
  intros ([r path] & tr' & -> & H). exists r, path, tr'. split; [done|].
  unfold ret_int, errno_after, syscall_ret in *. cbn in H. by destruct (is_error r).
Qed.

(** The path of a new temporary file is the one mkstemp made. *)
Definition temp_file_script (prefix path : string) : script :=
  Saw (LIBC_asprintf (prefix +:+ "-XXXXXX")) (fun t => is_Some t) (fun t =>
  Saw (LIBC_mkstemp (default "" t)) (fun r => is_error r.1 = false /\ r.2 = path) (fun _ => Done)).
Lemma create_temp_file_sees prefix size path :
  sees (test_mck_create_temp_file prefix size) (Some path) (temp_file_script prefix path).
Proof.
  intros e tr e' (t & tr1 & -> & H). destruct t as [t|]; [|by destruct H as (_ & [=] & _)].
  apply follows_saw; [done|]. apply run_mkstemp in H as (r & p & tr2 & -> & H). cbv beta iota in H.
  destruct (ret_int r =? -1) eqn:Er.
  { apply run_bind_returned in H as (u & e1 & tr3 & tr4 & _ & (_ & [=] & _) & _). }
  apply ret_int_ok in Er as [Er _]. apply follows_saw; [|done]. split; [done|]. cbn [snd].
  apply run_bind_returned in H as (st & e1 & tr3 & tr4 & _ & H & _). destruct (s32 st =? -1).
  - do 3 apply run_bind_returned in H as (? & ? & ? & ? & _ & H & _). by destruct H as (_ & [=] & _).
  - do 3 apply run_bind_returned in H as (? & ? & ? & ? & _ & H & _). by destruct H as (_ & [=] & _).
Qed.

Lemma file_case_sees : sees (mem_large_page_004 pp) None file_script.
Proof.
  apply sees_case. intros vars. unfold file_run. intros e tr e' H.
  apply run_bind_returned in H as (path & e1 & tr1 & tr2 & H1 & H & ->).
  destruct path as [path|]; [|by destruct H as (_ & [=] & _)]. apply create_temp_file_sees in H1.
  destruct H1 as (tr3 & t & tr4 & -> & Ht & H1). rewrite <- app_assoc. apply follows_skip. cbn [app].
  apply follows_saw; [done|]. destruct H1 as (tr5 & r & tr6 & -> & [Er Ep] & _).
  rewrite <- app_assoc. apply follows_skip. cbn [app]. apply follows_saw; [done|]. apply follows_skip. rewrite Ep.
  change (bool_decide (Some path = None)) with false in H. cbn [default] in H.
  apply run_open in H as (fd & tr7 & -> & H).
  destruct (ret_int fd =? -1) eqn:Ef; [by destruct H as (_ & [=] & _)|].
  apply ret_int_ok in Ef as [Ef Ef']. change (from_option id "" (Some path)) with path. rewrite Ef' in H.
  apply follows_saw; [done|]. by_sees H. unfold mmap.
  apply (sees_pointer _ (SYS_mmap NULL (2 * LARGE_PAGE_SIZE) PROT_READ MAP_PRIVATE fd 0) (fun r => r)); [intros s; by apply sees_ret_other|].
  intros a Ea Ua. left. split; [done|]. rewrite Ua. apply sees_printf. cbv zeta.
  apply sees_if; intros _; [by apply sees_ret_other|]. intros e2 tr8 e3 H.
  apply run_bind_returned in H as (f & e4 & tr9 & tr10 & H1 & H2 & ->). apply follows_more.
  destruct (Z.eqb_spec f 0) as [->|Hf]; [|by destruct H2 as (_ & [=] & _)]. exact (load_loop_sees _ _ _ _ _ _ H1).
Qed.

(** The test cases, built for the largest pages too, with their scripts. *)
Definition large_page_cases : list (prog verdict * script) :=
  [(mem_large_page_000 pp, mmap_script anonymous LARGE_PAGE_SIZE);
   (mem_large_page_001 pp true, mmap_script anonymous LARGEST_PAGE_SIZE);
   (mem_large_page_002 pp, sbrk_script LARGE_PAGE_SIZE); (mem_large_page_003 pp true, sbrk_script LARGEST_PAGE_SIZE);
   (mem_large_page_004 pp, file_script); (mem_large_page_005 pp, shm_script LARGE_PAGE_SIZE 0 PAGE_SIZE);
   (mem_large_page_006 pp, shm_script LARGE_PAGE_SIZE (Z.shiftl LARGE_PAGE_SHIFT MAP_HUGE_SHIFT) PAGE_SIZE);
   (mem_large_page_007 pp true, shm_script LARGEST_PAGE_SIZE (Z.shiftl LARGEST_PAGE_SHIFT MAP_HUGE_SHIFT) LARGE_PAGE_SIZE);
   (mem_large_page_008 pp, mmap_script (anonymous .| MAP_HUGETLB) LARGE_PAGE_SIZE);
   (mem_large_page_009 pp, mmap_script (anonymous .| MAP_HUGETLB .| Z.shiftl LARGE_PAGE_SHIFT MAP_HUGE_SHIFT) LARGE_PAGE_SIZE);
   (mem_large_page_010 pp true, mmap_script (anonymous .| MAP_HUGETLB .| Z.shiftl LARGEST_PAGE_SHIFT MAP_HUGE_SHIFT) LARGEST_PAGE_SIZE)].

End texts.

(** C22: Whatever the kernel replies, a passing test case of mem_large_page has done the following.  With a
    mapping (000, 001, 008 to 010) or the data segment (002, 003) it has touched every small page of an
    aligned block, and after each touch has read in the pagemap of the process that the page belongs to a
    large page; with a mapped file (004) it has seen small pages in the same way.  With shared memory
    (005 to 007) it has written one byte per small page (per large page in 007) of the whole segment
    without a fault, and has then seen that the first page is large; the others are not asked about.
    001, 003, 007 and 010 are those of a build with ENABLE_LARGEST_PAGE; without it they ask nothing
    and pass ([large_page_vacuous]). *)
Theorem large_page_pass_evidence pp p s e tr e' :
  (p, s) ∈ large_page_cases pp -> run p e tr (Returned None) e' -> follows s tr.
Proof.
  intros Hin H. by_sees H. unfold large_page_cases in Hin.
  repeat (apply elem_of_cons in Hin as [[= -> ->]|Hin];
    [cbv delta [mem_large_page_000 mem_large_page_001 mem_large_page_002 mem_large_page_003 mem_large_page_005
       mem_large_page_006 mem_large_page_007 mem_large_page_008 mem_large_page_009 mem_large_page_010 if_enabled] beta iota;
     lazymatch goal with
     | |- sees (mmap_case _ _ _) _ _ => apply mmap_case_sees
     | |- sees (sbrk_case _ _) _ _ => apply sbrk_case_sees
     | |- sees (shm_case _ _ _ _) _ _ => apply shm_case_sees
     | |- _ => apply file_case_sees
     end|]).
  by apply elem_of_nil in Hin.
Qed.

(** A kernel whose memory has pages of 2 MiB. *)
Definition large_step (c : cmd) (s : unit) : reply c * unit :=
  match c return reply c * unit with
  | SYS_mmap _ _ _ _ _ _ => (2 ^ 21, s)
  | SYS_munmap _ _ | SYS_close _ => (0, s)
  | SYS_getpid => (7, s)
  | SYS_open _ _ => (3, s)
  | SYS_lseek _ off _ => (off, s)
  | SYS_read _ _ => ((8, [0; 0; 0; 0; 0; 0; 0x80; 0x0A]), s)
  | c => (no_reply c, s)
  end.
Definition large_kernel : Kernel := {| kstate := unit; kstep := large_step |}.

Lemma large_page_pass_evidence_witness : exists tr, follows (mmap_script anonymous LARGE_PAGE_SIZE) tr.
Proof.
  destruct (@exec_run large_kernel _ (mem_large_page_000 (fun _ => ""%string)) (@Mach large_kernel 0 tt)) as [tr H].
  exists tr. refine (large_page_pass_evidence (fun _ => ""%string) (mem_large_page_000 (fun _ => ""%string)) _ 0 tr _ _ _).
  - unfold large_page_cases. left.
  - assert ((@exec large_kernel _ (mem_large_page_000 (fun _ => ""%string)) (@Mach large_kernel 0 tt)).1 = Returned None) as E
      by (vm_compute; reflexivity).
    rewrite E in H. exact H.
Defined.

(** Without the build flag the four test cases for the largest pages ask nothing and pass. *)
Theorem large_page_vacuous pp p e tr o e' :
  p ∈ [mem_large_page_001 pp false; mem_large_page_003 pp false; mem_large_page_007 pp false; mem_large_page_010 pp false] ->
  run p e tr o e' -> tr = [] /\ o = Returned None.
Proof.
  intros Hin. repeat (apply elem_of_cons in Hin as [->|Hin]; [by intros (-> & -> & _)|]). by apply elem_of_nil in Hin.
Qed.

(** The size in an entry of the pagemap: two to the power of its bits 55 to 60. *)
Lemma pagemap_psize_eq x : pagemap_psize x = 2 ^ (Z.shiftr x 55 mod 64).
Proof.
  unfold pagemap_psize, PAGEMAP_PAGE_SHIFT_BITS, PAGEMAP_PAGE_SHIFT_SHIFT.
  assert (Z.shiftr (x .& 0x1F80000000000000) 55 = Z.shiftr x 55 mod 64) as ->.
  { rewrite Z.shiftr_land. change (Z.shiftr 0x1F80000000000000 55) with (Z.ones 6). by rewrite Z.land_ones. }
  pose proof (Z.mod_pos_bound (Z.shiftr x 55) 64) as Hb. rewrite Z.shiftl_1_l. apply wrap_u_small.
  split; [apply Z.pow_nonneg; lia|]. apply Z.pow_lt_mono_r; lia.
Qed.

(** ** What is held *)

Section held.
Context (h : held).

Lemma keeps_getpid : keeps getpid h (fun _ => h).
Proof. apply keeps_vis. intros r. by apply keeps_ret. Qed.
Lemma keeps_say_failed what : keeps (say_failed what) h (fun _ => h).
Proof. apply (keeps_bind _ _ _ (fun _ => h)); [apply keeps_get_errno|]. intros e. apply keeps_printf. Qed.

Lemma keeps_failed what : keeps (say_failed what;; Ret 0) h (fun _ => h).
Proof. apply (keeps_bind _ _ _ (fun _ => h)); [apply keeps_say_failed|]. intros u. by apply keeps_ret. Qed.

End held.

Lemma keeps_check h va pagesize : keeps (check_page_size va pagesize) h (fun _ => h).
Proof.
  unfold check_page_size. apply (keeps_bind _ _ _ (fun _ => h)); [apply keeps_getpid|]. intros pid. cbv zeta.
  eapply keeps_bind; [apply keeps_open|]. intros fd. cbv beta. destruct (fd =? -1); [apply keeps_failed|].
  eapply keeps_bind; [apply keeps_lseek|]. intros off. cbv beta.
  apply (keeps_bind _ _ _ (fun _ => add_fd fd h)).
  - destruct (off =? -1); [apply keeps_failed|].
    apply (keeps_bind _ _ _ (fun _ => add_fd fd h)); [apply keeps_read|].
    intros [r bytes]. destruct (r =? -1); [apply keeps_failed|]. destruct (_ =? pagesize); [by apply keeps_ret|].
    apply (keeps_bind _ _ _ (fun _ => add_fd fd h)); [apply keeps_printf|intros u; by apply keeps_ret].
  - intros ret. eapply keeps_bind; [apply keeps_close|]. intros st. rewrite del_add_fd.
    apply (keeps_bind _ _ _ (fun _ => h)); [|intros u; by apply keeps_ret].
    destruct (st =? -1); [apply keeps_say_failed|by apply keeps_ret].
Qed.

Lemma keeps_store_loop h n pagesize start flag : keeps (store_loop n pagesize start flag) h (fun _ => h).
Proof.
  revert start flag. induction n as [|n IH]; intros start flag; cbn [store_loop]; [by apply keeps_ret|].
  apply (keeps_bind _ _ _ (fun _ => h)); [apply keeps_store|]. intros u.
  apply (keeps_bind _ _ _ (fun _ => h)); [apply keeps_check|]. intros f. destruct (f =? 0); [by apply keeps_ret|apply IH].
Qed.

(** Whatever the kernel replies, a test case with a mapping that returns has closed the pagemap each
    time it was opened and, unless munmap fails, has given back its mapping. *)
Theorem mmap_case_no_leak pp flags size e tr v e' :
  run (mmap_case pp flags size) e tr (Returned v) e' -> Forall unmaps tr -> after none tr = none.
Proof.
  revert e tr v e'. change (settles (mmap_case pp flags size) none (fun _ => none)). generalize none. intros h.
  apply (settles_bind _ _ _ (fun r => if r.1 =? MAP_FAILED then h else add_map (r.1, 2 * size) h)).
  - apply settles_keeps. unfold mmap_run. cbv zeta. eapply keeps_bind; [apply keeps_mmap|]. intros a. cbv beta.
    destruct (a =? MAP_FAILED) eqn:E; [apply keeps_ret; cbn; by rewrite E|].
    apply (keeps_bind _ _ _ (fun _ => add_map (a, 2 * size) h)); [apply keeps_printf|]. intros u.
    apply (keeps_bind _ _ _ (fun _ => add_map (a, 2 * size) h)); [|intros v; apply keeps_ret; cbn; by rewrite E].
    unfold touch_aligned. cbv zeta. unfold tp_assert. destruct (_ <? _); [|by apply keeps_ret].
    apply (keeps_bind _ _ _ (fun _ => add_map (a, 2 * size) h)); [apply keeps_store_loop|].
    intros f. destruct (negb _); by apply keeps_ret.
  - intros [a v]. cbn [fst]. apply (settles_bind _ _ _ (fun _ => h)); [|intros u; by apply settles_ret].
    unfold mmap_teardown. destruct (a =? MAP_FAILED); cbn [negb]; [by apply settles_ret|].
    eapply settles_bind; [apply settles_munmap|]. intros st. rewrite del_add_map. by apply settles_ret.
Qed.

(** ** mem_limits *)

(** The stores of [touch] from the page number [k]. *)
Definition pages (size : Z) : Z := (size + PAGE_SIZE - 1) / PAGE_SIZE.
Definition touches (p size k : Z) : list event :=
  (fun i => ev (MEM_store (u64 (p + i * PAGE_SIZE)) (chr "Z")) (Ok tt)) <$> seqZ k (pages size - k).

Lemma pages_spec size k : 0 <= size -> k * PAGE_SIZE < size <-> k < pages size.
Proof.
  intros Hs. unfold pages. change PAGE_SIZE with 4096. pose proof (Z.div_mod (size + 4096 - 1) 4096).
  pose proof (Z.mod_pos_bound (size + 4096 - 1) 4096). lia.
Qed.

(** A loop over pages that ends has touched them all, in order. *)
Lemma run_touch fuel p size k e tr e' :
  0 < size <= 2 ^ 63 -> 0 <= k ->
  run (touch fuel p size (k * PAGE_SIZE)) e tr (Returned (Some tt)) e' -> tr = touches p size k.
Proof.
  intros Hs. revert k e tr. induction fuel as [|fuel IH]; intros k e tr Hk; cbn [touch];
    destruct (Z.ltb_spec (k * PAGE_SIZE) size) as [Hl|Hl].
  - by intros (_ & [=] & _).
  - intros (-> & _). unfold touches. rewrite seqZ_nil; [done|]. pose proof (pages_spec size k). lia.
  - intros (r & tr' & -> & H). destruct r as [[]|sig d]; [|by destruct H as (_ & [=] & _)].
    change (run (touch fuel p size (u64 (k * PAGE_SIZE + PAGE_SIZE))) e tr' (Returned (Some tt)) e') in H.
    rewrite wrap_u_small in H by (change PAGE_SIZE with 4096 in *; lia).
    replace (k * PAGE_SIZE + PAGE_SIZE) with (Z.succ k * PAGE_SIZE) in H by lia. apply IH in H as ->; [|lia].
    unfold touches. apply pages_spec in Hl; [|lia].
    replace (pages size - k) with (Z.succ (pages size - Z.succ k)) by lia. by rewrite (seqZ_cons k), Z.pred_succ by lia.
  - intros (-> & _). unfold touches. rewrite seqZ_nil; [done|]. pose proof (pages_spec size k). lia.
Qed.

(** Enough fuel for the pages that are left. *)
Lemma touch_total fuel p size k e tr r e' :
  0 < size <= 2 ^ 63 -> 0 <= k -> pages size - k <= Z.of_nat fuel ->
  run (touch fuel p size (k * PAGE_SIZE)) e tr (Returned r) e' -> r = Some tt.
Proof.
  intros Hs. revert k e tr. induction fuel as [|fuel IH]; intros k e tr Hk Hf; cbn [touch];
    destruct (Z.ltb_spec (k * PAGE_SIZE) size) as [Hl|Hl]; try by intros (_ & [= ->] & _).
  - apply pages_spec in Hl; lia.
  - intros (a & tr' & -> & H). destruct a as [[]|sig d]; [|by destruct H as (_ & [=] & _)].
    change (run (touch fuel p size (u64 (k * PAGE_SIZE + PAGE_SIZE))) e tr' (Returned r) e') in H.
    rewrite wrap_u_small in H by (change PAGE_SIZE with 4096 in *; lia).
    replace (k * PAGE_SIZE + PAGE_SIZE) with (Z.succ k * PAGE_SIZE) in H by lia. apply IH in H; [done|lia..].
Qed.

(** One allocation of [size] bytes by [alloc]: the block at [p], obtained by the exchange [tr]. *)
Definition allocation (alloc : prog (string + Z)) (p : Z) (tr : list event) : Prop :=
  exists e e', run alloc e tr (Returned (inr p)) e'.
Definition rounds (size : Z) (l : list (Z * list event)) : list event :=
  concat ((fun x => x.2 ++ touches x.1 size 0) <$> l).

Section loop.
Context (alloc : prog (string + Z)) (size : Z) (Hs : 0 < size <= 2 ^ 63).

(** One round: a block is allocated and touched, or the loop ends. *)
Lemma run_round fuel count i e tr r e' :
  (i <? count) || (count =? MEM_LIMITS_COUNT_INFINITE) = true ->
  run (limit_loop alloc (S fuel) size count i) e tr (Returned r) e' ->
  (exists m, r = Some (Some m)) \/ r = None \/
  exists p tr1 tr2 e2, allocation alloc p tr1 /\ tr = (tr1 ++ touches p size 0) ++ tr2 /\
    run (limit_loop alloc fuel size count (s64 (i + 1))) e2 tr2 (Returned r) e'.
Proof.
  intros Hgo. cbn [limit_loop]. rewrite Hgo. intros H.
  apply run_bind_returned in H as ([m|p] & e1 & tr1 & tr2 & H1 & H & ->).
  { destruct H as (_ & [= ->] & _). left. by exists m. }
  apply run_bind_returned in H as ([[]|] & e2 & tr3 & tr4 & H2 & H & ->); [|destruct H as (_ & [= ->] & _); auto].
  right. right. exists p, tr1, tr4, e2. split; [by exists e, e1|]. split; [|done].
  rewrite <- app_assoc. do 2 f_equal. exact (run_touch fuel p size 0 e1 tr3 e2 Hs (Z.le_refl 0) H2).
Qed.

Lemma run_limit_loop fuel count i e tr e' :
  0 <= i <= count -> count < 2 ^ 63 ->
  run (limit_loop alloc fuel size count i) e tr (Returned (Some None)) e' ->
  exists l, Z.of_nat (length l) = count - i /\ Forall (fun x => allocation alloc x.1 x.2) l /\ tr = rounds size l.
Proof.
  intros Hi Hc. revert i e tr Hi. induction fuel as [|fuel IH]; intros i e tr Hi H;
    destruct (Z.ltb_spec i count) as [Hl|Hl].
  - cbn [limit_loop] in H. rewrite (proj2 (Z.ltb_lt i count) Hl) in H. by destruct H as (_ & [=] & _).
  - cbn [limit_loop] in H. rewrite (proj2 (Z.ltb_ge i count) Hl) in H. replace (count =? _) with false in H by (unfold MEM_LIMITS_COUNT_INFINITE; lia).
    destruct H as (-> & _). exists []. split; [cbn; lia|done].
  - apply run_round in H as [[m [=]]|[[=]|(p & tr1 & tr2 & e2 & Ha & -> & H)]]; [|by rewrite (proj2 (Z.ltb_lt i count) Hl)].
    rewrite wrap_s_small in H by lia. apply IH in H as (l & Hlen & Hl' & ->); [|lia].
    exists ((p, tr1) :: l). split; [cbn [length]; lia|]. by split; [apply Forall_cons_2|].
  - cbn [limit_loop] in H. rewrite (proj2 (Z.ltb_ge i count) Hl) in H. replace (count =? _) with false in H by (unfold MEM_LIMITS_COUNT_INFINITE; lia).
    destruct H as (-> & _). exists []. split; [cbn; lia|done].
Qed.

(** Without a count it does not pass. *)
Lemma limit_loop_infinite fuel i e tr e' :
  ~ run (limit_loop alloc fuel size MEM_LIMITS_COUNT_INFINITE i) e tr (Returned (Some None)) e'.
Proof.
  revert i e tr. induction fuel as [|fuel IH]; intros i e tr H.
  - cbn [limit_loop] in H. rewrite orb_true_r in H. by destruct H as (_ & [=] & _).
  - apply run_round in H as [[m [=]]|[[=]|(p & tr1 & tr2 & e2 & Ha & -> & H)]]; [|apply orb_true_r]. by apply IH in H.
Qed.

(** With one it ends. *)
Lemma limit_loop_total fuel count i e tr r e' :
  0 <= i <= count -> count < 2 ^ 63 -> count - i + pages size <= Z.of_nat fuel ->
  run (limit_loop alloc fuel size count i) e tr (Returned r) e' -> r <> None.
Proof.
  intros Hi Hc. revert i e tr Hi. induction fuel as [|fuel IH]; intros i e tr Hi Hf H;
    (destruct (Z.ltb_spec i count) as [Hl|Hl];
     [|cbn [limit_loop] in H; rewrite (proj2 (Z.ltb_ge i count) Hl) in H;
       replace (count =? _) with false in H by (unfold MEM_LIMITS_COUNT_INFINITE; lia); by destruct H as (_ & [= ->] & _)]).
  - assert (0 < pages size) by (apply pages_spec; lia). lia.
  - cbn [limit_loop] in H. rewrite (proj2 (Z.ltb_lt i count) Hl) in H. cbn [orb] in H.
    apply run_bind_returned in H as ([m|p] & e1 & tr1 & tr2 & H1 & H & ->); [by destruct H as (_ & [= ->] & _)|].
    apply run_bind_returned in H as (t & e2 & tr3 & tr4 & H2 & H & ->).
    apply (touch_total fuel p size 0 e1 tr3 t e2 Hs (Z.le_refl 0)) in H2 as ->; [|lia].
    rewrite wrap_s_small in H by lia. apply IH in H; [done|lia..].
Qed.

End loop.

(** What the three functions allocate with. *)
Definition alloc_of (f : mem_limits_function) (size : Z) : prog (string + Z) :=
  match f with
  | MEM_LIMITS_FN_MMAP => alloc_mmap size
  | MEM_LIMITS_FN_BRK => alloc_brk size
  | _ => alloc_malloc size
  end.

Lemma mem_limits_run_eq fuel f size count :
  f <> MEM_LIMITS_FN_NULL -> 0 < size -> 0 <= count \/ count = MEM_LIMITS_COUNT_INFINITE ->
  mem_limits_run fuel (LimArgs f size count) = limit_loop (alloc_of f size) fuel size count 0.
Proof.
  intros Hf Hs Hc. unfold mem_limits_run. cbn [fn LargeMem.size LargeMem.count]. rewrite bool_decide_false by done.
  replace (size =? 0) with false by lia.
  replace ((0 <=? count) || (count =? MEM_LIMITS_COUNT_INFINITE)) with true by (unfold MEM_LIMITS_COUNT_INFINITE in *; lia).
  by destruct f.
Qed.

(** C23: A run of mem_limits on any kernel: with a count it ends, given fuel for the rounds and the pages
    of a block, and when it passes it has made exactly so many allocations, none of which failed, and
    has written to each page of each block in order; without a count it never passes. *)
Theorem mem_limits_allocations fuel f size count e tr r e' :
  f <> MEM_LIMITS_FN_NULL -> 0 < size <= 2 ^ 63 -> -1 <= count < 2 ^ 63 ->
  run (mem_limits_run fuel (LimArgs f size count)) e tr (Returned r) e' ->
  (0 <= count -> count + pages size <= Z.of_nat fuel -> r <> None) /\
  (r = Some None -> 0 <= count /\ exists l, Z.of_nat (length l) = count /\
     Forall (fun x => allocation (alloc_of f size) x.1 x.2) l /\ tr = rounds size l).
Proof.
  intros Hf Hs Hc. rewrite mem_limits_run_eq by (unfold MEM_LIMITS_COUNT_INFINITE; lia || done). intros H. split.
  - intros H0 Hfuel. apply limit_loop_total in H; [done|lia..].
  - intros ->. destruct (Z.eq_dec count (-1)) as [->|Hne]; [by apply limit_loop_infinite in H|]. split; [lia|].
    apply run_limit_loop in H as (l & Hl & Hx); [|lia..]. exists l. split; [lia|done].
Qed.

Lemma mem_limits_allocations_witness :
  exists l, length l = 1%nat /\
    rounds 8192 l = [ev (LIBC_malloc 8192) (Some (4096, 0)); ev (MEM_store 4096 90) (Ok tt); ev (MEM_store 8192 90) (Ok tt)].
Proof.
  destruct (mem_limits_allocations 5 MEM_LIMITS_FN_MALLOC 8192 1 0
    [ev (LIBC_malloc 8192) (Some (4096, 0)); ev (MEM_store 4096 90) (Ok tt); ev (MEM_store 8192 90) (Ok tt)] (Some None) 0)
    as [_ H]; [done|lia|lia| |].
  - eexists _, _. split; [reflexivity|]. eexists _, _. split; [reflexivity|]. eexists _, _. split; [reflexivity|]. done.
  - destruct (H eq_refl) as (_ & l & Hl & _ & E). exists l. split; [lia|by rewrite E].
Defined.

(** ** mem_stack_limits *)

(** The units of a size are its digits, the rest of less than 1 KiB is dropped. *)
Lemma value_to_unit_spec value :
  0 <= value < 2 ^ 61 ->
  let u := value_to_unit value in
  0 <= gib u < 2 ^ 31 /\ 0 <= mib u < 1024 /\ 0 <= kib u < 1024 /\
  gib u * 2 ^ 30 + mib u * 2 ^ 20 + kib u * 2 ^ 10 = value - value mod 2 ^ 10.
Proof.
  intros Hv. unfold value_to_unit. change 0x40000000 with (2 ^ 30). change 0x100000 with (2 ^ 20). change 0x400 with (2 ^ 10).
  pose proof (Z.div_mod value (2 ^ 30)) as E1. pose proof (Z.mod_pos_bound value (2 ^ 30)) as B1.
  rewrite (wrap_s_small 32 (value / 2 ^ 30)) by lia. rewrite Z.max_r by lia.
  replace (value - value / 2 ^ 30 * 2 ^ 30) with (value mod 2 ^ 30) by lia. set (r := value mod 2 ^ 30) in *.
  rewrite (wrap_u_small 64 r) by lia.
  pose proof (Z.div_mod r (2 ^ 20)) as E2. pose proof (Z.mod_pos_bound r (2 ^ 20)) as B2.
  rewrite (wrap_s_small 32 (r / 2 ^ 20)) by lia. rewrite (wrap_s_small 32 (r / 2 ^ 20 * 2 ^ 20)) by lia.
  replace (r - r / 2 ^ 20 * 2 ^ 20) with (r mod 2 ^ 20) by lia. set (q := r mod 2 ^ 20) in *.
  rewrite (wrap_u_small 64 q) by lia.
  pose proof (Z.div_mod q (2 ^ 10)) as E3. pose proof (Z.mod_pos_bound q (2 ^ 10)) as B3.
  rewrite wrap_s_small by lia. cbn [gib mib kib].
  assert (value mod 2 ^ 10 = q mod 2 ^ 10) as ->; [|lia].
  replace value with (q + (r / 2 ^ 20 * 2 ^ 10 + value / 2 ^ 30 * 2 ^ 20) * 2 ^ 10) at 1 by lia. apply Z_mod_plus_full.
Qed.

(** The frames: the large ones first. *)
Definition sum_frames (fs : list Z) : Z := foldr Z.add 0 fs.

Lemma stack_limit_func_spec fuel u :
  0 <= gib u < 2 ^ 31 -> 0 <= mib u < 2 ^ 31 -> 0 <= kib u < 2 ^ 31 -> gib u + mib u + kib u < Z.of_nat fuel ->
  exists fs, stack_limit_func fuel u = Some (fs, Units 0 0 0) /\
    sum_frames fs = gib u * 2 ^ 30 + mib u * 2 ^ 20 + kib u * 2 ^ 10.
Proof.
  revert u. induction fuel as [|fuel IH]; intros [g m k]; cbn [gib mib kib stack_limit_func]; intros Hg Hm Hk Hf; [lia|].
  destruct (Z.eqb_spec g 0) as [->|Ng]; cbn [negb]; [destruct (Z.eqb_spec m 0) as [->|Nm]; cbn [negb];
    [destruct (Z.eqb_spec k 0) as [->|Nk]; cbn [negb]; [by exists []|]|]|];
    rewrite wrap_s_small by lia.
  - destruct (IH (Units 0 0 (k - 1))) as (fs & -> & E); cbn [gib mib kib] in *; [lia..|].
    exists (frame ULONG_1KiB_COUNT :: fs). split; [done|]. cbn [sum_frames foldr]. fold (sum_frames fs). rewrite E.
    change (frame ULONG_1KiB_COUNT) with (2 ^ 10). lia.
  - destruct (IH (Units 0 (m - 1) k)) as (fs & -> & E); cbn [gib mib kib] in *; [lia..|].
    exists (frame ULONG_1MiB_COUNT :: fs). split; [done|]. cbn [sum_frames foldr]. fold (sum_frames fs). rewrite E.
    change (frame ULONG_1MiB_COUNT) with (2 ^ 20). lia.
  - destruct (IH (Units (g - 1) m k)) as (fs & -> & E); cbn [gib mib kib] in *; [lia..|].
    exists (frame ULONG_1GiB_COUNT :: fs). split; [done|]. cbn [sum_frames foldr]. fold (sum_frames fs). rewrite E.
    change (frame ULONG_1GiB_COUNT) with (2 ^ 30). lia.
Qed.

(** The recursion of mem_stack_limits ends, and its arrays take the size asked for, less what is left
    of a KiB. *)
Theorem stack_frames_total size fuel :
  0 <= size < 2 ^ 61 -> size / 2 ^ 30 + 2048 < Z.of_nat fuel ->
  exists fs, stack_limit_func fuel (value_to_unit size) = Some (fs, Units 0 0 0) /\ sum_frames fs = size - size mod 2 ^ 10.
Proof.
  intros Hs Hf. destruct (value_to_unit_spec size Hs) as (Hg & Hm & Hk & <-).
  apply stack_limit_func_spec; [lia..|].
  assert (gib (value_to_unit size) = size / 2 ^ 30); [|lia]. unfold value_to_unit. cbn [gib].
  change 0x40000000 with (2 ^ 30). apply wrap_s_small; [lia|]. pose proof (Z.div_mod size (2 ^ 30)).
  pose proof (Z.mod_pos_bound size (2 ^ 30)). lia.
Qed.

(** Each page of a frame is written to. *)
Lemma frame_touches_all bytes a :
  0 <= a < bytes -> exists t, t ∈ frame_touches bytes /\ t <= a < t + PAGE_SIZE /\ t < bytes.
Proof.
  intros Ha. exists (a / PAGE_SIZE * PAGE_SIZE). change PAGE_SIZE with 4096.
  pose proof (Z.div_mod a 4096). pose proof (Z.mod_pos_bound a 4096). split; [|lia].
  unfold frame_touches. apply list_elem_of_fmap. exists (a / 4096). split; [done|].
  apply elem_of_seqZ. split; [apply Z.div_pos; lia|]. rewrite Z.add_0_l.
  assert (a / PAGE_SIZE < (bytes + PAGE_SIZE - 1) / PAGE_SIZE); [|done].
  apply (pages_spec bytes (a / PAGE_SIZE)); change PAGE_SIZE with 4096; lia.
Qed.

(** With no whole KiB no frame is made, and what is printed as used is the stack pointer itself. *)
Theorem small_stack_prints_pointer first_sp sp_below fuel size e tr o e' :
  0 < size < 2 ^ 10 -> run (mem_stack_limits_run first_sp sp_below (S fuel) size) e tr o e' ->
  exists t1 t2, tr = [ev (OUT t1) tt; ev (OUT t2) tt] /\ o = Returned (Some None) /\
    t2 = "used_stack size: " +:+ pretty (s64 (u64 first_sp)) +:+ " (" +:+ say_units (value_to_unit (u64 first_sp)) +:+ ")" +:+ nl.
Proof.
  intros Hs. unfold mem_stack_limits_run. replace (size =? 0) with false by lia. cbv zeta.
  destruct (value_to_unit_spec size) as (Hg & Hm & Hk & E); [lia|]. rewrite (Z.mod_small size) in E by lia.
  destruct (value_to_unit size) as [g m k]. cbn [gib mib kib] in *.
  assert (g = 0 /\ m = 0 /\ k = 0) as (-> & -> & ->) by lia.
  intros ([] & tr1 & -> & ([] & tr2 & -> & -> & -> & _)). eexists _, _. split; [done|]. split; [done|].
  rewrite bool_decide_true by done. by rewrite Z.sub_0_r.
Qed.

End LargeMemProofs.
