(* ===== verification/Fork.v ===== *)
(** * Processes: the fork, wait4, waitid, getppid, setpgid, gettid and kill suites

    src/src/test_mck/src/{fork,wait4,waitid,getppid,setpgid,gettid,kill}/: tests that create processes
    and wait for them.  The functions keep their names with the suite and number of the test case;
    [SETUP_FUNC] and [RUN_FUNC] are composed as the harness composes them where the setup makes
    requests of the kernel.  setpgid/004, which executes a program, is in Exec.v. *)
From S2P Require Import Prelude CMachine Libc FileMap Affinity.
Import Libc Affinity.
#[local] Open Scope Z_scope.

Module Fork.

(** Where the static variables are, and what lies where a program reads without having written: the
    bytes behind the literal of a [write], and the elements of an array of process numbers. *)
Record image := Image {
  at_lock : Z; at_sig_count : Z;
  strerror : Z -> string;
  behind : list Z;
  stale : Z -> Z
}.

Definition WNOHANG : Z := 1.
Definition P_ALL : Z := 0.
Definition P_PID : Z := 1.
Definition P_PGID : Z := 2.
Definition WEXITED : Z := 4.
Definition SIGUSR1 : Z := 10.
Definition waitpid (pid options : Z) : prog (Z * Z) := wait4 pid options.

(** The conversions [%d] and [%5d]. *)
Definition d (x : Z) : string := pretty x.
Definition d5 (x : Z) : string :=
  of_chars (replicate (5 - String.length (pretty x)) " "%char) +:+ pretty x.
Definition say (s : string) : prog unit := printf (s +:+ nl).

(** [printf("<name>()=%d, errno=%d\n", result, errno)] *)
Definition say_result (name : string) (result : Z) : prog unit :=
  e ← get_errno; say (name +:+ "()=" +:+ d result +:+ ", errno=" +:+ d e).

Section suites.
Context (im : image).

(** ** fork *)

(** [while (lock) cpu_pause()]; the fuel bounds how often the lock is found taken, and who still finds
    it taken then is regarded as killed. *)
Fixpoint spin (fuel : nat) (lock : Z) : prog unit :=
  v ← var_load lock;
  if v =? 0 then Ret tt else
  match fuel with O => Trap SIGKILL SIG_DFL | S fuel => spin fuel lock end.

(** [child_pid] and [parent_pid], which differ in the text only. *)
Definition show_pid (fuel : nat) (who : string) : prog unit :=
  pid ← getpid;
  tid ← gettid;
  spin fuel (at_lock im);;
  var_store (at_lock im) 1;;
  say ("[" +:+ who +:+ "]pid=" +:+ d pid +:+ ", tid=" +:+ d tid);;
  var_store (at_lock im) 0.
Definition child_pid (fuel : nat) : prog unit := show_pid fuel "child".
Definition parent_pid (fuel : nat) : prog unit := show_pid fuel "parent".

Definition fork_000 (fuel : nat) : prog verdict :=
  ret ← fork;
  if ret =? -1 then TP_ASSERT false, Some "fork() Failed." ;; Ret None
  else if ret =? 0 then child_pid fuel;; exit 0
  else parent_pid fuel;; Ret None.

(** ** wait4 *)

Definition wait4_000 : prog verdict :=
  pid ← fork;
  result ← (if pid =? -1 then Ret 0
            else if pid =? 0 then _ ← trigger (LIBC_sleep 1000000); exit 0
            else '(result, _) ← wait4 pid 0; Ret result);
  say_result "wait4" result;;
  TP_ASSERT negb (result =? -1), Some "wait4 failed." ;;
  Ret None.

(** The argument of 001, [NULL] when there is none. *)
Definition wait4_setup_001 (argv : list string) : prog (option string) :=
  getopt_loop (fun c optarg path => if Ascii.eqb c "f" then Some optarg else path)
    (events (scan (default "" (argv !! 0%nat)) (with_arguments ["f"%char]) [] (drop 1 argv))) None.

(** [undefined] stands for what a call with a null stream does.  A file without a number leaves
    [pid_max] 0. *)
Definition wait4_001 (undefined : prog verdict) (filepath : option string) : prog verdict :=
  match filepath with
  | None => Ret (Some "-f <pid_max filepath>")
  | Some filepath =>
      f ← fopen filepath "r";
      match f with
      | None =>
          FileMap.perror (strerror im) "fopen faild: ";;
          TP_ASSERT negb (0 =? 1), Some "invalid argment." ;;
          undefined
      | Some f =>
          pid_max ← fscanf_long f;
          let err_pid := s32 (s64 (default 0 pid_max + 1)) in
          fclose f;;
          '(result, _) ← wait4 err_pid 0;
          say_result "wait4" result;;
          TP_ASSERT result =? -1, Some "Why process(MAX_PID+1) is exist!?" ;;
          Ret None
      end
  end.

(** What the handlers do to the static variables; that of 003 only prints. *)
Definition handlers (fn : string) (vars : gmap Z Z) : gmap Z Z :=
  if String.eqb fn "wait4_002_sig_handler" then
    <[at_sig_count im := s32 (default 0 (vars !! at_sig_count im) + 1)]> vars
  else if String.eqb fn "kill_sig_handler" then <[at_sig_count im := 1]> vars
  else vars.

Definition wait4_002_setup : prog unit :=
  var_store (at_sig_count im) 0;;
  sigaction SIGCHLD "wait4_002_sig_handler" (SA_RESETHAND .| SA_SIGINFO);;
  Ret tt.
Definition wait4_002 : prog verdict :=
  pid ← fork;
  result ← (if pid =? -1 then Ret 0
            else if pid =? 0 then _ ← trigger (LIBC_sleep 1000000); exit 0
            else '(result, _) ← wait4 pid 0; Ret result);
  say_result "wait4" result;;
  TP_ASSERT negb (result =? -1), Some "wait4 failed." ;;
  sig_count ← var_load (at_sig_count im);
  TP_ASSERT negb (sig_count =? 0), Some "Parent process has not received a SIGCHLD." ;;
  Ret None.

Definition wait4_003_setup : prog unit :=
  sigaction SIGUSR2 "wait4_003_sig_handler" SA_RESTART;; Ret tt.
Definition wait4_003_child : prog verdict :=
  pid ← getpid;
  say ("[child]pid=" +:+ d pid);;
  _ ← trigger (LIBC_sleep 1000000);
  ppid ← getppid;
  r ← kill ppid SIGUSR2;
  if r =? -1 then fprintf_stderr ("[child]send signal failed." +:+ nl);; exit 1
  else say "[child]send signal success.";; _ ← trigger (LIBC_sleep 1000000); exit 0.
Definition wait4_003 : prog verdict :=
  pid ← fork;
  if pid =? -1 then Ret None
  else if pid =? 0 then wait4_003_child
  else
    '(result, status) ← wait;
    say_result "wait" result;;
    TP_ASSERT negb (result =? -1), Some "wait failed." ;;
    TP_ASSERT WTERMSIG status =? 0, Some "child exitied with signal" ;;
    Ret None.

(** ** waitid *)

Definition waitid_000 : prog verdict :=
  pid ← fork;
  result ← (if pid =? -1 then Ret 0
            else if pid =? 0 then _ ← trigger (LIBC_sleep 1000000); exit 0
            else '(result, _) ← waitid P_PID pid WEXITED; Ret result);
  say_result "waitid" result;;
  TP_ASSERT negb (result =? -1), Some "waitid failed." ;;
  Ret None.

Definition waitid_setup (argv : list string) : prog Z :=
  getopt_loop (fun c optarg n => if Ascii.eqb c "p" then atoi optarg else n)
    (events (scan (default "" (argv !! 0%nat)) (with_arguments ["p"%char]) [] (drop 1 argv))) 0.

(** [for (i = 0; i < proc_num; i++)] with a [fork] of which the child runs [child i]; [n] turns are
    left, and [fork] may fail. *)
Fixpoint fork_loop (child : Z -> prog verdict) (n : nat) (i : Z) (k : prog verdict) : prog verdict :=
  match n with
  | O => k
  | S n => pid ← fork; if pid =? 0 then child i else fork_loop child n (i + 1) k
  end.

Definition say_waitid (pid result : Z) : prog unit :=
  e ← get_errno; say ("[parent:" +:+ d5 pid +:+ "] waitid()=" +:+ d result +:+ ", errno=" +:+ d e).

Definition waitid_001_child (proc_num i : Z) : prog verdict :=
  pid ← getpid;
  (if i <? proc_num ÷ 2 then
     result ← setpgid pid pid;
     say ("[child:" +:+ d5 pid +:+ "] setpgid(" +:+ d pid +:+ ", " +:+ d pid +:+ ") = " +:+ d result)
   else Ret tt);;
  pgid ← getpgid pid;
  _ ← trigger (LIBC_sleep ((i + 3) * 1000000));
  say ("[child:" +:+ d5 pid +:+ ", " +:+ d5 pgid +:+ "] sleep " +:+ d (i + 3) +:+ "sec done.");;
  exit 0.
Fixpoint waitid_001_loop (n : nat) (pid pgid : Z) : prog verdict :=
  match n with
  | O => Ret None
  | S n =>
      say ("[parent:" +:+ d5 pid +:+ "] waitid(P_PGID, " +:+ d pgid +:+ ") called.");;
      '(result, si_pid) ← waitid P_PGID pgid WEXITED;
      say ("[parent:" +:+ d5 pid +:+ "] waitid(P_PGID, " +:+ d pgid +:+ ") returned. EXTED pid = " +:+ d si_pid);;
      say_waitid pid result;;
      TP_ASSERT negb (result =? -1), Some "waitid failed." ;;
      waitid_001_loop n pid pgid
  end.
Definition waitid_001 (proc_num : Z) : prog verdict :=
  TP_ASSERT 1 <? proc_num, Some "-p <child proc num> invalid argument." ;;
  TP_ASSERT Z.rem proc_num 2 =? 0, Some "-p <child proc num> invalid argument." ;;
  fork_loop (waitid_001_child proc_num) (Z.to_nat proc_num) 0 (
  pid ← getpid;
  pgid ← getpgid pid;
  waitid_001_loop (Z.to_nat (proc_num ÷ 2)) pid pgid).

Definition waitid_002_child (i : Z) : prog verdict :=
  _ ← trigger (LIBC_sleep ((i + 1) * 1000000));
  pid ← getpid;
  say ("[child:" +:+ d5 pid +:+ "] sleep " +:+ d (i + 1) +:+ "sec done.");;
  exit 0.
Fixpoint waitid_002_loop (n : nat) (pid : Z) : prog verdict :=
  match n with
  | O => Ret None
  | S n =>
      say ("[parent:" +:+ d5 pid +:+ "] waitid(P_ALL) called.");;
      '(result, si_pid) ← waitid P_ALL 0 WEXITED;
      say ("[parent:" +:+ d5 pid +:+ "] waitid(P_ALL) returned. EXTED pid = " +:+ d si_pid);;
      say_waitid pid result;;
      TP_ASSERT negb (result =? -1), Some "waitid failed." ;;
      waitid_002_loop n pid
  end.
Definition waitid_002 (proc_num : Z) : prog verdict :=
  TP_ASSERT 0 <? proc_num, Some "-p <child proc num> invalid argument." ;;
  fork_loop waitid_002_child (Z.to_nat proc_num) 0 (
  pid ← getpid;
  waitid_002_loop (Z.to_nat proc_num) pid).

(** ** getppid and setpgid: synchronisation over two pipes *)

Definition PIPE_BUF_SIZE : Z := 0x10.

(** [write(write_fd, "1234567890", PIPE_BUF_SIZE+1)]: the literal has 11 bytes with its end. *)
Definition literal : list Z := (chr <$> chars "1234567890") ++ [0].
Definition sync_data : list Z := take 17 (literal ++ behind im).
Definition sync (write_fd : Z) : prog unit := _ ← write write_fd sync_data; Ret tt.
Definition await (read_fd : Z) : prog unit := _ ← read read_fd PIPE_BUF_SIZE; Ret tt.

(** A [pid_t] in memory, little-endian; of a read that is too short the old bytes remain. *)
Definition pid_bytes (pid : Z) : list Z := (fun i => Z.shiftr pid (8 * i) .& 255) <$> [0; 1; 2; 3].
Definition bytes_pid (l : list Z) (old : Z) : Z :=
  let l := l ++ drop (length l) (pid_bytes old) in
  s32 (foldr (fun b acc => b + 256 * acc) 0 (take 4 l)).

Definition getppid0_parent_fn (read_fd write_fd : Z) : prog unit :=
  await read_fd;;
  p_pid ← getpid;
  say ("[parent] pid=" +:+ d p_pid);;
  _ ← write write_fd (pid_bytes p_pid);
  await read_fd.
Definition getppid0_child_fn (read_fd write_fd : Z) : prog verdict :=
  c_ppid ← getppid;
  say ("[child] ppid=" +:+ d c_ppid);;
  sync write_fd;;
  '(_, bytes) ← read read_fd 4;
  let p_pid := bytes_pid bytes (stale im 0) in
  TP_ASSERT c_ppid =? p_pid, Some "[child] getppid faild." ;;
  sync write_fd;;
  Ret None.

Definition close_all_pipes (fdi fdj : Z * Z) : prog unit :=
  close fdi.1;; close fdi.2;; close fdj.1;; close fdj.2;; Ret tt.

(** The frame of both tests: the results of both functions are dropped. *)
Definition with_pipes (parent_fn : Z -> Z -> Z -> prog unit) (child_fn : Z -> Z -> prog verdict) : prog verdict :=
  '(ret, p2c) ← pipe;
  TP_ASSERT negb (ret =? -1), Some "make pipe failed" ;;
  '(ret, c2p) ← pipe;
  (if ret =? -1 then close p2c.1;; close p2c.2;; Ret tt else Ret tt);;
  TP_ASSERT negb (ret =? -1), Some "make pipe failed" ;;
  child_pid ← fork;
  TP_ASSERT negb (child_pid =? -1), Some "fork faild." ;;
  if child_pid =? 0 then
    _ ← child_fn p2c.1 c2p.2; close_all_pipes p2c c2p;; exit 0
  else
    parent_fn child_pid c2p.1 p2c.2;; close_all_pipes p2c c2p;; Ret None.

Definition getppid_000 : prog verdict :=
  with_pipes (fun _ => getppid0_parent_fn) getppid0_child_fn.

Definition setpgid0_parent_fn (child_pid read_fd write_fd : Z) : prog unit :=
  await read_fd;;
  say "[parent] now rewrite child pgid";;
  result ← setpgid child_pid child_pid;
  if negb (result =? -1) then sync write_fd;; await read_fd else Ret tt.
Definition setpgid0_child_fn (read_fd write_fd : Z) : prog verdict :=
  c_pid ← getpid;
  TP_ASSERT negb (c_pid =? -1), Some "[child] getpid faild." ;;
  c_pgid ← getpgid c_pid;
  TP_ASSERT negb (c_pgid =? -1), Some "[child] getpgid faild." ;;
  say ("[child] pid=" +:+ d c_pid +:+ ", pgid=" +:+ d c_pgid);;
  sync write_fd;;
  await read_fd;;
  c_pgid ← getpgid c_pid;
  TP_ASSERT negb (c_pgid =? -1), Some "[child] getpgid faild." ;;
  say ("[child] pid=" +:+ d c_pid +:+ ", pgid=" +:+ d c_pgid);;
  sync write_fd;;
  Ret None.
Definition setpgid_000 : prog verdict := with_pipes setpgid0_parent_fn setpgid0_child_fn.

(** ** setpgid: the errors *)

Definition say_setpgid (result : Z) (name : string) (e : Z) : prog unit :=
  err ← get_errno;
  say ("setpgid result:" +:+ d result +:+ ", errno:" +:+ d err +:+ " (expect error is " +:+ quoted name +:+
       "=" +:+ d e +:+ ")").
Definition expect_error (result : Z) (name : string) (e : Z) : prog verdict :=
  say_setpgid result name e;;
  TP_ASSERT result =? -1, Some "Why setpgid didn't failed!?" ;;
  err ← get_errno;
  TP_ASSERT err =? e, Some "Unexpected error is occur." ;;
  Ret None.

Definition setpgid_001 : prog verdict :=
  pid ← getpid;
  result ← setpgid pid (-1);
  expect_error result "EINVAL" EINVAL.
Definition setpgid_002 : prog verdict :=
  pid ← getpid;
  pgid ← getpgid pid;
  result ← setpgid (-1) pgid;
  expect_error result "ESRCH" ESRCH.
(** The order in which the two arguments are evaluated does not matter to the kernel. *)
Definition setpgid_003 : prog verdict :=
  pid ← getpid;
  pid' ← getpid;
  pgid ← getpgid pid';
  result ← setpgid pid (s32 (pgid + 1));
  expect_error result "EPERM" EPERM.

(** ** gettid *)

Definition gettid_000 : prog verdict :=
  pid ← getpid;
  tid ← gettid;
  say ("PID=" +:+ d pid +:+ ", TID=" +:+ d tid);;
  TP_ASSERT pid =? tid, Some "PID and TID do not match." ;;
  Ret None.

(** ** kill *)

Definition kill_setup (argv : list string) : prog Z := waitid_setup argv.

(** [signal(SIGUSR1, &kill_sig_handler)], which glibc makes a [sigaction] with SA_RESTART. *)
Definition signal_usr1 : prog Z := sigaction SIGUSR1 "kill_sig_handler" SA_RESTART.

(** The wait for the signal, with fuel as in [spin]. *)
Fixpoint wait_signal (fuel : nat) : prog unit :=
  v ← var_load (at_sig_count im);
  if negb (v =? 0) then Ret tt else
  match fuel with O => Trap SIGKILL SIG_DFL | S fuel => wait_signal fuel end.
Definition kill_child_fn (fuel : nat) : prog verdict :=
  r ← signal_usr1;
  if r =? -1 then fprintf_stderr "signal(SIGUSR1, ..) failed";; exit 1
  else wait_signal fuel;; exit 0.

(** The children; the first [fork] that fails ends the loop.  [k] gets [cnt], [fork_error_flag] and
    the elements of [child_pids] that have been written. *)
Fixpoint kill_fork_loop (fuel n : nat) (pids : list Z) (k : Z -> Z -> list Z -> prog verdict) : prog verdict :=
  let cnt := Z.of_nat (length pids) in
  match n with
  | O => k cnt 0 pids
  | S n =>
      child ← fork;
      if child =? -1 then fprintf_stderr ("[warning] fork() failed." +:+ nl);; k cnt 1 pids
      else if child =? 0 then kill_child_fn fuel
      else
        pgid ← getpgid child;
        say ("Generate child process pid:" +:+ d child +:+ ", pgid:" +:+ d pgid);;
        kill_fork_loop fuel n (pids ++ [child]) k
  end.

(** [child_pids[cnt]]: an element that was never written is what the memory held. *)
Definition child_pid_at (pids : list Z) (cnt : nat) : Z := default (stale im (Z.of_nat cnt)) (pids !! cnt).

(** [waitpid] for the elements from [cnt]; its result is not looked at. *)
Fixpoint kill_wait_loop (n cnt : nat) (pids : list Z) : prog verdict :=
  match n with
  | O => Ret None
  | S n => _ ← waitpid (child_pid_at pids cnt) 0; kill_wait_loop n (S cnt) pids
  end.

(** [child_pids = malloc(...)]: without memory the first store faults. *)
Definition kill_alloc (proc_num : Z) (k : Z -> prog verdict) : prog verdict :=
  p ← malloc (u64 (4 * proc_num));
  match p with Some (child_pids, _) => k child_pids | None => Trap SIGSEGV SIG_DFL end.

(** The part behind the loop that 000 and 001 share; [target] is to whom [kill] sends. *)
Definition kill_rest (proc_num child_pids : Z) (text : string) (target : Z) (cnt : Z) (pids : list Z) : prog verdict :=
  if cnt <=? 0 then free child_pids;; TP_ASSERT false, Some "child process nothing." ;; Ret None else
  r ← signal_usr1;
  if r =? -1 then
    free child_pids;; e ← get_errno;
    fprintf_stderr ("signal(SIGUSR1, ..) failed (errno=" +:+ d e +:+ ")" +:+ nl);; exit 1
  else
    say "wait for a few sec...";;
    _ ← trigger (LIBC_sleep 3000000);
    say text;;
    _ ← kill target SIGUSR1;
    kill_wait_loop (Z.to_nat proc_num) 0 pids.

Definition kill_000 (fuel : nat) (proc_num : Z) : prog verdict :=
  TP_ASSERT 0 <? proc_num, Some "mandatory parameter '-p <num_of_child_procs>'" ;;
  kill_alloc proc_num (fun child_pids =>
  _ ← setpgid 0 0;
  kill_fork_loop fuel (Z.to_nat proc_num) [] (fun cnt _ pids =>
  kill_rest proc_num child_pids "send signal to same pgids" 0 cnt pids)).

Definition kill_001 (fuel : nat) (proc_num : Z) : prog verdict :=
  TP_ASSERT 0 <? proc_num, Some "mandatory parameter '-p <num_of_child_procs>'" ;;
  id ← (r ← trigger SYS_get_cpu_id; syscall_ret r);
  TP_ASSERT negb (id =? -1), Some "Don't run this TP on HostLinux!!" ;;
  kill_alloc proc_num (fun child_pids =>
  kill_fork_loop fuel (Z.to_nat proc_num) [] (fun cnt _ pids =>
  kill_rest proc_num child_pids "Send to all processes that have permission to send a signal." (-1) cnt pids)).

(** The loop over [setpgid]: [n] turns from [cnt]. *)
Fixpoint kill_setpgid_loop (n cnt : nat) (pids : list Z) (child_pgid : Z) (k : prog verdict) : prog verdict :=
  match n with
  | O => k
  | S n =>
      let child := child_pid_at pids cnt in
      pgid ← getpgid child;
      say ("Set child process(pid:" +:+ d child +:+ ") pgid:" +:+ d pgid +:+ " => " +:+ d child_pgid);;
      r ← setpgid child child_pgid;
      (if negb (r =? 0) then
         say ("<WARNING> Failed to set the PGID to child process " +:+ d child +:+ ".")
       else Ret tt);;
      kill_setpgid_loop n (S cnt) pids child_pgid k
  end.

Definition kill_002 (fuel : nat) (proc_num : Z) : prog verdict :=
  TP_ASSERT 0 <? proc_num, Some "mandatory parameter '-p <num_of_child_procs>'" ;;
  kill_alloc proc_num (fun child_pids =>
  kill_fork_loop fuel (Z.to_nat proc_num) [] (fun cnt fork_error_flag pids =>
  if cnt <=? 0 then free child_pids;; TP_ASSERT false, Some "child process nothing." ;; Ret None else
  let child_pgid := child_pid_at pids 0 in
  say "wait for a few sec...";;
  _ ← trigger (LIBC_sleep 3000000);
  kill_setpgid_loop (Z.to_nat (proc_num - fork_error_flag)) 0 pids child_pgid (
  say ("send signal to target pgid(=" +:+ d child_pgid +:+ ")s");;
  _ ← kill (- child_pgid) SIGUSR1;
  kill_wait_loop (Z.to_nat proc_num) 0 pids))).

End suites.
End Fork.
