(* ===== verification/Exec.v ===== *)
(** * Execution of programs: the execve, fork_execve and vfork suites, and setpgid/004

    src/src/test_mck/src/{execve,fork_execve,vfork,setpgid}/: tests that give the program named by
    [-f] the place of the test or of its child.  The vector of arguments is built in a block of
    [malloc] that is smaller than what is stored in it when there are fewer than eight arguments. *)
From S2P Require Import Prelude CMachine Libc FileMap Affinity Fork.
Import Libc Affinity Fork.
#[local] Open Scope Z_scope.

Module Exec.

(** ** Arguments *)

(** [struct execve_args], [fork_execve_args], [vfork_args] and [setpgid_args]: the path is [NULL] when
    it is not given, and [argv] has [argc] elements. *)
Record execve_args := ExecArgs { file_path : option string; argv : list string }.

(** The loop over getopt of [execve_parse_args], [fork_execve_parse_args], [vfork_parse_args] and
    [setpgid_parse_args]: [NULL] at an option that is not known. *)
Fixpoint parse_loop (evs : list opt_event) (path : option string) : prog (option (option string)) :=
  match evs with
  | [] => Ret (Some path)
  | Opt c optarg :: evs => parse_loop evs (if Ascii.eqb c "f" then optarg else path)
  | Bad msg :: _ => fprintf_stderr msg;; Ret None
  end.
Definition execve_parse_args (tc_argv : list string) : prog (option execve_args) :=
  let res := scan (default "" (tc_argv !! 0%nat)) (with_arguments ["f"%char]) [] (drop 1 tc_argv) in
  r ← parse_loop (events res) None;
  match r with
  | None => Ret None
  | Some path =>
      (if path then Ret tt else fprintf_stderr ("mandatory parameter '-f <executable-file>'" +:+ nl));;
      Ret (Some (ExecArgs path (operands res)))
  end.

(** The other suites have the same function under a name of their own. *)
Definition fork_execve_parse_args (tc_argv : list string) : prog (option execve_args) := execve_parse_args tc_argv.
Definition vfork_parse_args (tc_argv : list string) : prog (option execve_args) := execve_parse_args tc_argv.
Definition setpgid_parse_args (tc_argv : list string) : prog (option execve_args) := execve_parse_args tc_argv.

(** ** The vector of arguments *)

(** A block of [malloc]: its size in bytes and the words stored in it, strings or [NULL]. *)
Definition sizeof_ptr : Z := 8.
Record block := Block { b_size : Z; b_words : gmap Z (option string) }.

(** [p[i] = s]; nothing is known of what a store outside of the block does. *)
Definition put (i : Z) (s : option string) (b : block) : option block :=
  if (0 <=? i) && (sizeof_ptr * (i + 1) <=? b_size b)
  then Some (Block (b_size b) (<[i := s]> (b_words b))) else None.

(** [for (i = 0; i < args->argc; i++) argv[i + 1] = *(args->argv + i)], from [i]. *)
Fixpoint put_args (i : Z) (l : list string) (b : block) : option block :=
  match l with
  | [] => Some b
  | s :: l => b ← put (i + 1) (Some s) b; put_args (i + 1) l b
  end.
Definition argc (args : execve_args) : Z := Z.of_nat (length (argv args)).
Definition argv_size (args : execve_args) : Z := u64 (argc args * (sizeof_ptr + 2)).
Definition argv_block (path : string) (args : execve_args) : option block :=
  b ← put 0 (Some path) (Block (argv_size args) ∅);
  b ← put_args 0 (argv args) b;
  put (argc args + 1) None b.

(** What [execve] finds in the block: the strings before the first [NULL]. *)
Fixpoint strings (n : nat) (i : Z) (w : gmap Z (option string)) : list string :=
  match n with
  | O => []
  | S n => match w !! i with Some (Some s) => s :: strings n (i + 1) w | _ => [] end
  end.
Definition block_argv (b : block) : list string := strings (Z.to_nat (b_size b)) 0 (b_words b).

Section suites.
Context (im : image) (undefined : prog verdict).

(** [child_execve], which the suites have in copies: [k] is what follows it when [execve] fails,
    [before] what comes just before the call. *)
Definition with_execve (path : string) (args : execve_args) (before : prog unit) (k : prog verdict) : prog verdict :=
  p ← malloc (argv_size args);
  match p with
  | None => Trap SIGSEGV SIG_DFL
  | Some _ =>
      match argv_block path args with
      | None => undefined
      | Some b => before;; _ ← execve path (block_argv b); k
      end
  end.

(** The checks at the start of the tests. *)
Definition with_args (tc_arg : option execve_args) (k : string -> execve_args -> prog verdict) : prog verdict :=
  match tc_arg with
  | None => Ret (Some "invalid arguement.")
  | Some args =>
      match file_path args with
      | None => Ret (Some "invalid file path.")
      | Some path => k path args
      end
  end.

Definition returned : prog verdict := TP_ASSERT false, Some "Why return from execve() ???" ;; Ret None.

(** ** execve *)

(** 000 reads the path without asking whether there are arguments. *)
Definition execve_000 (tc_arg : option execve_args) : prog verdict :=
  match tc_arg with
  | None => Trap SIGSEGV SIG_DFL
  | Some args =>
      match file_path args with
      | None => Ret (Some "invalid file path.")
      | Some path => _ ← execve path []; Ret None
      end
  end.
Definition execve_001 (tc_arg : option execve_args) : prog verdict :=
  with_args tc_arg (fun path args => with_execve path args (Ret tt) returned).
Definition execve_002 : prog verdict :=
  ret ← execve "UnknownAppFileName" ["UnknownAppFileName"];
  e ← get_errno;
  say ("[execve002] ret=" +:+ d ret +:+ ", errno=" +:+ d e);;
  TP_ASSERT ret =? -1, Some "execve return unknown code" ;;
  Ret None.

(** ** fork_execve *)

Definition say_error (name : string) (r : Z) : prog unit :=
  e ← get_errno; say ("ERROR: " +:+ name +:+ "()=" +:+ d r +:+ ", errno=" +:+ d e).

Definition fork_execve_000 (tc_arg : option execve_args) : prog verdict :=
  with_args tc_arg (fun path args =>
  pid ← fork;
  if pid =? -1 then say_error "fork" pid;; Ret None
  else if pid =? 0 then with_execve path args (Ret tt) returned
  else
    '(result, _) ← wait4 pid 0;
    (if result =? -1 then say_error "wait4" result else Ret tt);;
    Ret None).

(** ** vfork *)

(** The parent of 000 and 002 waits for its child. *)
Definition vfork_parent (pid : Z) : prog verdict :=
  '(result, _) ← wait4 pid 0;
  error ← (if result =? -1 then say_error "wait4" result;; Ret 1 else Ret 0);
  TP_ASSERT error =? 0, Some "TP failed." ;;
  Ret None.

(** [at_lock] is also where the only static variable of the suite, [vfork_global] in 000 and
    [vfork_001_primitive_lock] in 001, lies. *)
Definition vfork_000 (tc_arg : option execve_args) : prog verdict :=
  with_args tc_arg (fun path args =>
  pid ← vfork;
  if pid =? -1 then
    say_error "fork" pid;; TP_ASSERT (1 =? 0), Some "TP failed." ;; Ret None
  else if pid =? 0 then
    with_execve path args (_ ← trigger (LIBC_sleep 1000000); var_store (at_lock im) 1) returned
  else
    vfork_global ← var_load (at_lock im);
    TP_ASSERT negb (vfork_global =? 0), Some "parent process is not wait child execve." ;;
    vfork_parent pid).

Definition vfork_001 (fuel : nat) : prog verdict :=
  ret ← vfork;
  if ret =? -1 then TP_ASSERT false, Some "vfork() Failed." ;; Ret None
  else if ret =? 0 then child_pid im fuel;; exit 0
  else parent_pid im fuel;; Ret None.

Definition vfork_002 (tc_arg : option execve_args) : prog verdict :=
  with_args tc_arg (fun path args =>
  pid ← vfork;
  if pid =? -1 then
    say_error "vfork" pid;; TP_ASSERT (1 =? 0), Some "TP failed." ;; Ret None
  else if pid =? 0 then with_execve path args (Ret tt) returned
  else vfork_parent pid).

(** ** setpgid/004 *)

(** The loop until [setpgid] fails, or the child is gone; [fuel] bounds its turns, and a process that
    is still in it then is regarded as killed.  [k] gets [result] and [_errno]. *)
Fixpoint setpgid_loop (fuel : nat) (child_pid : Z) (k : Z -> Z -> prog verdict) : prog verdict :=
  match fuel with
  | O => Trap SIGKILL SIG_DFL
  | S fuel =>
      set_errno 0;;
      result ← setpgid child_pid child_pid;
      if negb (result =? 0) then e ← get_errno; k result e else
      '(wait_id, wait_status) ← waitpid child_pid WNOHANG;
      TP_ASSERT negb ((0 <? wait_id) && (WIFEXITED wait_status || WIFSIGNALED wait_status)),
        Some "child process exited." ;;
      setpgid_loop fuel child_pid k
  end.

Definition setpgid_004 (fuel : nat) (tc_arg : option execve_args) : prog verdict :=
  with_args tc_arg (fun path args =>
  child_pid ← fork;
  if child_pid =? -1 then say_error "fork" child_pid;; Ret None
  else if child_pid =? 0 then with_execve path args (Ret tt) returned
  else
    setpgid_loop fuel child_pid (fun result _errno =>
    say ("setpgid result:" +:+ d result +:+ ", errno:" +:+ d _errno +:+ " (expect error is " +:+
         quoted "EACCES" +:+ "=" +:+ d EACCES +:+ ")");;
    TP_ASSERT _errno =? EACCES, Some "invalid errno." ;;
    TP_ASSERT result =? -1, Some "Why setpgid didn't failed!?" ;;
    _ ← waitpid child_pid 0;
    Ret None)).

End suites.
End Exec.
