(* ===== verification/ForkRuns.v ===== *)
(** * The process suites in every interleaving

    The tests of Fork.v and Exec.v on kernels that behave as documented (ProcSpec.v): the verdicts that
    are possible where processes can be created and where they cannot. *)
From S2P Require Import Prelude CMachine Procs ProcSpec Libc Fork Exec PtraceRuns.
Import Procs ProcSpec Fork.Fork Exec.Exec PtraceRuns.
#[local] Open Scope Z_scope.

Module ForkRuns.

(** Where the linker puts the static variables; six bytes are read behind the literal. *)
Definition lock_at : Z := 0x601000.
Definition sig_count_at : Z := 0x601010.
Definition placed (strerror : Z -> string) (b1 b2 b3 b4 b5 b6 : Z) (stale : Z -> Z) : Fork.image :=
  Fork.Image lock_at sig_count_at strerror [b1; b2; b3; b4; b5; b6] stale.

(** A test process of the group [g]; [ok]: processes can be created; [progs]: the programs there are;
    [first]: a call that can be answered is answered when a signal arrives. *)
Definition boot_fork (im : Fork.image) (ok : bool) (g : Z) (progs : string -> option Z) (first : bool) : kern :=
  boot_in g [lock_at; sig_count_at] (Config true true ok true first [] progs (handlers im)).

Definition failed (msg : string) : option (outcome verdict) := Some (Returned (Some msg)).

(** ** Creating processes and waiting for them *)

(** The tests, with their setup where it makes requests, and the verdicts where processes can be
    created and where they cannot; the kill suite with one child that looks three
    times for the signal.  wait4/000 and 003 and waitid/000 do not notice that there was no
    child.  The handler of wait4/002 does not restart the call that it interrupts: unless the kernel
    answers the call first, the test can also find it failed.  The handler of 003 restarts it. *)
Definition fork_table (im : Fork.image) (fuel : nat) (first : bool) :
    list (prog verdict * list (option (outcome verdict)) * list (option (outcome verdict))) :=
  [(fork_000 im fuel, [pass], [failed "fork() Failed."]);
   (wait4_000, [pass], [pass]);
   (wait4_002_setup im;; wait4_002 im, if first then [pass] else [pass; failed "wait4 failed."], [failed "Parent process has not received a SIGCHLD."]);
   (wait4_003_setup;; wait4_003, [pass], [pass]);
   (waitid_000, [pass], [pass]);
   (getppid_000 im, [pass], [failed "fork faild."]);
   (setpgid_000 im, [pass], [failed "fork faild."]);
   (setpgid_001, [pass], [pass]);
   (setpgid_002, [pass], [pass]);
   (setpgid_003, [pass], [pass]);
   (gettid_000, [pass], [pass]);
   (vfork_001 im fuel, [pass], [failed "vfork() Failed."]);
   (kill_000 im 2 1, [pass], [failed "child process nothing."]);
   (kill_001 im 2 1, [pass], [failed "child process nothing."]);
   (kill_002 im 2 1, [pass], [failed "child process nothing."])].

Definition table_holds (s : bool -> kern)
    (l : list (prog verdict * list (option (outcome verdict)) * list (option (outcome verdict)))) : bool :=
  forallb (fun '(p, l1, l2) =>
    results_b depth (@start Spec p (s true)) l1 && results_b depth (@start Spec p (s false)) l2) l.

Lemma table_sound s l p l1 l2 (ok : bool) :
  table_holds s l = true -> (p, l1, l2) ∈ l ->
  results_b depth (@start Spec p (s ok)) (if ok then l1 else l2) = true.
Proof.
  unfold table_holds. rewrite forallb_forall. intros Hall Hin%list_elem_of_In.
  apply Hall, andb_true_iff in Hin as [H1 H2]. by destruct ok.
Qed.

Lemma fork_table_holds strerror b1 b2 b3 b4 b5 b6 stale fuel progs first :
  let im := placed strerror b1 b2 b3 b4 b5 b6 stale in
  table_holds (fun ok => boot_fork im ok main_pid progs first) (fork_table im (S fuel) first) = true.
Proof. destruct first; vm_compute; reflexivity. Qed.

(** ** The vector of arguments *)

Lemma put_spec i s b :
  0 <= i ->
  put i s b = if sizeof_ptr * (i + 1) <=? b_size b then Some (Block (b_size b) (<[i := s]> (b_words b))) else None.
Proof. intros Hi. unfold put. replace (0 <=? i) with true by lia. reflexivity. Qed.

(** The loop stores the arguments behind [i] when there is room for the last one. *)
Lemma put_args_spec l i b :
  0 <= i ->
  match put_args i l b with
  | Some b' =>
      (l <> [] -> sizeof_ptr * (i + Z.of_nat (length l) + 1) <= b_size b) /\ b_size b' = b_size b /\
      (forall j, j <= i -> b_words b' !! j = b_words b !! j) /\
      (forall k s, l !! k = Some s -> b_words b' !! (i + 1 + Z.of_nat k) = Some (Some s))
  | None => b_size b < sizeof_ptr * (i + Z.of_nat (length l) + 1)
  end.
Proof.
  revert i b. induction l as [|s l IH]; intros i b Hi; simpl.
  - by split_and!.
  - unfold sizeof_ptr in *. rewrite put_spec by lia. unfold sizeof_ptr.
    destruct (Z.leb_spec (8 * (i + 1 + 1)) (b_size b)) as [Hle|Hlt]; simpl; [|lia].
    specialize (IH (i + 1) (Block (b_size b) (<[i + 1 := Some s]> (b_words b)))). simpl in IH.
    destruct (put_args _ _ _) as [b'|]; [|lia].
    destruct IH as (Hfit & Hsz & Hold & Hnew); [lia|]. split_and!; [|done| |].
    + intros _. destruct l as [|s2 l]; [simpl; lia|]. specialize (Hfit ltac:(done)). simpl length in *. lia.
    + intros j Hj. rewrite Hold by lia. apply lookup_insert_ne. lia.
    + intros [|k] s' Hk; simpl in Hk.
      * injection Hk as ->. replace (i + 1 + Z.of_nat 0) with (i + 1) by lia.
        rewrite Hold by lia. apply lookup_insert_eq.
      * replace (i + 1 + Z.of_nat (S k)) with (i + 1 + 1 + Z.of_nat k) by lia. by apply Hnew.
Qed.

Lemma strings_spec l n i w :
  (forall k s, l !! k = Some s -> w !! (i + Z.of_nat k) = Some (Some s)) ->
  w !! (i + Z.of_nat (length l)) = Some None -> (length l < n)%nat -> strings n i w = l.
Proof.
  revert n i. induction l as [|s l IH]; intros [|n] i Hw Hend Hn; simpl in *; try lia.
  - rewrite Z.add_0_r in Hend. by rewrite Hend.
  - pose proof (Hw 0%nat s eq_refl) as H0. rewrite Z.add_0_r in H0. rewrite H0. f_equal. apply IH; [| |lia].
    + intros k s' Hk. replace (i + 1 + Z.of_nat k) with (i + Z.of_nat (S k)) by lia. by apply Hw.
    + by replace (i + 1 + Z.of_nat (length l)) with (i + Z.of_nat (S (length l))) by lia.
Qed.

(** The block that [child_execve] allocates for the vector of arguments, ten bytes an argument,
    holds the path, the arguments and the final null pointer exactly when there are at least eight
    arguments; [execve] is then given the path and the arguments.  With fewer arguments a store is
    outside of the block. *)
Theorem argv_block_fits path args :
  argc args * 10 < 2 ^ 64 ->
  match argv_block path args with
  | Some b => 8 <= argc args /\ block_argv b = path :: argv args
  | None => argc args < 8
  end.
Proof.
  intros Hbig. unfold argv_block, argv_size. assert (0 <= argc args) as Hpos by (unfold argc; lia).
  rewrite (wrap_u_small 64) by (unfold sizeof_ptr; lia). rewrite put_spec by lia.
  unfold sizeof_ptr. cbn [b_size b_words].
  replace (8 * (0 + 1)) with 8 by done. replace (8 + 2) with 10 by done.
  destruct (Z.leb_spec 8 (argc args * 10)); [|simpl; lia].
  rewrite insert_empty. simpl mbind.
  pose proof (put_args_spec (argv args) 0 (Block (argc args * 10) {[0 := Some path]}) (Z.le_refl 0)) as Hargs.
  unfold sizeof_ptr in Hargs. cbn [b_size b_words] in Hargs.
  destruct (put_args _ _ _) as [b|]; [|simpl; unfold argc in *; lia].
  destruct Hargs as (_ & Hsz & Hold & Hnew). simpl mbind. rewrite put_spec, Hsz by lia. unfold sizeof_ptr.
  destruct (Z.leb_spec (8 * (argc args + 1 + 1)) (argc args * 10)); [|simpl; lia]. simpl. split; [lia|].
  unfold block_argv. simpl. apply strings_spec.
  - intros [|k] s Hk; simpl in Hk.
    + injection Hk as ->. rewrite lookup_insert_ne by lia. by rewrite Hold.
    + pose proof (lookup_lt_Some _ _ _ Hk). rewrite lookup_insert_ne by (unfold argc; lia).
      replace (0 + Z.of_nat (S k)) with (0 + 1 + Z.of_nat k) by lia. by apply Hnew.
  - replace (0 + Z.of_nat (length (path :: argv args))) with (argc args + 1) by (unfold argc; simpl; lia).
    apply lookup_insert_eq.
  - unfold argc in *. simpl. lia.
Qed.

(** ** Executing programs *)

(** The verdicts where the program can be executed, and where there is none.  fork_execve/000 passes in
    both cases, since the verdict of the child is lost. *)
Definition no_programs (path : string) : option Z := None.
Definition any_program (path : string) : option Z := Some EXIT_SUCCESS.
Definition exec_table (undefined : prog verdict) (args : option execve_args) :=
  [(execve_000 args, [Some (Exited EXIT_SUCCESS)], [pass]);
   (execve_001 undefined args, [Some (Exited EXIT_SUCCESS)], [failed "Why return from execve() ???"]);
   (fork_execve_000 undefined args, [pass], [pass])].

(** The verdicts where processes can be created and where they cannot. *)
Definition vfork_table (im : Fork.image) (undefined : prog verdict) (args : option execve_args) :=
  [(fork_execve_000 undefined args, [pass], [pass]);
   (vfork_000 im undefined args, [pass], [failed "TP failed."]);
   (vfork_002 undefined args, [pass], [failed "TP failed."])].

Section tables.
Context (strerror : Z -> string) (b1 b2 b3 b4 b5 b6 : Z) (stale : Z -> Z).
Let im := placed strerror b1 b2 b3 b4 b5 b6 stale.
Context (undefined : prog verdict) (path : string) (l : list string) (b : block).
Hypothesis Hb : argv_block path (ExecArgs (Some path) l) = Some b.
Let args := Some (ExecArgs (Some path) l).

Lemma exec_table_holds first :
  table_holds (fun ok => boot_fork im true main_pid (if ok then any_program else no_programs) first)
    (exec_table undefined args) = true.
Proof.
  unfold exec_table, execve_001, fork_execve_000, with_args, args, with_execve. cbn [file_path]. rewrite Hb.
  vm_compute. reflexivity.
Qed.

Lemma vfork_table_holds first :
  table_holds (fun ok => boot_fork im ok main_pid any_program first) (vfork_table im undefined args) = true.
Proof.
  unfold vfork_table, vfork_000, vfork_002, fork_execve_000, with_args, args, with_execve. cbn [file_path].
  rewrite Hb. vm_compute. reflexivity.
Qed.
End tables.


(** ** On every kernel *)

Section kernel.
Context `{ProcLaws} (strerror : Z -> string) (b1 b2 b3 b4 b5 b6 : Z) (stale : Z -> Z).
Let im := placed strerror b1 b2 b3 b4 b5 b6 stale.

(** C25: On every kernel that answers their requests like [Spec], the tests of the fork, wait4, waitid,
    getppid, setpgid, gettid, vfork and kill suites in [fork_table] end in every interleaving of their
    processes and signals, without deadlock, with exactly the verdicts of the table.  They pass where
    processes can be created, but for wait4/002, whose handler of SIGCHLD does not restart the call: it
    can also fail in wait4 where the kernel may interrupt a call that it could answer; wait4/003,
    whose handler restarts it, cannot.  Where no process can be created, wait4/000, wait4/003 and
    waitid/000 pass without having waited for anybody. *)
Theorem fork_verdicts fuel (ok first : bool) progs p l1 l2 s :
  view s = boot_fork im ok main_pid progs first -> (p, l1, l2) ∈ fork_table im (S fuel) first ->
  results (start p s) (if ok then l1 else l2).
Proof.
  intros E Hin. apply (results_b_view depth _ _ _ _ E).
  apply (table_sound (fun ok => boot_fork im ok main_pid progs first) _ _ _ _ ok
           (fork_table_holds strerror b1 b2 b3 b4 b5 b6 stale fuel progs first) Hin).
Qed.

(** With at least eight arguments, on every kernel that answers like [Spec]: the program given
    with [-f] takes the place of execve/000 and 001, and where there is no such program 000 passes and
    001 fails; fork_execve/000 passes in every interleaving, also when its child could not execute the
    program and failed. *)
Theorem exec_verdicts undefined path l (ok first : bool) p l1 l2 s :
  8 <= Z.of_nat (length l) < 2 ^ 60 ->
  view s = boot_fork im true main_pid (if ok then any_program else no_programs) first ->
  (p, l1, l2) ∈ exec_table undefined (Some (ExecArgs (Some path) l)) ->
  results (start p s) (if ok then l1 else l2).
Proof.
  intros Hl E Hin. pose proof (argv_block_fits path (ExecArgs (Some path) l)) as Hb. unfold argc in Hb. simpl in Hb.
  destruct (argv_block _ _) as [b|] eqn:Eb; [|lia]. apply (results_b_view depth _ _ _ _ E).
  apply (table_sound (fun ok => boot_fork im true main_pid (if ok then any_program else no_programs) first) _ _ _ _ ok
           (exec_table_holds strerror b1 b2 b3 b4 b5 b6 stale undefined path l b Eb first) Hin).
Qed.

(** With at least eight arguments and a program that can be executed, vfork/000 and 002 pass in
    every interleaving: the parent is suspended until the child has executed the program, and sees the
    variable that the child has set; where no process can be created both fail, and fork_execve/000
    passes. *)
Theorem vfork_verdicts undefined path l (ok first : bool) p l1 l2 s :
  8 <= Z.of_nat (length l) < 2 ^ 60 ->
  view s = boot_fork im ok main_pid any_program first ->
  (p, l1, l2) ∈ vfork_table im undefined (Some (ExecArgs (Some path) l)) ->
  results (start p s) (if ok then l1 else l2).
Proof.
  intros Hl E Hin. pose proof (argv_block_fits path (ExecArgs (Some path) l)) as Hb. unfold argc in Hb. simpl in Hb.
  destruct (argv_block _ _) as [b|] eqn:Eb; [|lia]. apply (results_b_view depth _ _ _ _ E).
  apply (table_sound (fun ok => boot_fork im ok main_pid any_program first) _ _ _ _ ok
           (vfork_table_holds strerror b1 b2 b3 b4 b5 b6 stale undefined path l b Eb first) Hin).
Qed.

(** The processes act in the order of a list; the test is then over with the result [o]. *)
Lemma scheduled p s k l o (Q : @world Spec -> bool) :
  Some o <> unspecified -> view s = k ->
  match follow l (@start Spec p k) with
  | Some w => outcome_eqb (result w) (Some o) && Q w
  | None => false
  end = true ->
  exists w tr, steps (start p s) tr w /\ result w = Some o /\ Q (view_world w) = true.
Proof.
  apply (sim_scheduled (K' := Spec) view view_sched).
Qed.

(** The child is about to read what the parent wrote. *)
Definition about_to_read (w : @world Spec) : bool :=
  match threads w !! (main_pid + 1) with Some (Vis (SYS_read _ _) _, _) => true | _ => false end.

(** The second synchronisation of getppid/000 and setpgid/000 does not synchronise: of the 17 bytes
    the child writes first the parent reads 16, and its second [read] gets the byte that is left.  So
    there is an interleaving in which the parent has closed the pipes and passed while the child has
    not yet read its answer, let alone compared it. *)
Theorem second_sync_does_not_wait (p : prog verdict) progs first s :
  p = getppid_000 im \/ p = setpgid_000 im -> view s = boot_fork im true main_pid progs first ->
  exists w tr, steps (start p s) tr w /\ result w = Some (Returned None) /\
    about_to_read (view_world w) = true.
Proof.
  intros Hp E. destruct Hp as [-> | ->].
  - by apply (scheduled _ _ _ ([100; 100; 100; 101; 101] ++ replicate 9 100) (Returned None) about_to_read ltac:(done) E); vm_compute.
  - by apply (scheduled _ _ _ ([100; 100; 100; 101; 101; 101] ++ replicate 9 100) (Returned None) about_to_read ltac:(done) E); vm_compute.
Qed.

(** setpgid/004 races with the program its child executes: in one interleaving the program is
    running when the parent calls [setpgid], which is refused, and the test passes; in another one it
    has left before the parent looks, and the test fails although [setpgid] did nothing wrong.  This
    holds for every bound on the turns of its loop but 0. *)
Theorem setpgid_004_race undefined path l fuel first s :
  8 <= Z.of_nat (length l) < 2 ^ 60 -> view s = boot_fork im true main_pid any_program first ->
  may (eq pass) (start (setpgid_004 undefined (S fuel) (Some (ExecArgs (Some path) l))) s) /\
  may (eq (failed "child process exited.")) (start (setpgid_004 undefined (S fuel) (Some (ExecArgs (Some path) l))) s).
Proof.
  intros Hl E. pose proof (argv_block_fits path (ExecArgs (Some path) l)) as Hb. unfold argc in Hb. simpl in Hb.
  destruct (argv_block _ _) as [b|] eqn:Eb; [|lia].
  split; (apply may_view; [done|]); rewrite (view_start _ _ _ E); unfold setpgid_004, with_args, with_execve;
    cbn [file_path]; rewrite Eb.
  - apply (may_scheduled [100; 101; 101; 100; 101; 100; 100]). by vm_compute.
  - apply (may_scheduled [100; 100; 101; 101; 101; 100; 100]). by vm_compute.
Qed.

(** setpgid/003 expects that moving into the group behind its own is refused; but when that group
    has the number of the process itself, as it has for a process started by the leader of its group
    just after the leader got its number, the call succeeds and the test fails. *)
Theorem setpgid_003_next_group (ok first : bool) progs s :
  view s = boot_fork im ok (main_pid - 1) progs first ->
  results (start setpgid_003 s) [failed "Why setpgid didn't failed!?"].
Proof.
  intros E. apply (results_b_view depth _ _ _ _ E).
  by destruct ok; vm_compute.
Qed.

End kernel.

(** ** The theorems at work *)

Definition im0 : Fork.image := placed no_text 0 0 0 0 0 0 (fun _ => 0).
Definition nine : list string := replicate 9 "x".

Lemma fork_verdicts_witness :
  results (@start Spec wait4_000 (boot_fork im0 false main_pid no_programs true)) [pass] /\
  results (@start Spec (wait4_002_setup im0;; wait4_002 im0) (boot_fork im0 true main_pid no_programs false))
    [pass; failed "wait4 failed."] /\
  results (@start Spec (wait4_003_setup;; wait4_003) (boot_fork im0 true main_pid no_programs false)) [pass].
Proof.
  split; [|split].
  - apply (@fork_verdicts Spec SpecLaws no_text 0 0 0 0 0 0 (fun _ => 0) 0 false true no_programs _ [pass] [pass]);
      [reflexivity|right; left].
  - apply (@fork_verdicts Spec SpecLaws no_text 0 0 0 0 0 0 (fun _ => 0) 0 true false no_programs _
             [pass; failed "wait4 failed."] [failed "Parent process has not received a SIGCHLD."]);
      [reflexivity|do 2 right; left].
  - apply (@fork_verdicts Spec SpecLaws no_text 0 0 0 0 0 0 (fun _ => 0) 0 true false no_programs _ [pass] [pass]);
      [reflexivity|do 3 right; left].
Defined.

Lemma exec_verdicts_witness :
  results (@start Spec (fork_execve_000 (Ret None) (Some (ExecArgs (Some "prog") nine)))
    (boot_fork im0 true main_pid no_programs true)) [pass].
Proof.
  apply (@exec_verdicts Spec SpecLaws no_text 0 0 0 0 0 0 (fun _ => 0) (Ret None) "prog" nine false true
           (fork_execve_000 (Ret None) (Some (ExecArgs (Some "prog"%string) nine))) [pass] [pass]
           (boot_fork im0 true main_pid no_programs true)); [split; reflexivity || discriminate|reflexivity|].
  do 2 right. left.
Defined.

Lemma vfork_verdicts_witness :
  results (@start Spec (vfork_000 im0 (Ret None) (Some (ExecArgs (Some "prog") nine)))
    (boot_fork im0 true main_pid any_program true)) [pass].
Proof.
  apply (@vfork_verdicts Spec SpecLaws no_text 0 0 0 0 0 0 (fun _ => 0) (Ret None) "prog" nine true true
           (vfork_000 im0 (Ret None) (Some (ExecArgs (Some "prog"%string) nine))) [pass] [failed "TP failed."]
           (boot_fork im0 true main_pid any_program true)); [split; reflexivity || discriminate|reflexivity|].
  right. left.
Defined.

Lemma argv_block_fits_witness :
  argc (ExecArgs (Some "prog") ["x"]) < 8 /\ argv_block "prog" (ExecArgs (Some "prog") ["x"]) = None.
Proof.
  split; [reflexivity|]. pose proof (argv_block_fits "prog" (ExecArgs (Some "prog"%string) ["x"%string]) eq_refl) as H.
  destruct (argv_block _ _) eqn:E; [|reflexivity]. destruct H as [H _]. by compute in H.
Defined.

Lemma second_sync_does_not_wait_witness :
  exists w tr, steps (@start Spec (getppid_000 im0) (boot_fork im0 true main_pid no_programs true)) tr w /\
    result w = Some (Returned None) /\ about_to_read (view_world (H := SpecLaws) w) = true.
Proof.
  apply (@second_sync_does_not_wait Spec SpecLaws no_text 0 0 0 0 0 0 (fun _ => 0) (getppid_000 im0) no_programs true
           (boot_fork im0 true main_pid no_programs true)); [by left|reflexivity].
Defined.

Lemma setpgid_004_race_witness :
  may (eq pass) (@start Spec (setpgid_004 (Ret None) 1 (Some (ExecArgs (Some "prog") nine)))
    (boot_fork im0 true main_pid any_program true)).
Proof.
  apply (@setpgid_004_race Spec SpecLaws no_text 0 0 0 0 0 0 (fun _ => 0) (Ret None) "prog" nine 0 true
           (boot_fork im0 true main_pid any_program true)); [split; reflexivity || discriminate|reflexivity].
Defined.

Lemma setpgid_003_next_group_witness :
  results (@start Spec setpgid_003 (boot_fork im0 true (main_pid - 1) no_programs true))
    [failed "Why setpgid didn't failed!?"].
Proof.
  apply (@setpgid_003_next_group Spec SpecLaws no_text 0 0 0 0 0 0 (fun _ => 0) true true no_programs
           (boot_fork im0 true (main_pid - 1) no_programs true)). reflexivity.
Defined.

End ForkRuns.
