(* ===== verification/WaitAll.v ===== *)
(** * waitid/002 with any number of children

    The test forks as many children as it is told and waits for any of them as often.  Exploring the
    interleavings settles the test for one number of children at a time; here an invariant settles it
    for all: the world is described by what the parent still has to do and how far each child is. *)
From S2P Require Import Prelude CMachine Procs ProcSpec Libc Fork PtraceRuns ForkRuns.
Import Procs ProcSpec Fork.Fork PtraceRuns ForkRuns.
#[local] Open Scope Z_scope.

Module WaitAll.

#[local] Existing Instance Spec.

(** ** What is left to do *)

(** The parent: children to fork, from number [i] on, or to wait for. *)
Inductive phase : Set := Forking (j : nat) (i : Z) | Waiting (j : nat).

(** A child: its number in the loop, and how many requests it still makes; 0 is a dead child. *)
Definition kid : Set := Z * nat.

Definition parent_prog (n : nat) (ph : phase) : prog verdict :=
  match ph with
  | Forking j i => fork_loop waitid_002_child j i (pid ← getpid; waitid_002_loop n pid)
  | Waiting j => waitid_002_loop j main_pid
  end.
Definition kid_prog (k : kid) : prog verdict :=
  match k.2 with
  | 3 => waitid_002_child k.1
  | 2 =>
      pid ← getpid;
      say ("[child:" +:+ d5 pid +:+ "] sleep " +:+ d (k.1 + 1) +:+ "sec done.");; exit 0
  | _ => exit 0
  end%nat.

(** How many children there are to be in all, and how many steps are left. *)
Definition to_come (ph : phase) : nat := match ph with Forking j _ => j | Waiting _ => 0 end.
Definition to_wait (n : nat) (ph : phase) : nat := match ph with Forking _ _ => n | Waiting j => j end.
Definition kids_left (kids : gmap Z kid) : nat := map_fold (fun _ k n => k.2 + n)%nat O kids.
Definition left (n : nat) (ph : phase) (kids : gmap Z kid) : nat :=
  match ph with
  | Forking j _ => 4 * j + n + 3 + kids_left kids
  | Waiting j => j + 2 + kids_left kids
  end%nat.

(** ** The invariant *)

(** A process of the test about which nothing special is known to the kernel. *)
Record plain (b : pcb) : Prop := Plain {
  plain_tracer : tracer b = None;
  plain_pending : pending b = [];
  plain_lender : lender (jobs b) = None;
  plain_actions : actions (jobs b) = ∅
}.

Definition kid_state (k : kid) (b : pcb) : Prop :=
  match k.2 with O => exists st, state b = Dead st | S _ => state b = Running end.

(** The world while the test runs: the parent is at [ph], the children are [kids]. *)
Record at_work (n : nat) (ph : phase) (kids : gmap Z kid) (w : @world Spec) : Prop := AtWork {
  aw_result : result w = None;
  aw_main : exists e, threads w !! main_pid = Some (settle (parent_prog n ph) e);
  aw_main_pcb : exists b, procs (kst w) !! main_pid = Some b /\ plain b /\ state b = Running /\ parent b = 1;
  aw_kids : forall pid k, kids !! pid = Some k ->
    main_pid < pid < next_pid (kst w) /\
    exists b, procs (kst w) !! pid = Some b /\ plain b /\ parent b = main_pid /\ kid_state k b;
  aw_thread : forall pid k, kids !! pid = Some k ->
    (0 < k.2)%nat -> exists e, threads w !! pid = Some (settle (kid_prog k) e);
  aw_others : forall pid, pid <> main_pid -> kids !! pid = None -> procs (kst w) !! pid = None;
  aw_dead : forall pid t, pid <> main_pid -> threads w !! pid = Some t ->
    exists k, kids !! pid = Some k /\ (0 < k.2)%nat;
  aw_count : (size kids + to_come ph = to_wait n ph)%nat;
  aw_stages : forall pid k, kids !! pid = Some k -> (k.2 <= 3)%nat;
  aw_fork : may_fork (conf (kst w)) = true;
  aw_next : main_pid < next_pid (kst w)
}.

Definition invariant (n m : nat) (w : @world Spec) : Prop :=
  result w = pass \/ exists ph kids, at_work n ph kids w /\ m = left n ph kids.

(** ** Steps in general *)

Lemma step_replied (w : @world Spec) pid c k e r s :
  result w = None -> threads w !! pid = Some (Vis c k, e) ->
  sched pid (Request c) (kst w) = Some (@Replied (Request c) r, s) ->
  step pid w = Some (World s (spawn c r k e (<[pid := settle (k r) e]> (threads w))) None).
Proof. intros Hr Ht Es. unfold step. rewrite Hr, Ht. simpl. by rewrite Es. Qed.

Lemma sched_request me b c s :
  procs s !! me = Some b -> state b = Running -> plain b -> specified b c = true ->
  sched me (Request c) s = '(r, s) ← request me b c s; Some (@Replied (Request c) r, s).
Proof.
  intros Hb Hst [_ Hp _ Ha] Hc. unfold sched. rewrite Hb. simpl. rewrite Hst, Hp. unfold answer. rewrite Hc. simpl.
  destruct (request me b c s) as [[r s']|]; [done|]. unfold interruptible. by rewrite Ha, andb_false_r.
Qed.

Lemma sched_leave me b st s :
  procs s !! me = Some b -> state b = Running -> pending b = [] ->
  sched me (Leave st) s = Some (@Replied (Leave st) tt, die me st s).
Proof. intros Hb Hst Hp. unfold sched. rewrite Hb. simpl. by rewrite Hst, Hp. Qed.

(** ** Counting *)

Lemma kids_left_insert kids pid k :
  kids !! pid = None -> kids_left (<[pid := k]> kids) = (k.2 + kids_left kids)%nat.
Proof. intros Hn. unfold kids_left. rewrite map_fold_insert_L; [done| |done]. intros. lia. Qed.

Lemma kids_left_delete kids pid k :
  kids !! pid = Some k -> kids_left kids = (k.2 + kids_left (delete pid kids))%nat.
Proof.
  intros Hk. rewrite <- (insert_delete_id kids pid k) at 1 by done.
  by rewrite kids_left_insert by apply lookup_delete_eq.
Qed.

Lemma kids_left_update kids pid k k' :
  kids !! pid = Some k -> (k'.2 < k.2)%nat -> (kids_left (<[pid := k']> kids) < kids_left kids)%nat.
Proof.
  intros Hk Hlt. rewrite (kids_left_delete kids pid k Hk), (kids_left_delete _ pid k') by apply lookup_insert_eq.
  rewrite delete_insert_eq. lia.
Qed.

(** ** The order in which the kernel looks at processes *)

Lemma insert_sorted_perm x l : insert_sorted x l ≡ₚ x :: l.
Proof.
  induction l as [|y l IH]; simpl; [done|]. destruct (below x y); [done|]. rewrite IH. constructor.
Qed.

Lemma in_order_perm m : in_order m ≡ₚ map_to_list m.
Proof.
  unfold in_order. induction (map_to_list m) as [|x l IH]; simpl; [done|]. by rewrite insert_sorted_perm, IH.
Qed.

Lemma elem_of_in_order m q b : (q, b) ∈ in_order m <-> m !! q = Some b.
Proof. rewrite in_order_perm. apply elem_of_map_to_list. Qed.

(** ** A plain process dies *)

Lemma orphan_plain me b : plain b -> parent b <> me -> orphan me b = b.
Proof.
  intros [Ht _ _ _] Hp. unfold orphan, traced_by. rewrite (proj2 (Z.eqb_neq _ _) Hp), Ht. done.
Qed.

Lemma listens_plain sig b : plain b -> listens sig b = false.
Proof. intros [Ht _ _ Ha]. unfold listens. by rewrite Ht, Ha. Qed.

Definition plain_others (me : Z) (s : kern) : Prop :=
  forall q b, procs s !! q = Some b -> plain b /\ parent b <> me.

(** Nobody else notices. *)
Lemma die_plain me b st s :
  procs s !! me = Some b -> plain_others me s ->
  next_pid (die me st s) = next_pid s /\ conf (die me st s) = conf s /\
  (exists b', procs (die me st s) !! me = Some b' /\ plain b' /\ parent b' = parent b /\ state b' = Dead st) /\
  (forall q, q <> me -> procs (die me st s) !! q = procs s !! q).
Proof.
  intros Hb Hall. destruct (Hall me b Hb) as [Hpl Hne]. pose proof Hpl as [Ht Hp Hl Ha].
  assert (orphan me <$> procs s = procs s) as Horp.
  { apply map_eq. intros q. rewrite lookup_fmap. destruct (procs s !! q) as [b'|] eqn:Eq; [|done].
    destruct (Hall q b' Eq). simpl. by rewrite orphan_plain. }
  unfold die. rewrite Hb. unfold give_back. rewrite Hl. unfold notify, upd, set_procs. simpl. rewrite Horp.
  split_and!; [done..| |].
  - rewrite lookup_alter_ne by done. rewrite lookup_alter_eq, Hb. simpl. eexists. split; [done|].
    split; [|done]. by split.
  - intros q Hq. destruct (decide (q = parent b)) as [->|Hq2].
    + rewrite lookup_alter_eq, lookup_alter_ne by done. destruct (procs s !! parent b) as [b'|] eqn:Eq; [|done].
      simpl. rewrite (listens_plain SIGCHLD b') by (by apply (Hall (parent b))). by rewrite andb_false_r.
    + by rewrite !lookup_alter_ne by done.
Qed.

Section steps.
Context (n : nat).

Lemma at_work_plain ph kids w me :
  at_work n ph kids w -> me <> 1 -> me <> main_pid -> plain_others me (kst w).
Proof.
  intros Hw H1 Hm q b Hq. destruct (decide (q = main_pid)) as [->|Hne].
  - destruct (aw_main_pcb _ _ _ _ Hw) as (b' & E & Hpl & _ & Hp). simplify_eq. split; [done|congruence].
  - destruct (kids !! q) as [k|] eqn:Ek.
    + destruct (aw_kids _ _ _ _ Hw _ _ Ek) as (_ & b' & E & Hpl & Hp & _). simplify_eq. split; [done|congruence].
    + by rewrite (aw_others _ _ _ _ Hw) in Hq.
Qed.

(** ** A child goes on *)

Lemma at_work_kid ph kids w pid i st e :
  at_work n ph kids w -> kids !! pid = Some (i, S (S st)) ->
  at_work n ph (<[pid := (i, S st)]> kids)
    (World (kst w) (<[pid := settle (kid_prog (i, S st)) e]> (threads w)) None).
Proof.
  intros [Hr Hm Hmb Hk Ht Ho Hd Hc Hs Hf Hn] E. destruct (Hk _ _ E) as (Hpid & b & Hb & Hpl & Hpar & Hst).
  constructor; simpl; try done.
  - rewrite lookup_insert_ne by lia. done.
  - intros q k [[<- <-]|[Hne Hq]]%lookup_insert_Some; [|by apply Hk]. split; [done|]. by exists b.
  - intros q k [[<- <-]|[Hne Hq]]%lookup_insert_Some Hlt.
    + exists e. apply lookup_insert_eq.
    + rewrite lookup_insert_ne by done. by apply (Ht q k).
  - intros q Hq [Hnone _]%lookup_insert_None. by apply Ho.
  - intros q t Hq [[<- _]|[Hne Hl]]%lookup_insert_Some.
    + exists (i, S st). split; [apply lookup_insert_eq|simpl; lia].
    + destruct (Hd q t Hq Hl) as (k & Hkq & Hlt). exists k. by rewrite lookup_insert_ne.
  - by rewrite map_size_insert_Some by done.
  - intros q k [[<- <-]|[Hne Hq]]%lookup_insert_Some; [|by apply (Hs q)]. specialize (Hs _ _ E). simpl in *. lia.
Qed.

Lemma at_work_dead ph kids w pid i st o :
  at_work n ph kids w -> kids !! pid = Some (i, 1%nat) ->
  at_work n ph (<[pid := (i, O)]> kids) (gone pid o (die pid st (kst w)) w).
Proof.
  intros Hw E. pose proof Hw as [Hr Hm Hmb Hk Ht Ho Hd Hc Hs Hf Hn].
  destruct (Hk _ _ E) as (Hpid & b & Hb & Hpl & Hpar & Hst).
  destruct (die_plain pid b st (kst w) Hb) as (Hn' & Hc' & (b' & Hb' & Hpl' & Hpar' & Hdead) & Hsame).
  { apply (at_work_plain _ _ _ _ Hw); unfold main_pid in *; lia. }
  constructor; unfold gone; simpl; rewrite ?Hn', ?Hc'; try done.
  - by rewrite (proj2 (Z.eqb_neq pid main_pid)) by lia.
  - rewrite lookup_delete_ne by lia. done.
  - destruct Hmb as (bm & Hbm & Hrest). exists bm. rewrite Hsame by lia. done.
  - intros q k [[<- <-]|[Hne Hq]]%lookup_insert_Some.
    + split; [done|]. exists b'. split_and!; [done..|congruence|]. by exists st.
    + rewrite Hsame by done. by apply Hk.
  - intros q k [[<- <-]|[Hne Hq]]%lookup_insert_Some Hlt; [simpl in Hlt; lia|].
    rewrite lookup_delete_ne by done. by apply (Ht q k).
  - intros q Hq [Hnone Hne]%lookup_insert_None. rewrite Hsame by done. by apply Ho.
  - intros q t Hq [Hne Hl]%lookup_delete_Some. destruct (Hd q t Hq Hl) as (k & Hkq & Hlt).
    exists k. by rewrite lookup_insert_ne.
  - by rewrite map_size_insert_Some by done.
  - intros q k [[<- <-]|[Hne Hq]]%lookup_insert_Some; [simpl; lia|by apply (Hs q)].
Qed.

(** The requests of a child are answered at once. *)
Lemma kid_request ph kids w pid i st c K r :
  at_work n ph kids w -> kids !! pid = Some (i, S (S st)) ->
  (forall e, settle (kid_prog (i, S (S st))) e = (Vis c K, e)) ->
  (forall e, settle (K r) e = settle (kid_prog (i, S st)) e) ->
  (forall b, specified b c = true /\ request pid b c (kst w) = Some (r, kst w)) ->
  (forall e ts, spawn c r K e ts = ts) ->
  exists w', step pid w = Some w' /\ at_work n ph (<[pid := (i, S st)]> kids) w'.
Proof.
  intros Hw E Hc HK Hreq Hsp. destruct (aw_kids _ _ _ _ Hw _ _ E) as (_ & b & Hb & Hpl & _ & Hst).
  destruct (aw_thread _ _ _ _ Hw _ _ E) as [e Ht]; [simpl; lia|]. rewrite Hc in Ht.
  eexists. split; [|by apply (at_work_kid _ _ _ _ _ _ e Hw E)].
  erewrite step_replied; [|apply (aw_result _ _ _ _ Hw)|exact Ht|].
  - by rewrite Hsp, HK.
  - rewrite (sched_request _ _ _ _ Hb Hst Hpl) by apply Hreq. by rewrite (proj2 (Hreq b)).
Qed.

Lemma kid_step ph kids w pid i st :
  at_work n ph kids w -> kids !! pid = Some (i, S st) ->
  exists w', step pid w = Some w' /\ at_work n ph (<[pid := (i, st)]> kids) w'.
Proof.
  intros Hw E. pose proof (aw_stages _ _ _ _ Hw _ _ E) as Hle. simpl in Hle.
  destruct st as [|[|[|st]]]; [| | |lia].
  - destruct (aw_kids _ _ _ _ Hw _ _ E) as (Hpid & b & Hb & [_ Hp _ _] & _ & Hst).
    destruct (aw_thread _ _ _ _ Hw _ _ E) as [e Ht]; [simpl; lia|].
    eexists. split; [|by apply (at_work_dead _ _ _ _ _ (exit_status 0) (Exited 0) Hw E)].
    unfold step. rewrite (aw_result _ _ _ _ Hw), Ht. simpl. unfold leave. simpl.
    by rewrite (sched_leave _ _ _ _ Hb Hst Hp).
  - by eapply (kid_request _ _ _ _ _ _ SYS_getpid _ pid Hw E).
  - by eapply (kid_request _ _ _ _ _ _ (LIBC_sleep ((i + 1) * 1000000)) _ 0 Hw E).
Qed.

(** ** The parent goes on *)

Lemma main_request ph kids w c K e r s' :
  at_work n ph kids w -> threads w !! main_pid = Some (Vis c K, e) ->
  (forall b, procs (kst w) !! main_pid = Some b ->
    specified b c = true /\ request main_pid b c (kst w) = Some (r, s')) ->
  step main_pid w = Some (World s' (spawn c r K e (<[main_pid := settle (K r) e]> (threads w))) None).
Proof.
  intros Hw Ht Hreq. destruct (aw_main_pcb _ _ _ _ Hw) as (b & Hb & Hpl & Hst & _).
  eapply step_replied; [apply (aw_result _ _ _ _ Hw)|exact Ht|].
  rewrite (sched_request _ _ _ _ Hb Hst Hpl) by apply (Hreq b Hb). by rewrite (proj2 (Hreq b Hb)).
Qed.

(** All children have been created. *)
Lemma forked_step i kids w :
  at_work n (Forking 0 i) kids w ->
  exists w', step main_pid w = Some w' /\ at_work n (Waiting n) kids w'.
Proof.
  intros Hw. destruct (aw_main _ _ _ _ Hw) as [e Ht]. eexists. split.
  - apply (main_request _ _ _ SYS_getpid (fun pid => waitid_002_loop n pid) e main_pid (kst w) Hw Ht). done.
  - destruct Hw as [Hr Hm Hmb Hk Hth Ho Hd Hc Hs Hf Hn]. constructor; simpl; try done.
    + exists e. apply lookup_insert_eq.
    + intros q k Hq Hlt. rewrite lookup_insert_ne; [by apply (Hth q k)|]. destruct (Hk _ _ Hq). lia.
    + intros q t Hq. rewrite lookup_insert_ne by done. by apply Hd.
Qed.

(** A child is created. *)
Lemma fork_call_plain b s :
  plain b -> may_fork (conf s) = true -> main_pid < next_pid s ->
  fork_call main_pid b s =
  (next_pid s,
   Kern (<[next_pid s := Pcb main_pid None Running [] (vars b) (maps b) (Siginfo 0 0 0 0) 0 0 (swd b)
                           (with_lender None (jobs b))]> (<[main_pid := b]> (procs s)))
     (sems s) (next_pid s + 1) (next_addr s) (pipes s) (conf s)).
Proof.
  intros [Ht _ _ _] Hf Hn. unfold fork_call. rewrite Hf, Ht. simpl.
  by replace (next_pid s `max` (main_pid + 1)) with (next_pid s) by lia.
Qed.

Lemma fork_step j i kids w :
  at_work n (Forking (S j) i) kids w ->
  exists w' c, step main_pid w = Some w' /\ kids !! c = None /\
    at_work n (Forking j (i + 1)) (<[c := (i, 3%nat)]> kids) w'.
Proof.
  intros Hw. destruct (aw_main _ _ _ _ Hw) as [e Ht].
  destruct (aw_main_pcb _ _ _ _ Hw) as (b & Hb & Hpl & Hst & Hpar). set (c := next_pid (kst w)).
  pose proof (aw_next _ _ _ _ Hw) as Hnext. fold c in Hnext.
  assert (kids !! c = None) as Hfresh.
  { destruct (kids !! c) eqn:Ec; [|done]. destruct (aw_kids _ _ _ _ Hw _ _ Ec). lia. }
  pose (K := fun r => (pid ← syscall_ret r; if pid =? 0 then waitid_002_child i
                       else parent_prog n (Forking j (i + 1))) : prog verdict).
  assert (K c = parent_prog n (Forking j (i + 1))) as HK.
  { unfold K, syscall_ret. replace (is_error c) with false by (unfold is_error, main_pid in *; lia). simpl.
    by replace (c =? 0) with false by (unfold main_pid in *; lia). }
  eexists _, c. split; [|split; [exact Hfresh|]].
  - eapply (main_request _ _ _ SYS_fork K e c _ Hw Ht). intros b' E. rewrite Hb in E. injection E as <-. simpl.
    by rewrite (fork_call_plain b _ Hpl (aw_fork _ _ _ _ Hw) Hnext).
  - unfold spawn. rewrite (proj2 (Z.ltb_lt 0 c)) by (unfold main_pid in *; lia). rewrite HK.
    destruct Hw as [Hr Hm Hmb Hk Hth Ho Hd Hc Hs Hf Hn]. constructor; simpl; try done; fold c.
    + exists e. rewrite lookup_insert_ne by lia. apply lookup_insert_eq.
    + exists b. rewrite lookup_insert_ne by lia. rewrite lookup_insert_eq. done.
    + intros q k [[<- <-]|[Hne Hq]]%lookup_insert_Some.
      * split; [lia|]. eexists. rewrite lookup_insert_eq. split; [done|]. split_and!; [|done..].
        by destruct Hpl.
      * destruct (Hk _ _ Hq) as (Hlt & Hrest). split; [lia|].
        rewrite !lookup_insert_ne by lia. done.
    + intros q k [[<- <-]|[Hne Hq]]%lookup_insert_Some Hlt.
      * exists e. apply lookup_insert_eq.
      * destruct (Hk _ _ Hq) as (Hlt' & _). rewrite !lookup_insert_ne by lia. by apply (Hth q k).
    + intros q Hq [Hnone Hne]%lookup_insert_None. rewrite !lookup_insert_ne by done. by apply Ho.
    + intros q t Hq [[<- _]|[Hne [[? _]|[_ Hl]]%lookup_insert_Some]]%lookup_insert_Some; [|done|].
      * exists (i, 3%nat). split; [apply lookup_insert_eq|simpl; lia].
      * destruct (Hd q t Hq Hl) as (k & Hkq & Hlt). exists k. by rewrite lookup_insert_ne.
    + rewrite map_size_insert_None by done. simpl in Hc. lia.
    + intros q k [[<- <-]|[Hne Hq]]%lookup_insert_Some; [simpl; lia|by apply (Hs q)].
    + lia.
Qed.

(** What [waitid] finds among the children. *)
Lemma waitid_spec ph kids w :
  at_work n ph kids w ->
  match waitid_call main_pid P_ALL 0 WEXITED (kst w) with
  | Some (r, q, s) =>
      (exists i, r = 0 /\ kids !! q = Some (i, O) /\ s = set_procs (delete q) (kst w)) \/ kids = ∅
  | None => exists q i st, kids !! q = Some (i, S st)
  end.
Proof.
  intros Hw. unfold waitid_call. change (negb (WEXITED =? WEXITED)) with false. cbv iota.
  set (l := List.filter (fun '(q, b) => meant main_pid P_ALL 0 b q) (in_order (procs (kst w)))).
  assert (forall q b, (q, b) ∈ l <-> procs (kst w) !! q = Some b /\ parent b = main_pid) as Hl.
  { intros q b. unfold l. rewrite list_elem_of_In, filter_In, <- list_elem_of_In, elem_of_in_order.
    unfold meant. simpl. rewrite andb_true_r, Z.eqb_eq. done. }
  clearbody l.
  assert (forall q b, (q, b) ∈ l -> exists k, kids !! q = Some k /\ kid_state k b) as Hkid.
  { intros q b [Hq Hpar]%Hl. destruct (kids !! q) as [k|] eqn:Ek.
    - destruct (aw_kids _ _ _ _ Hw _ _ Ek) as (_ & b' & Hb' & _ & _ & Hst). simplify_eq. eauto.
    - destruct (decide (q = main_pid)) as [->|Hne]; [|by rewrite (aw_others _ _ _ _ Hw) in Hq].
      destruct (aw_main_pcb _ _ _ _ Hw) as (bm & Hbm & _ & _ & H1). simplify_eq. by rewrite H1 in Hpar. }
  assert (l = [] -> kids = ∅) as Hnil.
  { intros ->. apply map_empty. intros q. destruct (kids !! q) as [k|] eqn:Ek; [|done].
    destruct (aw_kids _ _ _ _ Hw _ _ Ek) as (_ & b & Hb & _ & Hpar & _).
    exfalso. by apply (not_elem_of_nil (q, b)), Hl. }
  assert (forall q b, (q, b) ∈ List.filter (fun '(_, b) => negb (alive b)) l <-> (q, b) ∈ l /\ alive b = false) as Hdead.
  { intros q b. rewrite !list_elem_of_In, filter_In, negb_true_iff. done. }
  destruct l as [|[q0 b0] l']; [by right; apply Hnil|]. clear Hnil.
  destruct (List.filter _ _) as [|[q b] l2].
  - destruct (Hkid q0 b0) as ([i [|st]] & Hk & Hst); [by left| |by exists q0, i, st].
    destruct Hst as [st Hst]. exfalso. apply (not_elem_of_nil (q0, b0)), Hdead. split; [by left|].
    unfold alive. by rewrite Hst.
  - left. destruct (proj1 (Hdead q b)) as [Hin Halive]; [by left|].
    destruct (Hkid q b Hin) as ([i [|st]] & Hk & Hst); [by exists i|].
    unfold kid_state in Hst. simpl in Hst. unfold alive in Halive. by rewrite Hst in Halive.
Qed.

(** A child that is dead is waited for. *)
Lemma wait_step j kids w r q s :
  at_work n (Waiting (S j)) kids w -> waitid_call main_pid P_ALL 0 WEXITED (kst w) = Some (r, q, s) ->
  exists w' q i, step main_pid w = Some w' /\ kids !! q = Some (i, O) /\
    at_work n (Waiting j) (delete q kids) w'.
Proof.
  intros Hw Ew. pose proof (waitid_spec _ _ _ Hw) as Hwait. rewrite Ew in Hwait.
  destruct Hwait as [(i & -> & Hq & ->)| ->]; [|by pose proof (aw_count _ _ _ _ Hw)].
  destruct (aw_main _ _ _ _ Hw) as [e Ht]. eexists _, q, i. split; [|split; [exact Hq|]].
  - eapply (main_request _ _ _ (SYS_waitid P_ALL 0 WEXITED) _ _ (0, q) _ Hw Ht). intros b _. split; [done|exact Ew].
  - destruct Hw as [Hr Hm Hmb Hk Hth Ho Hd Hc Hs Hf Hn]. destruct (Hk _ _ Hq) as [Hlt _].
    constructor; simpl; try done.
    + exists e. apply lookup_insert_eq.
    + rewrite lookup_delete_ne by lia. done.
    + intros q' k [Hne Hq']%lookup_delete_Some. rewrite lookup_delete_ne by done. by apply Hk.
    + intros q' k [Hne Hq']%lookup_delete_Some Hlt'. destruct (Hk _ _ Hq') as [Hlt2 _].
      rewrite lookup_insert_ne by lia. by apply (Hth q' k).
    + intros q' Hq' Hnone%lookup_delete_None. apply lookup_delete_None. destruct Hnone; auto.
    + intros q' t Hq'. rewrite lookup_insert_ne by done. intros Hl. destruct (Hd q' t Hq' Hl) as (k & Hkq & Hlt').
      exists k. rewrite lookup_delete_ne; [done|]. intros <-. rewrite Hq in Hkq. injection Hkq as <-. simpl in Hlt'. lia.
    + rewrite map_size_delete_Some by done. simpl in Hc. lia.
    + intros q' k [Hne Hq']%lookup_delete_Some. by apply (Hs q').
Qed.

(** The test returns. *)
Lemma done_step kids w :
  at_work n (Waiting 0) kids w -> exists w', step main_pid w = Some w' /\ result w' = pass.
Proof.
  intros Hw. destruct (aw_main _ _ _ _ Hw) as [e Ht].
  destruct (aw_main_pcb _ _ _ _ Hw) as (b & Hb & [_ Hp _ _] & Hst & _).
  exists (@gone Spec main_pid (Returned None) (die main_pid (exit_status 0) (kst w)) w). split; [|done].
  unfold step. rewrite (aw_result _ _ _ _ Hw), Ht. simpl. unfold leave. simpl.
  by rewrite (sched_leave _ _ _ _ Hb Hst Hp).
Qed.

(** While no child is dead the parent waits. *)
Lemma wait_blocked j kids w :
  at_work n (Waiting (S j)) kids w -> waitid_call main_pid P_ALL 0 WEXITED (kst w) = None ->
  step main_pid w = None.
Proof.
  intros Hw Ew. destruct (aw_main _ _ _ _ Hw) as [e Ht].
  destruct (aw_main_pcb _ _ _ _ Hw) as (b & Hb & Hpl & Hst & _).
  unfold step. rewrite (aw_result _ _ _ _ Hw), Ht. simpl.
  rewrite (sched_request _ _ _ _ Hb Hst Hpl) by done. unfold request. by rewrite Ew.
Qed.

(** ** All interleavings *)

Lemma main_advances ph kids w w' :
  at_work n ph kids w -> step main_pid w = Some w' ->
  exists m', (m' < left n ph kids)%nat /\ invariant n m' w'.
Proof.
  intros Hw Es. destruct ph as [[|j] i|[|j]].
  - destruct (forked_step _ _ _ Hw) as (w1 & E1 & Hw1). simplify_eq.
    exists (left n (Waiting n) kids). split; [simpl; lia|]. right. eauto.
  - destruct (fork_step _ _ _ _ Hw) as (w1 & c & E1 & Hc & Hw1). simplify_eq.
    eexists. split; [|right; eauto]. simpl. rewrite kids_left_insert by done. simpl. lia.
  - destruct (done_step _ _ Hw) as (w1 & E1 & Hr). simplify_eq. exists O. split; [simpl; lia|by left].
  - destruct (waitid_call main_pid P_ALL 0 WEXITED (kst w)) as [[[r q] s]|] eqn:Ew.
    + destruct (wait_step _ _ _ _ _ _ Hw Ew) as (w1 & c & i & E1 & Hc & Hw1). simplify_eq.
      eexists. split; [|right; eauto]. simpl. pose proof (kids_left_delete _ _ _ Hc) as Hk. simpl in Hk. lia.
    + by rewrite (wait_blocked _ _ _ Hw Ew) in Es.
Qed.

Lemma invariant_step m w pid w' :
  invariant n m w -> step pid w = Some w' -> exists m', (m' < m)%nat /\ invariant n m' w'.
Proof.
  intros [Hr|(ph & kids & Hw & ->)] Es; [by rewrite (result_terminal _ _ Hr) in Es|].
  destruct (decide (pid = main_pid)) as [->|Hne]; [by eapply main_advances|].
  assert (is_Some (threads w !! pid)) as [t Ht].
  { unfold step in Es. rewrite (aw_result _ _ _ _ Hw) in Es. by destruct (threads w !! pid). }
  destruct (aw_dead _ _ _ _ Hw _ _ Hne Ht) as ([i [|st]] & Hk & Hlt); [simpl in Hlt; lia|].
  destruct (kid_step _ _ _ _ _ _ Hw Hk) as (w1 & E1 & Hw1). simplify_eq.
  eexists. split; [|right; eauto].
  assert (kids_left (<[pid := (i, st)]> kids) < kids_left kids)%nat
    by (apply (kids_left_update _ _ _ _ Hk); simpl; lia).
  destruct ph; simpl; lia.
Qed.

(** Somebody can act until the test is over. *)
Lemma at_work_progress ph kids w : at_work n ph kids w -> ~ terminal w.
Proof.
  intros Hw Ht. destruct ph as [[|j] i|[|j]].
  - destruct (forked_step _ _ _ Hw) as (w1 & E1 & _). by rewrite Ht in E1.
  - destruct (fork_step _ _ _ _ Hw) as (w1 & c & E1 & _). by rewrite Ht in E1.
  - destruct (done_step _ _ Hw) as (w1 & E1 & _). by rewrite Ht in E1.
  - destruct (waitid_call main_pid P_ALL 0 WEXITED (kst w)) as [[[r q] s]|] eqn:Ew.
    + destruct (wait_step _ _ _ _ _ _ Hw Ew) as (w1 & c & i & E1 & _). by rewrite Ht in E1.
    + pose proof (waitid_spec _ _ _ Hw) as Hs. rewrite Ew in Hs. destruct Hs as (q & i & st & Hk).
      destruct (kid_step _ _ _ _ _ _ Hw Hk) as (w1 & E1 & _). by rewrite Ht in E1.
Qed.

Lemma invariant_always m w : invariant n m w -> always (eq pass) w.
Proof.
  apply (always_measured (invariant n)); [|eauto using invariant_step].
  intros m' w' [Hr|(ph & kids & Hw & _)] Hterm; [done|]. by destruct (at_work_progress _ _ _ Hw).
Qed.

Lemma at_work_start im g progs first :
  at_work n (Forking n 0) ∅
    (World (boot_fork im true g progs first) {[ main_pid := settle (parent_prog n (Forking n 0)) 0 ]} None).
Proof.
  constructor; simpl; try done.
  - exists 0. apply lookup_singleton_eq.
  - eexists. by rewrite lookup_singleton_eq.
  - intros pid Hne _. by apply lookup_singleton_ne.
  - intros pid t Hne. by rewrite lookup_singleton_ne.
Qed.
End steps.

(** C26: waitid/002 passes with any number of children: on every kernel that answers like [Spec] and
    can create them, every interleaving of the parent and its [proc_num] children ends, without
    deadlock, with the verdict that each of the [proc_num] calls of [waitid] found a dead child. *)
Theorem waitid_002_passes `{ProcLaws} im g progs first proc_num s :
  0 < proc_num -> view s = boot_fork im true g progs first -> always (eq pass) (start (waitid_002 proc_num) s).
Proof.
  intros Hn E. apply always_view; [done|]. rewrite (view_start _ _ _ E). unfold waitid_002, tp_assert.
  rewrite (proj2 (Z.ltb_lt 0 proc_num) Hn).
  eapply (invariant_always (Z.to_nat proc_num)). right. eexists _, _. split; [|reflexivity].
  apply at_work_start.
Qed.

Lemma waitid_002_passes_witness :
  always (eq pass) (@start Spec (waitid_002 1000) (boot_fork im0 true main_pid no_programs true)).
Proof.
  apply (@waitid_002_passes Spec SpecLaws im0 main_pid no_programs true 1000 (boot_fork im0 true main_pid no_programs true));
    reflexivity.
Defined.

End WaitAll.
