(* ===== verification/ForkProofs.v ===== *)
(** * What a passing run of the process suites shows

    On any kernel, whatever it answers: the requests that a run of the waitid and kill suites makes
    when the test passes. *)
From S2P Require Import Prelude CMachine Libc Fork.
Import Fork.Fork.
#[local] Open Scope Z_scope.

Module ForkProofs.

(** ** Traces *)

(** A call of [waitid] that found a process. *)
Definition found (x : event) : bool :=
  let 'existT c r := x in
  match c return reply c -> bool with
  | SYS_waitid _ _ _ => fun r => negb (is_error r.1)
  | _ => fun _ => false
  end r.
Definition founds (tr : list event) : nat := length (List.filter found tr).

(** The processes created, those waited for, and to whom SIGUSR1 was sent. *)
Definition created (x : event) : option Z :=
  let 'existT c r := x in
  match c return reply c -> option Z with
  | SYS_fork => fun r => if is_error r then None else Some r
  | _ => fun _ => None
  end r.
Definition awaited (x : event) : option Z :=
  match projT1 x with SYS_wait4 pid _ => Some pid | _ => None end.
Definition signalled (x : event) : option Z :=
  match projT1 x with SYS_kill pid sig => if sig =? SIGUSR1 then Some pid else None | _ => None end.

Lemma founds_app tr tr' : founds (tr ++ tr') = (founds tr + founds tr')%nat.
Proof. unfold founds. by rewrite List.filter_app, List.length_app. Qed.

(** A program that never returns. *)
Definition leaves (p : prog verdict) : Prop := forall e tr v e', ~ run p e tr (Returned v) e'.

Lemma fork_loop_run child n i k e tr v e' :
  (forall i, leaves (child i)) -> run (fork_loop child n i k) e tr (Returned v) e' ->
  exists tr1 tr2 e1, tr = tr1 ++ tr2 /\ founds tr1 = 0%nat /\ run k e1 tr2 (Returned v) e'.
Proof.
  intros Hc. revert i e tr. induction n as [|n IH]; intros i e tr; [by exists [], tr, e|].
  intros (r & tr' & -> & H). unfold syscall_ret in H. cbn in H.
  assert (exists e1 tr1 tr2, tr' = tr1 ++ tr2 /\ founds tr1 = 0%nat /\ run k e1 tr2 (Returned v) e') as
    (e1 & tr1 & tr2 & -> & Hf & Hk).
  { destruct (is_error r); cbn in H.
    - apply IH in H as (tr1 & tr2 & e1 & -> & Hf & Hk). by exists e1, tr1, tr2.
    - destruct (r =? 0); [by apply Hc in H|].
      apply IH in H as (tr1 & tr2 & e1 & -> & Hf & Hk). by exists e1, tr1, tr2. }
  by exists (ev SYS_fork r :: tr1), tr2, e1.
Qed.

Lemma leaves_exit st : leaves (Exit st).
Proof. intros e tr v e' (_ & ? & _). done. Qed.
Lemma leaves_bind {A} (p : prog A) (f : A -> prog verdict) : (forall a, leaves (f a)) -> leaves (p ≫= f).
Proof. intros Hf e tr v e' (a & e1 & tr1 & tr2 & _ & H & _)%run_bind_returned. by apply Hf in H. Qed.

(** Children leave with [exit]. *)
Ltac leave :=
  repeat match goal with
  | |- leaves (exit _) => apply leaves_exit
  | |- leaves (_ ≫= _) => apply leaves_bind; intros ?
  | |- leaves (if ?b then _ else _) => destruct b
  | |- leaves (let '(_, _) := ?x in _) => destruct x
  end.

Lemma waitid_001_child_leaves n i : leaves (waitid_001_child n i).
Proof. unfold waitid_001_child. leave. Qed.
Lemma waitid_002_child_leaves i : leaves (waitid_002_child i).
Proof. unfold waitid_002_child. leave. Qed.
Lemma kill_child_fn_leaves im fuel : leaves (kill_child_fn im fuel).
Proof. unfold kill_child_fn. leave. Qed.

(** ** waitid *)

(** One turn of the loops that passes: a line, [waitid], two lines and the check. *)
Lemma waitid_turn t1 idtype id (t2 : Z -> string) pid k e tr e' :
  run (say t1;; '(result, si_pid) ← waitid idtype id WEXITED; say (t2 si_pid);; say_waitid pid result;;
       TP_ASSERT negb (result =? -1), Some "waitid failed." ;; k) e tr (Returned None) e' ->
  exists tr1 tr2 e1, tr = tr1 ++ tr2 /\ founds tr1 = 1%nat /\ run k e1 tr2 (Returned None) e'.
Proof.
  intros (o1 & tr1 & -> & H). destruct H as ([r q] & tr2 & -> & H). unfold syscall_ret in H. cbn in H.
  destruct (is_error r) eqn:Er; rewrite ?Er in H; cbn in H; destruct H as (o2 & tr3 & -> & o3 & tr4 & -> & H).
  - by destruct H as (_ & ? & _).
  - apply run_tp_assert in H as [[_ H]|(_ & _ & ? & _)]; [|done].
    eexists [_; _; _; _], tr4, e. split; [done|]. split; [|done]. unfold founds. simpl. by rewrite Er.
Qed.

Lemma waitid_001_loop_run n pid pgid e tr e' :
  run (waitid_001_loop n pid pgid) e tr (Returned None) e' -> founds tr = n.
Proof.
  revert e tr. induction n as [|n IH]; intros e tr; [by intros (-> & _)|].
  intros (tr1 & tr2 & e1 & -> & H1 & H2%IH)%waitid_turn. by rewrite founds_app, H1, H2.
Qed.
Lemma waitid_002_loop_run n pid e tr e' :
  run (waitid_002_loop n pid) e tr (Returned None) e' -> founds tr = n.
Proof.
  revert e tr. induction n as [|n IH]; intros e tr; [by intros (-> & _)|].
  intros (tr1 & tr2 & e1 & -> & H1 & H2%IH)%waitid_turn. by rewrite founds_app, H1, H2.
Qed.

(** On any kernel a run of waitid/001 or waitid/002 passes only when half of [proc_num], or
    [proc_num], calls of [waitid] have each found a process that ended, and [proc_num] is at least 2 and
    even, or positive; the children never return into the harness. *)
Theorem waitid_pass_evidence (all : bool) proc_num tr e' :
  run (if all then waitid_002 proc_num else waitid_001 proc_num) 0 tr (Returned None) e' ->
  if all then 0 < proc_num /\ Z.of_nat (founds tr) = proc_num
  else 1 < proc_num /\ 2 * Z.of_nat (founds tr) = proc_num.
Proof.
  destruct all.
  - intros [[Hn H]|(_ & _ & ? & _)]%run_tp_assert; [|done]. apply Z.ltb_lt in Hn. split; [done|].
    apply fork_loop_run in H as (tr1 & tr2 & e1 & -> & H1 & pid & tr3 & -> & H2%waitid_002_loop_run);
      [|apply waitid_002_child_leaves].
    change (ev SYS_getpid pid :: tr3) with ([ev SYS_getpid pid] ++ tr3). rewrite !founds_app, H1, H2.
    change (founds [ev SYS_getpid pid]) with 0%nat. lia.
  - intros [[Hn H]|(_ & _ & ? & _)]%run_tp_assert; [|done]. apply Z.ltb_lt in Hn. split; [done|].
    apply run_tp_assert in H as [[H2%Z.eqb_eq H]|(_ & _ & ? & _)]; [|done].
    apply fork_loop_run in H as (tr1 & tr2 & e1 & -> & H1 & pid & tr3 & -> & pgid & tr4 & -> & H);
      [|apply waitid_001_child_leaves].
    assert (founds tr4 = Z.to_nat (proc_num ÷ 2)) as H3.
    { unfold syscall_ret in H. cbn in H. destruct (is_error pgid); by apply waitid_001_loop_run in H. }
    change (ev SYS_getpid pid :: ev (SYS_getpgid pid) pgid :: tr4)
      with ([ev SYS_getpid pid; ev (SYS_getpgid pid) pgid] ++ tr4).
    rewrite !founds_app, H1, H3. change (founds _) with 0%nat at 1.
    pose proof (Z.quot_rem' proc_num 2). lia.
Qed.

(** ** kill *)

(** What a trace shows: nothing of the three kinds, or what the lists say. *)
Definition shows (tr : list event) (cs ws ss : list Z) : Prop :=
  omap created tr = cs /\ omap awaited tr = ws /\ omap signalled tr = ss.

Lemma shows_app tr tr' cs ws ss cs' ws' ss' :
  shows tr cs ws ss -> shows tr' cs' ws' ss' -> shows (tr ++ tr') (cs ++ cs') (ws ++ ws') (ss ++ ss').
Proof. intros (<- & <- & <-) (<- & <- & <-). unfold shows. by rewrite !omap_app. Qed.

Lemma shows_nil : shows [] [] [] [].
Proof. done. Qed.

Lemma shows_cons x tr cs ws ss cs' ws' ss' :
  shows [x] cs ws ss -> shows tr cs' ws' ss' -> shows (x :: tr) (cs ++ cs') (ws ++ ws') (ss ++ ss').
Proof. apply (shows_app [x]). Qed.

(** A request of another kind. *)
Lemma shows_other c r tr cs ws ss :
  shows [ev c r] [] [] [] -> shows tr cs ws ss -> shows (ev c r :: tr) cs ws ss.
Proof. apply shows_cons. Qed.

Section kill.
Context (im : image).

Lemma kill_fork_loop_run fuel n pids k e tr v e' :
  run (kill_fork_loop im fuel n pids k) e tr (Returned v) e' ->
  exists new flag tr1 tr2 e1, tr = tr1 ++ tr2 /\ shows tr1 new [] [] /\ (length new <= n)%nat /\
    run (k (Z.of_nat (length (pids ++ new))) flag (pids ++ new)) e1 tr2 (Returned v) e'.
Proof.
  revert pids e tr. induction n as [|n IH]; intros pids e tr H.
  - exists [], 0, [], tr, e. rewrite app_nil_r. auto using shows_nil.
  - destruct H as (r & tr1 & -> & H). unfold syscall_ret in H. cbn in H.
    destruct (is_error r) eqn:Er; cbn in H.
    + destruct H as (o & tr2 & -> & H). eexists [], 1, [_; _], tr2, _. rewrite app_nil_r.
      split_and!; [done| |simpl; lia|exact H]. by repeat split; cbn; rewrite ?Er.
    + destruct (Z.eqb_spec r (-1)) as [->|_]; [done|].
      destruct (r =? 0); [by apply kill_child_fn_leaves in H|].
      destruct H as (g & tr2 & -> & H).
      assert (exists o tr3 e1, tr2 = o :: tr3 /\ shows [o] [] [] [] /\
        run (kill_fork_loop im fuel n (pids ++ [r]) k) e1 tr3 (Returned v) e') as (o & tr3 & e1 & -> & Ho & Hrun).
      { cbn in H. unfold syscall_ret in H.
        destruct (is_error g); destruct H as (o & tr3 & -> & H); eexists _, _, _; (split; [done|split; [|exact H]]);
          done. }
      apply IH in Hrun as (new & flag & tr4 & tr5 & e2 & -> & Hs & Hl & Hk).
      exists (r :: new), flag, (ev SYS_fork r :: ev (SYS_getpgid r) g :: o :: tr4), tr5, e2.
      rewrite <- app_assoc in Hk. split_and!; [done| |simpl; lia|done].
      apply (shows_cons _ _ [r] [] []); [by repeat split; cbn; rewrite Er|].
      apply shows_other; [done|]. by apply (shows_cons _ _ [] [] []).
Qed.

Lemma kill_wait_loop_run n cnt pids e tr v e' :
  run (kill_wait_loop im n cnt pids) e tr (Returned v) e' ->
  shows tr [] (child_pid_at im pids <$> seq cnt n) [].
Proof.
  revert cnt e tr. induction n as [|n IH]; intros cnt e tr; [by intros (-> & _)|].
  intros ([r st] & tr1 & -> & H). apply (shows_cons _ _ [] [_] []); [done|]. cbn in H. unfold syscall_ret in H.
  destruct (is_error r); by apply IH in H.
Qed.

Lemma run_syscall_ret r e tr v e' : run (syscall_ret r) e tr (Returned v) e' -> tr = [].
Proof. unfold syscall_ret. by destruct (is_error r); intros (-> & _). Qed.

(** The common part of 000 and 001. *)
Lemma kill_rest_run proc_num p text target pids e tr e' :
  run (kill_rest im proc_num p text target (Z.of_nat (length pids)) pids) e tr (Returned None) e' ->
  (0 < length pids)%nat /\ shows tr [] (child_pid_at im pids <$> seq 0 (Z.to_nat proc_num)) [target].
Proof.
  unfold kill_rest. destruct (Z.leb_spec (Z.of_nat (length pids)) 0) as [_|Hpos].
  - by intros (o & tr1 & -> & _ & ? & _).
  - intros (a & e1 & tr1 & tr2 & H1 & H & ->)%run_bind_returned.
    assert (shows tr1 [] [] []) as Hs1.
    { destruct H1 as (r & t & -> & H1). apply run_syscall_ret in H1 as ->. done. }
    split; [lia|]. apply (shows_app _ _ [] [] [] [] _ [_] Hs1).
    destruct (a =? -1); [by destruct H as (o1 & t1 & -> & o2 & t2 & -> & _ & ? & _)|].
    destruct H as (o1 & t1 & -> & o2 & t2 & -> & o3 & t3 & -> & r & t4 & -> & H).
    do 3 (apply shows_other; [done|]). apply (shows_cons _ _ [] [] [_]); [done|].
    cbn in H. unfold syscall_ret in H. destruct (is_error r); by apply kill_wait_loop_run in H.
Qed.

Lemma kill_setpgid_loop_run n cnt pids g k e tr v e' :
  run (kill_setpgid_loop im n cnt pids g k) e tr (Returned v) e' ->
  exists tr1 tr2 e1, tr = tr1 ++ tr2 /\ shows tr1 [] [] [] /\ run k e1 tr2 (Returned v) e'.
Proof.
  revert cnt e tr. induction n as [|n IH]; intros cnt e tr H; [by exists [], tr, e|].
  apply run_bind_returned in H as (r1 & e1 & t1 & tr1 & H1 & H & ->).
  assert (shows t1 [] [] []) as Hs1.
  { destruct H1 as (r & t & -> & H1). apply run_syscall_ret in H1 as ->. done. }
  apply run_bind_returned in H as ([] & e0 & t0 & tr2 & H0 & H & ->).
  assert (shows t0 [] [] []) as Hs0 by by destruct H0 as (? & ? & -> & -> & _).
  apply run_bind_returned in H as (r2 & e2 & t2 & tr3 & H2 & H & ->).
  assert (shows t2 [] [] []) as Hs2.
  { destruct H2 as (r & t & -> & H2). apply run_syscall_ret in H2 as ->. done. }
  apply run_bind_returned in H as ([] & e3 & t3 & tr4 & H3 & H & ->).
  assert (shows t3 [] [] []) as Hs3.
  { destruct (negb (r2 =? 0)); [by destruct H3 as (? & ? & -> & -> & _)|by destruct H3 as (-> & _)]. }
  apply IH in H as (tr5 & tr6 & e4 & -> & Hs5 & Hk).
  exists (t1 ++ t0 ++ t2 ++ t3 ++ tr5), tr6, e4. split; [by rewrite <- !app_assoc|].
  split; [|done]. by repeat (apply (shows_app _ _ [] [] [] [] [] []); [done|]).
Qed.

(** The tests, and to whom each of them sends the signal when [pids] have been created. *)
Definition kill_test (i fuel : nat) (proc_num : Z) : prog verdict :=
  match i with
  | O => kill_000 im fuel proc_num
  | S O => kill_001 im fuel proc_num
  | _ => kill_002 im fuel proc_num
  end.
Definition kill_target (i : nat) (pids : list Z) : Z :=
  match i with O => 0 | S O => -1 | _ => - child_pid_at im pids 0 end.

Lemma kill_alloc_run proc_num k e tr v e' :
  run (kill_alloc proc_num k) e tr (Returned v) e' ->
  exists p o tr', tr = o :: tr' /\ shows [o] [] [] [] /\ run (k p) e tr' (Returned v) e'.
Proof.
  intros ([[p x]|] & tr' & -> & H); [|by destruct H as (_ & ? & _)].
  eexists p, _, tr'. split; [done|]. by split.
Qed.

(** The loop over [fork], with a rest that waits for [n] elements. *)
Lemma kill_loop_run fuel n target k e tr e' :
  0 < n ->
  (forall cnt flag pids e tr, cnt = Z.of_nat (length pids) -> run (k cnt flag pids) e tr (Returned None) e' ->
     (0 < length pids)%nat /\ shows tr [] (child_pid_at im pids <$> seq 0 (Z.to_nat n)) [target pids]) ->
  run (kill_fork_loop im fuel (Z.to_nat n) [] k) e tr (Returned None) e' ->
  exists pids, (0 < length pids)%nat /\ Z.of_nat (length pids) <= n /\
    shows tr pids (child_pid_at im pids <$> seq 0 (Z.to_nat n)) [target pids].
Proof.
  intros Hn Hk (new & flag & tr1 & tr2 & e1 & -> & Hs & Hl & H)%kill_fork_loop_run.
  apply Hk in H as [Hpos Hs2]; [|done]. exists new. simpl in *. split_and!; [done|lia|].
  rewrite <- (app_nil_r new) at 1. by apply (shows_app _ _ _ [] [] []).
Qed.

Lemma kill_002_rest_run proc_num p flag pids e tr e' :
  run (if Z.of_nat (length pids) <=? 0
       then free p;; TP_ASSERT false, Some "child process nothing." ;; Ret None
       else
         let child_pgid := child_pid_at im pids 0 in
         say "wait for a few sec...";;
         _ ← trigger (LIBC_sleep 3000000);
         kill_setpgid_loop im (Z.to_nat (proc_num - flag)) 0 pids child_pgid (
         say ("send signal to target pgid(=" +:+ d child_pgid +:+ ")s");;
         _ ← CMachine.kill (- child_pgid) SIGUSR1;
         kill_wait_loop im (Z.to_nat proc_num) 0 pids)) e tr (Returned None) e' ->
  (0 < length pids)%nat /\
  shows tr [] (child_pid_at im pids <$> seq 0 (Z.to_nat proc_num)) [- child_pid_at im pids 0].
Proof.
  destruct (Z.leb_spec (Z.of_nat (length pids)) 0) as [_|Hpos].
  - by intros (o & tr1 & -> & _ & ? & _).
  - intros (o1 & t1 & -> & o2 & t2 & -> & H). split; [lia|]. do 2 (apply shows_other; [done|]).
    apply kill_setpgid_loop_run in H as (tr1 & tr2 & e1 & -> & Hs1 & o3 & t3 & -> & r & t4 & -> & H).
    apply (shows_app _ _ [] [] [] [] _ [_] Hs1). apply shows_other; [done|].
    apply (shows_cons _ _ [] [] [_]); [done|]. cbn in H. unfold syscall_ret in H.
    destruct (is_error r); by apply kill_wait_loop_run in H.
Qed.

(** C27: On any kernel a run of kill/000, 001 or 002 passes only when at least one child was created, and
    then it has sent SIGUSR1 exactly once, to its group, to everybody or to the group of the first
    child, and has called [waitpid] for [proc_num] elements of [child_pids]: those that were created
    and, when a [fork] failed, elements that were never written. *)
Theorem kill_pass_evidence i fuel proc_num tr e' :
  run (kill_test i fuel proc_num) 0 tr (Returned None) e' ->
  let pids := omap created tr in
  (0 < length pids)%nat /\ Z.of_nat (length pids) <= proc_num /\
  omap signalled tr = [kill_target i pids] /\
  omap awaited tr = child_pid_at im pids <$> seq 0 (Z.to_nat proc_num).
Proof.
  intros H. enough (exists pids, (0 < length pids)%nat /\ Z.of_nat (length pids) <= proc_num /\
    shows tr pids (child_pid_at im pids <$> seq 0 (Z.to_nat proc_num)) [kill_target i pids])
    as (pids & Hpos & Hle & -> & -> & ->) by done.
  destruct i as [|[|i]]; apply run_tp_assert in H as [[Hn%Z.ltb_lt H]|(_ & _ & ? & _)]; try done.
  - apply kill_alloc_run in H as (p & o & tr' & -> & Ho & r & tr1 & -> & H).
    cbn in H. unfold syscall_ret in H.
    enough (exists pids, (0 < length pids)%nat /\ Z.of_nat (length pids) <= proc_num /\
      shows tr1 pids (child_pid_at im pids <$> seq 0 (Z.to_nat proc_num)) [0]) as (pids & ? & ? & Hs).
    { exists pids. split_and!; [done..|]. apply (shows_cons _ _ [] [] []); [done|]. by apply shows_other. }
    destruct (is_error r); apply (kill_loop_run fuel proc_num (fun _ => 0)) in H; try done;
      intros cnt flag pids e tr0 ->; apply kill_rest_run.
  - destruct H as (r & tr1 & -> & H). cbn in H. unfold syscall_ret in H.
    destruct (is_error r); cbn in H; [by destruct H as (_ & ? & _)|].
    apply run_tp_assert in H as [[_ H]|(_ & _ & ? & _)]; [|done].
    apply kill_alloc_run in H as (p & o & tr' & -> & Ho & H).
    apply (kill_loop_run fuel proc_num (fun _ => -1)) in H as (pids & ? & ? & Hs); [|done|].
    + exists pids. split_and!; [done..|]. apply shows_other; [done|]. by apply (shows_cons _ _ [] [] []).
    + intros cnt flag pids e tr0 ->. apply kill_rest_run.
  - apply kill_alloc_run in H as (p & o & tr' & -> & Ho & H).
    apply (kill_loop_run fuel proc_num (fun pids => - child_pid_at im pids 0)) in H as (pids & ? & ? & Hs); [|done|].
    + exists pids. split_and!; [done..|]. by apply (shows_cons _ _ [] [] []).
    + intros cnt flag pids e tr0 ->. apply kill_002_rest_run.
Qed.

End kill.

(** ** Runs that pass *)

Definition im1 : Fork.image := Fork.Image 0x601000 0x601010 (fun _ => ""%string) [] (fun _ => 7).

Ltac answered r := refine (ex_intro _ r (ex_intro _ _ (conj eq_refl _))); cbn -[pretty d d5].

(** The second [fork] of kill/000 fails, and the second element of the array was never written. *)
Lemma kill_run_example : exists tr e', run (kill_test im1 0 0 2) 0 tr (Returned None) e' /\ omap created tr = [101].
Proof.
  eexists _, _. split.
  - answered (Some (4096, 0)). answered 0. answered 101. answered 100. answered tt. answered (-11). answered tt.
    answered 0. answered tt. answered 0. answered tt. answered 0. answered (101, 0). answered (-10, 0). done.
  - reflexivity.
Qed.

Lemma kill_pass_evidence_witness :
  exists tr, omap created tr = [101] /\ omap awaited tr = [101; 7].
Proof.
  destruct kill_run_example as (tr & e' & H & E). exists tr. split; [exact E|].
  destruct (kill_pass_evidence im1 0 0 2 tr e' H) as (_ & _ & _ & Hw). rewrite Hw, E. reflexivity.
Defined.

Lemma waitid_run_example : exists tr e', run (waitid_001 2) 0 tr (Returned None) e'.
Proof.
  eexists _, _. answered 101. answered 102. answered 100. answered 100.
  answered tt. answered (0, 102). answered tt. answered tt. done.
Qed.

Lemma waitid_pass_evidence_witness : exists tr, 1 < 2 /\ 2 * Z.of_nat (founds tr) = 2.
Proof.
  destruct waitid_run_example as (tr & e' & H). exists tr. exact (waitid_pass_evidence false 2 tr e' H).
Defined.

End ForkProofs.
