(* ===== verification/Time.v ===== *)
(** * The suites on time, and three small ones

    src/src/test_mck/src/{clock_getres,clock_gettime,gettimeofday,getitimer,setitimer,nanosleep,times,
    getrusage,enosys,readlinkat}/.  The functions keep their names with the suite and number of the test
    case.  Loops that only spend time make no requests and are left out.  getrusage/002, which needs a
    thread, is not here. *)
From S2P Require Import Prelude CMachine Libc Affinity Fork.
Import Libc Affinity Fork.
#[local] Open Scope Z_scope.

Module Time.

(** ** Constants and wrappers *)

Definition CLOCK_REALTIME : Z := 0.
Definition ITIMER_REAL : Z := 0.
Definition ITIMER_VIRTUAL : Z := 1.
Definition ITIMER_PROF : Z := 2.
Definition SIGINT : Z := 2.
Definition SIGALRM : Z := 14.
Definition SIGVTALRM : Z := 26.
Definition SIGPROF : Z := 27.
Definition SIG_BLOCK : Z := 0.
Definition RUSAGE_SELF : Z := 0.
Definition RUSAGE_CHILDREN : Z := -1.

Definition clock_getres (id : Z) (valid : bool) : prog (Z * (Z * Z)) :=
  '(r, ts) ← trigger (SYS_clock true id valid); r ← syscall_ret r; Ret (r, ts).

(** The C library answers [clock_gettime] in the process where it can, and [times] touches its argument
    when the kernel has found it bad; [touches] says whether it does so.  A bad address is then a fault
    of the process, and not an error of the call. *)
Definition touch_bad (touches : bool) : prog unit := if touches then Trap SIGSEGV SIG_DFL else Ret tt.
Definition clock_gettime (touches : bool) (id : Z) (valid : bool) : prog (Z * (Z * Z)) :=
  (if valid then Ret tt else touch_bad touches);;
  '(r, ts) ← trigger (SYS_clock false id valid); r ← syscall_ret r; Ret (r, ts).
Definition gettimeofday : prog (Z * (Z * Z)) :=
  '(r, tv) ← trigger SYS_gettimeofday; r ← syscall_ret r; Ret (r, tv).
Definition settimeofday (sec usec : Z) : prog Z := r ← trigger (SYS_settimeofday sec usec); syscall_ret r.
Definition getitimer (which : Z) (valid : bool) : prog (Z * (Z * Z * (Z * Z))) :=
  '(r, v) ← trigger (SYS_getitimer which valid); r ← syscall_ret r; Ret (r, v).
Definition setitimer (which : Z) (new : option (Z * Z * (Z * Z))) (old : option bool) :
    prog (Z * (Z * Z * (Z * Z))) :=
  '(r, v) ← trigger (SYS_setitimer which new old); r ← syscall_ret r; Ret (r, v).
Definition nanosleep (req : option (Z * Z)) : prog (Z * (Z * Z)) :=
  '(r, rem) ← trigger (SYS_nanosleep req); r ← syscall_ret r; Ret (r, rem).
Definition times (touches : bool) (valid : bool) : prog Z :=
  r ← trigger (SYS_times valid);
  (if negb valid && (r =? - EFAULT) then touch_bad touches else Ret tt);;
  syscall_ret r.
Definition getrusage (who : Z) (valid : bool) : prog (Z * list Z) :=
  '(r, usage) ← trigger (SYS_getrusage who valid); r ← syscall_ret r; Ret (r, usage).

(** [signal] of glibc is a [sigaction] with SA_RESTART. *)
Definition signal (sig : Z) (fn : string) : prog Z := sigaction sig fn SA_RESTART.

(** [%-20s] and [%09ld]. *)
Definition pad20 (s : string) : string := s +:+ of_chars (replicate (20 - String.length s) " "%char).
Definition d09 (x : Z) : string :=
  of_chars (replicate (9 - String.length (pretty x)) "0"%char) +:+ pretty x.

Section suites.
Context (strerror : Z -> string) (touches : bool).

(** The checks of the tests that expect an error. *)
Definition expect (result e : Z) : prog verdict :=
  TP_ASSERT result =? -1, Some "Unexpected result." ;;
  err ← get_errno;
  TP_ASSERT err =? e, Some "Unexpected errno." ;;
  Ret None.

(** ** clock_getres and clock_gettime *)

Record clock_test_case := Ctc { clock_name : string; clock_id : Z; expect_result : Z; expect_errno : Z }.
Definition ctc : list clock_test_case :=
  [Ctc "REALTIME" 0 0 0;
   Ctc "REALTIME_ALARM" 8 (-1) EINVAL;
   Ctc "REALTIME_COARSE" 5 0 0;
   Ctc "MONOTONIC" 1 0 0;
   Ctc "MONOTONIC_COARSE" 6 0 0;
   Ctc "MONOTONIC_RAW" 4 0 0;
   Ctc "BOOTTIME" 7 0 0;
   Ctc "BOOTTIME_ALARM" 9 (-1) EINVAL;
   Ctc "PROCESS_CPUTIME_ID" 2 0 0;
   Ctc "THREAD_CPUTIME_ID" 3 0 0].

(** The loop of both tests. *)
Fixpoint clock_loop (name : string) (call : Z -> prog (Z * (Z * Z))) (l : list clock_test_case) : prog verdict :=
  match l with
  | [] => Ret None
  | c :: l =>
      '(result, ts) ← call (clock_id c);
      TP_ASSERT result =? expect_result c, Some (name +:+ " return unexpected result.") ;;
      if result =? 0 then
        say (pad20 (clock_name c) +:+ ": " +:+ d ts.1 +:+ "." +:+ d09 ts.2);;
        clock_loop name call l
      else
        e ← get_errno;
        say (pad20 (clock_name c) +:+ ": " +:+ strerror e +:+ " " +:+
             if e =? expect_errno c then "(expected)" else "(non expected)");;
        e ← get_errno;
        TP_ASSERT e =? expect_errno c, Some (name +:+ " return unexpected errno.") ;;
        clock_loop name call l
  end.

Definition clock_getres_000 : prog verdict :=
  say "[INFO] Show clocks' resolution.";;
  clock_loop "clock_getres" (fun id => clock_getres id true) ctc.
Definition clock_getres_001 : prog verdict :=
  '(result, _) ← clock_getres CLOCK_REALTIME false; expect result EFAULT.
Definition clock_getres_002 : prog verdict :=
  '(result, _) ← clock_getres 1000 true; expect result EINVAL.

Definition clock_gettime_000 : prog verdict :=
  say "[INFO] Spending cpu time, please wait...";;
  clock_loop "clock_gettime" (fun id => clock_gettime touches id true) ctc.
Definition clock_gettime_001 : prog verdict :=
  '(result, _) ← clock_gettime touches CLOCK_REALTIME false; expect result EFAULT.
Definition clock_gettime_002 : prog verdict :=
  '(result, _) ← clock_gettime touches 1000 true; expect result EINVAL.

(** ** gettimeofday *)

(** What the clock is set to in the end: the time before the test and the time it took.  The division
    and the remainder are those of C. *)
Definition restored (before get set : Z * Z) : Z * Z :=
  let sec := before.1 + (get.1 - set.1) in
  let usec := before.2 + (get.2 - set.2) in
  if 1000000 <=? usec then (sec + usec ÷ 1000000, usec + Z.rem usec 1000000) else (sec, usec).

Definition gettimeofday_000 : prog verdict :=
  set_errno 0;;
  '(_, before) ← gettimeofday;
  e ← get_errno;
  TP_ASSERT e =? 0, Some "gettimeofday error. 1" ;;
  let set := (6, 6) in
  set_errno 0;;
  settimeofday set.1 set.2;;
  e ← get_errno;
  TP_ASSERT e =? 0, Some "settimeofday error. 1" ;;
  set_errno 0;;
  '(_, get) ← gettimeofday;
  e ← get_errno;
  TP_ASSERT e =? 0, Some "gettimeofday error. 2" ;;
  TP_ASSERT get.1 <=? set.1 + 1, Some "gotten timeval is too high." ;;
  TP_ASSERT (set.1 <? get.1) || (get.1 =? set.1) && (set.2 <? get.2), Some "gotten timecal is too low" ;;
  say ("set = {tv_sec = " +:+ d set.1 +:+ ", tv_usec = " +:+ d set.2 +:+ "}");;
  say ("get = {tv_sec = " +:+ d get.1 +:+ ". tv_usec = " +:+ d get.2 +:+ "}");;
  let before := restored before get set in
  set_errno 0;;
  settimeofday before.1 before.2;;
  e ← get_errno;
  TP_ASSERT e =? 0, Some "settimeofday error. 2" ;;
  Ret None.

(** ** getitimer and setitimer *)

Definition itimer_type : list Z := [ITIMER_REAL; ITIMER_VIRTUAL; ITIMER_PROF].

Fixpoint getitimer_loop (l : list Z) : prog verdict :=
  match l with
  | [] => Ret None
  | which :: l =>
      '(result, current) ← getitimer which true;
      TP_ASSERT result =? 0, Some "getitimer failed." ;;
      TP_ASSERT (current.2.1 =? 0) && (current.2.2 =? 0), Some "why timer are non zero?" ;;
      getitimer_loop l
  end.
Definition getitimer_000 : prog verdict := getitimer_loop itimer_type.
Definition getitimer_001 : prog verdict :=
  '(result, _) ← getitimer ITIMER_REAL false; expect result EFAULT.
Definition getitimer_002 : prog verdict :=
  '(result, _) ← getitimer (-1) true; expect result EINVAL.

Definition setitimer_setup : prog unit :=
  _ ← trigger (SYS_rt_sigprocmask SIG_BLOCK [SIGALRM; SIGVTALRM; SIGPROF]); Ret tt.

Definition init_time : Z := 10.
Definition itimer_name (which : Z) : string :=
  if which =? ITIMER_REAL then "ITIMER_REAL" else if which =? ITIMER_VIRTUAL then "ITIMER_VIRTUAL" else "ITIMER_PROF".
Fixpoint setitimer_loop (l : list Z) : prog verdict :=
  match l with
  | [] => Ret None
  | which :: l =>
      '(result, _) ← setitimer which (Some (0, 0, (init_time, 0))) None;
      TP_ASSERT result =? 0, Some "setitimer(1st) failed." ;;
      say ("testing " +:+ itimer_name which +:+ ", please wait...");;
      '(result, old_value) ← setitimer which (Some (0, 0, (0, 0))) (Some true);
      TP_ASSERT result =? 0, Some "setitimer(2nd) failed." ;;
      TP_ASSERT old_value.2.1 <=? init_time, Some "Why timer counter not reduced?" ;;
      setitimer_loop l
  end.
Definition setitimer_000 : prog verdict := setitimer_loop itimer_type.

Definition setitimer_001 : prog verdict :=
  '(result, _) ← setitimer ITIMER_REAL (Some (0, 0, (0, 0))) (Some false);
  TP_ASSERT result =? -1, Some "Unexpected result." ;;
  err ← get_errno;
  TP_ASSERT err =? EFAULT, Some "Unexpected errno." ;;
  '(result, _) ← setitimer ITIMER_REAL None None;
  expect result EFAULT.
Definition setitimer_002 : prog verdict :=
  '(result, _) ← setitimer (-1) (Some (0, 0, (0, 0))) None; expect result EINVAL.

(** 003 has a setup; its body is left out by [#if 0] until timers interrupt, and it returns NULL. *)
Definition setitimer_003_setup : prog unit :=
  signal SIGALRM "settimer_sig_handler";;
  signal SIGVTALRM "settimer_sig_handler";;
  signal SIGPROF "settimer_sig_handler";;
  Ret tt.

(** ** nanosleep *)

(** [time(&t)] returns the time, and [difftime] of two times is their difference, printed as
    [%8.01f]. *)
Definition f8_1 (x : Z) : string :=
  let s := pretty x +:+ ".0" in of_chars (replicate (8 - String.length s) " "%char) +:+ s.
Definition nanosleep_000 : prog verdict :=
  before_sleep ← trigger LIBC_time;
  TP_ASSERT negb (before_sleep =? -1), Some "time error." ;;
  '(sleep_result, _) ← nanosleep (Some (3, 5000));
  TP_ASSERT sleep_result =? 0, Some "time error." ;;
  after_sleep ← trigger LIBC_time;
  TP_ASSERT negb (after_sleep =? -1), Some "time error." ;;
  say ("It has passed for " +:+ f8_1 (after_sleep - before_sleep) +:+ " sec.");;
  Ret None.

Definition nanosleep_001 : prog verdict :=
  r ← signal SIGINT "nanosleep_sig_handler";
  if r =? -1 then TP_ASSERT 1 =? 0, Some "Set signal handler faild." ;; Ret None else
  pid ← fork;
  if pid =? -1 then TP_ASSERT 1 =? 0, Some "fork faild." ;; Ret None
  else if pid =? 0 then
    _ ← trigger (LIBC_sleep 2000000);
    ppid ← getppid;
    _ ← kill ppid SIGINT;
    exit 0
  else
    '(sleep_result, rem) ← nanosleep (Some (10, 5000));
    TP_ASSERT sleep_result =? -1, Some "Unexpected result." ;;
    err ← get_errno;
    TP_ASSERT err =? EINTR, Some "Unexpected errno." ;;
    say ("Remaining sleep time is " +:+ d (s32 rem.1) +:+ "." +:+ d09 rem.2);;
    Ret None.

Fixpoint nanosleep_loop (l : list (Z * Z)) : prog verdict :=
  match l with
  | [] => Ret None
  | req :: l =>
      '(sleep_result, _) ← nanosleep (Some req);
      TP_ASSERT sleep_result =? -1, Some "Unexpected result." ;;
      err ← get_errno;
      TP_ASSERT err =? EINVAL, Some "Unexpected errno." ;;
      nanosleep_loop l
  end.
Definition nanosleep_002 : prog verdict := nanosleep_loop [(-10, 5000); (10, 1000000000)].
Definition nanosleep_003 : prog verdict :=
  '(sleep_result, _) ← nanosleep None; expect sleep_result EFAULT.

(** ** times *)

Definition times_000 : prog verdict :=
  result ← times touches true;
  TP_ASSERT negb (result =? -1), Some "times() error" ;;
  Ret None.
Definition times_001 : prog verdict := result ← times touches false; expect result EFAULT.

(** ** getrusage *)

(** The fields in the order of the structure: the two times, ru_maxrss, and those that are printed when
    they are not 0. *)
Definition rusage_names : list string :=
  ["ru_ixrss"; "ru_idrss"; "ru_isrss"; "ru_minflt"; "ru_majflt"; "ru_nswap"; "ru_inblock"; "ru_oublock";
   "ru_msgsnd"; "ru_msgrcv"; "ru_nsignals"; "ru_nvcsw"; "ru_nivcsw"].
Fixpoint show_fields (l : list (string * Z)) : prog unit :=
  match l with
  | [] => Ret tt
  | (name, v) :: l => (if v =? 0 then Ret tt else say ("  " +:+ name +:+ "=" +:+ d v));; show_fields l
  end.
Definition show_rusage (usage : list Z) : prog unit :=
  let field i := default 0 (usage !! i) in
  say "------------------------------";;
  say "show_rusage():";;
  say ("  ru_utime=" +:+ d (field 0%nat) +:+ "s + " +:+ d (field 1%nat) +:+ "us");;
  say ("  ru_stime=" +:+ d (field 2%nat) +:+ "s + " +:+ d (field 3%nat) +:+ "us");;
  say ("  ru_maxrss=" +:+ d (field 4%nat));;
  show_fields (zip rusage_names ((fun i => field (5 + i)%nat) <$> seq 0 13));;
  say "------------------------------".
Definition send_and_show_rusage (who : Z) : prog Z :=
  '(ret, usage) ← getrusage who true;
  if negb (ret =? 0) then e ← get_errno; say ("getrusage() failed. (" +:+ d e +:+ ")");; Ret ret
  else show_rusage usage;; Ret ret.

Definition TEMP_BUF_SIZE : Z := 0x1000000.
Definition kib : string := d TEMP_BUF_SIZE +:+ " byte(" +:+ d (TEMP_BUF_SIZE / 1024) +:+ " KiB)".

(** What 000 and the child of 001 do between the calls; [sig_count] is the address of the variable that
    the handler sets, and the fuel bounds how often it is found 0.  A mapping that failed is not NULL. *)
Fixpoint wait_alarm (fuel : nat) (sig_count : Z) : prog unit :=
  v ← var_load sig_count;
  if negb (v =? 0) then Ret tt else
  match fuel with O => Trap SIGKILL SIG_DFL | S fuel => wait_alarm fuel sig_count end.
Definition use_memory {A} (fuel : nat) (sig_count : Z) (null : prog A) (k : Z -> prog A) : prog A :=
  say ("allocation memory " +:+ kib);;
  tmp_buf ← mmap 0 TEMP_BUF_SIZE (PROT_READ .| PROT_WRITE) (MAP_ANONYMOUS .| MAP_PRIVATE) (-1) 0;
  if tmp_buf =? NULL then null else
  memset tmp_buf 0xff TEMP_BUF_SIZE;;
  say "alarm 2 seconds wait.";;
  _ ← trigger (LIBC_alarm 2);
  wait_alarm fuel sig_count;;
  say "sleep 2 seconds wait.";;
  _ ← trigger (LIBC_sleep 2000000);
  k tmp_buf.

Definition NEED_CHECK : verdict := Some "you need check rusage value".
Definition getrusage_000 (fuel : nat) (sig_count : Z) : prog verdict :=
  var_store sig_count 0;;
  r ← signal SIGALRM "getrusage000_sig_handle";
  TP_ASSERT negb (r =? -1), Some "signal(SIGALRM) failed" ;;
  ret ← send_and_show_rusage RUSAGE_SELF;
  TP_ASSERT ret =? 0, Some "getrusage() failed." ;;
  use_memory fuel sig_count (TP_ASSERT false, Some "mmap() failed." ;; Ret None) (fun tmp_buf =>
  ret ← send_and_show_rusage RUSAGE_SELF;
  TP_ASSERT ret =? 0, Some "getrusage() failed." ;;
  say ("free memory " +:+ kib);;
  munmap tmp_buf TEMP_BUF_SIZE;;
  ret ← send_and_show_rusage RUSAGE_SELF;
  TP_ASSERT ret =? 0, Some "getrusage() failed." ;;
  Ret NEED_CHECK).

Definition getrusage001_child (fuel : nat) (sig_count : Z) : prog unit :=
  var_store sig_count 0;;
  r ← signal SIGALRM "getrusage001_sig_handle";
  if r =? -1 then say "signal(SIGALRM) failed." else
  use_memory fuel sig_count (say "mmap() failed.") (fun tmp_buf =>
  say ("free memory " +:+ kib);;
  munmap tmp_buf TEMP_BUF_SIZE;;
  Ret tt).
Definition getrusage_001 (fuel : nat) (sig_count : Z) : prog verdict :=
  ret ← send_and_show_rusage RUSAGE_CHILDREN;
  TP_ASSERT ret =? 0, Some "getrusage() failed." ;;
  pid ← fork;
  if pid =? -1 then TP_ASSERT false, Some "fork() Failed." ;; Ret None
  else if pid =? 0 then getrusage001_child fuel sig_count;; exit 0
  else
    wait;;
    ret ← send_and_show_rusage RUSAGE_CHILDREN;
    TP_ASSERT ret =? 0, Some "getrusage() failed." ;;
    Ret NEED_CHECK.

(** 003 and 004 expect an error, and print the one they got when it is another. *)
Definition expect_rusage (ret e : Z) (name : string) : prog verdict :=
  TP_ASSERT negb (ret =? 0), Some "getrusage() why successed ?" ;;
  err ← get_errno;
  if negb (err =? e) then
    say ("errno = " +:+ d err +:+ ", expected value = " +:+ name +:+ "(" +:+ d e +:+ ")");;
    TP_ASSERT false, Some "errno different from the expected value." ;;
    Ret None
  else Ret None.
Definition getrusage_003 : prog verdict :=
  '(ret, _) ← getrusage 0x12345 true; expect_rusage ret EINVAL "EINVAL".
Definition getrusage_004 : prog verdict :=
  '(ret, _) ← getrusage RUSAGE_SELF false; expect_rusage ret EFAULT "EFAULT".

(** ** enosys *)

(** move_pages, migrate_pages, mbind, get_mempolicy and set_mempolicy. *)
Definition sysnums : list Z := [279; 256; 237; 239; 238].
Fixpoint enosys_loop (l : list Z) : prog verdict :=
  match l with
  | [] => Ret None
  | nr :: l =>
      stat ← (r ← trigger (SYS_unimplemented nr); syscall_ret r);
      TP_ASSERT stat =? -1, Some "syscall error" ;;
      num ← get_errno;
      TP_ASSERT num =? ENOSYS, Some "errno error" ;;
      enosys_loop l
  end.
Definition enosys_000 : prog verdict := enosys_loop sysnums.

(** ** readlinkat *)

Record readlinkat_args := ReadlinkArgs { rl_file : option string; rl_link : option string }.
Definition set_readlinkat_arg (c : ascii) (optarg : string) (a : readlinkat_args) : readlinkat_args :=
  if Ascii.eqb c "f" then ReadlinkArgs (Some optarg) (rl_link a)
  else if Ascii.eqb c "l" then ReadlinkArgs (rl_file a) (Some optarg) else a.
Definition readlinkat_setup (argv : list string) : prog readlinkat_args :=
  a ← getopt_loop set_readlinkat_arg
    (events (scan (default "" (argv !! 0%nat)) (with_arguments ["f"; "l"]%char) [] (drop 1 argv)))
    (ReadlinkArgs None None);
  (if bool_decide (is_Some (rl_file a)) && bool_decide (is_Some (rl_link a)) then Ret tt
   else fprintf_stderr ("mandatory parameter '-f <target-absolute-filepath> -l <link-filepath>'" +:+ nl));;
  Ret a.

(** [readlinkat] stores no NUL; the buffer of 1024 bytes was cleared, so the string ends behind the
    link unless the link fills the buffer.  [beyond]: what [%s] prints then. *)
Definition readlinkat_000 (beyond : string) (args : readlinkat_args) : prog verdict :=
  match rl_file args, rl_link args with
  | Some file_path, Some link_path =>
      say ("[INFO]readlinkat test" +:+ nl +:+ " target file:" +:+ file_path +:+ nl +:+ " link file:" +:+ link_path);;
      '(r, data) ← trigger (SYS_readlinkat link_path 1024);
      result ← syscall_ret r;
      TP_ASSERT negb (result =? 0), Some "readlinkat error." ;;
      say (" buffer data:" +:+ (if result =? 1024 then data +:+ beyond else if result =? -1 then "" else data));;
      Ret None
  | _, _ => Ret (Some "invalid file path.")
  end.

End suites.
End Time.
