(* ===== verification/TimeProofs.v ===== *)
(** * The verdicts of the suites on time

    The documented behaviour of the calls on time as a specification [tstep] of a kernel: a clock that
    runs between two looks at it, three timers, and the errors of bad arguments.  What is shown of the
    tests on it holds on every kernel that [Meets] it. *)
From S2P Require Import Prelude CMachine Libc Affinity Fork Time.
Import Time.
#[local] Open Scope Z_scope.

Module TimeProofs.

(** ** The specification *)

(** Times in microseconds.  [elapse n]: how much time passes until the kernel is asked for the [n]th
    time; [shown]: the resolution and the value of a clock; [usage]: the fields of getrusage(2). *)
Record tstate := TState {
  now : Z;
  timers : Z -> Z;
  asked : nat;
  elapse : nat -> Z;
  shown : bool -> Z -> Z * Z;
  usage : list Z
}.

Definition M : Z := 1000000.
Definition split (us : Z) : Z * Z := (us / M, us mod M).
Definition with_now (x : Z) (t : tstate) : tstate :=
  TState x (timers t) (asked t) (elapse t) (shown t) (usage t).
Definition with_timer (w x : Z) (t : tstate) : tstate :=
  TState (now t) (fun w' => if w' =? w then x else timers t w') (asked t) (elapse t) (shown t) (usage t).

(** Time passes; a timer that has run down stays at 0. *)
Definition tick (t : tstate) : tstate :=
  let e := elapse t (asked t) in
  TState (now t + e) (fun w => Z.max 0 (timers t w - e)) (S (asked t)) (elapse t) (shown t) (usage t).

(** The clocks that exist without a real-time clock that can raise an alarm. *)
Definition clock_exists (id : Z) : bool := in_range 0 8 id.
Definition timer_exists (which : Z) : bool := in_range 0 3 which.

Definition tstep (c : cmd) (t : tstate) : option (reply c * tstate) :=
  match c with
  | SYS_clock res id valid =>
      Some ((if clock_exists id then if valid then 0 else - EFAULT else - EINVAL, shown t res id), t)
  | SYS_gettimeofday => let t := tick t in Some ((0, split (now t)), t)
  | SYS_settimeofday sec usec =>
      if (0 <=? sec) && in_range 0 M usec then Some (0, with_now (sec * M + usec) t) else Some (- EINVAL, t)
  | SYS_getitimer which valid =>
      Some ((if timer_exists which then if valid then 0 else - EFAULT else - EINVAL,
             (0, 0, split (timers t which))), t)
  | SYS_setitimer which new old =>
      let t := tick t in
      let old_value := (0, 0, split (timers t which)) in
      match new with
      | None => Some ((- EFAULT, old_value), t)
      | Some (_, (sec, usec)) =>
          if timer_exists which
          then Some ((if old is Some false then - EFAULT else 0, old_value), with_timer which (sec * M + usec) t)
          else Some ((- EINVAL, old_value), t)
      end
  | SYS_nanosleep req =>
      let t := tick t in
      match req with
      | None => Some ((- EFAULT, (0, 0)), t)
      | Some (sec, nsec) =>
          Some ((if (0 <=? sec) && in_range 0 1000000000 nsec then 0 else - EINVAL, (0, 0)), t)
      end
  | LIBC_time => let t := tick t in Some (now t / M, t)
  | SYS_times valid => Some (if valid then now t / 10000 else - EFAULT, t)
  | SYS_getrusage who valid =>
      Some ((if bool_decide (who ∈ [0; -1; 1]) then if valid then 0 else - EFAULT else - EINVAL, usage t), t)
  | SYS_unimplemented _ => Some (- ENOSYS, t)
  | SYS_rt_sigprocmask _ _ => Some (0, t)
  | SYS_rt_sigaction _ _ _ => Some (0, t)
  | OUT _ => Some (tt, t)
  | ERR _ => Some (tt, t)
  | _ => None
  end.

(** The kernel runs the program to the given end, to a verdict that passes. *)
Definition ends (o : outcome verdict) (p : prog verdict) (e : Z) (t : tstate) : Prop :=
  exists e' t', sexec tstep p e t = Some (o, e', t').
Abbreviation passes := (ends (Returned None)).

Lemma passes_after {A} (p : prog A) k e t a e1 t1 :
  sexec tstep p e t = Some (Returned a, e1, t1) -> passes (k a) e1 t1 -> passes (p ≫= k) e t.
Proof. intros E (e' & t' & H). exists e', t'. by rewrite (sexec_bind _ _ _ _ _ _ _ _ E). Qed.

(** ** Tests that pass *)

(** Time does not run backwards, and no timer runs at the start. *)
Record sane (t : tstate) : Prop := Sane {
  sane_now : 0 <= now t;
  sane_elapse : forall n, 0 <= elapse t n;
  sane_timers : forall w, timers t w = 0
}.

Section tests.
Context (strerror : Z -> string) (touches : bool).

(** The tests, and how each ends. *)
Definition passed : outcome verdict := Returned None.
Definition touched : outcome verdict := if touches then Signalled SIGSEGV SIG_DFL else passed.
Definition time_tests : list (prog verdict * outcome verdict) :=
  [(clock_getres_000 strerror, passed); (clock_getres_001, passed); (clock_getres_002, passed);
   (clock_gettime_000 strerror touches, passed); (clock_gettime_001 touches, touched);
   (clock_gettime_002 touches, passed);
   (getitimer_000, passed); (getitimer_001, passed); (getitimer_002, passed);
   (setitimer_setup;; setitimer_000, passed); (setitimer_setup;; setitimer_001, passed);
   (setitimer_setup;; setitimer_002, passed);
   (nanosleep_000, passed); (nanosleep_002, passed); (nanosleep_003, passed);
   (times_000 touches, passed); (times_001 touches, touched);
   (getrusage_003, passed); (getrusage_004, passed); (enosys_000, passed)].

(** What a test does not look at does not matter to it. *)
Ltac by_running := intros; eexists _, _; lazy; reflexivity.

Lemma passes_check (b : bool) msg k e t : b = true -> passes k e t -> passes (TP_ASSERT b, msg ;; k) e t.
Proof. by intros ->. Qed.

Lemma getitimer_000_passes e t : sane t -> passes getitimer_000 e t.
Proof.
  intros [_ _ Ht]. unfold getitimer_000, itimer_type.
  do 3 (cbn [getitimer_loop]; eapply passes_after; [reflexivity|]; apply passes_check; [done|];
        apply passes_check; [by simpl; rewrite Ht|]).
  by_running.
Qed.

Lemma setitimer_turn which l e t :
  timer_exists which = true -> (forall n, 0 <= elapse t n) ->
  (forall t', (forall n, 0 <= elapse t' n) -> passes (setitimer_loop l) e t') -> passes (setitimer_loop (which :: l)) e t.
Proof.
  intros Hw He Hl. cbn [setitimer_loop].
  eapply passes_after; [simpl; rewrite Hw; reflexivity|].
  apply passes_check; [done|]. eapply passes_after; [reflexivity|].
  eapply passes_after; [simpl; rewrite Hw; reflexivity|]. apply passes_check; [done|].
  apply passes_check; [|by apply Hl]. simpl. rewrite Z.eqb_refl. apply Z.leb_le.
  apply Z.lt_succ_r, Z.div_lt_upper_bound; [done|]. specialize (He (S (asked t))). unfold M, init_time. lia.
Qed.

Lemma setitimer_000_passes e t : sane t -> passes (setitimer_setup;; setitimer_000) e t.
Proof.
  intros [_ He _]. unfold setitimer_000, itimer_type. eapply passes_after; [reflexivity|].
  do 3 (apply setitimer_turn; [done|done|]; clear t He; intros t He). by_running.
Qed.

Lemma nanosleep_000_passes e t : sane t -> passes nanosleep_000 e t.
Proof.
  intros [Hn He _]. unfold nanosleep_000.
  assert (forall x y, 0 <= x -> 0 <= y -> negb ((x + y) / M =? -1) = true) as Hpos.
  { intros x y Hx Hy. assert (0 <= (x + y) / M) by (apply Z.div_pos; unfold M; lia). lia. }
  eapply passes_after; [reflexivity|]. apply passes_check; [by apply Hpos|].
  eapply passes_after; [reflexivity|]. apply passes_check; [done|].
  eapply passes_after; [reflexivity|]. apply passes_check; [|by_running].
  simpl. apply Hpos; [|done]. pose proof (He (asked t)). pose proof (He (S (asked t))). lia.
Qed.

Lemma times_000_passes e t : sane t -> passes (times_000 touches) e t.
Proof.
  intros [Hn _ _]. unfold times_000. assert (0 <= now t / 10000) as Hd by (apply Z.div_pos; lia).
  eapply (passes_after _ _ _ _ (now t / 10000)).
  - simpl. unfold syscall_ret, is_error. by replace (now t / 10000 <=? -1) with false by lia; rewrite andb_false_r.
  - apply passes_check; [lia|by_running].
Qed.

Lemma time_tests_end : Forall (fun '(p, o) => forall e t, sane t -> ends o p e t) time_tests.
Proof.
  unfold time_tests, touched, passed.
  repeat (apply Forall_cons_2; [intros e t Ht; lazymatch goal with
    | |- passes getitimer_000 _ _ => by apply getitimer_000_passes
    | |- passes (setitimer_setup;; setitimer_000) _ _ => by apply setitimer_000_passes
    | |- passes nanosleep_000 _ _ => by apply nanosleep_000_passes
    | |- passes (times_000 _) _ _ => by apply times_000_passes
    | |- ends (if _ then _ else _) _ _ _ => clear Ht; destruct touches; by_running
    | |- _ => clear Ht; by_running
    end|]). apply Forall_nil_2.
Qed.

End tests.

(** ** gettimeofday *)

(** The verdict, and the clock that the test leaves.  [u] is the sum of the microseconds. *)
Definition clock_before (t : tstate) : Z := now t + elapse t (asked t).
Definition clock_test (t : tstate) : Z := 6 * M + 6 + elapse t (S (asked t)).
Definition tod_verdict (t : tstate) : verdict * Z :=
  let b := clock_before t in
  let g := clock_test t in
  let u := b mod M + g mod M - 6 in
  if 8 * M <=? g then (Some "gotten timeval is too high.", g)
  else if elapse t (S (asked t)) =? 0 then (Some "gotten timecal is too low", g)
  else if in_range 0 M u then (None, b + elapse t (S (asked t)))
  else (Some "settimeofday error. 2", g).

(** What the clock is set to is in range exactly when the sum of the microseconds is. *)
Lemma restored_spec b g :
  0 <= b -> 6 * M + 6 < g ->
  let '(sec, usec) := restored (split b) (split g) (6, 6) in
  let u := b mod M + g mod M - 6 in
  (0 <=? sec) && in_range 0 M usec = in_range 0 M u /\
  (in_range 0 M u = true -> sec * M + usec = b + (g - (6 * M + 6))).
Proof.
  intros Hb Hg. unfold restored, split, fst, snd.
  pose proof (Z.div_mod b M). pose proof (Z.div_mod g M).
  pose proof (Z.mod_pos_bound b M). pose proof (Z.mod_pos_bound g M).
  assert (0 <= b / M) by (apply Z.div_pos; unfold M in *; lia).
  assert (6 <= g / M) by (apply Z.div_le_lower_bound; unfold M in *; lia).
  destruct (Z.leb_spec 1000000 (b mod M + (g mod M - 6))) as [Hc|Hc].
  - assert (0 <= Z.rem (b mod M + (g mod M - 6)) 1000000) by (apply Z.rem_nonneg; lia).
    unfold in_range, M in *. lia.
  - unfold in_range, M in *. lia.
Qed.

(** The two checks of the time that was read. *)
Lemma not_too_high g : (g / M <=? 7) = negb (8 * M <=? g).
Proof.
  destruct (Z.leb_spec (8 * M) g) as [H|H]; simpl.
  - apply Z.leb_gt. apply Z.lt_le_trans with 8; [done|]. apply Z.div_le_lower_bound; unfold M in *; lia.
  - apply Z.leb_le, Z.lt_succ_r, Z.div_lt_upper_bound; unfold M in *; lia.
Qed.

Lemma not_too_low e :
  0 <= e ->
  let g := 6 * M + 6 + e in (6 <? g / M) || (g / M =? 6) && (6 <? g mod M) = negb (e =? 0).
Proof.
  intros He g. pose proof (Z.div_mod g M). pose proof (Z.mod_pos_bound g M).
  assert (6 <= g / M) by (apply Z.div_le_lower_bound; unfold g, M; lia). unfold g, M in *. lia.
Qed.

(** Evaluation up to the next condition on the clock. *)
Ltac run_clock :=
  repeat progress (cbn -[Z.div Z.modulo Z.add Z.mul Z.leb Z.ltb Z.eqb restored split tick in_range with_now M
                         Fork.Fork.d syscall_ret];
    try change (syscall_ret 0) with (@Ret Z 0); try change (syscall_ret (- EINVAL)) with (SetErrno 22 (Ret (-1)));
    try change (0 =? 0) with true; try change (22 =? 0) with false;
    try change ((0 <=? 6) && in_range 0 M 6) with true; cbv iota).

Lemma gettimeofday_run e t :
  0 <= now t -> (forall n, 0 <= elapse t n) ->
  exists v e' t', sexec tstep gettimeofday_000 e t = Some (Returned v, e', t') /\ (v, now t') = tod_verdict t.
Proof.
  intros Hn He. pose proof (He (S (asked t))) as Hel.
  assert (0 <= clock_before t) as Hb by (unfold clock_before; specialize (He (asked t)); lia).
  unfold gettimeofday_000, gettimeofday, settimeofday, trigger. run_clock.
  set (fin := tick (with_now (6 * M + 6) (tick t))). change (now (tick t)) with (clock_before t).
  assert (now fin = clock_test t) as Hfin by done. rewrite Hfin. clearbody fin. unfold tod_verdict.
  change (split (clock_test t)).1 with (clock_test t / M). change (6 + 1) with 7. rewrite not_too_high.
  destruct (8 * M <=? clock_test t); simpl negb; unfold tp_assert at 1; cbv iota; [by exists (Some "gotten timeval is too high."), 0, fin; rewrite <- Hfin|].
  change (split (clock_test t)).2 with (clock_test t mod M). unfold clock_test at 1 2 3. rewrite not_too_low by done.
  destruct (Z.eqb_spec (elapse t (S (asked t))) 0) as [|Hne]; simpl negb; unfold tp_assert at 1; cbv iota;
    [by exists (Some "gotten timecal is too low"), 0, fin; rewrite <- Hfin|].
  pose proof (restored_spec (clock_before t) (clock_test t) Hb) as Hr. unfold clock_test at 1 in Hr.
  specialize (Hr ltac:(lia)). run_clock. destruct (restored _ _ _) as [sec usec]. destruct Hr as [Hc Hsum].
  simpl fst. simpl snd. rewrite Hc.
  destruct (in_range 0 M (clock_before t mod M + clock_test t mod M - 6)); run_clock.
  - eexists _, _, _. split; [reflexivity|]. simpl. rewrite Hsum by done. unfold clock_test. f_equal. lia.
  - eexists _, _, fin. split; [reflexivity|]. by rewrite Hfin.
Qed.

(** ** On every kernel *)

Section kernel.
Context `{K : Kernel} (view : kstate -> tstate) `{!Meets tstep view} (strerror : Z -> string) (touches : bool).

(** C40: On every kernel that meets [tstep] the 20 tests on time in [time_tests] end as listed there.
    clock_gettime/001 and times/001, which pass an invalid address, are killed by SIGSEGV when the C
    library touches the address itself, which src/NG_item_list.txt expects, and pass when the address
    only reaches the kernel, which the test cases expect.  The others return NULL: the clocks, the
    timers, the sleeps and the error codes are as the tests expect.  setitimer/000 passes whether or not
    any time has passed, that is, whether or not its timers have run. *)
Theorem time_tests_verdicts p o e s :
  (p, o) ∈ time_tests strerror touches -> sane (view s) ->
  exists e' s', exec p (Mach e s) = (o, Mach e' s').
Proof.
  intros Hp Hs. pose proof (time_tests_end strerror touches) as Hall. rewrite Forall_forall in Hall.
  destruct (Hall (p, o) Hp e (view s) Hs) as (e' & t' & E).
  destruct (sexec_exec _ _ _ _ _ _ _ E) as (s' & E' & _). eauto.
Qed.

(** gettimeofday/000 gives back the time it took away only when the microseconds of the two times
    add up to less than a second: then it passes and leaves the clock where it would be without the
    test.  When they add up to a second or more, the carry is added instead of subtracted, settimeofday
    refuses the result, the test fails, and the clock stays in the year 1970; so it does when the test
    fails because the clock did not move, or moved too far. *)
Theorem gettimeofday_verdict e s :
  0 <= now (view s) -> (forall n, 0 <= elapse (view s) n) ->
  exists v e' s', exec gettimeofday_000 (Mach e s) = (Returned v, Mach e' s') /\
    (v, now (view s')) = tod_verdict (view s).
Proof.
  intros Hn He. destruct (gettimeofday_run e (view s) Hn He) as (v & e' & t' & E & Hv).
  destruct (sexec_exec _ _ _ _ _ _ _ E) as (s' & E' & <-). eauto.
Qed.

End kernel.

(** ** The specification as a kernel *)

#[local] Instance TimeRef : Kernel :=
  {| kstate := tstate; kstep c t := default (no_reply c, t) (tstep c t) |}.
Definition time_view (t : @kstate TimeRef) : tstate := t.
#[local] Instance TimeRef_meets : Meets tstep time_view.
Proof. intros c s r t E. exists t. unfold time_view in E. cbn. by rewrite E. Qed.

(** The clock shows 0.3 seconds, and half a second passes between two looks at it. *)
Definition slow : tstate := TState 300000 (fun _ => 0) 0 (fun _ => 500000) (fun _ _ => (0, 1)) [].

Lemma slow_sane : sane (time_view slow).
Proof. split; [discriminate|discriminate|reflexivity]. Qed.

Lemma time_tests_verdicts_witness :
  (exists e' s', exec (setitimer_setup;; setitimer_000) (Mach 0 slow) = (Returned None, Mach e' s')) /\
  (exists e' s', exec (times_001 true) (Mach 0 slow) = (Signalled SIGSEGV SIG_DFL, Mach e' s')) /\
  exists e' s', exec (times_001 false) (Mach 0 slow) = (Returned None, Mach e' s').
Proof.
  split; [|split].
  - apply (time_tests_verdicts time_view (fun _ => "error"%string) true); [do 9 right; left|apply slow_sane].
  - apply (time_tests_verdicts time_view (fun _ => "error"%string) true); [do 16 right; left|apply slow_sane].
  - apply (time_tests_verdicts time_view (fun _ => "error"%string) false); [do 16 right; left|apply slow_sane].
Defined.

Lemma gettimeofday_verdict_witness :
  exists e' s', exec gettimeofday_000 (Mach 0 slow) = (Returned (Some "settimeofday error. 2"), Mach e' s').
Proof.
  destruct (gettimeofday_verdict time_view 0 slow) as (v & e' & s' & E & Hv); [discriminate|discriminate|].
  vm_compute in Hv. injection Hv as -> _. eauto.
Defined.

(** ** Runs *)

(** No run of the program passes. *)
Definition fails (p : prog verdict) : Prop := forall e tr e', ~ run p e tr (Returned None) e'.

Lemma fails_bind {A} (p : prog A) k : (forall a, fails (k a)) -> fails (p ≫= k).
Proof. intros Hk e tr e' (a & e1 & tr1 & tr2 & _ & H & _)%run_bind_returned. by apply Hk in H. Qed.
Lemma fails_message msg : fails (Ret (Some msg)).
Proof. by intros e tr e' (_ & [=] & _). Qed.
Lemma fails_exit n : fails (Exit n).
Proof. by intros e tr e' (_ & [=] & _). Qed.
Lemma fails_assert b msg k : fails k -> fails (TP_ASSERT b, Some msg ;; k).
Proof. intros Hk. destruct b; [done|apply fails_message]. Qed.

Ltac fail_always :=
  repeat match goal with
  | |- fails (_ ≫= _) => apply fails_bind; intros ?
  | |- fails (Ret (Some _)) => apply fails_message
  | |- fails (exit _) => apply fails_exit
  | |- fails (TP_ASSERT false, Some ?m ;; _) => apply (fails_message m)
  | |- fails (TP_ASSERT _, Some _ ;; _) => apply fails_assert
  | |- fails (if ?b then _ else _) => destruct b
  | |- fails (Ret NEED_CHECK) => apply fails_message
  end.

(** getrusage/000 and 001 end by asking the reader to look at the output. *)
Theorem getrusage_never_passes fuel sig_count : fails (getrusage_000 fuel sig_count) /\ fails (getrusage_001 fuel sig_count).
Proof.
  split.
  - unfold getrusage_000, use_memory. fail_always.
  - unfold getrusage_001. fail_always.
Qed.

(** readlinkat/000 takes every error for a success. *)
Theorem readlinkat_ignores_errors beyond file link e err :
  is_error (- err) = true ->
  exists tr, run (readlinkat_000 beyond (ReadlinkArgs (Some file) (Some link))) e tr (Returned None) err.
Proof.
  intros He. eexists. refine (ex_intro _ tt (ex_intro _ _ (conj eq_refl _))).
  refine (ex_intro _ (- err, ""%string) (ex_intro _ _ (conj eq_refl _))).
  unfold syscall_ret. cbn -[is_error]. rewrite He.
  refine (ex_intro _ tt (ex_intro _ _ (conj eq_refl _))). by rewrite Z.opp_involutive.
Qed.

End TimeProofs.
