(* ===== verification/MemSys.v ===== *)
(** * Memory system calls: msync, remap_file_pages, mlock, and tests that only touch memory

    src/src/test_mck/src/{msync,remap_file_pages,mlock,munlock,mlockall,munlockall,nfo,
    page_fault_forwording}/.  A test case is its [RUN_FUNC], which yields the verdict and the static
    variables, and its teardown.  msync/001, nfo/001 and nfo/002, which need threads, are not here. *)
From S2P Require Import Prelude CMachine Align Libc FileMap TestMck Affinity Fork.
Import Align Libc FileMap TestMck Affinity Fork.
#[local] Open Scope Z_scope.

Module MemSys.

Definition MAP_LOCKED : Z := 0x2000.
Definition MAP_POPULATE : Z := 0x8000.
Definition MCL_CURRENT : Z := 1.
Definition MCL_FUTURE : Z := 2.

Definition mlock (addr len : Z) : prog Z := r ← trigger (SYS_mlock addr len); syscall_ret r.
Definition munlock (addr len : Z) : prog Z := r ← trigger (SYS_munlock addr len); syscall_ret r.
Definition mlockall (flags : Z) : prog Z := r ← trigger (SYS_mlockall flags); syscall_ret r.
Definition munlockall : prog Z := r ← trigger SYS_munlockall; syscall_ret r.
Definition remap_file_pages (addr len prot pgoff flags : Z) : prog Z :=
  r ← trigger (SYS_remap_file_pages addr len prot pgoff flags); syscall_ret r.

(** [memcmp(a, b, n)] looks at bytes until they differ. *)
Fixpoint memcmp (n : nat) (a b : Z) : prog Z :=
  match n with
  | O => Ret 0
  | S n =>
      x ← load a;
      y ← load b;
      if x =? y then memcmp n (u64 (a + 1)) (u64 (b + 1)) else Ret (x - y)
  end.

Section suites.
Context (strerror : Z -> string) (fuel : nat) (show_p : Z -> string) (TEMP_FILE_PREFIX : string).

(** ** mlock, munlock, mlockall, munlockall *)

Definition MLOCK_MALLOC_SIZE : Z := 0x1000.
Definition mlock_000 : prog verdict :=
  p ← malloc MLOCK_MALLOC_SIZE;
  match p with
  | None => Ret (Some "malloc failed.")
  | Some (addr, _) =>
      ret ← mlock addr MLOCK_MALLOC_SIZE;
      TP_ASSERT negb (ret =? -1), Some "mlock failed." ;;
      Ret None
  end.

Definition MUNLOCK_MALLOC_SIZE : Z := 0x1000.
Definition munlock_000 : prog verdict :=
  p ← malloc MUNLOCK_MALLOC_SIZE;
  match p with
  | None => Ret (Some "malloc failed.")
  | Some (addr, _) =>
      ret ← mlock addr MUNLOCK_MALLOC_SIZE;
      TP_ASSERT negb (ret =? -1), Some "mlock failed." ;;
      ret ← munlock addr MUNLOCK_MALLOC_SIZE;
      TP_ASSERT negb (ret =? -1), Some "munlock failed." ;;
      Ret None
  end.

Definition mlockall_000 : prog verdict :=
  res ← mlockall (MCL_CURRENT .| MCL_FUTURE);
  TP_ASSERT res =? 0, Some "mlockall error." ;;
  Ret None.
Definition munlockall_000 : prog verdict :=
  res ← mlockall (MCL_CURRENT .| MCL_FUTURE);
  TP_ASSERT res =? 0, Some "mlockall error." ;;
  res ← munlockall;
  TP_ASSERT res =? 0, Some "munlockall error." ;;
  Ret None.

(** ** msync/000 *)

Definition LENGTH : Z := PAGE_SIZE * 3.

(** The static variables [tmp_file], [fd] and [addr]. *)
Record msync_vars := MsyncVars { mv_tmp_file : option string; mv_fd : Z; mv_addr : Z }.

Definition filled (c : ascii) : list Z := replicate (Z.to_nat LENGTH) (chr c).
Definition msync_000_run : prog (verdict * msync_vars) :=
  tmp_file ← test_mck_create_temp_file TEMP_FILE_PREFIX LENGTH;
  match tmp_file with
  | None => Ret (Some "create temp file error.", MsyncVars None (-1) MAP_FAILED)
  | Some path =>
      let vars := MsyncVars (Some path) in
      fd ← open path O_RDWR;
      if fd =? -1 then Ret (Some "open error", vars fd MAP_FAILED) else
      size ← write fd (filled "0");
      if negb (u64 size =? LENGTH) then Ret (Some "write error.", vars fd MAP_FAILED) else
      ret ← fsync fd;
      if ret =? -1 then Ret (Some "fsync error.", vars fd MAP_FAILED) else
      ret ← close fd;
      if ret =? -1 then Ret (Some "close error.", vars (-1) MAP_FAILED) else
      fd ← open path O_RDWR;
      if fd =? -1 then Ret (Some "open error", vars fd MAP_FAILED) else
      addr ← mmap NULL LENGTH (PROT_WRITE .| PROT_READ) (MAP_SHARED .| MAP_LOCKED .| MAP_POPULATE) fd 0;
      if addr =? MAP_FAILED then Ret (Some "mmap error.", vars fd addr) else
      memset addr (chr "1") LENGTH;;
      ret ← msync addr LENGTH MS_SYNC;
      if ret =? -1 then Ret (Some "msync error.", vars fd addr) else
      '(size, readbuf) ← read fd LENGTH;
      if negb (u64 size =? LENGTH) then Ret (Some "write error.", vars fd addr) else
      if negb (bool_decide (take (Z.to_nat LENGTH) readbuf = filled "1")) then Ret (Some "memcmp error.", vars fd addr)
      else Ret (None, vars fd addr)
  end.
Definition msync_000_teardown (v : msync_vars) : prog unit :=
  (if negb (mv_addr v =? MAP_FAILED) then munmap (mv_addr v) LENGTH;; Ret tt else Ret tt);;
  (if negb (mv_fd v =? -1) then close (mv_fd v);; Ret tt else Ret tt);;
  match mv_tmp_file v with Some path => test_mck_delete_temp_file (Some path) | None => Ret tt end.
Definition msync_000 : prog verdict :=
  '(v, vars) ← msync_000_run; msync_000_teardown vars;; Ret v.

(** ** remap_file_pages *)

Definition remap_file_pages_pgoff_to_addr (start page : Z) : Z := u64 (start + u64 (PAGE_SIZE * page)).
(** The suites are compiled with [-funsigned-char], so that a byte that is loaded compares equal to it. *)
Definition remap_file_pages_hash (page : Z) : Z := u8 (Z.rem page 256).

Record remap_args := RemapArgs { rf_dir : string; rf_file_size : Z }.
(** [strtoull] is [strtoul]: both have 64 bits. *)
Definition set_remap_arg (c : ascii) (optarg : string) (a : remap_args) : remap_args :=
  if Ascii.eqb c "d" then RemapArgs optarg (rf_file_size a)
  else if Ascii.eqb c "s" then RemapArgs (rf_dir a) (c_value (strtoul optarg 10)) else a.
Definition remap_setup (argv : list string) : prog remap_args :=
  getopt_loop set_remap_arg
    (events (scan (default "" (argv !! 0%nat)) (with_arguments ["d"; "s"]%char) [] (drop 1 argv)))
    (RemapArgs "." 0).

(** A page of the file: its number modulo 256, and zeros. *)
Definition page_buf (page : Z) : list Z := remap_file_pages_hash page :: replicate (Z.to_nat PAGE_SIZE - 1) 0.
Fixpoint create_loop (n : nat) (page fd : Z) : prog unit :=
  match n with
  | O => Ret tt
  | S n => _ ← write fd (page_buf page); create_loop n (page + 1) fd
  end.

(** The path that [mkstemp] rewrote comes back with the message. *)
Definition remap_file_pages_create_file (path : string) (size : Z) : prog (verdict * string) :=
  '(fd, path) ← mkstemp path;
  if fd =? -1 then Ret (Some "open error.", path) else
  create_loop (Z.to_nat (size / PAGE_SIZE)) 0 fd;;
  close fd;;
  trigger LIBC_sync;;
  Ret (None, path).

(** [(size / PAGE_SIZE) - 1] becomes an [int], with which the loops count down to 0. *)
Definition last_page (size : Z) : Z := s32 (u64 (size / PAGE_SIZE - 1)).

(** [mmap_page] counts down from [n - 1], [file_page] up. *)
Fixpoint remap_loop (n : nat) (addr file_page : Z) (k : prog verdict) : prog verdict :=
  match n with
  | O => k
  | S n =>
      let mmap_page := Z.of_nat n in
      status ← remap_file_pages (remap_file_pages_pgoff_to_addr addr mmap_page) PAGE_SIZE 0 file_page 0;
      TP_ASSERT status =? 0, Some "remap error" ;;
      remap_loop n addr (file_page + 1) k
  end.
Fixpoint compare_loop (n : nat) (addr remap_page : Z) : prog verdict :=
  match n with
  | O => Ret None
  | S n =>
      let orig_page := Z.of_nat n in
      b ← load (remap_file_pages_pgoff_to_addr addr remap_page);
      TP_ASSERT b =? remap_file_pages_hash orig_page, Some "compare failed." ;;
      compare_loop n addr (remap_page + 1)
  end.
Definition remap_file_pages_compare (remap_data size : Z) : prog verdict :=
  compare_loop (Z.to_nat (last_page size + 1)) remap_data 0.

(** The static variables [path] and [fd]. *)
Definition test_file_name : string := "remap_file_pages_tp-XXXXXX".
Definition remap_run (args : remap_args) : prog (verdict * (string * Z)) :=
  let path := rf_dir args +:+ "/" +:+ test_file_name in
  '(err, path) ← remap_file_pages_create_file (of_chars (take 255 (chars path))) (rf_file_size args);
  say ("test file path=" +:+ path);;
  match err with
  | Some _ => Ret (err, (path, -1))
  | None =>
      fd ← open path O_RDWR;
      if fd =? -1 then Ret (Some "file open error.", (path, fd)) else
      addr ← mmap 0 (rf_file_size args) (PROT_READ .| PROT_WRITE) MAP_SHARED fd 0;
      if addr =? MAP_FAILED then Ret (Some "mmap error.", (path, fd)) else
      say ("mmap[" +:+ show_p addr +:+ "-" +:+ show_p (u64 (addr + rf_file_size args)) +:+ ")");;
      v ← remap_loop (Z.to_nat (last_page (rf_file_size args) + 1)) addr 0
            (remap_file_pages_compare addr (rf_file_size args));
      Ret (v, (path, fd))
  end.
Definition remap_teardown (vars : string * Z) : prog unit :=
  let '(path, fd) := vars in
  if negb (fd =? -1) then close fd;; say ("delete test file=" +:+ path);; unlink path;; Ret tt else Ret tt.
Definition remap_000 (args : remap_args) : prog verdict :=
  '(v, vars) ← remap_run args; remap_teardown vars;; Ret v.

(** ** nfo *)

(** [buf] is [-1] where there is no mapping. *)
Definition NFO_LEN : nat := 2.
Fixpoint nfo_map (n : nat) (buf : list Z) : prog (verdict * list Z) :=
  match n with
  | O => Ret (None, buf)
  | S n =>
      a ← mmap NULL PAGE_SIZE PROT_READ (MAP_PRIVATE .| MAP_ANONYMOUS) (-1) 0;
      if a =? MAP_FAILED then Ret (Some "out of memory.(mmap)", buf) else
      say ("buf[" +:+ d (Z.of_nat (length buf)) +:+ "]=" +:+ show_p a);;
      nfo_map n (buf ++ [a])
  end.
Fixpoint nfo_teardown (buf : list Z) : prog unit :=
  match buf with
  | [] => Ret tt
  | a :: buf => munmap a PAGE_SIZE;; nfo_teardown buf
  end.
Definition nfo_loads (buf : list Z) : prog unit :=
  match buf with
  | [b0; b1] => memcmp (Z.to_nat PAGE_SIZE) b0 b1;; memcmp (Z.to_nat PAGE_SIZE) b1 b0;; Ret tt
  | _ => Ret tt
  end.

Definition nfo_000 : prog verdict :=
  '(v, buf) ← nfo_map NFO_LEN [];
  (if is_NULL v then nfo_loads buf else Ret tt);;
  nfo_teardown buf;;
  Ret v.

(** The handler of 003 exits with 0 when the signal is SIGSEGV. *)
Definition nfo_003_store (buf : list Z) : prog unit :=
  match buf with
  | [b0; b1] => store (u64 ((if b0 <? b1 then b1 else b0) + PAGE_SIZE)) (chr "Z")
  | _ => Ret tt
  end.
Definition nfo_003 : prog verdict :=
  '(v, buf) ← nfo_map NFO_LEN [];
  v ← (if is_NULL v then
         r ← sigaction SIGSEGV "nfo_003_sig_handler" SA_RESTART;
         if r =? -1 then Ret (Some "setup signal handler error.") else
         nfo_loads buf;;
         nfo_003_store buf;;
         Ret (Some "handle sigsegv error.")
       else Ret v);
  nfo_teardown buf;;
  Ret v.

(** ** page_fault_forwording *)

Definition hello : list Z := FileMap.bytes "hello world".
Definition pff_000 : prog verdict := say "hello world";; Ret None.

Definition pff_001_run : prog (verdict * Z) :=
  let addr_size := Z.of_nat (length hello) + 1 in
  addr ← mmap NULL addr_size (PROT_READ .| PROT_WRITE) (MAP_PRIVATE .| MAP_ANONYMOUS) (-1) 0;
  if addr =? MAP_FAILED then Ret (Some "mmap error.", addr) else
  strcpy addr hello;;
  print_string fuel addr;; printf FileMap.nl;;
  Ret (None, addr).
Definition pff_001 : prog verdict :=
  '(v, addr) ← pff_001_run;
  (if negb (addr =? MAP_FAILED) then munmap addr (Z.of_nat (length hello) + 1);; Ret tt else Ret tt);;
  Ret v.

(** The result of [sbrk] is not checked. *)
Definition pff_002 : prog verdict :=
  addr ← sbrk (Z.of_nat (length hello) + 1);
  strcpy addr hello;;
  print_string fuel addr;; printf FileMap.nl;;
  (if negb (addr =? MAP_FAILED) then brk addr;; Ret tt else Ret tt);;
  Ret None.

End suites.
End MemSys.
