(* ===== verification/MemSysProofs.v ===== *)
(** * What remap_file_pages/000 can see, and what the other memory tests leave

    A file, a mapping of it and the page of the file behind each page of the mapping, as a specification
    of a kernel on which remap_file_pages(2) may fail to have an effect on some of the pages; the verdict
    of the test on it, for a file of any length. *)
From S2P Require Import Prelude CMachine Align Libc FileMap TestMck Affinity Fork Ledger TestMckProofs MemSys.
Import Align Libc FileMap TestMck Fork Ledger TestMckProofs MemSys.
#[local] Open Scope Z_scope.

Module MemSysProofs.

(** ** The specification *)

(** The name of the file while it has one, its bytes, the offset of the open descriptor, and the
    mapping: the page of the file behind each of its pages. *)
Record rstate := RState {
  r_file : option string;
  r_data : list Z;
  r_offset : option Z;
  r_map : option (list Z)
}.

Definition ENOMEM : Z := 12.
Definition USER_END : Z := 2 ^ 47.

Section spec.
(** [works i]: remap_file_pages(2) has an effect on page [i] of the mapping (it always replies 0);
    [name]: the name mkstemp(3) makes of a template; [base]: the address of the mapping. *)
Context (works : Z -> bool) (name : string -> string) (fd base : Z).

Definition page_of (a : Z) (t : list Z) : option nat :=
  let i := (a - base) / PAGE_SIZE in
  if (base <=? a) && (i <? Z.of_nat (length t)) then Some (Z.to_nat i) else None.

Definition rstep (c : cmd) (s : rstate) : option (reply c * rstate) :=
  match c with
  | LIBC_mkstemp template =>
      match r_file s, r_offset s with
      | None, None => Some ((fd, name template), RState (Some (name template)) [] (Some 0) (r_map s))
      | _, _ => None
      end
  | SYS_open path _ =>
      match r_file s, r_offset s with
      | Some p, None => if String.eqb p path then Some (fd, RState (Some p) (r_data s) (Some 0) (r_map s)) else None
      | _, _ => None
      end
  | SYS_write f bytes =>
      off ← r_offset s;
      if f =? fd then
        let n := Z.of_nat (length bytes) in
        Some (n, RState (r_file s) (take (Z.to_nat off) (r_data s) ++ bytes ++ drop (Z.to_nat (off + n)) (r_data s))
                   (Some (off + n)) (r_map s))
      else None
  | SYS_close f => if f =? fd then Some (0, RState (r_file s) (r_data s) None (r_map s)) else None
  | SYS_unlink path =>
      p ← r_file s;
      if String.eqb p path then Some (0, RState None (r_data s) (r_offset s) (r_map s)) else None
  | SYS_mmap addr len _ _ f off =>
      match r_map s, r_offset s with
      | None, Some _ =>
          if (addr =? 0) && (f =? fd) && (off =? 0) then
            if len =? 0 then Some (- EINVAL, s)
            else if USER_END <? base + len then Some (- ENOMEM, s)
            else Some (base, RState (r_file s) (r_data s) (r_offset s)
                               (Some (seqZ 0 ((len + PAGE_OFFSET) / PAGE_SIZE))))
          else None
      | _, _ => None
      end
  | SYS_remap_file_pages addr len prot pgoff flags =>
      t ← r_map s;
      i ← page_of addr t;
      if (addr mod PAGE_SIZE =? 0) && (len =? PAGE_SIZE) && (prot =? 0) && (flags =? 0) then
        Some (0, RState (r_file s) (r_data s) (r_offset s)
                   (Some (if works (Z.of_nat i) then <[i := pgoff]> t else t)))
      else None
  | MEM_load a =>
      t ← r_map s;
      i ← page_of a t;
      p ← t !! i;
      b ← r_data s !! Z.to_nat (p * PAGE_SIZE + (a - base) mod PAGE_SIZE);
      Some (Ok b, s)
  | LIBC_sync => Some (tt, s)
  | OUT _ => Some (tt, s)
  | _ => None
  end.

(** ** The verdict *)

(** The number of whole pages, and the pages on which the test cannot tell whether the call had an
    effect: those whose first byte is the same either way. *)
Definition whole_pages (size : Z) : Z := size / PAGE_SIZE.
Definition blind (n i : Z) : bool := (n - 1 - 2 * i) mod 256 =? 0.
Definition page_passes (n i : Z) : bool := works i || blind n i.
Definition remap_verdict (size : Z) : verdict :=
  if (size =? 0) || (USER_END <? base + size) then Some "mmap error."
  else if forallb (page_passes (whole_pages size)) (seqZ 0 (whole_pages size)) then None
  else Some "compare failed.".

(** ** The file *)

Fixpoint file_pages (n : nat) (page : Z) : list Z :=
  match n with
  | O => []
  | S n => page_buf page ++ file_pages n (page + 1)
  end.

Lemma length_page_buf page : length (page_buf page) = Z.to_nat PAGE_SIZE.
Proof. unfold page_buf. by rewrite length_cons, length_replicate. Qed.

Lemma file_pages_lookup n p i :
  0 <= i < Z.of_nat n ->
  file_pages n p !! Z.to_nat (i * PAGE_SIZE) = Some (remap_file_pages_hash (p + i)).
Proof.
  revert p i. induction n as [|n IH]; intros p i Hi; [lia|]. cbn [file_pages].
  destruct (Z.eq_dec i 0) as [->|Hne]; [by rewrite Z.add_0_r|].
  rewrite lookup_app_r; rewrite length_page_buf.
  - replace (_ - _)%nat with (Z.to_nat ((i - 1) * PAGE_SIZE)) by (change PAGE_SIZE with 4096; lia).
    rewrite IH by lia. do 2 f_equal. lia.
  - change PAGE_SIZE with 4096. lia.
Qed.

Lemma create_loop_runs n page e (f : option string) data m :
  sexec rstep (create_loop n page fd) e (RState f data (Some (Z.of_nat (length data))) m) =
  Some (Returned tt, e, let data := data ++ file_pages n page in
                        RState f data (Some (Z.of_nat (length data))) m).
Proof.
  revert page data. induction n as [|n IH]; intros page data; [by simpl; rewrite app_nil_r|].
  cbn [create_loop file_pages]. rewrite (sexec_bind rstep _ _ _ _ 4096 e
    (RState f (data ++ page_buf page) (Some (Z.of_nat (length (data ++ page_buf page)))) m)).
  - rewrite IH. simpl. by rewrite <- app_assoc.
  - unfold write, trigger. cbn -[page_buf Z.to_nat Z.of_nat]. rewrite Z.eqb_refl, length_page_buf.
    cbn -[page_buf Z.to_nat Z.of_nat]. change (Z.of_nat (Z.to_nat PAGE_SIZE)) with 4096.
    rewrite take_ge, drop_ge, app_nil_r, length_app, length_page_buf, Nat2Z.inj_add by lia.
    reflexivity.
Qed.

(** ** The mapping *)

Context (base_ok : 0 < base) (base_aligned : base mod PAGE_SIZE = 0).

Lemma page_address i n :
  0 <= i < n -> base + n * PAGE_SIZE <= USER_END ->
  remap_file_pages_pgoff_to_addr base i = base + i * PAGE_SIZE.
Proof.
  intros Hi Hn. unfold remap_file_pages_pgoff_to_addr. change PAGE_SIZE with 4096 in *. unfold USER_END in Hn.
  rewrite (wrap_u_small 64 (4096 * i)) by lia. rewrite wrap_u_small by lia. lia.
Qed.

Lemma page_of_address t i :
  0 <= i < Z.of_nat (length t) -> page_of (base + i * PAGE_SIZE) t = Some (Z.to_nat i).
Proof.
  intros Hi. unfold page_of. replace (base + i * PAGE_SIZE - base) with (i * PAGE_SIZE) by lia.
  rewrite Z.div_mul by done. change PAGE_SIZE with 4096.
  by replace ((base <=? base + i * 4096) && (i <? Z.of_nat (length t))) with true by lia.
Qed.

(** What the calls of the loop do to the mapping. *)
Fixpoint remapped (n : nat) (f : Z) (t : list Z) : list Z :=
  match n with
  | O => t
  | S n => remapped n (f + 1) (if works (Z.of_nat n) then <[n := f]> t else t)
  end.

Lemma length_set_page (b : bool) (i : nat) (p : Z) (t : list Z) :
  length (if b then <[i := p]> t else t) = length t.
Proof. destruct b; [apply length_insert|done]. Qed.

Lemma remapped_lookup n f t i :
  (n <= length t)%nat ->
  remapped n f t !! i =
  if bool_decide (i < n)%nat && works (Z.of_nat i) then Some (f + Z.of_nat n - 1 - Z.of_nat i) else t !! i.
Proof.
  revert f t. induction n as [|n IH]; intros f t Hn; [done|]. cbn [remapped].
  rewrite IH by (rewrite length_set_page; lia).
  destruct (decide (i = n)) as [->|Hne].
  - rewrite bool_decide_eq_false_2, bool_decide_eq_true_2 by lia. simpl.
    destruct (works (Z.of_nat n)); [|done]. rewrite list_lookup_insert_eq by lia. f_equal. lia.
  - replace (bool_decide (i < S n)%nat) with (bool_decide (i < n)%nat) by (apply bool_decide_ext; lia).
    destruct (bool_decide (i < n)%nat && works (Z.of_nat i)); [f_equal; lia|].
    destruct (works (Z.of_nat n)); [|done]. by rewrite list_lookup_insert_ne.
Qed.

Lemma length_remapped n f t : length (remapped n f t) = length t.
Proof.
  revert f t. induction n as [|n IH]; intros f t; [done|]. cbn [remapped]. by rewrite IH, length_set_page.
Qed.

Lemma remap_loop_runs n f k e file data o t :
  (n <= length t)%nat -> base + Z.of_nat n * PAGE_SIZE <= USER_END ->
  sexec rstep (remap_loop n base f k) e (RState file data o (Some t)) =
  sexec rstep k e (RState file data o (Some (remapped n f t))).
Proof.
  revert f t. induction n as [|n IH]; intros f t Hn Hend; [done|]. cbn [remap_loop remapped].
  set (t1 := if works (Z.of_nat n) then <[n := f]> t else t).
  assert (length t1 = length t) as Hlen by by apply length_set_page.
  rewrite (sexec_bind rstep _ _ _ _ 0 e (RState file data o (Some t1))).
  - unfold tp_assert. simpl. apply IH; [rewrite Hlen; lia|]. change PAGE_SIZE with 4096 in *. lia.
  - rewrite (page_address _ (Z.of_nat (S n))) by lia.
    unfold MemSys.remap_file_pages, trigger. cbn -[PAGE_SIZE page_of Z.mul Z.modulo Z.of_nat].
    rewrite page_of_address by lia. cbn -[PAGE_SIZE page_of Z.mul Z.modulo Z.of_nat Z.to_nat].
    rewrite Z.mod_add, base_aligned by done. cbn -[PAGE_SIZE Z.of_nat Z.to_nat].
    rewrite Nat2Z.id. done.
Qed.

(** ** The comparison *)

Lemma hash_eq a b : 0 <= a -> 0 <= b -> (remap_file_pages_hash a =? remap_file_pages_hash b) = ((b - a) mod 256 =? 0).
Proof.
  intros Ha Hb. unfold remap_file_pages_hash. rewrite !Z.rem_mod_nonneg by lia.
  rewrite !wrap_u_small by (pose proof (Z.mod_pos_bound a 256); pose proof (Z.mod_pos_bound b 256); lia).
  apply eq_true_iff_eq. rewrite !Z.eqb_eq. split; intros H.
  - rewrite Zminus_mod, H, Z.sub_diag. done.
  - apply Z.mod_divide in H as [q H]; [|done]. replace b with (a + q * 256) by lia. by rewrite Z.mod_add.
Qed.

(** The byte that a page shows is the first one of the page of the file behind it. *)
Lemma load_page i p n e file data o t :
  0 <= i < n -> base + n * PAGE_SIZE <= USER_END -> t !! Z.to_nat i = Some p ->
  sexec rstep (load (remap_file_pages_pgoff_to_addr base i)) e (RState file data o (Some t)) =
  (b ← data !! Z.to_nat (p * PAGE_SIZE); Some (Returned b, e, RState file data o (Some t))).
Proof.
  intros Hi Hn Ht. rewrite (page_address _ n) by done.
  pose proof (lookup_lt_Some _ _ _ Ht). unfold load, trigger.
  cbn -[PAGE_SIZE page_of Z.mul Z.modulo]. rewrite page_of_address by lia.
  cbn -[PAGE_SIZE Z.mul Z.modulo]. rewrite Ht. cbn -[PAGE_SIZE Z.mul Z.modulo].
  replace (base + i * PAGE_SIZE - base) with (i * PAGE_SIZE) by lia. rewrite Z.mod_mul by done. rewrite Z.add_0_r.
  by destruct (data !! _).
Qed.

(** The page of the file behind page [i] of [N] after the loop. *)
Definition behind (N i : Z) : Z := if works i then N - 1 - i else i.

Lemma compare_loop_runs N n r e file data o t :
  Z.of_nat n + r = N -> 0 <= r -> base + N * PAGE_SIZE <= USER_END ->
  (forall i, 0 <= i < N -> t !! Z.to_nat i = Some (behind N i)) ->
  (forall i, 0 <= i < N -> data !! Z.to_nat (i * PAGE_SIZE) = Some (remap_file_pages_hash i)) ->
  let s := RState file data o (Some t) in
  sexec rstep (compare_loop n base r) e s =
  Some (Returned (if forallb (page_passes N) (seqZ r (Z.of_nat n)) then None else Some "compare failed."%string), e, s).
Proof.
  intros HN Hr Hend Ht Hdata s. revert r HN Hr. induction n as [|n IH]; intros r HN Hr; [done|].
  cbn [compare_loop]. rewrite seqZ_cons by lia. cbn [forallb].
  assert (0 <= behind N r < N) as Hb by (unfold behind; destruct (works r); lia).
  rewrite (sexec_bind rstep _ _ _ _ (remap_file_pages_hash (behind N r)) e s).
  2: { subst s. rewrite (load_page r (behind N r) N) by (auto with lia). by rewrite Hdata. }
  rewrite hash_eq by lia. unfold tp_assert.
  replace ((Z.of_nat n - behind N r) mod 256 =? 0) with (page_passes N r).
  - destruct (page_passes N r); [|done]. rewrite IH by lia. do 5 f_equal.
    replace (Z.pred (Z.of_nat (S n))) with (Z.of_nat n) by lia. done.
  - unfold page_passes, blind, behind. destruct (works r); simpl.
    + replace (Z.of_nat n - _) with 0 by lia. done.
    + do 2 f_equal. lia.
Qed.

(** ** The test *)

Context (fd_ok : 0 <= fd).

Lemma create_file_runs path size e :
  sexec rstep (remap_file_pages_create_file path size) e (RState None [] None None) =
  Some (Returned (None, name path), e,
        RState (Some (name path)) (file_pages (Z.to_nat (whole_pages size)) 0) None None).
Proof.
  unfold remap_file_pages_create_file. rewrite (sexec_bind rstep _ _ _ _ (fd, name path) e
    (RState (Some (name path)) [] (Some 0) None)).
  2: { unfold mkstemp, trigger. cbn. by rewrite syscall_ret_nonneg. }
  replace (fd =? -1) with false by lia. cbv iota.
  erewrite (sexec_bind rstep); [|apply (create_loop_runs _ _ _ _ [])].
  unfold close, trigger. cbn. by rewrite Z.eqb_refl.
Qed.

Lemma last_page_eq size : 0 <= size < 2 ^ 43 -> last_page size = whole_pages size - 1.
Proof.
  intros Hs. unfold last_page, whole_pages. change PAGE_SIZE with 4096.
  pose proof (Z.div_mod size 4096). pose proof (Z.mod_pos_bound size 4096).
  destruct (Z.eq_dec (size / 4096) 0) as [->|Hne]; [done|].
  rewrite (wrap_u_small 64) by lia. apply wrap_s_small; lia.
Qed.

(** What the test leaves: the mapping of the removed file. *)
Definition leaves (size : Z) : rstate :=
  let n := whole_pages size in
  let mapped := (size + PAGE_OFFSET) / PAGE_SIZE in
  RState None (file_pages (Z.to_nat n) 0) None
    (if (size =? 0) || (USER_END <? base + size) then None
     else Some (remapped (Z.to_nat n) 0 (seqZ 0 mapped))).

Lemma mapped_behind size i :
  0 <= i < whole_pages size ->
  remapped (Z.to_nat (whole_pages size)) 0 (seqZ 0 ((size + PAGE_OFFSET) / PAGE_SIZE)) !! Z.to_nat i =
  Some (behind (whole_pages size) i).
Proof.
  intros Hi. assert (whole_pages size <= (size + PAGE_OFFSET) / PAGE_SIZE) as Hm.
  { unfold whole_pages, PAGE_OFFSET. change PAGE_SIZE with 4096. apply Z.div_le_mono; lia. }
  rewrite remapped_lookup by (rewrite length_seqZ; lia).
  rewrite bool_decide_eq_true_2, Z2Nat.id by lia. unfold behind. simpl.
  destruct (works i); [f_equal; lia|]. rewrite lookup_seqZ_lt by lia. f_equal. lia.
Qed.

(** The mapping is remapped and compared. *)
Lemma remap_and_compare size e file o :
  0 <= size < 2 ^ 43 -> base + size <= USER_END ->
  let n := whole_pages size in
  let data := file_pages (Z.to_nat n) 0 in
  let t := seqZ 0 ((size + PAGE_OFFSET) / PAGE_SIZE) in
  sexec rstep (remap_loop (Z.to_nat (last_page size + 1)) base 0 (remap_file_pages_compare base size)) e
    (RState file data o (Some t)) =
  Some (Returned (if forallb (page_passes n) (seqZ 0 n) then None else Some "compare failed."%string), e,
        RState file data o (Some (remapped (Z.to_nat n) 0 t))).
Proof.
  intros Hs Hend n data t. unfold remap_file_pages_compare.
  rewrite last_page_eq by done. fold n. replace (n - 1 + 1) with n by lia.
  assert (0 <= n /\ n * PAGE_SIZE <= size) as [Hn Hn2].
  { subst n. unfold whole_pages. change PAGE_SIZE with 4096. pose proof (Z.div_mod size 4096).
    pose proof (Z.mod_pos_bound size 4096). lia. }
  assert (n <= (size + PAGE_OFFSET) / PAGE_SIZE) as Hm.
  { subst n. unfold whole_pages, PAGE_OFFSET. change PAGE_SIZE with 4096. apply Z.div_le_mono; lia. }
  rewrite remap_loop_runs by (subst t; rewrite ?length_seqZ; lia).
  rewrite (compare_loop_runs n) by (first [lia | intros i Hi; by apply mapped_behind |
    intros i Hi; subst data; rewrite file_pages_lookup by lia; done]).
  by rewrite Z2Nat.id.
Qed.

Lemma teardown_runs path e data m :
  sexec rstep (remap_teardown (path, fd)) e (RState (Some path) data (Some 0) m) =
  Some (Returned tt, e, RState None data None m).
Proof.
  unfold remap_teardown. replace (fd =? -1) with false by lia. unfold close, say, printf, unlink, trigger.
  cbn. rewrite Z.eqb_refl. cbn. by rewrite String.eqb_refl.
Qed.

Lemma mmap_error r : is_error r = true -> syscall_ptr r = SetErrno (- r) (Ret MAP_FAILED).
Proof. intros Hr. unfold syscall_ptr, syscall_ret. by rewrite Hr. Qed.

Lemma remap_run_runs show_p dir size e :
  0 <= size < 2 ^ 43 ->
  exists e' path, sexec rstep (remap_run show_p (RemapArgs dir size)) e (RState None [] None None) =
    Some (Returned (remap_verdict size, (path, fd)), e',
          let l := leaves size in RState (Some path) (r_data l) (Some 0) (r_map l)).
Proof.
  intros Hs. unfold remap_run. cbn [rf_dir rf_file_size].
  set (path := of_chars _). set (data := file_pages (Z.to_nat (whole_pages size)) 0).
  erewrite (sexec_bind rstep); [|apply create_file_runs]. fold data.
  unfold say, printf, trigger. cbn -[remap_loop syscall_ret seqZ PAGE_SIZE PAGE_OFFSET Z.add Z.div].
  rewrite String.eqb_refl. cbn -[remap_loop syscall_ret seqZ PAGE_SIZE PAGE_OFFSET Z.add Z.div].
  rewrite syscall_ret_nonneg by done. simpl. replace (fd =? -1) with false by lia.
  unfold remap_verdict, leaves. fold data.
  cbn -[remap_loop syscall_ptr seqZ PAGE_SIZE PAGE_OFFSET Z.add Z.div Z.ltb forallb]. rewrite Z.eqb_refl. cbv iota.
  destruct (Z.eqb_spec size 0) as [->|Hne].
  { cbn -[remap_loop syscall_ptr seqZ PAGE_SIZE PAGE_OFFSET Z.add Z.div Z.ltb forallb]. rewrite mmap_error by done. by eexists _, _. }
  destruct (Z.ltb_spec USER_END (base + size)) as [|Hend]; cbn [orb].
  { cbn -[remap_loop syscall_ptr seqZ PAGE_SIZE PAGE_OFFSET Z.add Z.div Z.ltb forallb]. rewrite mmap_error by done. by eexists _, _. }
  cbn -[remap_loop syscall_ptr seqZ PAGE_SIZE PAGE_OFFSET Z.add Z.div Z.ltb forallb]. unfold USER_END in Hend.
  rewrite syscall_ptr_nonneg by lia.
  cbn -[remap_loop seqZ PAGE_SIZE PAGE_OFFSET Z.add Z.div MAP_FAILED Z.eqb].
  replace (base =? MAP_FAILED) with false by (unfold MAP_FAILED; lia).
  cbn -[remap_loop seqZ PAGE_SIZE PAGE_OFFSET Z.add Z.div].
  erewrite (sexec_bind rstep); [|by apply remap_and_compare]. by eexists _, _.
Qed.

Lemma remap_000_runs show_p dir size e :
  0 <= size < 2 ^ 43 ->
  exists e', sexec rstep (remap_000 show_p (RemapArgs dir size)) e (RState None [] None None) =
    Some (Returned (remap_verdict size), e', leaves size).
Proof.
  intros Hs. destruct (remap_run_runs show_p dir size e Hs) as (e' & path & E). exists e'.
  unfold remap_000. rewrite (sexec_bind rstep _ _ _ _ _ _ _ E). simpl.
  by erewrite (sexec_bind rstep); [|apply teardown_runs].
Qed.

End spec.
(** ** What the other tests hold *)

Lemma keeps_temp_file prefix size h :
  keeps (test_mck_create_temp_file prefix size) h
    (fun v => match v with Some path => add_string path h | None => h end).
Proof. intros e tr v e' H. apply (create_temp_file_no_leak _ _ _ _ _ _ _ H). Qed.
Lemma keeps_say t h : keeps (say t) h (fun _ => h).
Proof. apply keeps_printf. Qed.
Lemma keeps_memcmp n a b h : keeps (memcmp n a b) h (fun _ => h).
Proof.
  revert a b. induction n as [|n IH]; intros a b; cbn [memcmp]; [by apply keeps_ret|].
  do 2 (eapply keeps_bind; [eauto with ledger|intros ?]). destruct (_ =? _); [apply IH|by apply keeps_ret].
Qed.
Lemma settles_then {A} (p : prog A) h h' : settles p h (fun _ => h') -> settles (p;; Ret tt) h (fun _ => h').
Proof. intros Hp. eapply settles_bind; [exact Hp|]. intros a. by apply settles_ret. Qed.
Lemma keeps_then {A} (p : prog A) h h' : keeps p h (fun _ => h') -> keeps (p;; Ret tt) h (fun _ => h').
Proof. intros Hp. eapply keeps_bind; [exact Hp|]. intros a. by apply keeps_ret. Qed.
Lemma keeps_free_held s h : keeps (trigger (LIBC_free s)) (add_string s h) (fun _ => h).
Proof. intros e tr a e' H. rewrite (keeps_free _ s _ _ _ _ H). apply del_add_string. Qed.
Lemma keeps_nothing h : keeps (Ret tt) h (fun _ => h).
Proof. by apply keeps_ret. Qed.
Hint Resolve keeps_temp_file keeps_say keeps_memcmp keeps_then settles_then keeps_nothing : ledger.

(** What the static variables of msync/000 stand for. *)
Definition msync_holds (h : held) (v : msync_vars) : held :=
  let h := match mv_tmp_file v with Some path => add_string path h | None => h end in
  let h := if mv_fd v =? -1 then h else add_fd (mv_fd v) h in
  if mv_addr v =? MAP_FAILED then h else add_map (mv_addr v, LENGTH) h.

Ltac by_holds :=
  unfold msync_holds; cbn [mv_tmp_file mv_fd mv_addr];
  repeat match goal with H : (_ =? _) = _ |- _ => rewrite H; clear H end;
  reflexivity.
Lemma keeps_msync_run prefix h : keeps (msync_000_run prefix) h (fun x => msync_holds h x.2).
Proof. unfold msync_000_run. keep; by_holds. Qed.

Lemma settles_msync_teardown v h : settles (msync_000_teardown v) (msync_holds h v) (fun _ => h).
Proof.
  unfold msync_000_teardown, msync_holds, test_mck_delete_temp_file. destruct v as [path fd addr]. cbn [mv_tmp_file mv_fd mv_addr].
  destruct (addr =? MAP_FAILED), (fd =? -1), path as [path|]; cbn [negb]; settle;
    cbv beta; autorewrite with ledger; apply settles_keeps, keeps_free_held.
Qed.

(** msync/000 gives back what it took, whatever its verdict and whatever the kernel replies, except that
    a mapping stays where munmap fails. *)
Theorem msync_000_no_leak prefix h : settles (msync_000 prefix) h (fun _ => h).
Proof.
  unfold msync_000. eapply settles_bind; [apply settles_keeps, keeps_msync_run|]. intros [v vars].
  eapply settles_bind; [apply settles_msync_teardown|]. intros u. by apply settles_ret.
Qed.

(** ** On every kernel *)

(** When the number of pages is even there is no page on which the call could fail unseen. *)
Lemma blind_odd n i : blind n i = true -> Z.odd n = true.
Proof.
  unfold blind. intros H%Z.eqb_eq. apply Z.mod_divide in H as [q H]; [|done].
  replace n with (1 + 2 * (i + 128 * q)) by lia. by rewrite Z.odd_add_mul_2.
Qed.

Section kernel.
Context `{K : Kernel} (works : Z -> bool) (name : string -> string) (fd base : Z).
Context (view : kstate -> rstate) `{!Meets (rstep works name fd base) view}.
Context (base_ok : 0 < base) (base_aligned : base mod PAGE_SIZE = 0) (fd_ok : 0 <= fd).
Context (show_p : Z -> string) (dir : string) (size : Z) (size_ok : 0 <= size < 2 ^ 43).

(** C24: On every kernel with the documented files and mappings, whose remap_file_pages(2) replies 0 but
    has an effect only on the pages [i] with [works i], the verdict of remap_file_pages/000 for a file
    of [size] bytes is [remap_verdict]: it fails in mmap for the size 0, and otherwise passes if and
    only if the call has an effect on every page but those [blind] to it.  The file is closed and
    removed in every case; the mapping is left behind. *)
Theorem remap_000_verdict e s :
  view s = RState None [] None None ->
  exists e' s', exec (remap_000 show_p (RemapArgs dir size)) (Mach e s) =
      (Returned (remap_verdict works base size), Mach e' s') /\
    view s' = leaves works base size.
Proof.
  intros Hv.
  destruct (remap_000_runs works name fd base base_ok base_aligned fd_ok show_p dir size e size_ok) as [e' E].
  rewrite <- Hv in E. destruct (sexec_exec _ _ _ _ _ _ _ E) as (s' & E' & Hs'). eauto.
Qed.

(** With the file sizes that the test scripts use, and all others that are an even number of pages,
    a pass of remap_file_pages/000 means that the call had its effect on every page. *)
Theorem remap_000_even_pass e s m :
  view s = RState None [] None None -> Z.even (size / PAGE_SIZE) = true ->
  exec (remap_000 show_p (RemapArgs dir size)) (Mach e s) = (Returned None, m) ->
  forall i, 0 <= i < size / PAGE_SIZE -> works i = true.
Proof.
  intros Hv Heven Hpass i Hi.
  destruct (remap_000_runs works name fd base base_ok base_aligned fd_ok show_p dir size e size_ok) as [e' E].
  rewrite <- Hv in E. destruct (sexec_exec _ _ _ _ _ _ _ E) as (s' & E' & _).
  rewrite Hpass in E'. injection E' as H _. unfold remap_verdict in H.
  destruct (_ || _); [done|]. destruct (forallb _ _) eqn:Hall; [|done].
  rewrite forallb_forall in Hall.
  assert (In i (seqZ 0 (whole_pages size))) as Hin by (apply list_elem_of_In, elem_of_seqZ; unfold whole_pages; lia).
  specialize (Hall i Hin). unfold page_passes in Hall. destruct (works i); [done|].
  apply blind_odd in Hall. unfold whole_pages in Hall. by rewrite <- Z.negb_even, Heven in Hall.
Qed.

End kernel.

(** ** The specification as a kernel *)

#[local] Instance RemapRef (works : Z -> bool) : Kernel :=
  {| kstate := rstate; kstep c t := default (no_reply c, t) (rstep works id 3 (2 ^ 30) c t) |}.
Definition remap_view works (t : @kstate (RemapRef works)) : rstate := t.
#[local] Instance RemapRef_meets works : Meets (H := RemapRef works) (rstep works id 3 (2 ^ 30)) (remap_view works).
Proof. intros c s r t E. exists t. unfold remap_view in E. cbn. by rewrite E. Qed.
Definition at_start : rstate := RState None [] None None.
Definition start {works} (e : Z) : @mach (RemapRef works) := @Mach (RemapRef works) e at_start.

(** A file of four pages, and a kernel that leaves the second page as it is. *)
Definition but_second (i : Z) : bool := negb (i =? 1).
Lemma remap_000_verdict_witness :
  exists e' s', exec (H := RemapRef but_second) (remap_000 (fun _ => "p"%string) (RemapArgs "." 16384)) (start 0) =
    (Returned (Some "compare failed."%string), Mach e' s').
Proof.
  destruct (remap_000_verdict (K := RemapRef but_second) but_second id 3 (2 ^ 30) (remap_view but_second)
    ltac:(lia) eq_refl ltac:(lia) (fun _ => "p"%string) "." 16384 ltac:(lia) 0 at_start eq_refl)
    as (e' & s' & E & _).
  change (remap_verdict but_second (2 ^ 30) 16384) with (Some "compare failed."%string) in E. eauto.
Defined.

Definition every (i : Z) : bool := true.
Lemma remap_every_passes :
  exists m, exec (H := RemapRef every) (remap_000 (fun _ => "p"%string) (RemapArgs "." 16384)) (start 0) =
    (Returned None, m).
Proof.
  destruct (remap_000_runs every id 3 (2 ^ 30) ltac:(lia) eq_refl ltac:(lia) (fun _ => "p"%string) "." 16384 0
    ltac:(lia)) as [e' E].
  destruct (sexec_exec (H := RemapRef every) (rstep every id 3 (2 ^ 30)) (view := remap_view every) _ 0 at_start _ _ _ E)
    as (s' & E' & _). eauto.
Qed.
Lemma remap_000_even_pass_witness : forall i, 0 <= i < 4 -> every i = true.
Proof.
  destruct remap_every_passes as [m E].
  exact (remap_000_even_pass (K := RemapRef every) every id 3 (2 ^ 30) (remap_view every)
    ltac:(lia) eq_refl ltac:(lia) (fun _ => "p"%string) "." 16384 ltac:(lia) 0 at_start m eq_refl eq_refl E).
Defined.

End MemSysProofs.
