(* ===== verification/ProcDump.v ===== *)
(** * The procfs suite: files of /proc shown to the reader

    src/src/test_mck/src/procfs/.  The test cases print what a file of /proc holds and end with a message
    that asks the reader to look at it.  In 002, 003 and 005 a thread does so, and the test waits for it
    with pthread_join at once: the calls of the thread are those between the two requests. *)
From S2P Require Import Prelude CMachine Align Libc FileMap LargeMem Fork.
Import Align Libc LargeMem Fork.
#[local] Open Scope Z_scope.

Module ProcDump.

(** ** Formats *)

Definition pad0 (n : nat) (s : string) : string := of_chars (replicate (n - String.length s) "0"%char) +:+ s.
(** [%016lx], and [%#016lx], which has the prefix in the width and no prefix for 0. *)
Definition x016 (x : Z) : string := pad0 16 (hex x).
Definition ax016 (x : Z) : string := if x =? 0 then x016 0 else "0x" +:+ pad0 14 (hex x).

(** What [%s] prints of an array: up to the first NUL. *)
Fixpoint until_nul (s : string) : string :=
  match s with
  | EmptyString => EmptyString
  | String c s => if chr c =? 0 then EmptyString else String c (until_nul s)
  end.

(** ** Memory *)

(** The eight bytes of an [unsigned long], and an [unsigned long] that is stored. *)
Fixpoint le_bytes (n : nat) (v : Z) : list Z :=
  match n with O => [] | S n => v mod 256 :: le_bytes n (v / 256) end.
Fixpoint store_bytes (a : Z) (bytes : list Z) : prog unit :=
  match bytes with
  | [] => Ret tt
  | b :: bytes => store (u64 a) b;; store_bytes (a + 1) bytes
  end.
Definition store_long (a v : Z) : prog unit := store_bytes a (le_bytes 8 v).

(** [for (i = 0; i < n; i++) p[i] = f(i)] *)
Fixpoint fill_longs (n : nat) (i p : Z) (f : Z -> Z) : prog unit :=
  match n with
  | O => Ret tt
  | S n => store_long (p + 8 * i) (f i);; fill_longs n (i + 1) p f
  end.
Definition complement (i : Z) : Z := u64 (Z.lnot i).

(** [calloc] is [malloc] and [memset]. *)
Definition calloc (size : Z) : prog Z :=
  p ← malloc size;
  match p with
  | None => Ret NULL
  | Some (p, _) => memset p 0 size;; Ret p
  end.

(** An array that held [old], after a [read] that yielded [n] and the bytes. *)
Definition array (n : Z) (bytes old : list Z) : list Z :=
  let n := Z.to_nat n in take n bytes ++ drop n old.
Definition long_at (i : Z) (a : list Z) : Z := little_endian (take 8 (drop (Z.to_nat (8 * i)) a)).

Section suite.
Context (fuel : nat).

(** ** The common parts *)

(** [open] and the work on the file; [read_err], [lseek_err]: the file is closed before the test fails. *)
Definition with_file (pfname : string) (work : Z -> prog bool) : prog bool :=
  fd ← open pfname O_RDONLY;
  if fd =? -1 then say_failed "open()";; Ret false else
  ok ← work fd;
  r ← close fd;
  if r =? -1 then say_failed "close()";; Ret false else Ret ok.

Definition TP_FAILED : string := "TP failed.".
Definition check_by_hand (ok : bool) (what : string) : verdict := Some (if ok then what else TP_FAILED).

(** [lseek] and [read]: the array that was read, unless one of them fails. *)
Definition read_at (fd off len : Z) (old : list Z) : prog (option (list Z)) :=
  ret ← lseek fd off SEEK_SET;
  if ret =? -1 then say_failed "lseek()";; Ret None else
  '(n, bytes) ← read fd len;
  if n =? -1 then say_failed "read()";; Ret None else Ret (Some (array n bytes old)).

Definition dump_line (off : Z) (i : Z) (a : list Z) : string :=
  "  " +:+ ax016 off +:+ ": " +:+ x016 (long_at i a) +:+ " " +:+ x016 (long_at (i + 1) a) +:+ " " +:+
  x016 (long_at (i + 2) a) +:+ " " +:+ x016 (long_at (i + 3) a).

(** ** 000: the auxiliary vector *)

Definition auxv_name : list string :=
  ["AT_NULL"; "AT_IGNORE"; "AT_EXECFD"; "AT_PHDR"; "AT_PHENT"; "AT_PHNUM"; "AT_PAGESZ"; "AT_BASE"; "AT_FLAGS"; "AT_ENTRY";
   "AT_NOTELF"; "AT_UID"; "AT_EUID"; "AT_GID"; "AT_EGID"; "AT_PLATFORM"; "AT_HWCAP"; "AT_CLKTCK"; ""; ""; ""; ""; "";
   "AT_SECURE"; "AT_BASE_PLATFORM"; "AT_RANDOM"; ""; ""; ""; ""; ""; "AT_EXECFN"; "AT_SYSINFO"; "AT_SYSINFO_EHDR"].

(** [outside]: what an access behind the end of the table does. *)
Definition name_of (outside : Z -> prog string) (ty : Z) : prog string :=
  if ty <? Z.of_nat (length auxv_name) then Ret (default "" (auxv_name !! Z.to_nat ty)) else outside ty.
Fixpoint auxv_loop (outside : Z -> prog string) (n : nat) (i : Z) (buf : list Z) : prog unit :=
  match n with
  | O => Ret tt
  | S n =>
      let ty := long_at i buf in
      let v := long_at (i + 1) buf in
      name ← name_of outside ty;
      say ("  " +:+ ax016 ty +:+ " " +:+ ax016 v +:+ " (" +:+ name +:+ ")");;
      if (ty =? 0) && (v =? 0) then Ret tt else auxv_loop outside n (i + 2) buf
  end.
Definition procfs_000 (outside : Z -> prog string) (old : list Z) : prog verdict :=
  pid ← getpid;
  let pfname := "/proc/" +:+ d pid +:+ "/auxv" in
  ok ← with_file pfname (fun fd =>
         '(n, bytes) ← read fd (8 * 1024);
         if n =? -1 then say_failed "read()";; Ret false else
         say ("dump " +:+ pfname +:+ ":");;
         auxv_loop outside 256 0 (array n bytes old);;
         Ret true);
  Ret (check_by_hand ok "you need check AUXV value").

(** ** 001 and 002: memory that was allocated *)

Definition BUF_LEN : Z := 256.
Fixpoint mem_loop (n : nat) (i off : Z) (a : list Z) : prog unit :=
  match n with
  | O => Ret tt
  | S n => say (dump_line off i a);; mem_loop n (i + 4) (off + 32) a
  end.
Definition dump_mem (pfname : string) (buf1 : Z) (old : list Z) : prog bool :=
  with_file pfname (fun fd =>
    a ← read_at fd buf1 BUF_LEN old;
    match a with
    | None => Ret false
    | Some a =>
        say ("dump " +:+ pfname +:+ "(offset:" +:+ ax016 buf1 +:+ "):");;
        mem_loop 8 0 buf1 a;;
        Ret true
    end).
Definition mem_path (pid : Z) : string := "/proc/" +:+ d pid +:+ "/mem".
Definition task_path (pid tid : Z) (name : string) : string :=
  "/proc/" +:+ d pid +:+ "/task/" +:+ d tid +:+ "/" +:+ name.

Definition CHECK_MEM : string := "you need check MEM value".
Definition procfs_001 (old : list Z) : prog verdict :=
  pid ← getpid;
  buf1 ← calloc BUF_LEN;
  TP_ASSERT negb (buf1 =? NULL), Some "calloc failed." ;;
  say ("allocated: " +:+ ax016 buf1);;
  fill_longs 32 0 buf1 id;;
  ok ← dump_mem (mem_path pid) buf1 old;
  free buf1;;
  Ret (check_by_hand ok CHECK_MEM).

(** The thread is created and waited for. *)
Definition with_thread (child : prog unit) (check : string) : prog verdict :=
  ret ← trigger LIBC_pthread_create;
  if negb (ret =? 0) then say_failed "pthread_create";; Ret (Some check) else
  child;;
  ret ← trigger LIBC_pthread_join;
  (if negb (ret =? 0) then say_failed "pthread_join" else Ret tt);;
  Ret (Some check).
Definition child_end (ok : bool) : prog unit := if ok then Ret tt else say TP_FAILED.

Definition child_thread_procfs_02 (old : list Z) : prog unit :=
  pid ← getpid;
  tid ← gettid;
  buf1 ← calloc BUF_LEN;
  (if buf1 =? NULL then say_failed "calloc" else Ret tt);;
  say ("allocated: " +:+ ax016 buf1);;
  fill_longs 32 0 buf1 complement;;
  ok ← dump_mem (task_path pid tid "mem") buf1 old;
  free buf1;;
  child_end ok.
Definition procfs_002 (old : list Z) : prog verdict := with_thread (child_thread_procfs_02 old) CHECK_MEM.

(** ** 003: the state of a thread *)

(** [beyond]: what is printed when the array has no NUL. *)
Definition array_text (a : list Z) (beyond : string) : string :=
  until_nul (of_chars ((fun b => Ascii.ascii_of_N (Z.to_N (u8 b))) <$> a) +:+ beyond).
Definition child_thread_procfs_03 (old : list Z) (beyond : string) : prog unit :=
  pid ← getpid;
  tid ← gettid;
  let pfname := task_path pid tid "stat" in
  ok ← with_file pfname (fun fd =>
         '(n, bytes) ← read fd 4096;
         if n =? -1 then say_failed "read()";; Ret false else
         say ("output " +:+ pfname);;
         say (array_text (array n bytes old) beyond);;
         Ret true);
  child_end ok.
Definition procfs_003 (old : list Z) (beyond : string) : prog verdict :=
  with_thread (child_thread_procfs_03 old beyond) "you need check STAT value".

(** ** 004 and 005: two pages with different protections *)

Definition MAP_POPULATE : Z := 0x8000.
Definition DUMP_SIZE : Z := 256.
Definition near_edge (off : Z) : bool :=
  (off <? DUMP_SIZE) ||
  (PAGE_SIZE - DUMP_SIZE / 2 <=? off) && (off <? PAGE_SIZE + DUMP_SIZE / 2) ||
  (PAGE_SIZE * 2 - DUMP_SIZE <=? off).

(** [n]: the turns left; [off] is [dump_off - buf], which 32 bytes a turn take to the end. *)
Fixpoint pages_loop (n : nat) (buf i off : Z) (space_flag : bool) (a : list Z) : prog unit :=
  match n with
  | O => Ret tt
  | S n =>
      if near_edge off then
        say (dump_line (buf + off) i a);;
        pages_loop n buf (i + 4) (off + 32) true a
      else
        (if space_flag then say "  *" else Ret tt);;
        pages_loop n buf (i + 4) (off + 32) false a
  end.

Definition page_flags : Z := MAP_PRIVATE .| MAP_ANONYMOUS .| MAP_POPULATE.
(** A failed [mmap] leaves with its message, and nothing is unmapped. *)
Definition two_pages (pfname : string) (f1 f2 : Z -> Z) (old : list Z) : prog (string + bool) :=
  buf ← mmap NULL (PAGE_SIZE * 2) 0 page_flags (-1) 0;
  if buf =? MAP_FAILED then Ret (inl "mmap none failed."%string) else
  say ("mmaped buf: " +:+ ax016 buf);;
  p ← mmap buf PAGE_SIZE (PROT_WRITE .| PROT_READ) (page_flags .| MAP_FIXED) (-1) 0;
  if p =? MAP_FAILED then Ret (inl "mmap1(RW-) failed."%string) else
  say ("mmaped buf(RW-): " +:+ ax016 p);;
  fill_longs 512 0 p f1;;
  p ← mmap (u64 (buf + PAGE_SIZE)) PAGE_SIZE (PROT_WRITE .| PROT_READ .| PROT_EXEC) (page_flags .| MAP_FIXED) (-1) 0;
  if p =? MAP_FAILED then Ret (inl "mmap2(RWX) failed."%string) else
  say ("mmaped buf(RWX): " +:+ ax016 p);;
  fill_longs 512 0 p f2;;
  ok ← with_file pfname (fun fd =>
         a ← read_at fd buf (PAGE_SIZE * 2) old;
         match a with
         | None => Ret false
         | Some a =>
             say ("dump " +:+ pfname +:+ "(offset:" +:+ ax016 buf +:+ "):");;
             pages_loop 256 buf 0 0 false a;;
             Ret true
         end);
  Ret (inr ok).

Definition procfs_004 (old : list Z) : prog verdict :=
  pid ← getpid;
  r ← two_pages (mem_path pid) id complement old;
  match r with
  | inl msg => Ret (Some msg)
  | inr ok => Ret (check_by_hand ok CHECK_MEM)
  end.

(** The message that [tp_assert] returns from the thread is the result of the thread, which is dropped. *)
Definition child_thread_procfs_05 (old : list Z) : prog unit :=
  pid ← getpid;
  tid ← gettid;
  r ← two_pages (task_path pid tid "mem") complement id old;
  match r with
  | inl msg => Ret tt
  | inr ok => child_end ok
  end.
Definition procfs_005 (old : list Z) : prog verdict := with_thread (child_thread_procfs_05 old) CHECK_MEM.

(** ** 006, 007, 009 to 011: text *)

Fixpoint echo_loop (fuel : nat) (fp : Z) : prog unit :=
  match fuel with
  | O => FileMap.out_of_fuel
  | S fuel =>
      line ← fgets fp PAGE_SIZE;
      match line with
      | None => Ret tt
      | Some line => printf (until_nul line);; echo_loop fuel fp
      end
  end.
Definition text_file (pfname last check : string) : prog verdict :=
  fp ← fopen pfname "r";
  match fp with
  | None => say_failed "fopen()";; Ret (Some TP_FAILED)
  | Some fp =>
      say ("output: " +:+ pfname);;
      echo_loop fuel fp;;
      (if String.eqb last "" then Ret tt else printf last);;
      r ← fclose fp;
      if negb (r =? 0) then say_failed "fclose()";; Ret (Some TP_FAILED) else Ret (Some check)
  end.
Definition pid_file (name last check : string) : prog verdict :=
  pid ← getpid; text_file ("/proc/" +:+ d pid +:+ "/" +:+ name) last check.

Definition procfs_006 : prog verdict := text_file "/proc/cpuinfo" "" "you need check CPUINFO".
Definition procfs_007 : prog verdict := pid_file "maps" "" "you need check McKernel Log & Dump MAPS.".
Definition procfs_009 : prog verdict := text_file "/proc/stat" "" "you need check Dump STAT.".
Definition procfs_010 : prog verdict := pid_file "status" "" "you need check Dump STATUS.".
Definition procfs_011 : prog verdict := pid_file "cmdline" FileMap.nl "you need check Dump CMDLINE.".

(** ** 008: the page map *)

(** [(off_t)buf1 * 8 / PAGE_SIZE]: the product is signed, the quotient unsigned. *)
Definition map_offset (buf1 : Z) : Z := s64 (u64 (s64 (buf1 * 8)) / PAGE_SIZE).
Definition procfs_008 (old : list Z) : prog verdict :=
  pid ← getpid;
  buf1 ← calloc PAGE_SIZE;
  TP_ASSERT negb (buf1 =? NULL), Some "calloc failed." ;;
  say ("allocated: " +:+ ax016 buf1);;
  store_long buf1 0xffffffffffffff;;
  let pfname := "/proc/" +:+ d pid +:+ "/pagemap" in
  let offset := map_offset buf1 in
  ok ← with_file pfname (fun fd =>
         a ← read_at fd offset 8 old;
         match a with
         | None => Ret false
         | Some a =>
             say ("dump " +:+ pfname +:+ "(offset:" +:+ ax016 (u64 offset) +:+ "):" +:+ ax016 (long_at 0 a));;
             Ret true
         end);
  free buf1;;
  Ret (check_by_hand ok "you need check McKernel Log & Dump PAGEMAP.").

End suite.
End ProcDump.
