(* ===== verification/ProcDumpProofs.v ===== *)
(** * What the procfs suite shows

    /proc as a specification of a kernel: the memory of the process, its auxiliary vector, its page map
    and text files.  What each test case prints on it, so what the reader is asked to check. *)
From S2P Require Import Prelude CMachine Align Libc FileMap LargeMem Affinity Fork ProcDump.
Import Align Libc LargeMem Fork ProcDump.
#[local] Open Scope Z_scope.

Module ProcDumpProofs.

(** ** The specification *)

Inductive object : Type := Memory | Pagemap | Bytes (l : list Z).

(** What was printed, the memory, the open file with its position, and what is left of a stream. *)
Record fstate := FState {
  printed : list string;
  memory : Z -> Z;
  opened : option (object * Z);
  stream : option string
}.
Definition set_memory (m : Z -> Z) (s : fstate) : fstate := FState (printed s) m (opened s) (stream s).
Definition set_opened (o : option (object * Z)) (s : fstate) : fstate := FState (printed s) (memory s) o (stream s).
Definition set_stream (o : option string) (s : fstate) : fstate := FState (printed s) (memory s) (opened s) o.
Definition print (t : string) (s : fstate) : fstate := FState (printed s ++ [t]) (memory s) (opened s) (stream s).

(** What a memory holds with the [len] bytes at [a] replaced. *)
Definition patched (m : Z -> Z) (a len : Z) (f : Z -> Z) : Z -> Z :=
  fun x => if in_range a len x then f (x - a) else m x.

(** [fgets]: at most [n] characters, up to a newline. *)
Fixpoint chunk (n : nat) (s : string) : string * string :=
  match n, s with
  | S n, String c s =>
      if chr c =? 10 then (String c "", s) else let '(a, b) := chunk n s in (String c a, b)
  | _, _ => (""%string, s)
  end.

Section spec.
(** [frame i]: the entry of page [i] in the page map; [heap], [area]: where [malloc] and [mmap] place memory. *)
Context (pid tid fd heap area : Z) (object_of : string -> option object) (text_of : string -> option string)
        (frame : Z -> Z).

(** The bytes that a read of [len] bytes at [pos] yields, or an error. *)
Definition contents (m : Z -> Z) (o : object) (pos len : Z) : Z + list Z :=
  match o with
  | Memory => inr ((fun k => m (pos + Z.of_nat k)) <$> seq 0 (Z.to_nat len))
  | Pagemap => if (pos mod 8 =? 0) && (len =? 8) then inr (le_bytes 8 (frame (pos / 8))) else inl (- EINVAL)
  | Bytes l => inr (take (Z.to_nat len) (drop (Z.to_nat pos) l))
  end.

Definition fstep (c : cmd) (s : fstate) : option (reply c * fstate) :=
  match c with
  | SYS_getpid => Some (pid, s)
  | SYS_gettid => Some (tid, s)
  | LIBC_pthread_create => Some (0, s)
  | LIBC_pthread_join => Some (0, s)
  | LIBC_malloc _ => Some (Some (heap, 0), s)
  | LIBC_release _ => Some (tt, s)
  | MEM_set a v n => Some (Ok tt, set_memory (patched (memory s) a n (fun _ => v)) s)
  | MEM_store a v => Some (Ok tt, set_memory (patched (memory s) a 1 (fun _ => v)) s)
  | SYS_mmap addr len _ _ _ _ =>
      let a := if addr =? 0 then area else addr in
      Some (a, set_memory (patched (memory s) a len (fun _ => 0)) s)
  | SYS_open path _ =>
      match object_of path with
      | Some o => Some (fd, set_opened (Some (o, 0)) s)
      | None => Some (- ENOENT, s)
      end
  | SYS_lseek _ off _ =>
      '(o, _) ← opened s;
      Some (off, set_opened (Some (o, off)) s)
  | SYS_read _ len =>
      '(o, pos) ← opened s;
      match contents (memory s) o pos len with
      | inl e => Some ((e, []), s)
      | inr bytes =>
          let n := Z.of_nat (length bytes) in Some ((n, bytes), set_opened (Some (o, pos + n)) s)
      end
  | SYS_close _ => _ ← opened s; Some (0, set_opened None s)
  | FILE_fopen path _ =>
      match text_of path with
      | Some t => Some (Some fd, set_stream (Some t) s)
      | None => Some (None, s)
      end
  | FILE_fgets _ size =>
      t ← stream s;
      if String.eqb t "" then Some (None, s)
      else let '(a, b) := chunk (Z.to_nat (size - 1)) t in Some (Some a, set_stream (Some b) s)
  | FILE_fclose _ => _ ← stream s; Some (0, set_stream None s)
  | OUT t => Some (tt, print t s)
  | _ => None
  end.

(** ** Words in memory *)

Lemma little_endian_le_bytes n v : 0 <= v -> little_endian (le_bytes n v) = v mod 256 ^ Z.of_nat n.
Proof.
  revert v. induction n as [|n IH]; intros v Hv; [by rewrite Z.mod_1_r|].
  cbn [le_bytes little_endian]. rewrite IH by (apply Z.div_pos; lia).
  rewrite wrap_u_small by (apply Z.mod_pos_bound; done).
  replace (Z.of_nat (S n)) with (1 + Z.of_nat n) by lia.
  rewrite Z.pow_add_r, Z.pow_1_r, Z.rem_mul_r by lia. lia.
Qed.
Lemma length_le_bytes n v : length (le_bytes n v) = n.
Proof. revert v. induction n as [|n IH]; intros v; simpl; [done|]. by rewrite IH. Qed.

(** The memory [m] holds the words [f 0], ..., [f (n - 1)] at [a]. *)
Definition bytes_at (m : Z -> Z) (a : Z) (n : nat) : list Z := (fun k => m (a + Z.of_nat k)) <$> seq 0 n.
Definition holds (m : Z -> Z) (a n : Z) (f : Z -> Z) : Prop :=
  forall i, 0 <= i < n -> bytes_at m (a + 8 * i) 8 = le_bytes 8 (f i).

Lemma bytes_at_ext m m' a n :
  (forall x, a <= x < a + Z.of_nat n -> m x = m' x) -> bytes_at m a n = bytes_at m' a n.
Proof.
  intros H. apply list_fmap_ext. intros i k Hk%lookup_seq. apply H. lia.
Qed.
Lemma bytes_at_slice m a n i len :
  (i + len <= n)%nat -> take len (drop i (bytes_at m a n)) = bytes_at m (a + Z.of_nat i) len.
Proof.
  intros H. unfold bytes_at. rewrite <- fmap_drop, <- fmap_take, drop_seq, take_seq.
  replace (len `min` (n - i))%nat with len by lia.
  replace (seq (0 + i) len) with (Nat.add i <$> seq 0 len) by (rewrite fmap_add_seq; f_equal; lia).
  rewrite <- list_fmap_compose.
  apply list_fmap_ext. intros j k _. simpl. f_equal. lia.
Qed.

Lemma store_bytes_runs bytes a e s :
  0 <= a -> a + Z.of_nat (length bytes) <= 2 ^ 64 ->
  exists m, sexec fstep (store_bytes a bytes) e s = Some (Returned tt, e, set_memory m s) /\
    bytes_at m a (length bytes) = bytes /\
    forall x, x < a \/ a + Z.of_nat (length bytes) <= x -> m x = memory s x.
Proof.
  revert a s. induction bytes as [|b bytes IH]; intros a s Ha Hend.
  - exists (memory s). repeat split. by destruct s.
  - cbn [length] in Hend. destruct (IH (a + 1) (set_memory (patched (memory s) (u64 a) 1 (fun _ => b)) s))
      as (m & E & Hb & Ho); [lia..|].
    exists m. split; [|split].
    + cbn [store_bytes]. unfold store, trigger. cbn. exact E.
    + cbn [length]. unfold bytes_at. rewrite <- (cons_seq (length bytes) 0), fmap_cons, Z.add_0_r. f_equal.
      * rewrite Ho by lia. unfold patched. rewrite wrap_u_small by lia. simpl. by rewrite in_range_in by lia.
      * rewrite <- Hb at 2. unfold bytes_at. rewrite <- fmap_S_seq, <- list_fmap_compose.
        apply list_fmap_ext. intros j k _. simpl. f_equal. lia.
    + intros x Hx. cbn [length] in Hx. rewrite Ho by lia. unfold patched. rewrite wrap_u_small by lia. simpl.
      by rewrite in_range_out by lia.
Qed.

Lemma fill_longs_runs n i a f e s :
  0 <= i -> 0 <= a -> a + 8 * (i + Z.of_nat n) <= 2 ^ 64 ->
  exists m, sexec fstep (fill_longs n i a f) e s = Some (Returned tt, e, set_memory m s) /\
    (forall j, i <= j < i + Z.of_nat n -> bytes_at m (a + 8 * j) 8 = le_bytes 8 (f j)) /\
    forall x, x < a + 8 * i \/ a + 8 * (i + Z.of_nat n) <= x -> m x = memory s x.
Proof.
  revert i s. induction n as [|n IH]; intros i s Hi Ha Hend.
  - exists (memory s). repeat split; [by destruct s|]. intros j Hj. lia.
  - destruct (store_bytes_runs (le_bytes 8 (f i)) (a + 8 * i) e s) as (m1 & E1 & Hb & Ho1);
      rewrite ?length_le_bytes in *; [lia..|].
    destruct (IH (i + 1) (set_memory m1 s)) as (m & E & Hf & Ho); [lia..|].
    exists m. split; [|split].
    + cbn [fill_longs]. unfold store_long. by rewrite (sexec_bind fstep _ _ _ _ _ _ _ E1).
    + intros j Hj. destruct (Z.eq_dec j i) as [->|Hne]; [|apply Hf; lia].
      rewrite <- Hb. apply bytes_at_ext. intros x Hx. apply Ho. lia.
    + intros x Hx. rewrite Ho by lia. apply Ho1. lia.
Qed.

Lemma long_at_array n j m a f old :
  0 <= j < n -> bytes_at m (a + 8 * j) 8 = le_bytes 8 (f j) -> 0 <= f j < 2 ^ 64 ->
  long_at j (array (8 * n) (bytes_at m a (Z.to_nat (8 * n))) old) = f j.
Proof.
  intros Hj Hb Hf. unfold long_at, array.
  assert (length (bytes_at m a (Z.to_nat (8 * n))) = Z.to_nat (8 * n)) as Hl by (unfold bytes_at; by rewrite length_fmap, length_seq).
  rewrite (take_ge (bytes_at _ _ _)) by lia. rewrite drop_app_le by lia. rewrite take_app_le by (rewrite length_drop; lia).
  rewrite bytes_at_slice by lia. replace (a + Z.of_nat (Z.to_nat (8 * j))) with (a + 8 * j) by lia.
  rewrite Hb, little_endian_le_bytes by lia. change (256 ^ Z.of_nat 8) with (2 ^ 64). apply Z.mod_small. lia.
Qed.

(** ** What the loops print *)

Definition prints (l : list string) (s : fstate) : fstate := FState (printed s ++ l) (memory s) (opened s) (stream s).
Definition endl (t : string) : string := t +:+ Affinity.nl.

(** A line of a dump: an address and four words. *)
Definition line (off w0 w1 w2 w3 : Z) : string :=
  endl ("  " +:+ ax016 off +:+ ": " +:+ x016 w0 +:+ " " +:+ x016 w1 +:+ " " +:+ x016 w2 +:+ " " +:+ x016 w3).
(** Line [k] of the words [f] at [a]. *)
Definition word_line (a : Z) (f : Z -> Z) (k : Z) : string :=
  line (a + 32 * k) (f (4 * k)) (f (4 * k + 1)) (f (4 * k + 2)) (f (4 * k + 3)).

Lemma prints_prints l l' s : prints l' (prints l s) = prints (l ++ l') s.
Proof. unfold prints. simpl. by rewrite app_assoc. Qed.
Lemma prints_nil s : prints [] s = s.
Proof. destruct s. unfold prints. simpl. by rewrite app_nil_r. Qed.
Lemma print_prints t s : print t s = prints [t] s.
Proof. done. Qed.

Lemma say_runs t e s : sexec fstep (say t) e s = Some (Returned tt, e, prints [endl t] s).
Proof. done. Qed.
Lemma sexec_say {A} t (k : unit -> prog A) e s :
  sexec fstep (say t ≫= k) e s = sexec fstep (k tt) e (prints [endl t] s).
Proof. apply sexec_bind, say_runs. Qed.

Lemma mem_loop_runs n i k base a e s :
  i = 4 * k ->
  sexec fstep (mem_loop n i (base + 32 * k) a) e s =
  Some (Returned tt, e, prints (word_line base (fun j => long_at j a) <$> seqZ k (Z.of_nat n)) s).
Proof.
  revert i k s. induction n as [|n IH]; intros i k s ->; [by rewrite prints_nil|].
  cbn [mem_loop]. unfold say, printf, trigger. cbn -[dump_line seqZ Z.of_nat].
  replace (base + 32 * k + 32) with (base + 32 * (k + 1)) by lia.
  rewrite (IH _ (k + 1)) by lia. rewrite print_prints, prints_prints, (seqZ_cons k) by lia.
  replace (Z.pred (Z.of_nat (S n))) with (Z.of_nat n) by lia. done.
Qed.

(** The lines of the loop over two pages: [Some k] is line [k], [None] the star. *)
Fixpoint marks (n : nat) (k : Z) (space : bool) : list (option Z) :=
  match n with
  | O => []
  | S n =>
      if near_edge (32 * k) then Some k :: marks n (k + 1) true
      else (if space then [None] else []) ++ marks n (k + 1) false
  end.
Definition render (base : Z) (f : Z -> Z) (m : option Z) : string :=
  match m with Some k => word_line base f k | None => endl "  *" end.

Lemma pages_loop_runs n base i k space a e s :
  i = 4 * k ->
  sexec fstep (pages_loop n base i (32 * k) space a) e s =
  Some (Returned tt, e, prints (render base (fun j => long_at j a) <$> marks n k space) s).
Proof.
  revert i k space s. induction n as [|n IH]; intros i k space s ->; [by rewrite prints_nil|].
  cbn [pages_loop marks]. replace (32 * k + 32) with (32 * (k + 1)) by lia. unfold say, printf, trigger.
  destruct (near_edge (32 * k)).
  - cbn -[dump_line Z.mul]. rewrite (IH _ (k + 1)) by lia. by rewrite print_prints, prints_prints.
  - destruct space; cbn -[dump_line Z.mul]; rewrite (IH _ (k + 1)) by lia;
      by rewrite ?print_prints, ?prints_prints.
Qed.

(** The lines near the start, around the border of the pages and near the end. *)
Definition edge_lines : list (option Z) :=
  (Some <$> seqZ 0 8) ++ [None] ++ (Some <$> seqZ 124 8) ++ [None] ++ (Some <$> seqZ 248 8).
Lemma marks_edge_lines : marks 256 0 false = edge_lines.
Proof. vm_compute. reflexivity. Qed.
Lemma edge_lines_range : Forall (fun m => in_range 0 256 (default 0 m) = true) edge_lines.
Proof. repeat constructor. Qed.

(** ** Files *)

Context (fd_ok : 0 <= fd).

Lemma with_file_runs pfname work o ok e e1 s s1 :
  object_of pfname = Some o -> is_Some (opened s1) ->
  sexec fstep (work fd) e (set_opened (Some (o, 0)) s) = Some (Returned ok, e1, s1) ->
  sexec fstep (with_file pfname work) e s = Some (Returned ok, e1, set_opened None s1).
Proof.
  intros Ho [x Hs] Hw. unfold with_file.
  rewrite (sexec_bind fstep _ _ _ _ fd e (set_opened (Some (o, 0)) s)).
  2: { unfold open, trigger. cbn. rewrite Ho. cbn. by rewrite syscall_ret_nonneg. }
  replace (fd =? -1) with false by lia. rewrite (sexec_bind fstep _ _ _ _ _ _ _ Hw).
  unfold close, trigger. cbn. by rewrite Hs.
Qed.

Lemma read_at_runs off len old e s o :
  opened s = Some (Memory, o) -> 0 <= off -> 0 <= len ->
  sexec fstep (read_at fd off len old) e s =
  Some (Returned (Some (array len (bytes_at (memory s) off (Z.to_nat len)) old)), e,
        set_opened (Some (Memory, off + len)) s).
Proof.
  intros Hs Hoff Hlen. unfold read_at, lseek, read, trigger. cbn -[bytes_at array syscall_ret Z.of_nat]. rewrite Hs.
  cbn -[bytes_at array syscall_ret Z.of_nat]. rewrite syscall_ret_nonneg by lia.
  cbn -[bytes_at array syscall_ret Z.of_nat]. replace (off =? -1) with false by lia.
  cbn -[array syscall_ret Z.of_nat]. rewrite length_fmap, length_seq, Z2Nat.id by lia.
  rewrite syscall_ret_nonneg by lia. cbn -[array]. by replace (len =? -1) with false by lia.
Qed.

(** ** Memory that was allocated *)

Context (heap_ok : 0 < heap < 2 ^ 47).

Definition is_long (f : Z -> Z) : Prop := forall i, 0 <= i < 2 ^ 32 -> 0 <= f i < 2 ^ 64.
Definition dump_title (pfname : string) (a : Z) : string :=
  endl ("dump " +:+ pfname +:+ "(offset:" +:+ ax016 a +:+ "):").

Lemma word_line_ext a f g n k :
  (forall i, 0 <= i < n -> f i = g i) -> 0 <= k -> 4 * k + 3 < n -> word_line a f k = word_line a g k.
Proof. intros H Hk Hn. unfold word_line. rewrite !H by lia. done. Qed.

Lemma dump_mem_runs pfname a f old e s :
  object_of pfname = Some Memory -> 0 <= a -> holds (memory s) a 32 f -> is_long f ->
  sexec fstep (dump_mem pfname a old) e s =
  Some (Returned true, e, set_opened None (prints (dump_title pfname a :: (word_line a f <$> seqZ 0 8)) s)).
Proof.
  intros Ho Ha Hm Hf. unfold dump_mem.
  set (arr := array (8 * 32) (bytes_at (memory s) a (Z.to_nat (8 * 32))) old).
  assert (word_line a f <$> seqZ 0 8 = word_line a (fun j => long_at j arr) <$> seqZ 0 8) as ->.
  { apply list_fmap_ext. intros i k Hk%lookup_seqZ. apply (word_line_ext _ _ _ 32); [|lia..].
    intros j Hj. symmetry. subst arr. apply long_at_array; [done|by apply Hm|apply Hf; lia]. }
  apply (with_file_runs pfname _ Memory true e e s
    (prints (dump_title pfname a :: (word_line a (fun j => long_at j arr) <$> seqZ 0 8))
       (set_opened (Some (Memory, a + BUF_LEN)) s))); [done|by eexists|].
  erewrite (sexec_bind fstep); [|by apply (read_at_runs _ _ _ _ _ 0)]. change BUF_LEN with (8 * 32). fold arr.
  change (array _ _ _) with arr. cbv iota. rewrite sexec_say. fold (dump_title pfname a).
  replace (mem_loop 8 0 a arr) with (mem_loop 8 0 (a + 32 * 0) arr) by (f_equal; lia).
  erewrite (sexec_bind fstep); [|by apply mem_loop_runs]. cbn [sexec mret]. rewrite prints_prints. done.
Qed.

(** [p] returns [a] and prints [l]. *)
Definition shows {A} (p : prog A) (a : A) (l : list string) : Prop :=
  forall e s, exists e' s', sexec fstep p e s = Some (Returned a, e', s') /\ printed s' = printed s ++ l.

Lemma shows_bind {A B} (p : prog A) (k : A -> prog B) a b l1 l2 :
  shows p a l1 -> shows (k a) b l2 -> shows (p ≫= k) b (l1 ++ l2).
Proof.
  intros Hp Hk e s. destruct (Hp e s) as (e1 & s1 & E1 & P1). destruct (Hk e1 s1) as (e2 & s2 & E2 & P2).
  exists e2, s2. rewrite (sexec_bind fstep _ _ _ _ _ _ _ E1), P2, P1, app_assoc. done.
Qed.
Lemma shows_ret {A} (a : A) : shows (Ret a) a [].
Proof. intros e s. exists e, s. by rewrite app_nil_r. Qed.
Lemma shows_request {A} c (k : reply c -> prog A) r a l :
  (forall s, exists s', fstep c s = Some (r, s') /\ printed s' = printed s) -> shows (k r) a l -> shows (Vis c k) a l.
Proof.
  intros Hc Hk e s. destruct (Hc s) as (s1 & E1 & P1). destruct (Hk e s1) as (e2 & s2 & E2 & P2).
  exists e2, s2. simpl. rewrite E1. simpl. by rewrite E2, P2, P1.
Qed.

Definition allocated_line : string := endl ("allocated: " +:+ ax016 heap).

Lemma calloc_shows size : shows (calloc size) heap [].
Proof. intros e s. eexists _, _. split; [reflexivity|]. by rewrite app_nil_r. Qed.

(** The lines that show the words [f] at the start of the heap. *)
Definition heap_lines (pfname : string) (f : Z -> Z) : list string :=
  allocated_line :: dump_title pfname heap :: (word_line heap f <$> seqZ 0 8).

Lemma alloc_shows {A} pfname f old (tail : bool -> prog A) v l :
  object_of pfname = Some Memory -> is_long f -> shows (tail true) v l ->
  shows (say ("allocated: " +:+ ax016 heap);; fill_longs 32 0 heap f;; ok ← dump_mem pfname heap old; tail ok) v
    (heap_lines pfname f ++ l).
Proof.
  intros Ho Hf Ht e s. rewrite sexec_say.
  destruct (fill_longs_runs 32 0 heap f e (prints [allocated_line] s)) as (m & E & Hm & _); [lia..|].
  rewrite (sexec_bind fstep _ _ _ _ _ _ _ E). erewrite (sexec_bind fstep); [|apply dump_mem_runs; [done|lia|exact Hm|done]].
  match goal with |- context [sexec fstep _ e ?s1] => destruct (Ht e s1) as (e2 & s2 & E2 & P2) end.
  exists e2, s2. rewrite E2, P2. split; [done|]. unfold prints, set_memory, set_opened, heap_lines. cbn [printed].
  by rewrite <- !app_assoc.
Qed.

Lemma id_long : is_long id.
Proof. intros i Hi. unfold id. lia. Qed.
Lemma complement_long : is_long complement.
Proof. intros i _. by apply wrap_u_range. Qed.

Lemma free_shows {A} p (k : prog A) a l : shows k a l -> shows (free p;; k) a l.
Proof. intros Hk. apply (shows_bind _ _ tt a [] l); [|done]. intros e s. exists e, s. by rewrite app_nil_r. Qed.
Lemma same_state {A} (r : A) s : exists s', Some (r, s) = Some (r, s') /\ printed s' = printed s.
Proof. eauto. Qed.

Lemma procfs_001_shows old :
  object_of (mem_path pid) = Some Memory ->
  shows (procfs_001 old) (Some CHECK_MEM) (heap_lines (mem_path pid) id).
Proof.
  intros Ho. unfold procfs_001. apply (shows_request SYS_getpid _ pid); [intros s; apply same_state|].
  apply (shows_bind _ _ heap _ [] (heap_lines _ _)); [apply calloc_shows|]. unfold NULL. replace (heap =? 0) with false by lia.
  rewrite <- (app_nil_r (heap_lines _ _)). apply (alloc_shows (mem_path pid) id old _ _ []); [done|apply id_long|].
  apply free_shows, shows_ret.
Qed.

Lemma with_thread_shows child check l :
  shows child tt l -> shows (with_thread child check) (Some check) l.
Proof.
  intros Hc. unfold with_thread. apply (shows_request LIBC_pthread_create _ 0); [intros s; apply same_state|].
  rewrite <- (app_nil_r l). apply (shows_bind _ _ tt); [done|].
  apply (shows_request LIBC_pthread_join _ 0); [intros s; apply same_state|]. apply shows_ret.
Qed.

Lemma procfs_002_shows old :
  object_of (task_path pid tid "mem") = Some Memory ->
  shows (procfs_002 old) (Some CHECK_MEM) (heap_lines (task_path pid tid "mem") complement).
Proof.
  intros Ho. apply with_thread_shows. unfold child_thread_procfs_02.
  apply (shows_request SYS_getpid _ pid); [intros s; apply same_state|].
  apply (shows_request SYS_gettid _ tid); [intros s; apply same_state|].
  apply (shows_bind _ _ heap _ [] (heap_lines _ _)); [apply calloc_shows|]. unfold NULL. replace (heap =? 0) with false by lia.
  rewrite <- (app_nil_r (heap_lines _ _)).
  apply (alloc_shows _ complement old _ _ []); [done|apply complement_long|]. apply free_shows, shows_ret.
Qed.

(** ** Two pages *)

Context (area_ok : 0 < area < 2 ^ 47).

(** The words of the two pages. *)
Definition page_words (f1 f2 : Z -> Z) (i : Z) : Z := if i <? 512 then f1 i else f2 (i - 512).
Definition page_lines (pfname : string) (f1 f2 : Z -> Z) : list string :=
  endl ("mmaped buf: " +:+ ax016 area) :: endl ("mmaped buf(RW-): " +:+ ax016 area) ::
  endl ("mmaped buf(RWX): " +:+ ax016 (area + PAGE_SIZE)) :: dump_title pfname area ::
  (render area (page_words f1 f2) <$> edge_lines).

Lemma mmap_runs addr len prot flags off e s :
  0 <= addr < 2 ^ 63 ->
  sexec fstep (mmap addr len prot flags (-1) off) e s =
  let a := if addr =? 0 then area else addr in
  Some (Returned a, e, set_memory (patched (memory s) a len (fun _ => 0)) s).
Proof.
  intros Ha. unfold mmap, trigger. cbn -[syscall_ptr]. rewrite syscall_ptr_nonneg; [done|].
  destruct (addr =? 0); lia.
Qed.

Lemma dump_pages_runs pfname f old e s :
  object_of pfname = Some Memory -> holds (memory s) area 1024 f -> is_long f ->
  sexec fstep (with_file pfname (fun fd =>
         a ← read_at fd area (PAGE_SIZE * 2) old;
         match a with
         | None => Ret false
         | Some a =>
             say ("dump " +:+ pfname +:+ "(offset:" +:+ ax016 area +:+ "):");;
             pages_loop 256 area 0 0 false a;;
             Ret true
         end)) e s =
  Some (Returned true, e, set_opened None (prints (dump_title pfname area :: (render area f <$> edge_lines)) s)).
Proof.
  intros Ho Hm Hf. set (arr := array (8 * 1024) (bytes_at (memory s) area (Z.to_nat (8 * 1024))) old).
  assert (render area f <$> edge_lines = render area (fun j => long_at j arr) <$> edge_lines) as ->.
  { apply Forall_fmap_ext_1, (Forall_impl _ _ _ edge_lines_range). intros [k|] Hk%in_range_spec; [|done]. simpl in Hk.
    simpl. apply (word_line_ext _ _ _ 1024); [|lia..]. intros j Hj. symmetry. subst arr.
    apply long_at_array; [done|by apply Hm|apply Hf; lia]. }
  apply (with_file_runs pfname _ Memory true e e s
    (prints (dump_title pfname area :: (render area (fun j => long_at j arr) <$> edge_lines))
       (set_opened (Some (Memory, area + 8 * 1024)) s))); [done|by eexists|].
  erewrite (sexec_bind fstep); [|apply (read_at_runs _ _ _ _ _ 0); [done|lia|done]].
  change (PAGE_SIZE * 2) with (8 * 1024). change (array _ _ _) with arr. cbv iota. rewrite sexec_say. fold (dump_title pfname area).
  change (pages_loop 256 area 0 0 false arr) with (pages_loop 256 area 0 (32 * 0) false arr).
  erewrite (sexec_bind fstep); [|by apply pages_loop_runs]. rewrite marks_edge_lines.
  cbn [sexec mret]. rewrite prints_prints. done.
Qed.

Lemma page_words_long f1 f2 : is_long f1 -> is_long f2 -> is_long (page_words f1 f2).
Proof.
  intros H1 H2 i Hi. unfold page_words. destruct (Z.ltb_spec i 512); [apply H1|apply H2]; lia.
Qed.

Lemma two_pages_shows pfname f1 f2 old :
  object_of pfname = Some Memory -> is_long f1 -> is_long f2 ->
  shows (two_pages pfname f1 f2 old) (inr true) (page_lines pfname f1 f2).
Proof.
  intros Ho H1 H2 e s. unfold two_pages. change (PAGE_SIZE * 2) with 8192. change PAGE_SIZE with 4096.
  assert (forall x, 0 <= x < 2 ^ 47 + 4096 -> (x =? MAP_FAILED) = false) as Hf by (unfold MAP_FAILED; lia).
  erewrite (sexec_bind fstep); [|by apply mmap_runs]. cbv zeta. change (NULL =? 0) with true. cbv iota.
  rewrite Hf by lia. rewrite sexec_say. erewrite (sexec_bind fstep); [|apply mmap_runs; lia].
  cbv zeta. replace (area =? 0) with false by lia. rewrite Hf by lia. rewrite sexec_say.
  match goal with |- context [sexec fstep _ e ?s1] => destruct (fill_longs_runs 512 0 area f1 e s1) as (m1 & E1 & Hm1 & _) end;
    [lia..|].
  rewrite (sexec_bind fstep _ _ _ _ _ _ _ E1). rewrite wrap_u_small by lia.
  erewrite (sexec_bind fstep); [|apply mmap_runs; lia]. cbv zeta. replace (area + 4096 =? 0) with false by lia.
  rewrite Hf by lia. rewrite sexec_say.
  match goal with |- context [sexec fstep _ e ?s1] => destruct (fill_longs_runs 512 0 (area + 4096) f2 e s1) as (m2 & E2 & Hm2 & Ho2) end;
    [lia..|].
  rewrite (sexec_bind fstep _ _ _ _ _ _ _ E2).
  erewrite (sexec_bind fstep); [|apply (dump_pages_runs pfname (page_words f1 f2)); [done| |by apply page_words_long]].
  - eexists _, _. split; [reflexivity|]. unfold prints, set_memory, set_opened, page_lines. cbn [printed].
    change PAGE_SIZE with 4096. by rewrite <- !app_assoc.
  - intros i Hi. cbn [memory set_memory]. unfold page_words. destruct (Z.ltb_spec i 512).
    + rewrite <- (Hm1 i) by lia. apply bytes_at_ext. intros x Hx. rewrite Ho2 by lia.
      cbn [memory set_memory prints]. unfold patched. by rewrite in_range_out by lia.
    + rewrite <- (Hm2 (i - 512)) by lia. f_equal. lia.
Qed.

Lemma procfs_004_shows old :
  object_of (mem_path pid) = Some Memory ->
  shows (procfs_004 old) (Some CHECK_MEM) (page_lines (mem_path pid) id complement).
Proof.
  intros Ho. unfold procfs_004. apply (shows_request SYS_getpid _ pid); [intros s; apply same_state|].
  rewrite <- (app_nil_r (page_lines _ _ _)).
  apply (shows_bind _ _ (inr true)); [by apply two_pages_shows; [|apply id_long|apply complement_long]|]. apply shows_ret.
Qed.

Lemma procfs_005_shows old :
  object_of (task_path pid tid "mem") = Some Memory ->
  shows (procfs_005 old) (Some CHECK_MEM) (page_lines (task_path pid tid "mem") complement id).
Proof.
  intros Ho. apply with_thread_shows. unfold child_thread_procfs_05.
  apply (shows_request SYS_getpid _ pid); [intros s; apply same_state|].
  apply (shows_request SYS_gettid _ tid); [intros s; apply same_state|].
  rewrite <- (app_nil_r (page_lines _ _ _)).
  apply (shows_bind _ _ (inr true)); [by apply two_pages_shows; [|apply complement_long|apply id_long]|]. apply shows_ret.
Qed.

(** ** The auxiliary vector *)

Fixpoint vector (es : list (Z * Z)) : list Z :=
  match es with [] => [] | (ty, v) :: es => le_bytes 8 ty ++ le_bytes 8 v ++ vector es end.
Definition auxv_line (x : Z * Z) : string :=
  endl ("  " +:+ ax016 x.1 +:+ " " +:+ ax016 x.2 +:+ " (" +:+ default ""%string (auxv_name !! Z.to_nat x.1) +:+ ")").

(** An entry that the table of names knows. *)
Definition known (x : Z * Z) : Prop := 0 <= x.1 < Z.of_nat (length auxv_name) /\ 0 <= x.2 < 2 ^ 64.

Lemma length_vector es : length (vector es) = (16 * length es)%nat.
Proof. induction es as [|[ty v] es IH]; [done|]. cbn [vector]. rewrite !length_app, !length_le_bytes, IH. simpl. lia. Qed.

Lemma long_at_head i a v rest :
  0 <= v < 2 ^ 64 -> drop (Z.to_nat (8 * i)) a = le_bytes 8 v ++ rest -> long_at i a = v.
Proof.
  intros Hv Ha. unfold long_at. rewrite Ha, take_app_le, take_ge by (rewrite length_le_bytes; lia).
  rewrite little_endian_le_bytes by lia. by apply Z.mod_small.
Qed.

Lemma auxv_loop_runs outside es n i a rest e s :
  (length es < n)%nat -> 0 <= i -> Forall known es -> Forall (fun x => x <> (0, 0)) es ->
  drop (Z.to_nat (8 * i)) a = vector (es ++ [(0, 0)]) ++ rest ->
  sexec fstep (auxv_loop outside n i a) e s =
  Some (Returned tt, e, prints (auxv_line <$> es ++ [(0, 0)]) s).
Proof.
  revert n i s. induction es as [|[ty v] es IH]; intros [|n] i s Hn Hi Hk Hz Ha; try (simpl in Hn; lia).
  - cbn [auxv_loop]. cbn [app vector] in Ha. rewrite <- !app_assoc in Ha.
    rewrite (long_at_head i a 0 _) by (done || exact Ha). rewrite (long_at_head (i + 1) a 0 rest).
    + done.
    + done.
    + replace (Z.to_nat (8 * (i + 1))) with (Z.to_nat (8 * i) + 8)%nat by lia.
      rewrite <- drop_drop, Ha. done.
  - apply Forall_cons in Hk as [[Hty Hv] Hk]. apply Forall_cons in Hz as [Hnz Hz]. cbn [fst snd] in Hty, Hv.
    cbn [auxv_loop]. cbn [app vector] in Ha. rewrite <- !app_assoc in Ha.
    assert (drop (Z.to_nat (8 * (i + 1))) a = le_bytes 8 v ++ vector (es ++ [(0, 0)]) ++ rest) as Ha1.
    { replace (Z.to_nat (8 * (i + 1))) with (Z.to_nat (8 * i) + 8)%nat by lia. by rewrite <- drop_drop, Ha. }
    assert (Z.of_nat (length auxv_name) = 34) as Hlen by done.
    rewrite (long_at_head i a ty _) by (lia || exact Ha). rewrite (long_at_head (i + 1) a v _) by (lia || exact Ha1).
    unfold name_of. replace (ty <? Z.of_nat (length auxv_name)) with true by lia.
    erewrite (sexec_bind fstep); [|reflexivity]. rewrite sexec_say.
    replace ((ty =? 0) && (v =? 0)) with false.
    + rewrite (IH n (i + 2)); [by rewrite prints_prints|simpl in Hn; lia|lia|done|done|].
      replace (Z.to_nat (8 * (i + 2))) with (Z.to_nat (8 * (i + 1)) + 8)%nat by lia. by rewrite <- drop_drop, Ha1.
    + symmetry. apply andb_false_iff. destruct (Z.eqb_spec ty 0) as [->|]; [right|by left].
      apply Z.eqb_neq. intros ->. by apply Hnz.
Qed.

Definition auxv_path : string := "/proc/" +:+ Fork.d pid +:+ "/auxv".
Definition auxv_lines (es : list (Z * Z)) : list string :=
  endl ("dump " +:+ auxv_path +:+ ":") :: (auxv_line <$> es ++ [(0, 0)]).

(** A file of bytes is read from its start, as far as it fits. *)
Lemma read_bytes_runs l o len e s :
  opened s = Some (Bytes l, o) -> Z.to_nat o = 0%nat -> Z.of_nat (length l) <= len ->
  sexec fstep (read fd len) e s =
  Some (Returned (Z.of_nat (length l), l), e, set_opened (Some (Bytes l, o + Z.of_nat (length l))) s).
Proof.
  intros Hs Ho Hl. unfold read, trigger. cbn -[syscall_ret Z.of_nat Z.to_nat take drop]. rewrite Hs.
  cbn -[syscall_ret Z.of_nat Z.to_nat take drop]. rewrite Ho, drop_0, take_ge by lia.
  by rewrite syscall_ret_nonneg by lia.
Qed.

Lemma procfs_000_shows outside old es :
  object_of auxv_path = Some (Bytes (vector (es ++ [(0, 0)]))) -> (length es < 256)%nat ->
  Forall known es -> Forall (fun x => x <> (0, 0)) es ->
  shows (procfs_000 outside old) (Some "you need check AUXV value"%string) (auxv_lines es).
Proof.
  intros Ho Hn Hk Hz. unfold procfs_000. apply (shows_request SYS_getpid _ pid); [intros s; apply same_state|].
  fold auxv_path. rewrite <- (app_nil_r (auxv_lines es)). apply (shows_bind _ _ true); [|apply shows_ret].
  set (l := vector (es ++ [(0, 0)])) in *. intros e s. eexists e, _. split.
  - apply (with_file_runs auxv_path _ (Bytes l) true e e s
      (prints (auxv_lines es) (set_opened (Some (Bytes l, 0 + Z.of_nat (length l))) s))); [done|by eexists|].
    erewrite (sexec_bind fstep); [|apply (read_bytes_runs l 0); [done|done|]].
    2: { subst l. rewrite length_vector, length_app. change (length [(0, 0)]) with 1%nat. lia. }
    cbv beta iota. assert ((Z.of_nat (length l) =? -1) = false) as -> by (pose proof (Nat2Z.is_nonneg (length l)); lia). rewrite sexec_say.
    erewrite (sexec_bind fstep); [|apply (auxv_loop_runs outside es 256 0 _ (drop (length l) old)); [lia|lia|done|done|]].
    + cbn [sexec mret]. by rewrite prints_prints.
    + change (Z.to_nat (8 * 0)) with 0%nat. rewrite drop_0. unfold array. rewrite Nat2Z.id. by rewrite take_ge by lia.
  - done.
Qed.

(** ** The page map *)

Definition pagemap_file : string := "/proc/" +:+ Fork.d pid +:+ "/pagemap".
Definition CHECK_PAGEMAP : string := "you need check McKernel Log & Dump PAGEMAP.".

(** Only the addresses in the first 512 bytes of a page give an offset that is a multiple of eight. *)
Lemma map_offset_spec a :
  0 <= a < 2 ^ 47 ->
  map_offset a = a / 512 /\ (map_offset a mod 8 =? 0) = (a mod PAGE_SIZE <? 512) /\ map_offset a / 8 = a / PAGE_SIZE.
Proof.
  intros Ha. unfold map_offset. change PAGE_SIZE with 4096.
  rewrite (wrap_s_small 64 (a * 8)) by lia. rewrite (wrap_u_small 64) by lia.
  assert (0 <= a * 8 / 4096 < 2 ^ 47) as Hq by (split; [apply Z.div_pos|apply Z.div_lt_upper_bound]; lia).
  rewrite wrap_s_small by lia.
  replace (a * 8 / 4096) with (a / 512) by (change 4096 with (512 * 8); by rewrite Z.div_mul_cancel_r).
  split; [done|]. split; [|by rewrite Z.div_div].
  change 4096 with (512 * 8). rewrite Z.rem_mul_r by lia.
  pose proof (Z.mod_pos_bound a 512). pose proof (Z.mod_pos_bound (a / 512) 8). lia.
Qed.

Definition pagemap_verdict : verdict := Some (if heap mod PAGE_SIZE <? 512 then CHECK_PAGEMAP else TP_FAILED).
Definition pagemap_lines : list string :=
  [allocated_line;
   if heap mod PAGE_SIZE <? 512
   then endl ("dump " +:+ pagemap_file +:+ "(offset:" +:+ ax016 (heap / 512) +:+ "):" +:+ ax016 (frame (heap / PAGE_SIZE)))
   else endl "read() failed. 22"].

(** The read of the page map, at an offset that is or is not a multiple of eight. *)
Lemma read_pagemap_runs off old e s o :
  opened s = Some (Pagemap, o) -> 0 <= off ->
  exists e' s', sexec fstep (read_at fd off 8 old) e s =
      Some (Returned (if off mod 8 =? 0 then Some (array 8 (le_bytes 8 (frame (off / 8))) old) else None), e', s') /\
    is_Some (opened s') /\
    printed s' = printed s ++ if off mod 8 =? 0 then [] else [endl "read() failed. 22"].
Proof.
  intros Hs Hoff. unfold read_at, lseek, read, trigger. cbn -[le_bytes array syscall_ret Z.modulo Z.div]. rewrite Hs.
  cbn -[le_bytes array syscall_ret Z.modulo Z.div]. rewrite syscall_ret_nonneg by lia.
  cbn -[le_bytes array syscall_ret Z.modulo Z.div]. replace (off =? -1) with false by lia.
  cbn -[le_bytes array syscall_ret Z.modulo Z.div].
  destruct (off mod 8 =? 0); cbn -[le_bytes array syscall_ret Z.div].
  - eexists _, _. split; [reflexivity|]. split; [by eexists|]. by rewrite app_nil_r.
  - eexists _, _. split; [reflexivity|]. split; [by eexists|done].
Qed.

Lemma long_at_first v old : 0 <= v < 2 ^ 64 -> long_at 0 (array 8 (le_bytes 8 v) old) = v.
Proof. intros Hv. by apply (long_at_head 0 _ v (drop 8 old)). Qed.

Lemma procfs_008_shows old :
  object_of pagemap_file = Some Pagemap -> (forall i, 0 <= frame i < 2 ^ 64) ->
  shows (procfs_008 old) pagemap_verdict pagemap_lines.
Proof.
  intros Ho Hf. unfold procfs_008. apply (shows_request SYS_getpid _ pid); [intros s; apply same_state|].
  apply (shows_bind _ _ heap _ [] pagemap_lines); [apply calloc_shows|]. unfold NULL.
  replace (heap =? 0) with false by lia. intros e s. unfold tp_assert. cbn [negb]. rewrite sexec_say.
  destruct (store_bytes_runs (le_bytes 8 0xffffffffffffff) heap e (prints [allocated_line] s)) as (m & E & _);
    [lia|rewrite length_le_bytes; lia|].
  unfold store_long. rewrite (sexec_bind fstep _ _ _ _ _ _ _ E). cbv zeta. fold pagemap_file.
  destruct (map_offset_spec heap) as (Hoff & Hal & Hpage); [lia|].
  set (s1 := set_memory m (prints [allocated_line] s)).
  destruct (read_pagemap_runs (map_offset heap) old e (set_opened (Some (Pagemap, 0)) s1) 0) as (e1 & s2 & Er & Hop & Hp);
    [done|rewrite Hoff; apply Z.div_pos; lia|].
  rewrite Hal, Hpage in Er. rewrite Hal in Hp.
  unfold pagemap_verdict, pagemap_lines, check_by_hand. destruct (heap mod PAGE_SIZE <? 512).
  - erewrite (sexec_bind fstep); [|eapply (with_file_runs pagemap_file _ Pagemap true); [done| |
      rewrite (sexec_bind fstep _ _ _ _ _ _ _ Er); cbv beta iota; rewrite sexec_say; reflexivity]; by destruct Hop].
    cbn [sexec mret]. unfold free, trigger. cbn -[le_bytes]. eexists _, _. split; [reflexivity|].
    cbn [printed set_opened prints]. rewrite Hp. subst s1. cbn [printed set_opened prints set_memory].
    rewrite app_nil_r, <- app_assoc. cbn [app]. rewrite Hoff.
    rewrite (wrap_u_small 64 (heap / 512)) by (split; [apply Z.div_pos|apply Z.div_lt_upper_bound]; lia).
    by rewrite long_at_first.
  - erewrite (sexec_bind fstep); [|eapply (with_file_runs pagemap_file _ Pagemap false); [done| |
      rewrite (sexec_bind fstep _ _ _ _ _ _ _ Er); reflexivity]; by destruct Hop].
    cbn [sexec mret]. unfold free, trigger. cbn. eexists _, _. split; [reflexivity|].
    cbn [printed set_opened]. rewrite Hp. subst s1. cbn [printed set_opened prints set_memory]. by rewrite <- app_assoc.
Qed.

(** ** Text *)

Definition joined (l : list string) : string := foldr String.append "" l.

(** What [fgets] reads, one call after the other. *)
Fixpoint chunks (fuel : nat) (t : string) : list string :=
  match fuel with
  | O => []
  | S fuel => if String.eqb t "" then [] else let '(a, b) := chunk 4095 t in a :: chunks fuel b
  end.

Lemma chunk_spec n t a b : chunk n t = (a, b) -> a +:+ b = t /\ (String.length b <= String.length t)%nat.
Proof.
  revert t a b. induction n as [|n IH]; intros [|c t] a b; simpl; try by intros [= <- <-].
  destruct (chr c =? 10); [intros [= <- <-]; simpl; split; [done|lia]|].
  destruct (chunk n t) as [a' b'] eqn:E. intros [= <- <-]. apply IH in E as [<- Hl]. simpl. split; [done|].
  rewrite length_append in *. lia.
Qed.
Lemma chunk_shorter n t a b : t <> ""%string -> chunk (S n) t = (a, b) -> (String.length b < String.length t)%nat.
Proof.
  destruct t as [|c t]; [done|]. intros _. simpl. destruct (chr c =? 10); [intros [= <- <-]; simpl; lia|].
  destruct (chunk n t) as [a' b'] eqn:E. intros [= <- <-]. apply chunk_spec in E as [_ Hl]. simpl. lia.
Qed.

Lemma echo_loop_runs fuel t e s :
  (String.length t < fuel)%nat -> stream s = Some t ->
  exists s', sexec fstep (echo_loop fuel fd) e s = Some (Returned tt, e, s') /\ is_Some (stream s') /\
    printed s' = printed s ++ (until_nul <$> chunks fuel t).
Proof.
  revert t s. induction fuel as [|fuel IH]; intros t s Hl Hs; [lia|]. cbn [echo_loop chunks].
  unfold fgets, trigger. cbn -[chunk until_nul echo_loop]. rewrite Hs. cbn -[chunk until_nul echo_loop].
  destruct (String.eqb_spec t "") as [->|Hne].
  - cbn. exists s. rewrite app_nil_r. split; [done|]. split; [by eexists|done].
  - change (Z.to_nat (PAGE_SIZE - 1)) with 4095%nat. destruct (chunk 4095 t) as [a b] eqn:Ec.
    pose proof (chunk_shorter _ _ _ _ Hne Ec). cbn -[until_nul echo_loop].
    destruct (IH b (print (until_nul a) (set_stream (Some b) s))) as (s' & E & Ho & Hp); [lia|done|].
    exists s'. split; [exact E|]. split; [done|]. rewrite Hp. simpl. by rewrite <- app_assoc.
Qed.

Definition text_lines (fuel : nat) (pfname t last : string) : list string :=
  endl ("output: " +:+ pfname) :: (until_nul <$> chunks fuel t) ++ if String.eqb last "" then [] else [last].

Lemma text_file_shows fuel pfname t last check :
  text_of pfname = Some t -> (String.length t < fuel)%nat ->
  shows (text_file fuel pfname last check) (Some check) (text_lines fuel pfname t last).
Proof.
  intros Ht Hl e s. unfold text_file. erewrite (sexec_bind fstep _ _ _ _ (Some fd)); [|cbn; by rewrite Ht].
  rewrite sexec_say.
  destruct (echo_loop_runs fuel t e (prints [endl ("output: " +:+ pfname)] (set_stream (Some t) s)) Hl eq_refl)
    as (s1 & E & [x Hx] & Hp).
  rewrite (sexec_bind fstep _ _ _ _ _ _ _ E). unfold text_lines. destruct (String.eqb last "").
  - cbn -[prints]. rewrite Hx. cbn. eexists _, _. split; [reflexivity|]. simpl. rewrite Hp, app_nil_r.
    cbn [printed prints set_stream]. by rewrite <- app_assoc.
  - cbn -[prints]. rewrite Hx. cbn. eexists _, _. split; [reflexivity|]. simpl. rewrite Hp.
    cbn [printed prints set_stream]. by rewrite <- !app_assoc.
Qed.

End spec.

(** A text without NUL is shown as it is. *)
Lemma until_nul_app a b : until_nul (a +:+ b) = a +:+ b -> until_nul a = a /\ until_nul b = b.
Proof.
  induction a as [|c a IH]; simpl; [done|]. destruct (chr c =? 0); [done|]. intros [= H]. by apply IH in H as [-> ->].
Qed.
Lemma chunks_joined fuel t :
  (String.length t < fuel)%nat -> until_nul t = t -> joined (until_nul <$> chunks fuel t) = t.
Proof.
  revert t. induction fuel as [|fuel IH]; intros t Hl Ht; [lia|]. cbn [chunks].
  destruct (String.eqb_spec t "") as [->|Hne]; [done|].
  destruct (chunk 4095 t) as [a b] eqn:Ec. pose proof (chunk_shorter _ _ _ _ Hne Ec).
  apply chunk_spec in Ec as [<- _]. apply until_nul_app in Ht as [Ha Hb]. simpl. rewrite Ha, IH; [done|lia|done].
Qed.

(** Of words that are separated by NULs only the first is shown. *)
Definition has_newline (t : string) : bool := existsb (fun c => chr c =? 10) (chars t).
Lemma chunk_all n t : (String.length t <= n)%nat -> has_newline t = false -> chunk n t = (t, ""%string).
Proof.
  revert t. induction n as [|n IH]; intros [|c t] Hl Hn; simpl in *; [done|lia|done|].
  apply orb_false_iff in Hn as [-> Hn]. rewrite IH; [done|lia|done].
Qed.
Lemma until_nul_cut a c rest : until_nul a = a -> chr c = 0 -> until_nul (a +:+ String c rest) = a.
Proof.
  intros Ha Hc. induction a as [|x a IH]; simpl; [by rewrite Hc|]. simpl in Ha. destruct (chr x =? 0); [done|].
  injection Ha as Ha. by rewrite IH.
Qed.
Lemma chunks_cut fuel a c rest :
  let t := a +:+ String c rest in
  until_nul a = a -> chr c = 0 -> has_newline t = false -> (String.length t <= 4095)%nat -> (1 < fuel)%nat ->
  until_nul <$> chunks fuel t = [a].
Proof.
  intros t Ha Hc Hn Hl Hf. destruct fuel as [|[|fuel]]; [lia|lia|]. cbn [chunks].
  destruct (String.eqb_spec t "") as [Ht|_]; [by destruct a|].
  rewrite chunk_all by done. simpl. unfold t. by rewrite until_nul_cut.
Qed.

(** ** On every kernel *)

Section kernel.
Context `{K : Kernel} (pid tid fd heap area : Z) (object_of : string -> option object)
        (text_of : string -> option string) (frame : Z -> Z).
Context (view : kstate -> fstate) `{!Meets (fstep pid tid fd heap area object_of text_of frame) view}.
Context (fd_ok : 0 <= fd) (heap_ok : 0 < heap < 2 ^ 47) (area_ok : 0 < area < 2 ^ 47).

Lemma shows_exec {A} (p : prog A) a l e s :
  shows pid tid fd heap area object_of text_of frame p a l ->
  exists e' s', exec p (Mach e s) = (Returned a, Mach e' s') /\ printed (view s') = printed (view s) ++ l.
Proof.
  intros Hp. destruct (Hp e (view s)) as (e' & t & E & P).
  destruct (sexec_exec _ _ _ _ _ _ _ E) as (s' & E' & <-). eauto.
Qed.

(** The tests that show memory of the process, with what they show. *)
Definition mem_tests (old : list Z) : list (prog verdict * list string) :=
  [(procfs_001 old, heap_lines heap (mem_path pid) id);
   (procfs_002 old, heap_lines heap (task_path pid tid "mem") complement);
   (procfs_004 old, page_lines area (mem_path pid) id complement);
   (procfs_005 old, page_lines area (task_path pid tid "mem") complement id)].

(** C32: On every kernel on which a file mem of /proc holds the memory of the process, procfs/001, 002, 004
    and 005 show the words they stored, each at its address, whatever the array for them held before: 32
    words in eight lines, or, of two pages with different protections, the eight lines at the start,
    around the border and at the end, with a star for those in between.  The test then fails with the
    request to check them. *)
Theorem procfs_memory_shown old p l e s :
  (p, l) ∈ mem_tests old ->
  object_of (mem_path pid) = Some Memory -> object_of (task_path pid tid "mem") = Some Memory ->
  exists e' s', exec p (Mach e s) = (Returned (Some CHECK_MEM), Mach e' s') /\
    printed (view s') = printed (view s) ++ l.
Proof.
  intros Hp Hm Ht. apply shows_exec. revert Hp. unfold mem_tests. rewrite !elem_of_cons.
  intros [[= -> ->]|[[= -> ->]|[[= -> ->]|[[= -> ->]|[]%not_elem_of_nil]]]].
  - by apply procfs_001_shows.
  - by apply procfs_002_shows.
  - by apply procfs_004_shows.
  - by apply procfs_005_shows.
Qed.

(** procfs/000 shows the auxiliary vector, one line an entry, with their names, up to AT_NULL, if all its
    entries are of types below 34. *)
Theorem procfs_auxv_shown outside old es e s :
  object_of (auxv_path pid) = Some (Bytes (vector (es ++ [(0, 0)]))) -> (length es < 256)%nat ->
  Forall known es -> Forall (fun x => x <> (0, 0)) es ->
  exists e' s', exec (procfs_000 outside old) (Mach e s) =
      (Returned (Some "you need check AUXV value"%string), Mach e' s') /\
    printed (view s') = printed (view s) ++ auxv_lines pid es.
Proof. intros. by apply shows_exec, procfs_000_shows. Qed.

(** procfs/008 shows the entry of the page map for its page when the address that [calloc] returned
    is in the first 512 bytes of a page.  Otherwise the offset it computes is no multiple of eight, the
    kernel refuses to read there, and the test fails whatever the page map holds. *)
Theorem procfs_pagemap_shown old e s :
  object_of (pagemap_file pid) = Some Pagemap -> (forall i, 0 <= frame i < 2 ^ 64) ->
  exists e' s', exec (procfs_008 old) (Mach e s) = (Returned (pagemap_verdict heap), Mach e' s') /\
    printed (view s') = printed (view s) ++ pagemap_lines pid heap frame.
Proof. intros. by apply shows_exec, procfs_008_shows. Qed.

(** The tests that show a text, with its file, what they print behind it, and their message. *)
Definition text_tests (fuel : nat) : list (prog verdict * string * string * string) :=
  let own name := ("/proc/" +:+ Fork.d pid +:+ "/" +:+ name)%string in
  [(procfs_006 fuel, "/proc/cpuinfo", "", "you need check CPUINFO");
   (procfs_007 fuel, own "maps", "", "you need check McKernel Log & Dump MAPS.");
   (procfs_009 fuel, "/proc/stat", "", "you need check Dump STAT.");
   (procfs_010 fuel, own "status", "", "you need check Dump STATUS.");
   (procfs_011 fuel, own "cmdline", FileMap.nl, "you need check Dump CMDLINE.")]%string.

Lemma text_tests_show fuel p path last check t :
  (p, path, last, check) ∈ text_tests fuel -> text_of path = Some t -> (String.length t < fuel)%nat ->
  shows pid tid fd heap area object_of text_of frame p (Some check) (text_lines fuel path t last).
Proof.
  unfold text_tests. rewrite !elem_of_cons.
  intros [[= -> -> -> ->]|[[= -> -> -> ->]|[[= -> -> -> ->]|[[= -> -> -> ->]|[[= -> -> -> ->]|[]%not_elem_of_nil]]]]] Ht Hl;
    try (by apply text_file_shows);
    (apply (shows_request _ _ _ _ _ _ _ _ SYS_getpid _ pid); [intros x; apply same_state|by apply text_file_shows]).
Qed.

(** C33: procfs/006, 007, 009, 010 and 011 print a file without NUL as it is, in lines of any length,
    behind a title: what is printed, put together, is the text of the file.  Of the command line, whose
    words are separated by NULs, procfs/011 prints only the first word. *)
Theorem procfs_text_shown fuel p path last check t e s :
  (p, path, last, check) ∈ text_tests fuel -> text_of path = Some t -> (String.length t < fuel)%nat ->
  exists e' s' l, exec p (Mach e s) = (Returned (Some check), Mach e' s') /\
    printed (view s') = printed (view s) ++ [endl ("output: " +:+ path)] ++ l ++ (if String.eqb last "" then [] else [last]) /\
    (until_nul t = t -> joined l = t) /\
    (forall a c rest, t = (a +:+ String c rest)%string -> until_nul a = a -> chr c = 0 -> has_newline t = false ->
      (String.length t <= 4095)%nat -> (1 < fuel)%nat -> l = [a]).
Proof.
  intros Hp Ht Hl. destruct (shows_exec _ _ _ e s (text_tests_show _ _ _ _ _ _ Hp Ht Hl)) as (e' & s' & E & P).
  exists e', s', (until_nul <$> chunks fuel t). split; [done|]. split; [done|]. split; [by apply chunks_joined|].
  intros a c rest -> Ha Hc Hn Hlen Hf. by apply (chunks_cut fuel a c rest).
Qed.

End kernel.

(** ** The specification as a kernel, and the runs of the log *)

Section reference.
Context (pid heap area : Z) (object_of : string -> option object) (text_of : string -> option string).
Definition proc_step := fstep pid pid 3 heap area object_of text_of (fun _ => 0x8600000000064100).
#[local] Instance ProcRef : Kernel :=
  {| kstate := fstate; kstep c t := default (no_reply c, t) (proc_step c t) |}.
Definition proc_view (t : kstate) : fstate := t.
#[local] Instance ProcRef_meets : Meets proc_step proc_view.
Proof. intros c s r t E. exists t. unfold proc_view in E. cbn. by rewrite E. Qed.
Definition proc_start : mach := Mach 0 (FState [] (fun _ => 0) None None).
End reference.
#[local] Existing Instance ProcRef_meets.

(** All files of a process show its memory, its page map or a text. *)
Definition the_object (o : object) (path : string) : option object := Some o.
Definition no_text (path : string) : option string := None.
Definition line_of (t : string) : string := endl t.

(** The lines of src/log/run_test_x86_log.txt for procfs/001, procfs/000 and procfs/008. *)
Definition log_001 : list string :=
  [line_of "allocated: 0x00000000650010";
   line_of "dump /proc/4740/mem(offset:0x00000000650010):";
   line_of "  0x00000000650010: 0000000000000000 0000000000000001 0000000000000002 0000000000000003";
   line_of "  0x00000000650030: 0000000000000004 0000000000000005 0000000000000006 0000000000000007";
   line_of "  0x00000000650050: 0000000000000008 0000000000000009 000000000000000a 000000000000000b";
   line_of "  0x00000000650070: 000000000000000c 000000000000000d 000000000000000e 000000000000000f";
   line_of "  0x00000000650090: 0000000000000010 0000000000000011 0000000000000012 0000000000000013";
   line_of "  0x000000006500b0: 0000000000000014 0000000000000015 0000000000000016 0000000000000017";
   line_of "  0x000000006500d0: 0000000000000018 0000000000000019 000000000000001a 000000000000001b";
   line_of "  0x000000006500f0: 000000000000001c 000000000000001d 000000000000001e 000000000000001f"].
Definition log_000 : list string :=
  [line_of "dump /proc/4731/auxv:";
   line_of "  0x00000000000021 0x002aaaaac24000 (AT_SYSINFO_EHDR)";
   line_of "  0x00000000000019 0x007effffffffe8 (AT_RANDOM)";
   line_of "  0x00000000000011 0x00000000000064 (AT_CLKTCK)";
   line_of "  0x00000000000006 0x00000000001000 (AT_PAGESZ)";
   line_of "  0x00000000000003 0x00000000400040 (AT_PHDR)";
   line_of "  0x00000000000004 0x00000000000038 (AT_PHENT)";
   line_of "  0x00000000000005 0x0000000000000a (AT_PHNUM)";
   line_of "  0x00000000000009 0x00000000403360 (AT_ENTRY)";
   line_of "  0000000000000000 0000000000000000 (AT_NULL)"].
Definition log_008 : list string :=
  [line_of "allocated: 0x00000000650010";
   line_of "dump /proc/4776/pagemap(offset:0x00000000003280):0x8600000000064100"].
Definition log_vector : list (Z * Z) :=
  [(0x21, 0x2aaaaac24000); (0x19, 0x7effffffffe8); (0x11, 0x64); (0x6, 0x1000); (0x3, 0x400040); (0x4, 0x38);
   (0x5, 0xa); (0x9, 0x403360)].

Lemma procfs_memory_shown_witness :
  let K := ProcRef 4740 0x650010 0x10000 (the_object Memory) no_text in
  exists e' s', exec (H := K) (procfs_001 []) (proc_start 4740 0x650010 0x10000 (the_object Memory) no_text) =
      (Returned (Some CHECK_MEM), @Mach K e' s') /\ printed s' = log_001.
Proof.
  intros K.
  destruct (procfs_memory_shown (K := K) 4740 4740 3 0x650010 0x10000 (the_object Memory) no_text (fun _ => 0x8600000000064100)
    (proc_view 4740 0x650010 0x10000 (the_object Memory) no_text) ltac:(lia) ltac:(lia) ltac:(lia) []
    (procfs_001 []) (heap_lines 0x650010 (mem_path 4740) id) 0 (FState [] (fun _ => 0) None None)
    ltac:(left) eq_refl eq_refl) as (e' & s' & E & P).
  exists e', s'. split; [exact E|]. unfold proc_view in P. rewrite P. vm_compute. reflexivity.
Defined.

Lemma procfs_auxv_log :
  let K := ProcRef 4731 0x650010 0x10000 (the_object (Bytes (vector (log_vector ++ [(0, 0)])))) no_text in
  exists e' s', exec (H := K) (procfs_000 (fun _ => Ret ""%string) [])
      (proc_start 4731 0x650010 0x10000 (the_object (Bytes (vector (log_vector ++ [(0, 0)])))) no_text) =
      (Returned (Some "you need check AUXV value"%string), @Mach K e' s') /\ printed s' = log_000.
Proof.
  intros K.
  destruct (procfs_auxv_shown (K := K) 4731 4731 3 0x650010 0x10000 (the_object (Bytes (vector (log_vector ++ [(0, 0)])))) no_text
    (fun _ => 0x8600000000064100)
    (proc_view 4731 0x650010 0x10000 (the_object (Bytes (vector (log_vector ++ [(0, 0)])))) no_text) ltac:(lia)
    (fun _ => Ret ""%string) [] log_vector 0 (FState [] (fun _ => 0) None None) eq_refl) as (e' & s' & E & P).
  - simpl. lia.
  - unfold known. repeat constructor; cbn; lia.
  - repeat constructor; discriminate.
  - exists e', s'. split; [exact E|]. unfold proc_view in P. rewrite P. vm_compute. reflexivity.
Qed.

Lemma procfs_pagemap_shown_witness :
  let K := ProcRef 4776 0x650010 0x10000 (the_object Pagemap) no_text in
  exists e' s', exec (H := K) (procfs_008 []) (proc_start 4776 0x650010 0x10000 (the_object Pagemap) no_text) =
      (Returned (Some CHECK_PAGEMAP), @Mach K e' s') /\ printed s' = log_008.
Proof.
  intros K.
  destruct (procfs_pagemap_shown (K := K) 4776 4776 3 0x650010 0x10000 (the_object Pagemap) no_text (fun _ => 0x8600000000064100)
    (proc_view 4776 0x650010 0x10000 (the_object Pagemap) no_text) ltac:(lia) ltac:(lia) []
    0 (FState [] (fun _ => 0) None None) eq_refl ltac:(intros; lia)) as (e' & s' & E & P).
  exists e', s'. split; [exact E|]. unfold proc_view in P. rewrite P. vm_compute. reflexivity.
Defined.

(** A command line of three words. *)
Definition three_words (path : string) : option string :=
  Some ("test_mck" +:+ String "000" ("-s" +:+ String "000" "procfs"))%string.
Lemma procfs_text_shown_witness :
  let K := ProcRef 7 0x650010 0x10000 (the_object Memory) three_words in
  exists e' s', exec (H := K) (procfs_011 100) (proc_start 7 0x650010 0x10000 (the_object Memory) three_words) =
      (Returned (Some "you need check Dump CMDLINE."%string), @Mach K e' s') /\
    printed s' = [endl "output: /proc/7/cmdline"; "test_mck"%string; Affinity.nl].
Proof.
  intros K.
  destruct (procfs_text_shown (K := K) 7 7 3 0x650010 0x10000 (the_object Memory) three_words (fun _ => 0x8600000000064100)
    (proc_view 7 0x650010 0x10000 (the_object Memory) three_words)  100
    (procfs_011 100) "/proc/7/cmdline" FileMap.nl "you need check Dump CMDLINE." (default "" (three_words ""))%string
    0 (FState [] (fun _ => 0) None None) ltac:(do 4 right; left) eq_refl ltac:(vm_compute; lia)) as (e' & s' & l & E & P & _ & Hcut).
  exists e', s'. split; [exact E|]. unfold proc_view in P. rewrite P.
  rewrite (Hcut "test_mck"%string "000"%char ("-s" +:+ String "000" "procfs")%string); try reflexivity; vm_compute; lia.
Defined.

End ProcDumpProofs.
