(* ===== verification/SigMachine.v ===== *)
(** * Programs with signal handlers

    A signal is delivered when the kernel returns to the program, so between two requests.  [deliver]
    says what the kernel does there: nothing, or it takes a pending signal and ignores it, ends or stops
    the process, or calls the handler; [sigreturn] is what it does when the handler returns.  Between two
    requests a program touches its own local variables only, which no handler sees, so [hexec], which
    delivers signals after each request, misses nothing of what they can do. *)
From S2P Require Import Prelude CMachine.
#[local] Open Scope Z_scope.

(** What a handler is called with: the number of the signal and its [siginfo_t], NULL or not. *)
Record hargs : Set := Hargs { h_sig : Z; h_info : option siginfo }.

Inductive delivery : Set :=
| Nothing
| Ignored (sig : Z)
| Killed (sig : Z)
| Stopped (sig : Z)
| Handled (fn : string) (args : hargs).

Section machine.
Context {S : Type} (sstep : forall c : cmd, S -> option (reply c * S))
        (deliver : S -> delivery * S) (sigreturn : S -> S)
        (handler : string -> hargs -> prog unit).

(** [p], with [signals] after each request; nothing when it does not go on. *)
Fixpoint with_signals (signals : Z -> S -> option (outcome unit * Z * S)) {A} (p : prog A) (e : Z) (s : S) :
    option (outcome A * Z * S) :=
  match p with
  | Ret a => Some (Returned a, e, s)
  | Exit n => Some (Exited n, e, s)
  | Trap sig d => Some (Signalled sig d, e, s)
  | GetErrno k => with_signals signals (k e) e s
  | SetErrno e1 k => with_signals signals k e1 s
  | Vis c k =>
      '(r, s) ← sstep c s;
      '(o, e, s) ← signals e s;
      match o with
      | Returned _ => with_signals signals (k r) e s
      | Exited n => Some (Exited n, e, s)
      | Signalled sig d => Some (Signalled sig d, e, s)
      end
  end.

(** The signals that are delivered at one point; handlers can be interrupted, too.  [fuel] bounds their
    number. *)
Fixpoint signals (fuel : nat) (e : Z) (s : S) : option (outcome unit * Z * S) :=
  match fuel with
  | O => None
  | Datatypes.S fuel =>
      match deliver s with
      | (Nothing, s) => Some (Returned tt, e, s)
      | (Ignored _, s) => signals fuel e s
      | (Killed sig, s) => Some (Signalled sig SIG_DFL, e, s)
      | (Stopped _, _) => None
      | (Handled fn args, s) =>
          '(o, e, s) ← with_signals (signals fuel) (handler fn args) e s;
          match o with
          | Returned _ => signals fuel e (sigreturn s)
          | o => Some (o, e, s)
          end
      end
  end.

Definition hexec (fuel : nat) {A} (p : prog A) (e : Z) (s : S) : option (outcome A * Z * S) :=
  with_signals (signals fuel) p e s.

(** ** Laws *)

Lemma with_signals_bind sg {A B} (p : prog A) (f : A -> prog B) e s a e1 s1 :
  with_signals sg p e s = Some (Returned a, e1, s1) ->
  with_signals sg (p ≫= f) e s = with_signals sg (f a) e1 s1.
Proof.
  revert e s. induction p as [b|n|sig d|k IH|e2 k IH|c k IH]; intros e s; simpl; try done.
  - by intros [= -> -> ->].
  - apply IH.
  - apply IH.
  - destruct (sstep c s) as [[r s2]|]; [|done]. simpl.
    destruct (sg e s2) as [[[[b|n|sig d] e3] s3]|]; [|done..]. simpl. apply IH.
Qed.

(** More fuel does not change what happened. *)
Lemma with_signals_mono (f g : Z -> S -> option (outcome unit * Z * S)) {A} (p : prog A) e s x :
  (forall e s x, f e s = Some x -> g e s = Some x) ->
  with_signals f p e s = Some x -> with_signals g p e s = Some x.
Proof.
  intros Hfg. revert e s. induction p as [b|n|sig d|k IH|e2 k IH|c k IH]; intros e s; simpl; try done.
  - apply IH.
  - apply IH.
  - destruct (sstep c s) as [[r s2]|]; [|done]. simpl.
    destruct (f e s2) as [[[o e3] s3]|] eqn:Ef; [|done]. rewrite (Hfg _ _ _ Ef). simpl.
    destruct o; [apply IH|done..].
Qed.
Lemma signals_mono fuel fuel' e s x :
  (fuel <= fuel')%nat -> signals fuel e s = Some x -> signals fuel' e s = Some x.
Proof.
  revert fuel' e s x. induction fuel as [|fuel IH]; intros [|fuel'] e s x Hf; simpl; try (done || lia).
  destruct (deliver s) as [[|sig|sig|sig|fn args] s1]; try done.
  - apply IH. lia.
  - destruct (with_signals (signals fuel) (handler fn args) e s1) as [[[o e2] s2]|] eqn:Ew; [|done].
    rewrite (with_signals_mono _ (signals fuel') _ _ _ _ (fun e s x => IH fuel' e s x ltac:(lia)) Ew). simpl.
    destruct o; try done. apply IH. lia.
Qed.
Lemma hexec_mono fuel fuel' {A} (p : prog A) e s x :
  (fuel <= fuel')%nat -> hexec fuel p e s = Some x -> hexec fuel' p e s = Some x.
Proof. intros Hf. apply with_signals_mono. intros e1 s1 x1. by apply signals_mono. Qed.

(** One request, where no signal is pending after it, or one that a handler takes. *)
Lemma with_signals_vis sg c {A} (k : reply c -> prog A) e s r s1 e2 s2 :
  sstep c s = Some (r, s1) -> sg e s1 = Some (Returned tt, e2, s2) ->
  with_signals sg (Vis c k) e s = with_signals sg (k r) e2 s2.
Proof. intros Ec Es. simpl. rewrite Ec. simpl. by rewrite Es. Qed.
Lemma signals_nothing fuel e s s1 :
  deliver s = (Nothing, s1) -> signals (Datatypes.S fuel) e s = Some (Returned tt, e, s1).
Proof. simpl. by intros ->. Qed.
Lemma signals_handled fuel e s fn args s1 e2 s2 u :
  deliver s = (Handled fn args, s1) ->
  with_signals (signals fuel) (handler fn args) e s1 = Some (Returned u, e2, s2) ->
  signals (Datatypes.S fuel) e s = signals fuel e2 (sigreturn s2).
Proof. simpl. intros -> ->. done. Qed.

End machine.

(** ** Kernels that deliver signals *)

Class SigKernel `{Kernel} := {
  k_deliver : kstate -> delivery * kstate;
  k_sigreturn : kstate -> kstate
}.

(** The program with its handlers on a kernel. *)
Definition kexec `{SigKernel} (handler : string -> hargs -> prog unit) (fuel : nat) {A} (p : prog A) (m : mach) :
    option (outcome A * Z * kstate) :=
  hexec (fun c s => Some (kstep c s)) k_deliver k_sigreturn handler fuel p (errno m) (kern m).

(** A kernel that behaves like a specification, also in the delivery of signals. *)
Section spec.
Context {S : Type} (sstep : forall c : cmd, S -> option (reply c * S)) (deliver : S -> delivery * S) (sigreturn : S -> S).
Context `{SigKernel} (view : kstate -> S).

Class SigMeets := {
  sig_meets :: Meets sstep view;
  meets_deliver s : deliver (view s) = ((k_deliver s).1, view (k_deliver s).2);
  meets_sigreturn s : sigreturn (view s) = view (k_sigreturn s)
}.

Context `{!SigMeets} (handler : string -> hargs -> prog unit).

Lemma with_signals_meets (f : Z -> S -> option (outcome unit * Z * S)) (g : Z -> kstate -> option (outcome unit * Z * kstate)) :
  (forall e s o e' t, f e (view s) = Some (o, e', t) -> exists s', g e s = Some (o, e', s') /\ view s' = t) ->
  forall {A} (p : prog A) e s o e' t,
    with_signals sstep f p e (view s) = Some (o, e', t) ->
    exists s', with_signals (fun c s => Some (kstep c s)) g p e s = Some (o, e', s') /\ view s' = t.
Proof.
  intros Hfg A p. induction p as [b|n|sig d|k IH|e2 k IH|c k IH]; intros e s o e' t; simpl.
  1-3: intros [= <- <- <-]; eauto.
  - apply IH.
  - apply IH.
  - destruct (sstep c (view s)) as [[r t1]|] eqn:Es; [|done]. simpl.
    destruct (sig_meets c s r t1 Es) as (s1 & -> & <-). simpl.
    destruct (f e (view s1)) as [[[o1 e1] t2]|] eqn:Ef; [|done]. simpl.
    destruct (Hfg _ _ _ _ _ Ef) as (s2 & -> & <-). simpl.
    destruct o1; [apply IH|intros [= <- <- <-]; eauto..].
Qed.

Lemma signals_meets fuel e s o e' t :
  signals sstep deliver sigreturn handler fuel e (view s) = Some (o, e', t) ->
  exists s', signals (fun c s => Some (kstep c s)) k_deliver k_sigreturn handler fuel e s = Some (o, e', s') /\ view s' = t.
Proof.
  revert e s o e' t. induction fuel as [|fuel IH]; intros e s o e' t; simpl; [done|].
  rewrite meets_deliver. destruct (k_deliver s) as [[|sig|sig|sig|fn args] s1]; simpl; try done.
  - intros [= <- <- <-]. eauto.
  - apply IH.
  - intros [= <- <- <-]. eauto.
  - destruct (with_signals sstep _ (handler fn args) e (view s1)) as [[[o1 e1] t1]|] eqn:Ew; [|done]. simpl.
    destruct (with_signals_meets _ _ (fun e s o e' t => IH e s o e' t) _ _ _ _ _ _ Ew) as (s2 & -> & <-). simpl.
    destruct o1; [|intros [= <- <- <-]; eauto..]. rewrite meets_sigreturn. apply IH.
Qed.

(** What is shown of a run on the specification holds on the kernel. *)
Theorem hexec_kexec fuel {A} (p : prog A) e s o e' t :
  hexec sstep deliver sigreturn handler fuel p e (view s) = Some (o, e', t) ->
  exists s', kexec handler fuel p (Mach e s) = Some (o, e', s') /\ view s' = t.
Proof. apply with_signals_meets, signals_meets. Qed.

End spec.
