(* ===== verification/Signals.v ===== *)
(** * The suites on signals

    src/src/test_mck/src/{rt_sigaction,rt_sigpending,rt_sigprocmask,rt_sigqueueinfo,rt_sigsuspend,
    rt_sigtimedwait,sigaltstack,siginfo,signalfd4,tgkill,tkill,pause}/, src/src/lv12_signal/ and
    lv15_kill_process.c.  Handlers are programs ([handlers]), run by the machine of SigMachine.v.  The
    functions keep their names with the suite and number of the test case. *)
From S2P Require Import Prelude CMachine Libc Affinity Fork Time SigMachine.
Import Libc Affinity Fork Time.
#[local] Open Scope Z_scope.

Module Signals.

(** ** The C library *)

Definition SIGILL : Z := 4.
Definition SA_ONSTACK : Z := 0x08000000.
Definition SIG_UNBLOCK : Z := 1.
Definition SIGSTKSZ : Z := 8192.
Definition SI_QUEUE : Z := -1.
Definition SFD_NONBLOCK : Z := 0x800.
Definition SFD_CLOEXEC : Z := 0x80000.
Definition F_GETFD : Z := 1.
Definition O_NONBLOCK : Z := 0x800.
Definition FD_CLOEXEC : Z := 1.

(** A [sigset_t]: bit [sig - 1] is the signal [sig]. *)
Definition sigbit (sig : Z) : Z := Z.shiftl 1 (sig - 1).
Definition is_signal (sig : Z) : bool := (1 <=? sig) && (sig <=? 64).
Definition sigaddset (set sig : Z) : prog (Z * Z) :=
  if is_signal sig then Ret (0, set .| sigbit sig) else SetErrno EINVAL (Ret (-1, set)).
Definition sigismember (set sig : Z) : prog Z :=
  if is_signal sig then Ret (if Z.testbit set (sig - 1) then 1 else 0) else SetErrno EINVAL (Ret (-1)).

Definition set_action (sig : Z) (act : sigact) : prog Z :=
  '(r, _) ← trigger (SYS_sigaction sig (Some act)); syscall_ret r.
Definition get_action (sig : Z) : prog (Z * sigact) :=
  '(r, oact) ← trigger (SYS_sigaction sig None); r ← syscall_ret r; Ret (r, oact).
Definition sigprocmask (how : Z) (set : option Z) : prog (Z * Z) :=
  '(r, oset) ← trigger (SYS_sigprocmask how set); r ← syscall_ret r; Ret (r, oset).
(** [signal] sets SA_RESTART and masks the signal itself. *)
Definition signal_to (sig : Z) (h : disposition) : prog Z := set_action sig (Sigact h SA_RESTART (sigbit sig)).
(** [pthread_kill] returns the error. *)
Definition pthread_kill_self (sig : Z) : prog Z := r ← trigger (LIBC_pthread_kill sig); Ret (- r).
Definition tgkill (pid tid sig : Z) : prog Z := r ← trigger (SYS_tgkill pid tid sig); syscall_ret r.
Definition tkill (tid sig : Z) : prog Z := r ← trigger (SYS_tkill tid sig); syscall_ret r.

(** The static variables of the programs; a pointer to a literal is its number in [literals]. *)
Definition sigaction_result_string : Z := 1.
Definition got_signal : Z := 2.
Definition sigaltstack1_sigstack_addr : Z := 3.
Definition sig_count : Z := 4.
Definition delivered_signal : Z := 5.
Definition rt_sigprocmask000_sig_count : Z := 6.

Definition literals : list string :=
  ["sigaction"; "sigprocmask";
   "SA_RESETHAND should not cause SA_SIGINFO to be cleared, but it was.";
   "siginfo should not be NULL";
   "SA_RESETHAND should cause sig tobe masked when the handler executes.";
   "sig should continue to be maskedbecause sa_mask originally contained sig.";
   "siginfo pointer should not be NULL";
   "signal handler called again?"].
Definition string_at (p : Z) : verdict := if p =? 0 then None else literals !! Z.to_nat (p - 1).

Section suites.
(** [spins]: how often a loop that waits for a handler looks at its variable. *)
Context (spins : nat).

(** [while (!v) cpu_pause()] *)
Fixpoint wait_for (n : nat) (done : Z -> bool) (var : Z) : prog unit :=
  v ← var_load var;
  if done v then Ret tt else
  match n with O => Trap SIGKILL SIG_DFL | S n => wait_for n done var end.
Definition raised (v : Z) : bool := negb (v =? 0).

(** ** rt_sigaction *)

Definition RT_SIGACTION_TEST_SIGNAL : Z := SIGUSR1.
Definition set_rt_sigaction_hundler (handler : string) (flags sig_to_mask : Z) : prog Z :=
  '(_, sa_mask) ← sigaddset 0 sig_to_mask;
  set_action RT_SIGACTION_TEST_SIGNAL (Sigact (SIG_HANDLER handler) flags sa_mask).

(** What the five handlers have in common: the action and the mask inside the handler. *)
Definition rt_sigaction_hundler (check : hargs -> sigact -> Z -> prog unit) (h : hargs) : prog unit :=
  '(err, oact) ← get_action SIGUSR1;
  if err =? -1 then var_store sigaction_result_string 1 else
  '(err, omask) ← sigprocmask SIG_BLOCK (Some 0);
  if err =? -1 then var_store sigaction_result_string 2 else
  check h oact omask.

Definition hundler_000 : hargs -> prog unit := rt_sigaction_hundler (fun h oact omask =>
  if sa_flags oact .& SA_SIGINFO =? 0 then var_store sigaction_result_string 3 else
  match h_info h with None => var_store sigaction_result_string 4 | Some _ => Ret tt end).
Definition hundler_001 : hargs -> prog unit := rt_sigaction_hundler (fun h oact omask =>
  m ← sigismember omask (h_sig h);
  if m =? 0 then var_store sigaction_result_string 5 else Ret tt).
Definition hundler_002 : hargs -> prog unit := rt_sigaction_hundler (fun h oact omask =>
  m ← sigismember omask (h_sig h);
  if m =? 0 then var_store sigaction_result_string 6 else Ret tt).
Definition hundler_003 : hargs -> prog unit := rt_sigaction_hundler (fun h oact omask =>
  match h_info h with None => var_store sigaction_result_string 7 | Some _ => Ret tt end).
Definition hundler_004 : hargs -> prog unit := rt_sigaction_hundler (fun h oact omask =>
  say ("sig#" +:+ d (h_sig h) +:+ " is handled.")).

Definition the_result_string : prog verdict := p ← var_load sigaction_result_string; Ret (string_at p).
Definition rt_sigaction_run (handler : string) (flags : Z) (rest : prog verdict) : prog verdict :=
  r ← set_rt_sigaction_hundler handler flags 0;
  TP_ASSERT r =? 0, Some "call failed unexpectedly" ;;
  rest.
Definition kill_self : prog unit := pid ← getpid; kill pid RT_SIGACTION_TEST_SIGNAL;; Ret tt.
Definition rt_sigaction_000 : prog verdict :=
  rt_sigaction_run "hundler_000" (SA_RESETHAND .| SA_SIGINFO) (kill_self;; the_result_string).
Definition rt_sigaction_001 : prog verdict :=
  rt_sigaction_run "hundler_001" SA_RESETHAND (kill_self;; the_result_string).
Definition rt_sigaction_002 : prog verdict :=
  rt_sigaction_run "hundler_002" (SA_RESETHAND .| SA_SIGINFO)
    (pthread_kill_self RT_SIGACTION_TEST_SIGNAL;; the_result_string).
Definition rt_sigaction_003 : prog verdict :=
  rt_sigaction_run "hundler_003" (SA_RESETHAND .| SA_SIGINFO)
    (pthread_kill_self RT_SIGACTION_TEST_SIGNAL;; the_result_string).
Definition rt_sigaction_004 : prog verdict :=
  rt_sigaction_run "hundler_004" SA_RESETHAND (
    say "/-------- Signal handler will activate -------/";;
    pid ← getpid; kill pid SIGUSR1;;
    say "/------ Process will terminate by signal -----/";;
    pid ← getpid; kill pid SIGUSR1;;
    var_store sigaction_result_string 8;;
    the_result_string).

(** [flags], [mask]: what the variable [act] held in the fields that are not set. *)
Definition err_sig : list Z := [-1; 65; SIGKILL; SIGSTOP].
Fixpoint err_sig_loop (act : sigact) (l : list Z) : prog verdict :=
  match l with
  | [] => Ret None
  | sig :: l =>
      result ← set_action sig act;
      e ← get_errno;
      say ("sigaction(" +:+ d sig +:+ ") = " +:+ d result +:+ " (errno=" +:+ d e +:+ ")");;
      TP_ASSERT result =? -1, Some "ERROR:sigaction return success." ;;
      e ← get_errno;
      TP_ASSERT e =? EINVAL, Some "ERROR:sigaction return other error number." ;;
      err_sig_loop act l
  end.
Definition rt_sigaction_005 (flags mask : Z) : prog verdict := err_sig_loop (Sigact SIG_DFL flags mask) err_sig.

(** ** sigaltstack *)

Definition sigaltstack (sp flags size : Z) : prog Z := r ← trigger (SYS_sigaltstack sp flags size); syscall_ret r.

(** [ss_sp]: what the variable held, which is not set. *)
Definition sigaltstack_000 (ss_sp : Z) : prog verdict := sigaltstack ss_sp 0 SIGSTKSZ;; Ret None.

(** [&i]: where the frame of the handler is. *)
Definition sigaltstack1_sighandler (h : hargs) : prog unit :=
  i ← trigger LOCAL_address;
  var_store sigaltstack1_sigstack_addr i;;
  var_store got_signal 1.

(** The verdict on the two addresses; the sum is one of pointers. *)
Definition stack_verdict (ss_sp alt_stk main_stk : Z) : verdict :=
  if (alt_stk <? ss_sp) && (u64 (ss_sp + SIGSTKSZ) <? alt_stk) then
    Some "alt. stack is not within the alternate stk boundaries"%string
  else if (ss_sp <=? main_stk) && (main_stk <=? u64 (ss_sp + SIGSTKSZ)) then
    Some "main stk. not outside the alt. stack boundaries"%string
  else None.

(** [flags], [mask]: what the variable [act] held.  [p]: the text of [%p]. *)
Definition sigaltstack_001 (p : Z -> string) (flags mask : Z) : prog verdict :=
  my_pid ← getpid;
  syscall_ret ← set_action SIGUSR1 (Sigact (SIG_HANDLER "sigaltstack1_sighandler") flags mask);
  TP_ASSERT negb (syscall_ret =? -1), Some "sigaction() fails in setup" ;;
  kill my_pid SIGUSR1;;
  wait_for spins raised got_signal;;
  var_store got_signal 0;;
  main_stk ← var_load sigaltstack1_sigstack_addr;
  m ← malloc SIGSTKSZ;
  match m with
  | None => Ret (Some "could not allocate memory for the alternate stack"%string)
  | Some (ss_sp, _) =>
      say "alternate stack settings = {";;
      say ("  ss_sp   = " +:+ p ss_sp);;
      say ("  ss_size = 0x" +:+ hex SIGSTKSZ);;
      say "};";;
      syscall_ret ← sigaltstack ss_sp 0 SIGSTKSZ;
      TP_ASSERT negb (syscall_ret =? -1), Some "sigaltstack() Failed" ;;
      syscall_ret ← set_action SIGUSR1 (Sigact (SIG_HANDLER "sigaltstack1_sighandler") SA_ONSTACK mask);
      TP_ASSERT negb (syscall_ret =? -1), Some "sigaction() fails to trap signal delivered on alt. stack" ;;
      kill my_pid SIGUSR1;;
      wait_for spins raised got_signal;;
      var_store got_signal 0;;
      alt_stk ← var_load sigaltstack1_sigstack_addr;
      say ("Actual altternalte stack = " +:+ p alt_stk);;
      say ("Actual main stack        = " +:+ p main_stk);;
      Ret (stack_verdict ss_sp alt_stk main_stk)
  end.

(** ** siginfo *)

Definition ARCH_S64FX_SIGRTMIN : Z := 32.
(** [1 << sig] in an [int] *)
Definition int_bit (sig : Z) : Z := s32 (Z.shiftl 1 sig).
(** The handler gets a [siginfo_t]; [garbage] is what it reads through a null pointer. *)
Definition siginfo_handler (garbage : siginfo) (h : hargs) : prog unit :=
  let sip := default garbage (h_info h) in
  say ("Catch signal #" +:+ d (h_sig h) +:+ nl +:+
       "  siginfo->si_signo = " +:+ d (si_signo sip) +:+ nl +:+
       "  siginfo->si_errno = " +:+ d (si_errno sip) +:+ nl +:+
       "  siginfo->si_code  = 0x" +:+ hex (u32 (si_code sip)));;
  v ← var_load delivered_signal;
  var_store delivered_signal (s32 (v .| int_bit (h_sig h))).

Definition skipped (signum : Z) : bool := (signum =? SIGKILL) || (signum =? SIGSTOP).
Fixpoint setup_siginfo_loop (l : list Z) (result : Z) : prog Z :=
  match l with
  | [] => Ret result
  | signum :: l =>
      if skipped signum then setup_siginfo_loop l result else
      result ← set_action signum (Sigact (SIG_HANDLER "siginfo_handler") (SA_RESETHAND .| SA_SIGINFO) 0);
      if negb (result =? 0) then Ret result else setup_siginfo_loop l result
  end.
Definition signums : list Z := seqZ 1 (ARCH_S64FX_SIGRTMIN - 1).
Definition setup_siginfo_handler : prog Z := setup_siginfo_loop signums 0.

Fixpoint raise_loop (l : list Z) : prog verdict :=
  match l with
  | [] => Ret None
  | signum :: l =>
      if skipped signum then raise_loop l else
      say ("=== raise signal #" +:+ d signum +:+ " ===");;
      r ← raise signum;
      TP_ASSERT r =? 0, Some "raise signal failed" ;;
      raise_loop l
  end.
Definition siginfo_setup : prog unit := var_store delivered_signal 0.
Definition siginfo_handlers_set (rest : prog verdict) : prog verdict :=
  r ← setup_siginfo_handler;
  TP_ASSERT r =? 0, Some "Setup signal handlers failed. What's happen?" ;;
  rest.
Definition siginfo_000 : prog verdict := siginfo_setup;; siginfo_handlers_set (raise_loop signums).

(** SIGHUP to SIGUSR2 of the list, in its order. *)
Definition expected_signals : list Z :=
  [1; 2; 3; 4; 5; 6; 8; 7; 11; 31; 13; 14; 15; 23; 29; 24; 25; 26; 27; 28; 30; 10; 12].
Definition SIGNAL_EXPECT_TO_DELIVER : Z := foldl (fun m sig => m .| int_bit sig) 0 expected_signals.
Definition siginfo_001 : prog verdict :=
  siginfo_setup;;
  siginfo_handlers_set (
    say "==================================================";;
    pid ← getpid;
    say ("Please send signal to mcexec(pid=" +:+ d pid +:+ ") from console.");;
    say "Exit Once you throw twice the same signal.";;
    say "==================================================";;
    wait_for spins (fun v => v =? SIGNAL_EXPECT_TO_DELIVER) delivered_signal;;
    Ret None).

(** ** tgkill and tkill *)

Definition sig_handle (h : hargs) : prog unit := var_store sig_count 1.
(** [SIG_ERR] is -1. *)
Definition signal_ok (r : Z) : bool := negb (r =? -1).
Definition tgkill_000 : prog verdict :=
  pid ← getpid;
  tid ← gettid;
  r ← signal_to SIGUSR1 (SIG_HANDLER "tgkill000_sig_handle");
  TP_ASSERT signal_ok r, Some "signal(SIGUSR1, ..) failed" ;;
  r ← tgkill pid tid SIGUSR1;
  TP_ASSERT r =? 0, Some "tgkill failed" ;;
  Ret None.
Definition tgkill_001 : prog verdict :=
  r ← signal_to SIGUSR1 (SIG_HANDLER "tgkill001_sig_handle");
  TP_ASSERT signal_ok r, Some "signal(SIGUSR1, ..) failed" ;;
  r ← raise SIGUSR1;
  TP_ASSERT r =? 0, Some "tgkill failed" ;;
  Ret None.
Definition tkill_000 : prog verdict :=
  tid ← gettid;
  var_store sig_count 0;;
  r ← signal_to SIGUSR1 (SIG_HANDLER "tkill000_sig_handle");
  TP_ASSERT signal_ok r, Some "signal(SIGUSR1, ..) failed" ;;
  r ← tkill tid SIGUSR1;
  TP_ASSERT r =? 0, Some "tkill failed" ;;
  wait_for spins raised sig_count;;
  Ret None.

(** ** Masks and waits *)

Definition rt_sigpending_000 : prog verdict :=
  r ← trigger (SYS_sigpending false);
  ret ← syscall_ret r;
  TP_ASSERT ret =? -1, Some "sigpending() Failed, expected return value=-1." ;;
  e ← get_errno;
  TP_ASSERT e =? EFAULT, Some ("sigpending() Failed with wrong errno" +:+ nl) ;;
  Ret None.

(** The counter is an [int]. *)
Definition rt_sigprocmask000_sig_handler (h : hargs) : prog unit :=
  v ← var_load rt_sigprocmask000_sig_count; var_store rt_sigprocmask000_sig_count (s32 (v + 1)).
Definition rt_sigprocmask_000 : prog verdict :=
  '(r, set) ← sigaddset 0 SIGUSR1;
  TP_ASSERT 0 <=? r, Some "sigaddset call failed" ;;
  ret ← set_action SIGUSR1 (Sigact (SIG_HANDLER "rt_sigprocmask000_sig_handler") 0 0);
  TP_ASSERT 0 <=? ret, Some "rt_sigaction call failed" ;;
  '(ret, _) ← sigprocmask SIG_BLOCK (Some set);
  TP_ASSERT ret =? 0, Some "rt_sigprocmask call failed" ;;
  pid ← getpid;
  r ← kill pid SIGUSR1;
  TP_ASSERT 0 <=? r, Some "call to kill() failed" ;;
  v ← var_load rt_sigprocmask000_sig_count;
  TP_ASSERT v =? 0, Some "rt_sigprocmask() failed to change the process's signal mask" ;;
  Ret None.

(** [garbage]: the fields of the variables that are not set. *)
Definition rt_sigqueueinfo_000 : prog verdict :=
  pid ← getpid;
  r ← trigger (SYS_sigqueueinfo pid SIGCHLD (Siginfo 0 0 SI_QUEUE 0));
  syscall_ret r;; Ret None.
(** The set and the [siginfo_t] are passed by value: what is passed are words of the stack. *)
Definition rt_sigtimedwait_000 (w : list Z) : prog verdict :=
  r ← trigger (SYS_sigtimedwait w); syscall_ret r;; Ret None.

Definition show_handler (fn : string) (h : hargs) : prog unit :=
  say ("(" +:+ fn +:+ ")sig_num=" +:+ d (h_sig h)).
Definition alarm (sec : Z) : prog unit := _ ← trigger (LIBC_alarm sec); Ret tt.
Definition rt_sigsuspend_000 : prog verdict :=
  ret ← set_action SIGALRM (Sigact (SIG_HANDLER "sig_handler") 0 0);
  TP_ASSERT negb (ret =? -1), Some "rt_sigaction failed." ;;
  '(ret, set1) ← sigprocmask SIG_UNBLOCK None;
  TP_ASSERT negb (ret =? -1), Some "rt_sigprocmask1 failed." ;;
  alarm 5;;
  r ← trigger (SYS_sigsuspend 0);
  ret ← syscall_ret r;
  e ← get_errno;
  say ("sys_rt_sigsuspend()=" +:+ d ret +:+ ", errno=" +:+ d e);;
  alarm 0;;
  TP_ASSERT ret =? -1, Some "rt_sigsuspend failed." ;;
  '(ret2, set2) ← sigprocmask SIG_UNBLOCK None;
  TP_ASSERT negb (ret2 =? -1), Some "rt_sigprocmask2 failed." ;;
  TP_ASSERT set1 =? set2, Some "rt_sigsuspend failed to preserve signal mask" ;;
  Ret None.
Definition pause_000 : prog verdict :=
  signal_to SIGALRM (SIG_HANDLER "pause000_sig_handle");;
  alarm 1;;
  r ← trigger SYS_pause;
  status ← syscall_ret r;
  e ← get_errno;
  say ("pause()=" +:+ d status +:+ ", errno=" +:+ d e);;
  TP_ASSERT status =? -1, Some "pause call failed" ;;
  Ret None.

(** ** signalfd4 *)

Definition SIGSETSIZE : Z := 8.
Definition signalfd4 (fd mask flags : Z) : prog Z :=
  r ← trigger (SYS_signalfd4 fd mask SIGSETSIZE flags); syscall_ret r.
Definition fcntl (fd op : Z) : prog Z := r ← trigger (SYS_fcntl fd op); syscall_ret r.

(** The end of the three tests: the descriptor is closed, and then it is bad. *)
Definition closes (fd : Z) : prog verdict :=
  result ← close fd;
  TP_ASSERT result =? 0, Some "close(fd) failed." ;;
  result ← fcntl fd F_GETFD;
  TP_ASSERT result =? -1, Some "why fcntl() successed?" ;;
  e ← get_errno;
  TP_ASSERT e =? EBADF, Some "file descriptor not closed!!" ;;
  Ret None.
Definition signalfd4_000 : prog verdict :=
  fd ← signalfd4 (-1) 0 0;
  TP_ASSERT negb (fd =? -1), Some "signalfd4() failed." ;;
  closes fd.
Definition signalfd4_001 : prog verdict :=
  fd ← signalfd4 (-1) 0 SFD_NONBLOCK;
  TP_ASSERT negb (fd =? -1), Some "signalfd4() failed." ;;
  result ← fcntl fd F_GETFD;
  TP_ASSERT negb (result =? -1), Some "fcntl() failed." ;;
  TP_ASSERT result .& O_NONBLOCK =? 0, Some "signalfd() does not set non-blocking mode." ;;
  closes fd.
Definition signalfd4_002 : prog verdict :=
  fd ← signalfd4 (-1) 0 SFD_CLOEXEC;
  TP_ASSERT negb (fd =? -1), Some "signalfd4() failed." ;;
  result ← fcntl fd F_GETFD;
  TP_ASSERT negb (result =? -1), Some "fcntl() failed." ;;
  TP_ASSERT result .& FD_CLOEXEC =? FD_CLOEXEC, Some "signalfd() does not set close-on-exec flag." ;;
  closes fd.

(** ** lv12 and lv15: a signal whose handler removes itself *)

(** The tables of arch/x86/include/arch_sigtable.h. *)
Definition sig_name : list string :=
  ["DUMMY"; "SIGHUP"; "SIGINT"; "SIGQUIT"; "SIGILL"; "SIGTRAP"; "SIGABRT / SIGIOT"; "SIGBUS"; "SIGFPE"; "SIGKILL";
   "SIGUSR1"; "SIGSEGV"; "SIGUSR2"; "SIGPIPE"; "SIGALRM"; "SIGTERM"; "SIGSTKFLT"; "SIGCHLD"; "SIGCONT"; "SIGSTOP";
   "SIGTSTP"; "SIGTTIN"; "SIGTTOU"; "SIGURG"; "SIGXCPU"; "SIGXFSZ"; "SIGVTALRM"; "SIGPROF"; "SIGWINCH";
   "SIGIO / SIGPOLL"; "SIGPWR"; "SIGSYS / SIGUNUSED"].
Definition sig_num : list Z :=
  [1; 2; 3; 4; 5; 6; 6; 7; 8; 9; 10; 11; 12; 13; 14; 15; 16; 17; 18; 19; 20; 21; 22; 23; 24; 25; 26; 27; 28; 29; 29; 30;
   31; 31].
Definition name_of (sig : Z) : string := default ""%string (sig_name !! Z.to_nat sig).
Definition named (sig : Z) : string := "sig_num = " +:+ d sig +:+ ", sig_name:" +:+ name_of sig.

(** The two handlers: with the name of the signal and without. *)
Definition remove_handler (text : Z -> string) (h : hargs) : prog unit :=
  say (text (h_sig h) +:+ " received.");;
  r ← signal_to (h_sig h) SIG_DFL;
  if r =? -1 then say ("signal function default failed. " +:+ text (h_sig h)) else Ret tt.
Definition numbered (sig : Z) : string := "sig_num = " +:+ d sig.

Fixpoint entry_kill_loop (l : list Z) : prog Z :=
  match l with
  | [] => say "end of user program.";; Ret 0
  | sig :: l =>
      r ← signal_to sig (SIG_HANDLER "named_handler");
      if r =? -1 then say ("signal function set failed. " +:+ named sig);; entry_kill_loop l else
      pid ← getpid;
      r ← kill pid sig;
      if negb (r =? 0) then say ("kill faild. " +:+ named sig);; Ret 0 else entry_kill_loop l
  end.
Definition entry_kill_main : prog Z := entry_kill_loop sig_num.

Definition entry_kill_single_main : prog Z :=
  r ← signal_to SIGILL (SIG_HANDLER "numbered_handler");
  if r =? -1 then say ("signal function set failed. " +:+ numbered SIGILL);; Ret 0 else
  pid ← getpid;
  r ← kill pid SIGILL;
  if negb (r =? 0) then say ("kill faild. " +:+ numbered SIGILL);; Ret 0 else
  say "end of user program.";; Ret 0.

(** An access that faults is made again when the handler returns. *)
Fixpoint store_again (n : nat) (a v : Z) : prog unit :=
  r ← trigger (MEM_store a v);
  match r, n with
  | Ok _, _ => Ret tt
  | Fault _ _, S n => store_again n a v
  | Fault sig d, O => Trap sig d
  end.
(** [memcpy((void * )-1, "aabbcc", 7)] *)
Fixpoint copy_again (a : Z) (bytes : list Z) : prog unit :=
  match bytes with
  | [] => Ret tt
  | b :: bytes => store_again spins (u64 a) b;; copy_again (a + 1) bytes
  end.
Definition aabbcc : list Z := [97; 97; 98; 98; 99; 99; 0].
Definition entry_segv_main : prog Z :=
  r ← signal_to SIGSEGV (SIG_HANDLER "numbered_handler");
  if r =? -1 then say ("signal function set failed. " +:+ numbered SIGSEGV);; Ret 0 else
  copy_again (2 ^ 64 - 1) aabbcc;;
  say "main end.";; Ret 0.

(** [rand]: the reply of rand(); [beyond]: what is printed for the element behind the end of the table. *)
Fixpoint set_handlers (l : list Z) : prog unit :=
  match l with
  | [] => Ret tt
  | sig :: l =>
      r ← signal_to sig (SIG_HANDLER "named_handler");
      (if r =? -1 then say ("signal function set failed. " +:+ named sig) else Ret tt);;
      set_handlers l
  end.
Definition lv15_kill_process_main (rand : Z) (beyond : string) : prog Z :=
  set_handlers sig_num;;
  pid ← getpid;
  r ← kill pid (default 0 (sig_num !! Z.to_nat (rand mod 32)));
  if negb (r =? 0) then say ("kill faild. " +:+ beyond);; Ret 0 else
  say "end of user program.";; Ret 0.

(** ** The handlers by the names under which they are installed *)

Definition handlers (garbage : siginfo) (fn : string) : hargs -> prog unit :=
  if String.eqb fn "hundler_000" then hundler_000 else
  if String.eqb fn "hundler_001" then hundler_001 else
  if String.eqb fn "hundler_002" then hundler_002 else
  if String.eqb fn "hundler_003" then hundler_003 else
  if String.eqb fn "hundler_004" then hundler_004 else
  if String.eqb fn "sigaltstack1_sighandler" then sigaltstack1_sighandler else
  if String.eqb fn "siginfo_handler" then siginfo_handler garbage else
  if String.eqb fn "rt_sigprocmask000_sig_handler" then rt_sigprocmask000_sig_handler else
  if String.eqb fn "sig_handler" then show_handler fn else
  if String.eqb fn "pause000_sig_handle" then show_handler fn else
  if String.eqb fn "named_handler" then remove_handler named else
  if String.eqb fn "numbered_handler" then remove_handler numbered else
  if String.eqb fn "tgkill000_sig_handle" then sig_handle else
  if String.eqb fn "tgkill001_sig_handle" then sig_handle else
  if String.eqb fn "tkill000_sig_handle" then sig_handle else
  fun _ => Ret tt.

End suites.
End Signals.
