(* ===== verification/SignalProofs.v ===== *)
(** * The verdicts of the suites on signals

    signal(7) as a specification [sigstep], [sigdeliver], [sigret] of a kernel: actions, masks, pending
    signals, the frames of handlers and the alternate stack.  What is shown of the tests on it holds on
    every kernel that meets it ([hexec_kexec]). *)
From S2P Require Import Prelude CMachine Libc Affinity Fork Time SigMachine Signals.
Import Libc Affinity Fork Time Signals.
#[local] Open Scope Z_scope.

Module SignalProofs.

(** ** The specification *)

Record sstate := SState {
  actions : Z -> sigact;
  mask : Z;
  pending : Z;
  infos : Z -> siginfo;
  frames : list (Z * Z);
  suspended : option Z;
  alarmed : bool;
  altstack : option (Z * Z);
  vars : Z -> Z;
  fds : gmap Z Z;
  printed : list string
}.

Section setters.
Context (s : sstate).
Definition set_actions x := SState x (mask s) (pending s) (infos s) (frames s) (suspended s) (alarmed s) (altstack s) (vars s) (fds s) (printed s).
Definition set_mask x := SState (actions s) x (pending s) (infos s) (frames s) (suspended s) (alarmed s) (altstack s) (vars s) (fds s) (printed s).
Definition set_pending x y := SState (actions s) (mask s) x y (frames s) (suspended s) (alarmed s) (altstack s) (vars s) (fds s) (printed s).
Definition set_frames x y := SState (actions s) (mask s) (pending s) (infos s) x y (alarmed s) (altstack s) (vars s) (fds s) (printed s).
Definition set_alarmed x := SState (actions s) (mask s) (pending s) (infos s) (frames s) (suspended s) x (altstack s) (vars s) (fds s) (printed s).
Definition set_altstack x := SState (actions s) (mask s) (pending s) (infos s) (frames s) (suspended s) (alarmed s) x (vars s) (fds s) (printed s).
Definition set_vars x := SState (actions s) (mask s) (pending s) (infos s) (frames s) (suspended s) (alarmed s) (altstack s) x (fds s) (printed s).
Definition set_fds x := SState (actions s) (mask s) (pending s) (infos s) (frames s) (suspended s) (alarmed s) (altstack s) (vars s) x (printed s).
Definition set_printed x := SState (actions s) (mask s) (pending s) (infos s) (frames s) (suspended s) (alarmed s) (altstack s) (vars s) (fds s) x.
End setters.

Lemma sstate_ext s t :
  actions s = actions t -> mask s = mask t -> pending s = pending t -> infos s = infos t -> frames s = frames t ->
  suspended s = suspended t -> alarmed s = alarmed t -> altstack s = altstack t -> vars s = vars t -> fds s = fds t ->
  printed s = printed t -> s = t.
Proof. destruct s, t. simpl. congruence. Qed.

Definition upd {A} (f : Z -> A) (i : Z) (a : A) : Z -> A := fun j => if j =? i then a else f j.

Definition SI_USER : Z := 0.
Definition SI_TKILL : Z := -6.
Definition SA_NODEFER : Z := 0x40000000.
Definition SI_KERNEL : Z := 0x80.
Definition EMFILE : Z := 24.

(** SIGKILL and SIGSTOP cannot be blocked. *)
Definition unblockable : Z := sigbit SIGKILL .| sigbit SIGSTOP.
Definition in_set (set sig : Z) : bool := Z.testbit set (sig - 1).
Definition flag (flags f : Z) : bool := negb (flags .& f =? 0).
Definition all_signals : list Z := seqZ 1 64.
Definition ignored_by_default (sig : Z) : bool := bool_decide (sig ∈ [17; 18; 23; 28]).
Definition stops_by_default (sig : Z) : bool := bool_decide (sig ∈ [19; 20; 21; 22]).

Definition next_signal (s : sstate) : option Z :=
  find (fun sig => in_set (pending s) sig && negb (in_set (mask s) sig)) all_signals.

(** [frame_size]: how far below the top of its stack the local variable of a handler is. *)
Section spec.
Context (pid tid heap new_fd stack frame_size : Z).

Definition post (sig code : Z) (s : sstate) : sstate :=
  set_pending s (pending s .| sigbit sig) (upd (infos s) sig (Siginfo sig 0 code 0)).
(** A signal sent with number 0 only checks. *)
Definition send (sig code : Z) (s : sstate) : Z * sstate :=
  if sig =? 0 then (0, s) else if is_signal sig then (0, post sig code s) else (- EINVAL, s).

(** Where the frame of the next handler is. *)
Definition on_altstack (s : sstate) : bool :=
  match altstack s, frames s with Some (sp, size), (_, a) :: _ => in_range sp size a | _, _ => false end.
Definition frame_address (act : sigact) (s : sstate) : Z :=
  match altstack s with
  | Some (sp, size) => if flag (sa_flags act) SA_ONSTACK && negb (on_altstack s) then sp + size - frame_size
                       else match frames s with (_, a) :: _ => a | [] => stack end - frame_size
  | None => match frames s with (_, a) :: _ => a | [] => stack end - frame_size
  end.

Definition sigdeliver (s : sstate) : delivery * sstate :=
  match next_signal s with
  | None => (Nothing, s)
  | Some sig =>
      let act := actions s sig in
      let s1 := set_pending s (Z.ldiff (pending s) (sigbit sig)) (infos s) in
      match sa_handler act with
      | SIG_DFL =>
          if ignored_by_default sig then (Ignored sig, s1)
          else if stops_by_default sig then (Stopped sig, s1) else (Killed sig, s1)
      | SIG_HANDLER fn =>
          let s2 := set_frames s1 ((default (mask s) (suspended s), frame_address act s) :: frames s) None in
          let blocked := mask s .| sa_mask act .| (if flag (sa_flags act) SA_NODEFER then 0 else sigbit sig) in
          let s3 := set_mask s2 (Z.ldiff blocked unblockable) in
          let s4 := if flag (sa_flags act) SA_RESETHAND
                    then set_actions s3 (upd (actions s) sig (Sigact SIG_DFL (sa_flags act) (sa_mask act))) else s3 in
          (Handled fn (Hargs sig (Some (infos s sig))), s4)
      end
  end.
Definition sigret (s : sstate) : sstate :=
  match frames s with
  | [] => s
  | (m, _) :: l => set_mask (set_frames s l (suspended s)) m
  end.

(** A wait for a signal, with [m] as the mask: an alarm that runs goes off in it. *)
Definition suspend (m : Z) (s : sstate) : option (Z * sstate) :=
  let s1 := if alarmed s then set_alarmed (post SIGALRM SI_KERNEL s) false else s in
  let s2 := set_mask (set_frames s1 (frames s) (Some (mask s))) (Z.ldiff m unblockable) in
  sig ← next_signal s2;
  match sa_handler (actions s sig) with
  | SIG_DFL => None
  | SIG_HANDLER _ => Some (- EINTR, s2)
  end.

Definition sigstep (c : cmd) (s : sstate) : option (reply c * sstate) :=
  match c with
  | SYS_getpid => Some (pid, s)
  | SYS_gettid => Some (tid, s)
  | SYS_sigaction sig act =>
      if negb (is_signal sig) then Some ((- EINVAL, actions s sig), s) else
      match act with
      | None => Some ((0, actions s sig), s)
      | Some act =>
          if skipped sig then Some ((- EINVAL, actions s sig), s)
          else Some ((0, actions s sig), set_actions s (upd (actions s) sig act))
      end
  | SYS_sigprocmask how set =>
      match set with
      | None => Some ((0, mask s), s)
      | Some m =>
          if how =? SIG_BLOCK then Some ((0, mask s), set_mask s (Z.ldiff (mask s .| m) unblockable))
          else if how =? SIG_UNBLOCK then Some ((0, mask s), set_mask s (Z.ldiff (mask s) m))
          else if how =? 2 then Some ((0, mask s), set_mask s (Z.ldiff m unblockable))
          else Some ((- EINVAL, mask s), s)
      end
  | SYS_kill p sig => if p =? pid then Some (send sig SI_USER s) else Some (- ESRCH, s)
  | LIBC_raise sig => Some (send sig SI_TKILL s)
  | LIBC_pthread_kill sig => Some (send sig SI_TKILL s)
  | SYS_tgkill p t sig => if (p =? pid) && (t =? tid) then Some (send sig SI_TKILL s) else Some (- ESRCH, s)
  | SYS_tkill t sig => if t =? tid then Some (send sig SI_TKILL s) else Some (- ESRCH, s)
  | SYS_sigpending valid => Some (if valid then 0 else - EFAULT, s)
  | SYS_sigqueueinfo p sig info => if p =? pid then Some (send sig (si_code info) s) else Some (- ESRCH, s)
  | SYS_sigtimedwait _ => Some (- EFAULT, s)
  | SYS_sigaltstack sp _ size => Some (0, set_altstack s (Some (sp, size)))
  | SYS_sigsuspend m => suspend m s
  | SYS_pause => suspend (mask s) s
  | LIBC_alarm sec => Some (0, set_alarmed s (0 <? sec))
  | LIBC_malloc _ => Some (Some (heap, 0), s)
  | LOCAL_address => Some (match frames s with (_, a) :: _ => a | [] => stack end, s)
  | MEM_store a _ =>
      if a <? 2 ^ 47 then Some (Ok tt, s)
      else Some (Fault SIGSEGV (sa_handler (actions s SIGSEGV)), post SIGSEGV SI_KERNEL s)
  | SYS_signalfd4 fd _ _ flags =>
      if negb (fd =? -1) then None
      else if negb (Z.ldiff flags (SFD_NONBLOCK .| SFD_CLOEXEC) =? 0) then Some (- EINVAL, s)
      else match fds s !! new_fd with
           | Some _ => Some (- EMFILE, s)
           | None => Some (new_fd, set_fds s (<[new_fd := if flag flags SFD_CLOEXEC then FD_CLOEXEC else 0]> (fds s)))
           end
  | SYS_close fd =>
      match fds s !! fd with
      | Some _ => Some (0, set_fds s (delete fd (fds s)))
      | None => Some (- EBADF, s)
      end
  | SYS_fcntl fd op =>
      if op =? F_GETFD then Some (default (- EBADF) (fds s !! fd), s) else None
  | VAR_load a => Some (vars s a, s)
  | VAR_store a v => Some (tt, set_vars s (upd (vars s) a v))
  | OUT t => Some (tt, set_printed s (printed s ++ [t]))
  | _ => None
  end.

(** ** Signal sets *)

Lemma in_set_bit sig x : 1 <= sig -> 1 <= x -> in_set (sigbit sig) x = (x =? sig).
Proof.
  intros Hs Hx. unfold in_set, sigbit. rewrite Z.shiftl_spec by lia.
  destruct (Z.eqb_spec x sig) as [->|Hne].
  - by replace (sig - 1 - (sig - 1)) with 0 by lia.
  - destruct (Z.lt_ge_cases x sig); [by rewrite Z.testbit_neg_r by lia|].
    replace 1 with (2 ^ 0) by done. by rewrite Z.pow2_bits_false by lia.
Qed.
Lemma in_set_lor a b x : in_set (a .| b) x = in_set a x || in_set b x.
Proof. apply Z.lor_spec. Qed.
Lemma in_set_ldiff a b x : 1 <= x -> in_set (Z.ldiff a b) x = in_set a x && negb (in_set b x).
Proof. intros Hx. apply Z.ldiff_spec. Qed.
Lemma is_signal_spec sig : is_signal sig = true <-> 1 <= sig <= 64.
Proof. unfold is_signal. lia. Qed.
Lemma sigbit_removed sig : Z.ldiff (sigbit sig) (sigbit sig) = 0.
Proof. apply Z.ldiff_diag. Qed.

Lemma find_only {A} (f : A -> bool) l x :
  x ∈ l -> f x = true -> (forall y, y ∈ l -> f y = true -> y = x) -> find f l = Some x.
Proof.
  induction l as [|a l IH]; intros Hx Hf Ho; [by apply elem_of_nil in Hx|]. simpl. destruct (f a) eqn:Ea.
  - f_equal. apply Ho; [by left|done].
  - apply IH; [|done|intros y Hy; apply Ho; by right]. apply elem_of_cons in Hx as [->|Hx]; [congruence|done].
Qed.
Lemma next_signal_single s sig :
  pending s = sigbit sig -> is_signal sig = true -> in_set (mask s) sig = false -> next_signal s = Some sig.
Proof.
  intros Hp Hs%is_signal_spec Hm. unfold next_signal. rewrite Hp. apply find_only.
  - apply elem_of_seqZ. lia.
  - by rewrite in_set_bit, Z.eqb_refl, Hm by lia.
  - intros y Hy%elem_of_seqZ [Hb _]%andb_true_iff. rewrite in_set_bit in Hb by lia. lia.
Qed.
Lemma next_signal_blocked s : Z.ldiff (pending s) (mask s) = 0 -> next_signal s = None.
Proof.
  intros Hp. unfold next_signal. destruct (find _ _) as [sig|] eqn:E; [|done].
  apply find_some in E as [Hs Hb]. apply list_elem_of_In, elem_of_seqZ in Hs.
  assert (in_set (Z.ldiff (pending s) (mask s)) sig = true) as Ht by (by rewrite in_set_ldiff by lia).
  rewrite Hp in Ht. unfold in_set in Ht. by rewrite Z.bits_0 in Ht.
Qed.

(** ** Steps *)

(** No signal is pending that is not blocked. *)
Definition quiet (s : sstate) : Prop := Z.ldiff (pending s) (mask s) = 0.
Lemma quiet_zero s : pending s = 0 -> quiet s.
Proof. intros Hp. unfold quiet. by rewrite Hp, Z.ldiff_0_l. Qed.

Context (h : string -> hargs -> prog unit).
Definition hx (fuel : nat) {A} (p : prog A) (e : Z) (s : sstate) := hexec sigstep sigdeliver sigret h fuel p e s.
#[local] Arguments hx : simpl never.

Lemma hx_bind fuel {A B} (p : prog A) (f : A -> prog B) e s a e1 s1 :
  hx fuel p e s = Some (Returned a, e1, s1) -> hx fuel (p ≫= f) e s = hx fuel (f a) e1 s1.
Proof. apply with_signals_bind. Qed.
Lemma hx_set_errno fuel {A} e1 (k : prog A) e s : hx fuel (SetErrno e1 k) e s = hx fuel k e1 s.
Proof. done. Qed.
Lemma hx_get_errno fuel {A} (k : Z -> prog A) e s : hx fuel (GetErrno k) e s = hx fuel (k e) e s.
Proof. done. Qed.
Lemma hx_mono fuel fuel' {A} (p : prog A) e s x : (fuel <= fuel')%nat -> hx fuel p e s = Some x -> hx fuel' p e s = Some x.
Proof. apply hexec_mono. Qed.

(** A request that leaves nothing to deliver, and one after which a handler runs. *)
Lemma hx_vis fuel c {A} (k : reply c -> prog A) e s r s1 :
  sigstep c s = Some (r, s1) -> quiet s1 -> hx (S fuel) (Vis c k) e s = hx (S fuel) (k r) e s1.
Proof.
  intros Ec Hq. apply (with_signals_vis _ _ _ _ _ _ _ _ _ _ Ec). apply signals_nothing. unfold sigdeliver.
  by rewrite next_signal_blocked.
Qed.

(** The state in which the handler of [sig] starts. *)
Definition handling (sig : Z) (s : sstate) : sstate :=
  let act := actions s sig in
  SState (if flag (sa_flags act) SA_RESETHAND then upd (actions s) sig (Sigact SIG_DFL (sa_flags act) (sa_mask act)) else actions s)
    (Z.ldiff (mask s .| sa_mask act .| (if flag (sa_flags act) SA_NODEFER then 0 else sigbit sig)) unblockable)
    (Z.ldiff (pending s) (sigbit sig)) (infos s)
    ((default (mask s) (suspended s), frame_address act s) :: frames s) None (alarmed s) (altstack s) (vars s) (fds s) (printed s).
Lemma sigdeliver_handler s sig fn :
  next_signal s = Some sig -> sa_handler (actions s sig) = SIG_HANDLER fn ->
  sigdeliver s = (Handled fn (Hargs sig (Some (infos s sig))), handling sig s).
Proof.
  intros Hn Hh. unfold sigdeliver. rewrite Hn, Hh. unfold handling. by destruct (flag _ SA_RESETHAND).
Qed.

Lemma hx_handled fuel c {A} (k : reply c -> prog A) e s r s1 sig fn e2 s2 :
  sigstep c s = Some (r, s1) ->
  pending s1 = sigbit sig -> is_signal sig = true -> in_set (mask s1) sig = false ->
  sa_handler (actions s1 sig) = SIG_HANDLER fn ->
  hx (S fuel) (h fn (Hargs sig (Some (infos s1 sig)))) e (handling sig s1) = Some (Returned tt, e2, s2) ->
  quiet (sigret s2) ->
  hx (S (S fuel)) (Vis c k) e s = hx (S (S fuel)) (k r) e2 (sigret s2).
Proof.
  intros Ec Hp Hs Hm Hh Hb Hq. apply (with_signals_vis _ _ _ _ _ _ _ _ _ _ Ec).
  rewrite (signals_handled _ _ _ _ _ _ _ _ _ _ _ _ _ (sigdeliver_handler _ _ _ (next_signal_single _ _ Hp Hs Hm) Hh) Hb).
  apply signals_nothing. unfold sigdeliver. by rewrite next_signal_blocked.
Qed.

(** A signal that nothing handles ends the process. *)
Lemma hx_killed fuel c {A} (k : reply c -> prog A) e s r s1 sig :
  sigstep c s = Some (r, s1) ->
  pending s1 = sigbit sig -> is_signal sig = true -> in_set (mask s1) sig = false ->
  sa_handler (actions s1 sig) = SIG_DFL -> ignored_by_default sig || stops_by_default sig = false ->
  exists s2, hx (S fuel) (Vis c k) e s = Some (Signalled sig SIG_DFL, e, s2) /\ printed s2 = printed s1.
Proof.
  intros Ec Hp Hs Hm Hh [Hi Ht]%orb_false_iff. unfold hx, hexec. simpl with_signals. rewrite Ec. simpl.
  unfold sigdeliver. rewrite (next_signal_single _ _ Hp Hs Hm), Hh, Hi, Ht. simpl. eexists. by split.
Qed.

(** One that is ignored by default is dropped. *)
Lemma hx_ignored fuel c {A} (k : reply c -> prog A) e s r s1 sig :
  sigstep c s = Some (r, s1) ->
  pending s1 = sigbit sig -> is_signal sig = true -> in_set (mask s1) sig = false ->
  sa_handler (actions s1 sig) = SIG_DFL -> ignored_by_default sig = true ->
  hx (S (S fuel)) (Vis c k) e s = hx (S (S fuel)) (k r) e (set_pending s1 0 (infos s1)).
Proof.
  intros Ec Hp Hs Hm Hh Hi. apply (with_signals_vis _ _ _ _ _ _ _ _ _ _ Ec).
  cbn [signals]. unfold sigdeliver at 1. rewrite (next_signal_single _ _ Hp Hs Hm), Hh, Hi, Hp, sigbit_removed.
  apply signals_nothing. unfold sigdeliver. by rewrite next_signal_blocked.
Qed.

End spec.

#[local] Arguments hx : simpl never.

Section tests.
Context (pid tid heap new_fd stack frame_size : Z) (garbage : siginfo).
Notation hx := (hx pid tid heap new_fd stack frame_size (handlers garbage)).
Notation sigstep := (sigstep pid tid heap new_fd stack).
Notation handling := (handling stack frame_size).

(** One request that delivers nothing. *)
Ltac step := erewrite hx_vis; [|reflexivity|first [done | apply quiet_zero; done]].

(** ** rt_sigaction *)

Definition with_handler (sig : Z) (act : sigact) (s : sstate) : sstate := set_actions s (upd (actions s) sig act).

Lemma set_action_runs fuel sig act e s :
  is_signal sig = true -> skipped sig = false -> quiet s ->
  hx (S fuel) (set_action sig act) e s = Some (Returned 0, e, with_handler sig act s).
Proof.
  intros Hs Hk Hq. unfold set_action, trigger. cbn.
  erewrite hx_vis; [|cbn; rewrite Hs; cbn; rewrite Hk; reflexivity|done]. done.
Qed.

Lemma rt_sigaction_hundler_runs fuel check a e s :
  pending s = 0 ->
  hx (S fuel) (rt_sigaction_hundler check a) e s =
  hx (S fuel) (check a (actions s SIGUSR1) (mask s)) e (set_mask s (Z.ldiff (mask s .| 0) unblockable)).
Proof.
  intros Hp. unfold rt_sigaction_hundler, get_action, sigprocmask, trigger. cbn. step. cbn. step. done.
Qed.

(** ** A signal that the process sends to itself *)

(** [c] replies [r] and makes [sig] pending. *)
Definition sends (c : cmd) (r : reply c) (sig code : Z) : Prop := forall s, sigstep c s = Some (r, post sig code s).
Lemma kill_sends sig : is_signal sig = true -> sends (SYS_kill pid sig) 0 sig SI_USER.
Proof.
  intros Hs s. cbn. rewrite Z.eqb_refl. unfold send. rewrite Hs. apply is_signal_spec in Hs. by replace (sig =? 0) with false by lia.
Qed.
Lemma raise_sends sig : is_signal sig = true -> sends (LIBC_raise sig) 0 sig SI_TKILL.
Proof. intros Hs s. cbn. unfold send. rewrite Hs. apply is_signal_spec in Hs. by replace (sig =? 0) with false by lia. Qed.
Lemma pthread_kill_sends sig : is_signal sig = true -> sends (LIBC_pthread_kill sig) 0 sig SI_TKILL.
Proof. apply raise_sends. Qed.
Lemma tgkill_sends sig : is_signal sig = true -> sends (SYS_tgkill pid tid sig) 0 sig SI_TKILL.
Proof. intros Hs s. cbn. rewrite !Z.eqb_refl. by apply raise_sends. Qed.
Lemma tkill_sends sig : is_signal sig = true -> sends (SYS_tkill tid sig) 0 sig SI_TKILL.
Proof. intros Hs s. cbn. rewrite !Z.eqb_refl. by apply raise_sends. Qed.

Lemma sent_handled fuel c {A} (k : reply c -> prog A) e s r sig code fn e2 s2 :
  sends c r sig code -> is_signal sig = true -> pending s = 0 -> in_set (mask s) sig = false ->
  sa_handler (actions s sig) = SIG_HANDLER fn ->
  hx (S fuel) (handlers garbage fn (Hargs sig (Some (Siginfo sig 0 code 0)))) e (handling sig (post sig code s)) =
    Some (Returned tt, e2, s2) ->
  quiet (sigret s2) ->
  hx (S (S fuel)) (Vis c k) e s = hx (S (S fuel)) (k r) e2 (sigret s2).
Proof.
  intros Hc Hs Hp Hm Hh Hb Hq. eapply hx_handled; try done.
  - simpl. by rewrite Hp.
  - simpl. unfold upd. by rewrite Z.eqb_refl.
Qed.

Lemma handling_pending sig code s : pending s = 0 -> pending (handling sig (post sig code s)) = 0.
Proof. intros Hp. simpl. by rewrite Hp, Z.lor_0_l, sigbit_removed. Qed.

Lemma in_set_unblockable sig : is_signal sig = true -> skipped sig = false -> in_set unblockable sig = false.
Proof.
  intros Hs Hk. unfold unblockable. rewrite in_set_lor, !in_set_bit by (apply is_signal_spec in Hs; unfold SIGKILL, SIGSTOP; lia).
  exact Hk.
Qed.
(** The signal is blocked while its handler runs. *)
Lemma handling_masked sig s :
  is_signal sig = true -> skipped sig = false -> flag (sa_flags (actions s sig)) SA_NODEFER = false ->
  in_set (mask (handling sig s)) sig = true.
Proof.
  intros Hs Hk Hf. simpl. rewrite Hf, in_set_ldiff, !in_set_lor, in_set_bit, Z.eqb_refl, in_set_unblockable
    by (done || apply is_signal_spec in Hs; lia). by rewrite orb_true_r.
Qed.

(** ** rt_sigaction: the verdicts *)

(** A state in which the signals of the tests are not blocked, and none is pending. *)
Record fresh (s : sstate) : Prop := Fresh {
  fresh_pending : pending s = 0;
  fresh_suspended : suspended s = None;
  fresh_usr1 : in_set (mask s) SIGUSR1 = false;
  fresh_alrm : in_set (mask s) SIGALRM = false;
  fresh_result : vars s sigaction_result_string = 0;
  fresh_chld : in_set (mask s) SIGCHLD = false /\ sa_handler (actions s SIGCHLD) = SIG_DFL;
  fresh_statics : vars s got_signal = 0 /\ vars s rt_sigprocmask000_sig_count = 0;
  fresh_fd : fds s !! new_fd = None
}.

(** What the handler of a test does in the state in which it starts, when it finds nothing wrong. *)
Definition finds_nothing (fn : string) (flags code : Z) : Prop :=
  forall fuel e s, pending s = 0 -> in_set (mask s) SIGUSR1 = true -> sa_flags (actions s SIGUSR1) = flags ->
  hx (S fuel) (handlers garbage fn (Hargs SIGUSR1 (Some (Siginfo SIGUSR1 0 code 0)))) e s =
  Some (Returned tt, e, set_mask s (Z.ldiff (mask s .| 0) unblockable)).

Lemma sigismember_runs fuel set sig e s :
  is_signal sig = true -> hx fuel (sigismember set sig) e s = Some (Returned (if in_set set sig then 1 else 0), e, s).
Proof. intros Hs. unfold sigismember. by rewrite Hs. Qed.

Lemma hundler_000_finds_nothing code : finds_nothing "hundler_000" (SA_RESETHAND .| SA_SIGINFO) code.
Proof.
  intros fuel e s Hp Hm Hf. change (handlers garbage "hundler_000") with hundler_000. unfold hundler_000.
  rewrite rt_sigaction_hundler_runs by done. by rewrite Hf.
Qed.
Lemma hundler_001_finds_nothing code : finds_nothing "hundler_001" SA_RESETHAND code.
Proof.
  intros fuel e s Hp Hm Hf. change (handlers garbage "hundler_001") with hundler_001. unfold hundler_001.
  rewrite rt_sigaction_hundler_runs by done. erewrite hx_bind by (by apply sigismember_runs). cbn [h_sig]. by rewrite Hm.
Qed.
Lemma hundler_002_finds_nothing code : finds_nothing "hundler_002" (SA_RESETHAND .| SA_SIGINFO) code.
Proof.
  intros fuel e s Hp Hm Hf. change (handlers garbage "hundler_002") with hundler_002. unfold hundler_002.
  rewrite rt_sigaction_hundler_runs by done. erewrite hx_bind by (by apply sigismember_runs). cbn [h_sig]. by rewrite Hm.
Qed.
Lemma hundler_003_finds_nothing code : finds_nothing "hundler_003" (SA_RESETHAND .| SA_SIGINFO) code.
Proof.
  intros fuel e s Hp Hm Hf. change (handlers garbage "hundler_003") with hundler_003. unfold hundler_003.
  by rewrite rt_sigaction_hundler_runs by done.
Qed.

(** The end of a test that passes: the handler is gone, the mask is the one before. *)
Definition left_clean (s s' : sstate) : Prop :=
  sa_handler (actions s' SIGUSR1) = SIG_DFL /\ mask s' = mask s /\ pending s' = 0 /\ vars s' = vars s.

Lemma usr1_handled fuel c {A} (k : reply c -> prog A) e s r code fn flags :
  sends c r SIGUSR1 code -> finds_nothing fn flags code -> flag flags SA_RESETHAND = true -> flag flags SA_NODEFER = false ->
  fresh s -> actions s SIGUSR1 = Sigact (SIG_HANDLER fn) flags 0 ->
  exists s', hx (S (S fuel)) (Vis c k) e s = hx (S (S fuel)) (k r) e s' /\ left_clean s s' /\ suspended s' = suspended s.
Proof.
  intros Hc Hf Hr Hd [Hp Hs Hm _ _ _ _ _] Ha.
  set (s1 := handling SIGUSR1 (post SIGUSR1 code s)).
  assert (pending s1 = 0) as Hp1 by by apply handling_pending.
  assert (in_set (mask s1) SIGUSR1 = true) as Hm1 by (apply handling_masked; [done|done|by simpl; rewrite Ha]).
  assert (sa_flags (actions s1 SIGUSR1) = flags) as Hf1 by (subst s1; simpl; rewrite !Ha; simpl; by rewrite Hr).
  eexists. split; [|split].
  - eapply sent_handled; [done|done|done|done|by rewrite Ha|by apply Hf|]. apply quiet_zero. by simpl in *.
  - split; [|split; [|split]]; simpl; [by rewrite !Ha; simpl; rewrite Hr|by rewrite Hs|exact Hp1|done].
  - simpl. by rewrite Hs.
Qed.

Definition rt_sigaction_tests : list (prog verdict) := [rt_sigaction_000; rt_sigaction_001; rt_sigaction_002; rt_sigaction_003].

Lemma hundler_set fuel fn flags rest e s :
  pending s = 0 ->
  hx (S fuel) (rt_sigaction_run fn flags rest) e s =
  hx (S fuel) rest EINVAL (with_handler SIGUSR1 (Sigact (SIG_HANDLER fn) flags 0) s).
Proof.
  intros Hp. unfold rt_sigaction_run.
  erewrite hx_bind with (a := 0); [reflexivity|]. unfold set_rt_sigaction_hundler.
  change (sigaddset 0 0) with (SetErrno EINVAL (Ret (-1, 0))).
  erewrite hx_bind; [|reflexivity]. cbv beta iota. apply set_action_runs; [done|done|by apply quiet_zero].
Qed.
Lemma fresh_usr1_handler act s : fresh s -> fresh (with_handler SIGUSR1 act s).
Proof. intros [? ? ? ? ? ? ? ?]. by constructor. Qed.
Lemma the_result_string_runs fuel e s :
  pending s = 0 -> vars s sigaction_result_string = 0 -> hx (S fuel) the_result_string e s = Some (Returned None, e, s).
Proof.
  intros Hp Hv. unfold the_result_string, var_load, trigger. cbn. step. by rewrite Hv.
Qed.

Lemma passes_after_handler fuel c (k : reply c -> prog verdict) e s r code fn flags :
  sends c r SIGUSR1 code -> finds_nothing fn flags code -> flag flags SA_RESETHAND = true -> flag flags SA_NODEFER = false ->
  fresh s -> (forall e s, hx (S (S fuel)) (k r) e s = hx (S (S fuel)) the_result_string e s) ->
  exists e' s', hx (S (S fuel)) (Vis c k) e (with_handler SIGUSR1 (Sigact (SIG_HANDLER fn) flags 0) s) = Some (Returned None, e', s') /\
    left_clean s s'.
Proof.
  intros Hc Hf Hr Hd Hs Hk. set (act := Sigact _ _ _). pose proof (fresh_usr1_handler act s Hs) as Hs1.
  destruct (usr1_handled fuel c k e (with_handler SIGUSR1 act s) r code fn flags) as (s' & -> & (Hh & Hm & Hp & Hv) & _);
    [done|done|done|done|done|done|].
  rewrite Hk, the_result_string_runs; [|done|by rewrite Hv; apply Hs1].
  exists e, s'. split; [done|]. by split; [|split; [|split]].
Qed.

Lemma rt_sigaction_tests_pass fuel p e s :
  p ∈ rt_sigaction_tests -> fresh s ->
  exists e' s', hx (S (S fuel)) p e s = Some (Returned None, e', s') /\ left_clean s s'.
Proof.
  intros Hp Hs. unfold rt_sigaction_tests in Hp. rewrite !elem_of_cons in Hp.
  assert (quiet s) as Hq by apply quiet_zero, Hs.
  destruct Hp as [->|[->|[->|[->|[]%not_elem_of_nil]]]].
  - unfold rt_sigaction_000, kill_self, getpid, kill, trigger. rewrite hundler_set by apply Hs. cbn -[rt_sigaction_run]. step.
    eapply passes_after_handler; [by apply kill_sends|apply hundler_000_finds_nothing|done..].
  - unfold rt_sigaction_001, kill_self, getpid, kill, trigger. rewrite hundler_set by apply Hs. cbn -[rt_sigaction_run]. step.
    eapply passes_after_handler; [by apply kill_sends|apply hundler_001_finds_nothing|done..].
  - unfold rt_sigaction_002, pthread_kill_self, trigger. rewrite hundler_set by apply Hs.
    eapply passes_after_handler; [by apply pthread_kill_sends|apply hundler_002_finds_nothing|done..].
  - unfold rt_sigaction_003, pthread_kill_self, trigger. rewrite hundler_set by apply Hs.
    eapply passes_after_handler; [by apply pthread_kill_sends|apply hundler_003_finds_nothing|done..].
Qed.

Lemma hx_say fuel t {A} (k : unit -> prog A) e s :
  quiet s -> hx (S fuel) (say t ≫= k) e s = hx (S fuel) (k tt) e (set_printed s (printed s ++ [(t +:+ nl)%string])).
Proof. intros Hq. unfold say, printf, trigger. cbn. erewrite hx_vis; [done|reflexivity|done]. Qed.

Definition handled_line : string := "sig#10 is handled." +:+ nl.
Lemma hundler_004_runs fuel i e s :
  pending s = 0 ->
  hx (S fuel) (handlers garbage "hundler_004" (Hargs SIGUSR1 i)) e s =
  Some (Returned tt, e, set_printed (set_mask s (Z.ldiff (mask s .| 0) unblockable)) (printed s ++ [handled_line])).
Proof.
  intros Hp. change (handlers garbage "hundler_004") with hundler_004. unfold hundler_004.
  rewrite rt_sigaction_hundler_runs by done. unfold say, printf, trigger. cbn. by step.
Qed.

Definition lines_004 : list string :=
  ["/-------- Signal handler will activate -------/" +:+ nl; handled_line;
   "/------ Process will terminate by signal -----/" +:+ nl].
(** The second signal ends the process: SA_RESETHAND has removed the handler. *)
Lemma rt_sigaction_004_killed fuel e s :
  fresh s ->
  exists e' s', hx (S (S fuel)) rt_sigaction_004 e s = Some (Signalled SIGUSR1 SIG_DFL, e', s') /\
    printed s' = printed s ++ lines_004.
Proof.
  intros [Hp Hs Hm _ _ _ _ _]. unfold rt_sigaction_004. rewrite hundler_set by done.
  rewrite hx_say by by apply quiet_zero. unfold getpid, kill, trigger. cbn -[say]. step.
  erewrite sent_handled; [|by apply kill_sends|done|done|done|done|apply hundler_004_runs; by apply handling_pending|].
  2: { apply quiet_zero. exact (handling_pending SIGUSR1 SI_USER s Hp). }
  cbn -[say handling post]. rewrite hx_say by (apply quiet_zero; exact (handling_pending SIGUSR1 SI_USER s Hp)).
  cbn -[say handling post]. erewrite hx_vis; [|reflexivity|apply quiet_zero; exact (handling_pending SIGUSR1 SI_USER s Hp)].
  edestruct hx_killed as (s' & -> & Hl).
  - by apply kill_sends.
  - simpl. by rewrite Hp.
  - done.
  - simpl. by rewrite Hs.
  - done.
  - done.
  - eexists _, _. split; [done|]. rewrite Hl. simpl. by rewrite <- !app_assoc.
Qed.

Lemma set_action_refused fuel sig act e s :
  is_signal sig && negb (skipped sig) = false -> quiet s -> hx (S fuel) (set_action sig act) e s = Some (Returned (-1), EINVAL, s).
Proof.
  intros Hs Hq. unfold set_action, trigger. cbn. erewrite hx_vis; [|cbn|done].
  2: { destruct (is_signal sig); simpl in *; [destruct (skipped sig); [reflexivity|done]|reflexivity]. } done.
Qed.
Definition line_005 (sig : Z) : string := ("sigaction(" +:+ d sig +:+ ") = -1 (errno=22)") +:+ nl.
Lemma err_sig_loop_runs fuel act l e s :
  Forall (fun sig => is_signal sig && negb (skipped sig) = false) l -> quiet s ->
  exists e', hx (S fuel) (err_sig_loop act l) e s = Some (Returned None, e', set_printed s (printed s ++ (line_005 <$> l))).
Proof.
  revert e s. induction l as [|sig l IH]; intros e s Hl Hq.
  - exists e. simpl. rewrite app_nil_r. by destruct s.
  - apply Forall_cons in Hl as [Hsig Hl]. cbn [err_sig_loop].
    erewrite hx_bind; [|by apply set_action_refused]. cbv beta.
    destruct (IH EINVAL (set_printed s (printed s ++ [line_005 sig])) Hl Hq) as [e' E]. exists e'. 
    transitivity (hx (S fuel) (err_sig_loop act l) EINVAL (set_printed s (printed s ++ [line_005 sig]))).
    + change (hx (S fuel) (say ("sigaction(" +:+ d sig +:+ ") = " +:+ d (-1) +:+ " (errno=" +:+ d EINVAL +:+ ")");;
        (TP_ASSERT true, Some "ERROR:sigaction return success." ;;
         e ← get_errno; TP_ASSERT e =? EINVAL, Some "ERROR:sigaction return other error number." ;; err_sig_loop act l)) EINVAL s =
        hx (S fuel) (err_sig_loop act l) EINVAL (set_printed s (printed s ++ [line_005 sig]))).
      rewrite hx_say by done. reflexivity.
    + rewrite E. simpl. by rewrite <- app_assoc.
Qed.
Lemma rt_sigaction_005_passes fuel flags m e s :
  fresh s -> exists e', hx (S fuel) (rt_sigaction_005 flags m) e s =
    Some (Returned None, e', set_printed s (printed s ++ (line_005 <$> err_sig))).
Proof. intros Hs. apply err_sig_loop_runs; [by repeat constructor|apply quiet_zero, Hs]. Qed.

(** ** siginfo *)

Definition siginfo_act : sigact := Sigact (SIG_HANDLER "siginfo_handler") (SA_RESETHAND .| SA_SIGINFO) 0.
Definition siginfo_act_gone : sigact := Sigact SIG_DFL (SA_RESETHAND .| SA_SIGINFO) 0.
Definition raise_line (sig : Z) : string := ("=== raise signal #" +:+ d sig +:+ " ===") +:+ nl.
(** What the handler shows of a signal that the process raised. *)
Definition catch_line (sig : Z) : string :=
  ("Catch signal #" +:+ d sig +:+ nl +:+
   "  siginfo->si_signo = " +:+ d sig +:+ nl +:+
   "  siginfo->si_errno = " +:+ d 0 +:+ nl +:+
   "  siginfo->si_code  = 0x" +:+ hex (u32 SI_TKILL)) +:+ nl.

Lemma siginfo_handler_runs fuel sig e s :
  quiet s ->
  hx (S fuel) (handlers garbage "siginfo_handler" (Hargs sig (Some (Siginfo sig 0 SI_TKILL 0)))) e s =
  Some (Returned tt, e, set_vars (set_printed s (printed s ++ [catch_line sig]))
    (upd (vars s) delivered_signal (s32 (vars s delivered_signal .| int_bit sig)))).
Proof.
  intros Hq. change (handlers garbage "siginfo_handler") with (siginfo_handler garbage).
  unfold siginfo_handler. cbv zeta. cbn [h_info h_sig default si_signo si_errno si_code].
  rewrite hx_say by done. unfold var_load, var_store, trigger. cbn -[int_bit wrap_s].
  step. step. done.
Qed.

(** The state behind a signal that was raised and caught. *)
Definition caught (sig : Z) (s : sstate) : sstate :=
  SState (upd (actions s) sig siginfo_act_gone) (mask s) 0 (upd (infos s) sig (Siginfo sig 0 SI_TKILL 0)) (frames s) None
    (alarmed s) (altstack s) (upd (vars s) delivered_signal (s32 (vars s delivered_signal .| int_bit sig))) (fds s)
    (printed s ++ [raise_line sig; catch_line sig]).
Lemma after_siginfo sig s l v :
  pending s = 0 -> suspended s = None -> actions s sig = siginfo_act ->
  sigret (set_vars (set_printed (handling sig (post sig SI_TKILL s)) l) v) =
  SState (upd (actions s) sig siginfo_act_gone) (mask s) 0 (upd (infos s) sig (Siginfo sig 0 SI_TKILL 0)) (frames s) None
    (alarmed s) (altstack s) v (fds s) l.
Proof.
  intros Hp Hn Ha. apply sstate_ext; try reflexivity.
  - cbn. by rewrite Ha.
  - cbn. by rewrite Hn.
  - exact (handling_pending sig SI_TKILL s Hp).
Qed.
Lemma raise_turn fuel sig l e s :
  is_signal sig = true -> skipped sig = false -> pending s = 0 -> suspended s = None -> in_set (mask s) sig = false ->
  actions s sig = siginfo_act ->
  hx (S (S fuel)) (raise_loop (sig :: l)) e s = hx (S (S fuel)) (raise_loop l) e (caught sig s).
Proof.
  intros Hs Hk Hp Hn Hm Ha. cbn [raise_loop]. rewrite Hk. rewrite hx_say by by apply quiet_zero.
  set (s1 := set_printed s (printed s ++ [raise_line sig])). change (set_printed s _) with s1.
  unfold raise, trigger. cbn -[handling post].
  assert (pending (handling sig (post sig SI_TKILL s1)) = 0) as Hp1 by by apply handling_pending.
  erewrite sent_handled; [|by apply raise_sends|done|done|done|by simpl; rewrite Ha|apply siginfo_handler_runs; by apply quiet_zero|].
  2: { apply quiet_zero. exact Hp1. }
  rewrite after_siginfo by done. change (printed (handling _ _)) with (printed s ++ [raise_line sig]). rewrite <- app_assoc. done.
Qed.

(** What is left when all of [l] was raised. *)
Definition all_caught (l : list Z) (s : sstate) : sstate := foldl (fun s sig => if skipped sig then s else caught sig s) s l.
Lemma raise_loop_runs fuel l e s :
  NoDup l -> Forall (fun sig => is_signal sig = true /\ in_set (mask s) sig = false /\ (skipped sig = false -> actions s sig = siginfo_act)) l ->
  pending s = 0 -> suspended s = None ->
  hx (S (S fuel)) (raise_loop l) e s = Some (Returned None, e, all_caught l s).
Proof.
  revert s. induction l as [|sig l IH]; intros s Hd Hl Hp Hn; [done|].
  apply NoDup_cons in Hd as [Hnin Hd]. apply Forall_cons in Hl as [(Hs & Hm & Ha) Hl]. cbn [all_caught foldl].
  destruct (skipped sig) eqn:Hk.
  - cbn [raise_loop]. rewrite Hk. by apply IH.
  - rewrite raise_turn by auto. apply IH; [done| |done|done].
    apply Forall_forall. intros x Hx. rewrite Forall_forall in Hl. destruct (Hl x Hx) as (? & ? & Hax). split; [done|]. split; [done|].
    intros Hkx. simpl. unfold upd. destruct (Z.eqb_spec x sig) as [->|_]; [done|by apply Hax].
Qed.

(** The observations on the state that is left. *)
Definition raised_lines (l : list Z) : list string := concat ((fun sig => if skipped sig then [] else [raise_line sig; catch_line sig]) <$> l).
Definition bits_set (v : Z) (l : list Z) : Z := foldl (fun v sig => if skipped sig then v else s32 (v .| int_bit sig)) v l.
Lemma all_caught_shows l s :
  printed (all_caught l s) = printed s ++ raised_lines l /\
  vars (all_caught l s) delivered_signal = bits_set (vars s delivered_signal) l /\
  mask (all_caught l s) = mask s /\
  (forall sig, sig ∈ l -> skipped sig = false -> sa_handler (actions (all_caught l s) sig) = SIG_DFL) /\
  (forall sig, sa_handler (actions s sig) = SIG_DFL -> sa_handler (actions (all_caught l s) sig) = SIG_DFL).
Proof.
  revert s. induction l as [|sig l IH]; intros s.
  - simpl. rewrite app_nil_r. repeat split; try done. by intros sig []%not_elem_of_nil.
  - unfold all_caught, raised_lines, bits_set in *. cbn [foldl]. rewrite fmap_cons. cbn [concat]. destruct (skipped sig) eqn:Hk.
    + destruct (IH s) as (Hpr & Hv & Hm & Ha & Hk'). repeat split; try done.
      intros x [->|Hx]%elem_of_cons Hkx; [congruence|by apply Ha].
    + destruct (IH (caught sig s)) as (Hpr & Hv & Hm & Ha & Hk'). rewrite Hpr, Hv, Hm. simpl. rewrite <- app_assoc.
      assert (sa_handler (actions (caught sig s) sig) = SIG_DFL) as Hgone by (simpl; unfold upd; by rewrite Z.eqb_refl).
      repeat split; try done.
      * intros x [->|Hx]%elem_of_cons Hkx; [by apply Hk'|by apply Ha].
      * intros x Hx. apply Hk'. simpl. unfold upd. by destruct (x =? sig).
Qed.

(** Setting up the handlers. *)
Definition siginfo_handlers (l : list Z) (s : sstate) : sstate :=
  foldl (fun s sig => if skipped sig then s else with_handler sig siginfo_act s) s l.
Lemma setup_siginfo_loop_runs fuel l e s :
  Forall (fun sig => is_signal sig = true) l -> pending s = 0 ->
  hx (S fuel) (setup_siginfo_loop l 0) e s = Some (Returned 0, e, siginfo_handlers l s).
Proof.
  revert s. induction l as [|sig l IH]; intros s Hl Hp; [done|]. apply Forall_cons in Hl as [Hs Hl].
  cbn [setup_siginfo_loop siginfo_handlers foldl]. destruct (skipped sig) eqn:Hk; [by apply IH|].
  erewrite hx_bind; [|apply set_action_runs; [done|done|by apply quiet_zero]]. cbv beta. by apply IH.
Qed.
Lemma siginfo_handlers_shows l s :
  pending (siginfo_handlers l s) = pending s /\ suspended (siginfo_handlers l s) = suspended s /\
  mask (siginfo_handlers l s) = mask s /\ vars (siginfo_handlers l s) = vars s /\ printed (siginfo_handlers l s) = printed s /\
  (forall sig, sig ∈ l -> skipped sig = false -> actions (siginfo_handlers l s) sig = siginfo_act) /\
  (forall sig, actions s sig = siginfo_act -> actions (siginfo_handlers l s) sig = siginfo_act).
Proof.
  revert s. induction l as [|sig l IH]; intros s.
  - repeat split; try done. by intros sig []%not_elem_of_nil.
  - unfold siginfo_handlers in *. cbn [foldl]. destruct (skipped sig) eqn:Hk.
    + destruct (IH s) as (? & ? & ? & ? & ? & Ha & Hk'). repeat split; try done.
      intros x [->|Hx]%elem_of_cons Hkx; [congruence|by apply Ha].
    + destruct (IH (with_handler sig siginfo_act s)) as (-> & -> & -> & -> & -> & Ha & Hk'). repeat split; try done.
      * intros x [->|Hx]%elem_of_cons Hkx; [|by apply Ha]. apply Hk'. simpl. unfold upd. by rewrite Z.eqb_refl.
      * intros x Hx. apply Hk'. simpl. unfold upd. by destruct (x =? sig).
Qed.

Definition delivered_all : Z := bits_set 0 signums.
Lemma siginfo_000_catches fuel e s :
  pending s = 0 -> suspended s = None -> Forall (fun sig => in_set (mask s) sig = false) signums ->
  exists s', hx (S (S fuel)) siginfo_000 e s = Some (Returned None, e, s') /\
    printed s' = printed s ++ raised_lines signums /\ vars s' delivered_signal = delivered_all /\ mask s' = mask s /\
    forall sig, sig ∈ signums -> skipped sig = false -> sa_handler (actions s' sig) = SIG_DFL.
Proof.
  intros Hp Hn Hm. unfold siginfo_000, siginfo_setup, siginfo_handlers_set, var_store, trigger. cbn -[setup_siginfo_handler raise_loop signums].
  erewrite hx_vis; [|reflexivity|by apply quiet_zero]. set (s1 := set_vars s _).
  assert (Forall (fun sig => is_signal sig = true) signums) as Hsig by (by apply (bool_decide_unpack _); vm_compute).
  erewrite hx_bind; [|by apply setup_siginfo_loop_runs]. cbv beta. change (0 =? 0) with true. cbn [tp_assert].
  destruct (siginfo_handlers_shows signums s1) as (Ep & En & Em & Ev & Epr & Ea & _).
  set (s2 := siginfo_handlers signums s1) in *.
  assert (hx (S (S fuel)) (raise_loop signums) e s2 = Some (Returned None, e, all_caught signums s2)) as E.
  { apply raise_loop_runs; [apply NoDup_seqZ| |by rewrite Ep|by rewrite En].
    apply Forall_forall. intros x Hx. rewrite Em. rewrite Forall_forall in Hm, Hsig. auto. }
  exists (all_caught signums s2). split; [exact E|].
  destruct (all_caught_shows signums s2) as (-> & -> & -> & Ha & _). rewrite Epr, Ev, Em. auto 10.
Qed.

(** ** sigaltstack *)

(** Where the frame of the running handler is. *)
Definition frame_top (s : sstate) : Z := match frames s with (_, a) :: _ => a | [] => stack end.
Lemma sigaltstack1_sighandler_runs fuel a e s :
  quiet s ->
  hx (S fuel) (handlers garbage "sigaltstack1_sighandler" a) e s =
  Some (Returned tt, e, set_vars s (upd (upd (vars s) sigaltstack1_sigstack_addr (frame_top s)) got_signal 1)).
Proof.
  intros Hq. change (handlers garbage "sigaltstack1_sighandler") with sigaltstack1_sighandler.
  unfold sigaltstack1_sighandler, var_store, trigger. cbn -[frame_top]. step. step. step. done.
Qed.

Lemma wait_for_done fuel n done var e s :
  quiet s -> done (vars s var) = true -> hx (S fuel) (wait_for n done var) e s = Some (Returned tt, e, s).
Proof.
  intros Hq Hd. destruct n; cbn [wait_for]; unfold var_load, trigger; cbn; step; by rewrite Hd.
Qed.

(** A signal to the process itself, whose handler ran when the call returns. *)
Lemma kill_caught fuel sig fn e s s2 {A} (k : Z -> prog A) :
  is_signal sig = true -> pending s = 0 -> in_set (mask s) sig = false -> sa_handler (actions s sig) = SIG_HANDLER fn ->
  hx (S fuel) (handlers garbage fn (Hargs sig (Some (Siginfo sig 0 SI_USER 0)))) e (handling sig (post sig SI_USER s)) =
    Some (Returned tt, e, s2) ->
  quiet (sigret s2) ->
  hx (S (S fuel)) (kill pid sig ≫= k) e s = hx (S (S fuel)) (k 0) e (sigret s2).
Proof.
  intros Hs Hp Hm Hh Hb Hq. unfold kill, trigger. cbn -[handling].
  erewrite sent_handled; [|by apply kill_sends|done|done|done|done|exact Hb|done]. done.
Qed.

(** What the signal of the test leaves: the address of the frame, and nothing pending. *)
Definition signalled_stack (s : sstate) : sstate :=
  sigret (set_vars (handling SIGUSR1 (post SIGUSR1 SI_USER s))
    (upd (upd (vars s) sigaltstack1_sigstack_addr (frame_address stack frame_size (actions s SIGUSR1) s)) got_signal 1)).
Lemma stack_signal fuel e s {A} (k : Z -> prog A) :
  pending s = 0 -> in_set (mask s) SIGUSR1 = false -> sa_handler (actions s SIGUSR1) = SIG_HANDLER "sigaltstack1_sighandler" ->
  hx (S (S fuel)) (kill pid SIGUSR1 ≫= k) e s = hx (S (S fuel)) (k 0) e (signalled_stack s).
Proof.
  intros Hp Hm Hh.
  assert (pending (handling SIGUSR1 (post SIGUSR1 SI_USER s)) = 0) as Hp1 by by apply handling_pending.
  eapply kill_caught; [done|done|done|done|by apply sigaltstack1_sighandler_runs, quiet_zero|apply quiet_zero; exact Hp1].
Qed.
Lemma signalled_stack_shows s :
  pending s = 0 -> suspended s = None ->
  vars (signalled_stack s) = upd (upd (vars s) sigaltstack1_sigstack_addr
    (frame_address stack frame_size (actions s SIGUSR1) s)) got_signal 1 /\
  pending (signalled_stack s) = 0 /\ suspended (signalled_stack s) = None /\ mask (signalled_stack s) = mask s /\
  frames (signalled_stack s) = frames s /\ altstack (signalled_stack s) = altstack s.
Proof. intros Hp Hn. cbn -[frame_address]. rewrite Hn, Hp, Z.lor_0_l, sigbit_removed. done. Qed.

(** The test passes when the first handler was not on the memory of the alternate stack; where the second
    was does not matter. *)
Definition sigaltstack_001_ends : verdict :=
  if (heap <=? stack - frame_size) && (stack - frame_size <=? heap + SIGSTKSZ) then
    Some "main stk. not outside the alt. stack boundaries"%string
  else None.
Lemma stack_verdict_spec ss_sp alt_stk main_stk :
  0 <= ss_sp <= 2 ^ 64 - SIGSTKSZ - 1 ->
  stack_verdict ss_sp alt_stk main_stk =
  if (ss_sp <=? main_stk) && (main_stk <=? ss_sp + SIGSTKSZ) then
    Some "main stk. not outside the alt. stack boundaries"%string
  else None.
Proof.
  intros Hs. unfold stack_verdict. rewrite wrap_u_small by (unfold SIGSTKSZ in *; lia).
  replace ((alt_stk <? ss_sp) && (ss_sp + SIGSTKSZ <? alt_stk)) with false; [done|].
  symmetry. unfold SIGSTKSZ. lia.
Qed.

Lemma hx_trigger fuel c {A} (k : reply c -> prog A) e s r s1 :
  sigstep c s = Some (r, s1) -> quiet s1 -> hx (S fuel) (trigger c ≫= k) e s = hx (S fuel) (k r) e s1.
Proof. apply hx_vis. Qed.
Lemma hx_var_load fuel a {A} (k : Z -> prog A) e s :
  quiet s -> hx (S fuel) (var_load a ≫= k) e s = hx (S fuel) (k (vars s a)) e s.
Proof. by apply hx_vis. Qed.
Lemma hx_var_store fuel a v {A} (k : unit -> prog A) e s :
  quiet s -> hx (S fuel) (var_store a v ≫= k) e s = hx (S fuel) (k tt) e (set_vars s (upd (vars s) a v)).
Proof. intros Hq. by eapply hx_vis. Qed.
Lemma hx_set_action fuel sig act {A} (k : Z -> prog A) e s :
  is_signal sig = true -> skipped sig = false -> quiet s ->
  hx (S fuel) (set_action sig act ≫= k) e s = hx (S fuel) (k 0) e (with_handler sig act s).
Proof. intros. erewrite hx_bind; [done|by apply set_action_runs]. Qed.
Lemma hx_getpid fuel {A} (k : Z -> prog A) e s : quiet s -> hx (S fuel) (getpid ≫= k) e s = hx (S fuel) (k pid) e s.
Proof. by apply hx_vis. Qed.

Definition stack_act (flags m : Z) : sigact := Sigact (SIG_HANDLER "sigaltstack1_sighandler") flags m.
(** The variable that the loop waits for is cleared again. *)
Definition noted (s : sstate) : sstate := set_vars (signalled_stack s) (upd (vars (signalled_stack s)) got_signal 0).
Lemma noted_shows s :
  pending s = 0 -> suspended s = None ->
  vars (noted s) sigaltstack1_sigstack_addr = frame_address stack frame_size (actions s SIGUSR1) s /\
  pending (noted s) = 0 /\ suspended (noted s) = None /\ mask (noted s) = mask s /\ frames (noted s) = frames s /\
  altstack (noted s) = altstack s.
Proof.
  intros Hp Hn. destruct (signalled_stack_shows s Hp Hn) as (Hv & Hr). split; [|exact Hr].
  change (vars (noted s)) with (upd (vars (signalled_stack s)) got_signal 0). by rewrite Hv.
Qed.
(** A signal, the wait for its handler, and the address that the handler noted. *)
Lemma note_runs fuel spins {A} (k : Z -> prog A) e s :
  pending s = 0 -> suspended s = None -> in_set (mask s) SIGUSR1 = false ->
  sa_handler (actions s SIGUSR1) = SIG_HANDLER "sigaltstack1_sighandler" ->
  hx (S (S fuel)) (kill pid SIGUSR1;; wait_for spins raised got_signal;; var_store got_signal 0;;
    stk ← var_load sigaltstack1_sigstack_addr; k stk) e s =
  hx (S (S fuel)) (k (frame_address stack frame_size (actions s SIGUSR1) s)) e (noted s).
Proof.
  intros Hp Hn Hm Hh. destruct (signalled_stack_shows s Hp Hn) as (Hv & Hp1 & _).
  assert (quiet (signalled_stack s)) as Hq by by apply quiet_zero.
  rewrite stack_signal by done. erewrite hx_bind; [|apply wait_for_done; [done|by rewrite Hv]].
  rewrite hx_var_store by done. change (set_vars (signalled_stack s) _) with (noted s).
  rewrite hx_var_load by exact Hq. by destruct (noted_shows s Hp Hn) as [-> _].
Qed.

Lemma sigaltstack_runs fuel sp flags size e s :
  quiet s -> hx (S fuel) (sigaltstack sp flags size) e s = Some (Returned 0, e, set_altstack s (Some (sp, size))).
Proof. intros Hq. unfold sigaltstack, trigger. cbn. by erewrite hx_vis by done. Qed.

Lemma sigaltstack_001_runs fuel spins p flags m e s :
  fresh s -> frames s = [] -> altstack s = None -> 0 <= heap <= 2 ^ 64 - SIGSTKSZ - 1 ->
  exists e' s', hx (S (S fuel)) (sigaltstack_001 spins p flags m) e s = Some (Returned sigaltstack_001_ends, e', s') /\
    vars s' sigaltstack1_sigstack_addr = heap + SIGSTKSZ - frame_size.
Proof.
  intros [Hp Hn Hm _ _ _ _ _] Hf Ha Hh. assert (quiet s) as Hq by by apply quiet_zero.
  unfold sigaltstack_001. rewrite hx_getpid by done. rewrite hx_set_action by done.
  change (negb (0 =? -1)) with true. cbn [tp_assert].
  set (s0 := with_handler SIGUSR1 (Sigact (SIG_HANDLER "sigaltstack1_sighandler") flags m) s).
  rewrite note_runs by done.
  replace (frame_address stack frame_size (actions s0 SIGUSR1) s0) with (stack - frame_size)
    by (unfold frame_address; simpl; by rewrite Hf, Ha).
  destruct (noted_shows s0 Hp Hn) as (_ & Hp1 & Hn1 & Hm1 & Hf1 & Ha1). set (s1 := noted s0) in *.
  assert (quiet s1) as Hq1 by by apply quiet_zero. clearbody s1.
  cbv beta. erewrite (hx_trigger _ (LIBC_malloc SIGSTKSZ)); [|reflexivity|done]. cbv iota beta.
  rewrite !hx_say by done. set (s2 := set_printed _ _).
  assert (quiet s2 /\ mask s2 = mask s1 /\ frames s2 = frames s1 /\ pending s2 = 0 /\ suspended s2 = None)
    as (Hq2 & Hm2 & Hf2 & Hp2 & Hn2) by done.
  clearbody s2. erewrite hx_bind; [|by apply sigaltstack_runs]. cbv beta.
  change (negb (0 =? -1)) with true. cbn [tp_assert]. rewrite hx_set_action by done.
  change (negb (0 =? -1)) with true. cbn [tp_assert]. set (s3 := with_handler _ _ _).
  assert (frames s3 = []) as Hf3 by (change (frames s3) with (frames s2); rewrite Hf2, Hf1; exact Hf).
  rewrite note_runs; [|done|done|change (mask s3) with (mask s2); by rewrite Hm2, Hm1|done].
  assert (frame_address stack frame_size (actions s3 SIGUSR1) s3 = heap + SIGSTKSZ - frame_size) as Hfr.
  { unfold frame_address, on_altstack. by rewrite Hf3. }
  cbv beta. rewrite Hfr. destruct (noted_shows s3 Hp2 Hn2) as (Hv4 & Hp4 & _). rewrite Hfr in Hv4. set (s4 := noted s3) in *. clearbody s4.
  rewrite !hx_say by by apply quiet_zero. rewrite stack_verdict_spec by done.
  eexists e, _. split; [reflexivity|]. done.
Qed.

(** ** The other tests *)

Definition passes (fuel : nat) (p : prog verdict) (e : Z) (s : sstate) : Prop :=
  exists e' s', hx (S (S fuel)) p e s = Some (Returned None, e', s').

Definition count_handlers : list string := ["tgkill000_sig_handle"; "tgkill001_sig_handle"; "tkill000_sig_handle"].
Lemma sig_handle_runs fuel fn a e s :
  fn ∈ count_handlers -> quiet s ->
  hx (S fuel) (handlers garbage fn a) e s = Some (Returned tt, e, set_vars s (upd (vars s) sig_count 1)).
Proof.
  intros Hfn Hq. unfold count_handlers in Hfn. rewrite !elem_of_cons in Hfn.
  assert (handlers garbage fn = sig_handle) as -> by by destruct Hfn as [->|[->|[->|[]%not_elem_of_nil]]].
  unfold sig_handle, var_store, trigger. by step.
Qed.
(** A call that sends SIGUSR1 to the caller, and the state behind the handler. *)
Definition counted_state (s : sstate) : sstate :=
  let s1 := handling SIGUSR1 (post SIGUSR1 SI_TKILL s) in sigret (set_vars s1 (upd (vars s1) sig_count 1)).
Lemma counted_pending s : pending s = 0 -> pending (counted_state s) = 0.
Proof. exact (handling_pending SIGUSR1 SI_TKILL s). Qed.
Lemma counted fuel fn c {A} (k : reply c -> prog A) r e s :
  sends c r SIGUSR1 SI_TKILL -> fn ∈ count_handlers ->
  pending s = 0 -> in_set (mask s) SIGUSR1 = false -> sa_handler (actions s SIGUSR1) = SIG_HANDLER fn ->
  hx (S (S fuel)) (Vis c k) e s = hx (S (S fuel)) (k r) e (counted_state s).
Proof.
  intros Hc Hfn Hp Hm Hh.
  assert (pending (handling SIGUSR1 (post SIGUSR1 SI_TKILL s)) = 0) as Hp1 by by apply handling_pending.
  eapply sent_handled; [done|done|done|done|done|by apply sig_handle_runs; [|apply quiet_zero]|apply quiet_zero; exact Hp1].
Qed.

Lemma tgkill_000_passes fuel e s : fresh s -> passes fuel tgkill_000 e s.
Proof.
  intros [Hp Hn Hm _ _ _ _ _]. assert (quiet s) as Hq by by apply quiet_zero.
  unfold passes, tgkill_000, gettid, tgkill, signal_to. rewrite hx_getpid by done.
  erewrite (hx_trigger _ SYS_gettid); [|reflexivity|done]. rewrite hx_set_action by done.
  change (signal_ok 0) with true. cbn [tp_assert]. unfold trigger. cbn -[with_handler].
  erewrite (counted fuel "tgkill000_sig_handle"); [|by apply tgkill_sends|set_solver|exact Hp|exact Hm|done].
  eexists _, _. reflexivity.
Qed.
Lemma tgkill_001_passes fuel e s : fresh s -> passes fuel tgkill_001 e s.
Proof.
  intros [Hp Hn Hm _ _ _ _ _]. assert (quiet s) as Hq by by apply quiet_zero.
  unfold passes, tgkill_001, raise, signal_to. rewrite hx_set_action by done.
  change (signal_ok 0) with true. cbn [tp_assert]. unfold trigger. cbn -[with_handler].
  erewrite (counted fuel "tgkill001_sig_handle"); [|by apply raise_sends|set_solver|exact Hp|exact Hm|done].
  eexists _, _. reflexivity.
Qed.
Lemma tkill_000_passes fuel spins e s : fresh s -> passes fuel (tkill_000 spins) e s.
Proof.
  intros [Hp Hn Hm _ _ _ _ _]. assert (quiet s) as Hq by by apply quiet_zero.
  unfold passes, tkill_000, gettid, tkill, signal_to.
  erewrite (hx_trigger _ SYS_gettid); [|reflexivity|done]. rewrite hx_var_store by done. rewrite hx_set_action by done.
  change (signal_ok 0) with true. cbn [tp_assert]. unfold trigger. cbn -[with_handler wait_for].
  erewrite (counted fuel "tkill000_sig_handle"); [|by apply tkill_sends|set_solver|exact Hp|exact Hm|done].
  cbn -[with_handler wait_for counted_state].
  erewrite hx_bind; [|apply wait_for_done; [apply quiet_zero, counted_pending; exact Hp|reflexivity]]. eexists _, _. reflexivity.
Qed.

Lemma rt_sigpending_000_passes fuel e s : fresh s -> passes fuel rt_sigpending_000 e s.
Proof.
  intros Hs. assert (quiet s) as Hq by apply quiet_zero, Hs. unfold passes, rt_sigpending_000, trigger. cbn.
  erewrite hx_vis; [|reflexivity|done]. eexists _, _. reflexivity.
Qed.
Lemma rt_sigtimedwait_000_passes fuel w e s : fresh s -> passes fuel (rt_sigtimedwait_000 w) e s.
Proof.
  intros Hs. assert (quiet s) as Hq by apply quiet_zero, Hs. unfold passes, rt_sigtimedwait_000, trigger. cbn.
  erewrite hx_vis; [|reflexivity|done]. eexists _, _. reflexivity.
Qed.
Lemma sigaltstack_000_passes fuel sp e s : fresh s -> passes fuel (sigaltstack_000 sp) e s.
Proof.
  intros Hs. assert (quiet s) as Hq by apply quiet_zero, Hs. unfold passes, sigaltstack_000.
  erewrite hx_bind; [|by apply sigaltstack_runs]. eexists _, _. reflexivity.
Qed.

Lemma quiet_blocked sig s :
  pending s = sigbit sig -> is_signal sig = true -> in_set (mask s) sig = true -> quiet s.
Proof.
  intros Hp Hs%is_signal_spec Hm. unfold quiet. rewrite Hp. apply Z.bits_inj'. intros i Hi.
  rewrite Z.ldiff_spec, Z.bits_0. pose proof (in_set_bit sig (i + 1)) as Hb. unfold in_set in Hb, Hm.
  replace (i + 1 - 1) with i in Hb by lia. rewrite Hb by lia.
  destruct (Z.eqb_spec (i + 1) sig) as [<-|_]; [|done]. replace (i + 1 - 1) with i in Hm by lia. by rewrite Hm.
Qed.
(** A signal that is blocked stays pending, and its handler is not called. *)
Lemma rt_sigprocmask_000_passes fuel e s : fresh s -> passes fuel rt_sigprocmask_000 e s.
Proof.
  intros [Hp Hn Hm _ _ _ [_ Hv] _]. assert (quiet s) as Hq by by apply quiet_zero.
  unfold passes, rt_sigprocmask_000. change (sigaddset 0 SIGUSR1) with (@Ret (Z * Z) (0, sigbit SIGUSR1)).
  cbn [mbind prog_mbind bind]. change (0 <=? 0) with true. cbn [tp_assert]. rewrite hx_set_action by done.
  change (0 <=? 0) with true. cbn [tp_assert]. unfold sigprocmask, getpid, kill, var_load, trigger. cbn -[with_handler].
  erewrite hx_vis; [|reflexivity|by apply quiet_zero]. cbn -[with_handler].
  erewrite hx_vis; [|reflexivity|by apply quiet_zero].
  assert (in_set (Z.ldiff (mask s .| sigbit SIGUSR1) unblockable) SIGUSR1 = true) as Hb.
  { rewrite in_set_ldiff, in_set_lor, in_set_bit by (unfold SIGUSR1; lia). by rewrite orb_true_r. }
  erewrite hx_vis; [|by apply kill_sends|apply (quiet_blocked SIGUSR1); [simpl; by rewrite Hp|done|exact Hb]].
  cbn -[with_handler]. erewrite hx_vis; [|reflexivity|apply (quiet_blocked SIGUSR1); [simpl; by rewrite Hp|done|exact Hb]].
  simpl. rewrite Hv. eexists _, _. reflexivity.
Qed.

(** SIGCHLD is ignored by default. *)
Lemma rt_sigqueueinfo_000_passes fuel e s : fresh s -> passes fuel rt_sigqueueinfo_000 e s.
Proof.
  intros [Hp Hn _ _ _ [Hm Hh] _ _]. assert (quiet s) as Hq by by apply quiet_zero.
  unfold passes, rt_sigqueueinfo_000. rewrite hx_getpid by done. unfold trigger. cbn.
  erewrite (hx_ignored _ _ _ _ _ _ _ fuel); [|cbn; rewrite Z.eqb_refl; reflexivity|simpl; by rewrite Hp|done|exact Hm|exact Hh|done].
  eexists _, _. reflexivity.
Qed.

(** ** The waits for an alarm *)

Lemma show_handler_runs fuel fn a e s :
  handlers garbage fn = show_handler fn -> quiet s ->
  hx (S fuel) (handlers garbage fn a) e s =
  Some (Returned tt, e, set_printed s (printed s ++ [("(" +:+ fn +:+ ")sig_num=" +:+ d (h_sig a)) +:+ nl])).
Proof. intros -> Hq. unfold show_handler, say, printf, trigger. by step. Qed.

(** The state of a process that waits with the mask [m] when the alarm has gone off, and the one behind the
    handler of the alarm, which has printed [t]. *)
Definition waiting (m : Z) (s : sstate) : sstate :=
  set_mask (set_frames (set_alarmed (post SIGALRM SI_KERNEL s) false) (frames s) (Some (mask s))) (Z.ldiff m unblockable).
Definition woken (m : Z) (t : string) (s : sstate) : sstate :=
  let s1 := handling SIGALRM (waiting m s) in sigret (set_printed s1 (printed s1 ++ [t])).
Lemma woken_shows m t s :
  pending s = 0 -> pending (woken m t s) = 0 /\ mask (woken m t s) = mask s /\ printed (woken m t s) = printed s ++ [t].
Proof. intros Hp. cbn. by rewrite Hp, Z.lor_0_l, sigbit_removed. Qed.
Definition wait_line (fn : string) : string := ("(" +:+ fn +:+ ")sig_num=" +:+ d SIGALRM) +:+ nl.

Lemma suspend_wakes m s fn :
  alarmed s = true -> pending s = 0 -> in_set m SIGALRM = false -> sa_handler (actions s SIGALRM) = SIG_HANDLER fn ->
  suspend m s = Some (- EINTR, waiting m s).
Proof.
  intros Ha Hp Hm Hh. unfold suspend. rewrite Ha. fold (waiting m s).
  change (set_mask _ (Z.ldiff m unblockable)) with (waiting m s).
  rewrite (next_signal_single (waiting m s) SIGALRM); [|simpl; by rewrite Hp|done|].
  - cbn [mbind option_bind]. by rewrite Hh.
  - simpl. rewrite in_set_ldiff by (unfold SIGALRM; lia). by rewrite Hm.
Qed.
Lemma wait_runs fuel c (r : reply c) m fn {A} (k : reply c -> prog A) e s :
  sigstep c s = Some (r, waiting m s) -> pending s = 0 -> in_set m SIGALRM = false ->
  sa_handler (actions s SIGALRM) = SIG_HANDLER fn -> handlers garbage fn = show_handler fn ->
  hx (S (S fuel)) (Vis c k) e s = hx (S (S fuel)) (k r) e (woken m (wait_line fn) s).
Proof.
  intros Ec Hp Hm Hh Hf. destruct (woken_shows m (wait_line fn) s Hp) as (Hw & _).
  eapply hx_handled; [exact Ec|simpl; by rewrite Hp|done| |exact Hh| |by apply quiet_zero].
  - simpl. rewrite in_set_ldiff by (unfold SIGALRM; lia). by rewrite Hm.
  - apply show_handler_runs; [done|]. apply quiet_zero. simpl. by rewrite Hp.
Qed.

Definition suspend_lines : list string :=
  [wait_line "sig_handler"; ("sys_rt_sigsuspend()=" +:+ d (-1) +:+ ", errno=" +:+ d EINTR) +:+ nl].
Lemma rt_sigsuspend_000_passes fuel e s :
  fresh s ->
  exists e' s', hx (S (S fuel)) rt_sigsuspend_000 e s = Some (Returned None, e', s') /\
    printed s' = printed s ++ suspend_lines /\ mask s' = mask s.
Proof.
  intros [Hp Hn _ Hm _ _ _ _]. assert (quiet s) as Hq by by apply quiet_zero.
  unfold rt_sigsuspend_000. rewrite hx_set_action by done. change (negb (0 =? -1)) with true. cbn [tp_assert].
  set (s1 := with_handler _ _ s). unfold sigprocmask, alarm, trigger. cbn -[say].
  erewrite hx_vis; [|reflexivity|exact Hq]. cbn -[say]. erewrite hx_vis; [|reflexivity|exact Hq]. set (s2 := set_alarmed s1 true).
  erewrite (wait_runs fuel (SYS_sigsuspend 0) _ 0 "sig_handler"); [|by eapply suspend_wakes|exact Hp|done|done|done].
  destruct (woken_shows 0 (wait_line "sig_handler") s2 Hp) as (Hwp & Hwm & Hwl). set (s3 := woken _ _ _) in *. clearbody s3.
  assert (quiet s3) as Hq3 by by apply quiet_zero. change (syscall_ret (- EINTR)) with (@SetErrno Z EINTR (Ret (-1))).
  cbn -[say]. rewrite hx_set_errno, hx_get_errno, hx_say by done.
  erewrite hx_vis; [|reflexivity|exact Hq3]. cbn -[say]. erewrite hx_vis; [|reflexivity|exact Hq3].
  cbn -[say]. rewrite Hwm. change (mask s2) with (mask s). rewrite Z.eqb_refl. eexists _, _. split; [reflexivity|].
  cbn [printed mask set_alarmed set_printed]. rewrite Hwl, Hwm, <- app_assoc. done.
Qed.

Definition pause_lines : list string :=
  [wait_line "pause000_sig_handle"; ("pause()=" +:+ d (-1) +:+ ", errno=" +:+ d EINTR) +:+ nl].
Lemma pause_000_passes fuel e s :
  fresh s ->
  exists e' s', hx (S (S fuel)) pause_000 e s = Some (Returned None, e', s') /\
    printed s' = printed s ++ pause_lines /\ mask s' = mask s.
Proof.
  intros [Hp Hn _ Hm _ _ _ _]. assert (quiet s) as Hq by by apply quiet_zero.
  unfold pause_000, signal_to. rewrite hx_set_action by done.
  set (s1 := with_handler _ _ s). unfold alarm, trigger. cbn -[say].
  erewrite hx_vis; [|reflexivity|exact Hq]. set (s2 := set_alarmed s1 true).
  erewrite (wait_runs fuel SYS_pause _ (mask s) "pause000_sig_handle"); [|by eapply suspend_wakes|exact Hp|done|done|done].
  destruct (woken_shows (mask s) (wait_line "pause000_sig_handle") s2 Hp) as (Hwp & Hwm & Hwl). set (s3 := woken _ _ _) in *. clearbody s3.
  assert (quiet s3) as Hq3 by by apply quiet_zero. change (syscall_ret (- EINTR)) with (@SetErrno Z EINTR (Ret (-1))).
  cbn -[say]. rewrite hx_set_errno, hx_get_errno, hx_say by done. eexists _, _. split; [reflexivity|].
  cbn [printed mask set_printed]. rewrite Hwl, Hwm, <- app_assoc. done.
Qed.

(** ** signalfd4 *)

Context (fd_ok : 0 <= new_fd).

Lemma fd_reply : syscall_ret new_fd = Ret new_fd.
Proof. by apply syscall_ret_nonneg. Qed.
Lemma closes_runs fuel flags e s :
  quiet s -> fds s !! new_fd = Some flags ->
  exists s', hx (S fuel) (closes new_fd) e s = Some (Returned None, EBADF, s') /\ fds s' = delete new_fd (fds s).
Proof.
  intros Hq Hf. unfold closes, close, fcntl, trigger. cbn. erewrite hx_vis; [|cbn; rewrite Hf; reflexivity|exact Hq]. cbn.
  erewrite hx_vis; [|cbn; rewrite lookup_delete_eq; reflexivity|exact Hq]. cbn. eexists. split; [reflexivity|done].
Qed.
(** The three tests open a descriptor, look at it, and close it. *)
Definition descriptor_flags (flags : Z) : Z := if flag flags SFD_CLOEXEC then FD_CLOEXEC else 0.
Lemma signalfd4_opens fuel flags e s :
  quiet s -> fds s !! new_fd = None -> Z.ldiff flags (SFD_NONBLOCK .| SFD_CLOEXEC) = 0 ->
  hx (S fuel) (signalfd4 (-1) 0 flags) e s =
  Some (Returned new_fd, e, set_fds s (<[new_fd := descriptor_flags flags]> (fds s))).
Proof.
  intros Hq Hf Hl. unfold signalfd4, trigger. cbn. erewrite hx_vis; [|cbn; rewrite Hl, Hf; reflexivity|exact Hq].
  by rewrite fd_reply.
Qed.
Lemma getfd_runs fuel flags e s :
  quiet s -> fds s !! new_fd = Some flags -> 0 <= flags -> hx (S fuel) (fcntl new_fd F_GETFD) e s = Some (Returned flags, e, s).
Proof.
  intros Hq Hf Hl. unfold fcntl, trigger. cbn. erewrite hx_vis; [|cbn; rewrite Hf; reflexivity|exact Hq].
  by rewrite syscall_ret_nonneg.
Qed.

Definition signalfd_tests : list (prog verdict) := [signalfd4_000; signalfd4_001; signalfd4_002].
Lemma signalfd_tests_pass fuel p e s :
  p ∈ signalfd_tests -> fresh s ->
  exists e' s', hx (S fuel) p e s = Some (Returned None, e', s') /\ fds s' = fds s.
Proof.
  intros Hp [Hpe _ _ _ _ _ _ Hf]. assert (quiet s) as Hq by by apply quiet_zero. unfold signalfd_tests in Hp.
  assert (forall flags, fds (set_fds s (<[new_fd := flags]> (fds s))) !! new_fd = Some flags) as Hl by (intros flags; apply lookup_insert_eq).
  assert (negb (new_fd =? -1) = true) as Hn by lia.
  assert (forall flags, exists s', hx (S fuel) (closes new_fd) e (set_fds s (<[new_fd := flags]> (fds s))) = Some (Returned None, EBADF, s') /\
    fds s' = fds s) as Hc.
  { intros flags. destruct (closes_runs fuel flags e (set_fds s (<[new_fd := flags]> (fds s))) Hq (Hl flags)) as (s' & E & Hs). exists s'. split; [done|]. rewrite Hs.
    cbn. by rewrite delete_insert_eq, delete_id. }
  rewrite !elem_of_cons in Hp. destruct Hp as [->|[->|[->|[]%not_elem_of_nil]]].
  - unfold signalfd4_000. erewrite hx_bind; [|by apply signalfd4_opens]. cbv beta. rewrite Hn. cbn [tp_assert]. eexists. apply Hc.
  - unfold signalfd4_001. erewrite hx_bind; [|by apply signalfd4_opens]. cbv beta. rewrite Hn. cbn [tp_assert].
    erewrite hx_bind; [|by apply getfd_runs]. cbn [tp_assert]. eexists. apply (Hc (descriptor_flags SFD_NONBLOCK)).
  - unfold signalfd4_002. erewrite hx_bind; [|by apply signalfd4_opens]. cbv beta. rewrite Hn. cbn [tp_assert].
    erewrite hx_bind; [|by apply getfd_runs]. cbn [tp_assert]. eexists. apply (Hc (descriptor_flags SFD_CLOEXEC)).
Qed.

(** ** lv12 and lv15 *)

Definition received (text : Z -> string) (sig : Z) : string := (text sig +:+ " received.") +:+ nl.
Definition default_act (sig : Z) : sigact := Sigact SIG_DFL SA_RESTART (sigbit sig).
Lemma remove_handler_runs fuel fn text sig i e s :
  handlers garbage fn = remove_handler text -> is_signal sig = true -> skipped sig = false -> quiet s ->
  hx (S fuel) (handlers garbage fn (Hargs sig i)) e s =
  Some (Returned tt, e, with_handler sig (default_act sig) (set_printed s (printed s ++ [received text sig]))).
Proof.
  intros -> Hs Hk Hq. unfold remove_handler. cbn [h_sig]. rewrite hx_say by done. unfold signal_to. rewrite hx_set_action by done. done.
Qed.

Definition removing_act (fn : string) (sig : Z) : sigact := Sigact (SIG_HANDLER fn) SA_RESTART (sigbit sig).
(** What holds between two turns of the loop. *)
Record idle (s : sstate) : Prop := Idle {
  idle_pending : pending s = 0;
  idle_suspended : suspended s = None;
  idle_mask : forall sig, in_set (mask s) sig = false
}.
(** The state behind a signal whose handler removed itself. *)
Definition after_removal (text : Z -> string) (sig code : Z) (s : sstate) : sstate :=
  let s1 := handling sig (post sig code s) in
  sigret (with_handler sig (default_act sig) (set_printed s1 (printed s1 ++ [received text sig]))).
Lemma removal_runs fuel fn text sig code c {A} (k : reply c -> prog A) r e s :
  sigstep c s = Some (r, post sig code s) -> handlers garbage fn = remove_handler text ->
  is_signal sig = true -> skipped sig = false -> idle s -> actions s sig = removing_act fn sig ->
  hx (S (S fuel)) (Vis c k) e s = hx (S (S fuel)) (k r) e (after_removal text sig code s).
Proof.
  intros Hc Hf Hs Hk [Hp Hn Hm] Ha.
  assert (pending (handling sig (post sig code s)) = 0) as Hp1 by by apply handling_pending.
  eapply hx_handled; [exact Hc|simpl; by rewrite Hp|done|exact (Hm sig)|simpl; by rewrite Ha| |].
  - by apply remove_handler_runs; [| | |apply quiet_zero].
  - apply quiet_zero. exact Hp1.
Qed.
Lemma after_removal_shows text fn sig code s :
  idle s -> actions s sig = removing_act fn sig ->
  idle (after_removal text sig code s) /\ printed (after_removal text sig code s) = printed s ++ [received text sig] /\
  actions (after_removal text sig code s) sig = default_act sig /\
  forall x, x <> sig -> actions (after_removal text sig code s) x = actions s x.
Proof.
  intros [Hp Hn Hm] Ha. split; [constructor|split; [done|split]].
  - exact (handling_pending sig code s Hp).
  - done.
  - intros x. cbn. rewrite Hn. apply Hm.
  - cbn. unfold upd. by rewrite Z.eqb_refl.
  - intros x Hx. cbn. unfold upd. rewrite Ha. cbn. change (flag SA_RESTART SA_RESETHAND) with false. cbv iota beta.
    by replace (x =? sig) with false by lia.
Qed.
Lemma idle_with_handler sig act s : idle s -> idle (with_handler sig act s).
Proof. intros [? ? ?]. by constructor. Qed.
Lemma with_handler_actions sig act s : actions (with_handler sig act s) sig = act.
Proof. simpl. unfold upd. by rewrite Z.eqb_refl. Qed.

(** A process that sends itself a signal whose handler removes itself. *)
Lemma kill_removal fuel fn text sig {A} (k : Z -> prog A) e s :
  handlers garbage fn = remove_handler text -> is_signal sig = true -> skipped sig = false -> idle s ->
  actions s sig = removing_act fn sig ->
  hx (S (S fuel)) (kill pid sig ≫= k) e s = hx (S (S fuel)) (k 0) e (after_removal text sig SI_USER s).
Proof.
  intros Hf Hs Hk Hi Ha. unfold kill, trigger. cbn -[after_removal].
  erewrite removal_runs; [|by apply kill_sends|done..]. done.
Qed.

Definition kill_line (sig : Z) : string :=
  if skipped sig then ("signal function set failed. " +:+ named sig) +:+ nl else received named sig.
Lemma entry_kill_loop_runs fuel l e s :
  Forall (fun sig => is_signal sig = true) l -> idle s -> 
  exists e' s', hx (S (S fuel)) (entry_kill_loop l) e s = Some (Returned 0, e', s') /\
    printed s' = printed s ++ (kill_line <$> l) ++ ["end of user program." +:+ nl]%string /\
    (forall sig, sig ∈ l -> skipped sig = false -> sa_handler (actions s' sig) = SIG_DFL) /\
    (forall sig, sa_handler (actions s sig) = SIG_DFL -> sa_handler (actions s' sig) = SIG_DFL).
Proof.
  revert e s. induction l as [|sig l IH]; intros e s Hl Hi; assert (quiet s) as Hq by apply quiet_zero, Hi.
  - cbn [entry_kill_loop]. rewrite hx_say by done. eexists _, _. split; [reflexivity|]. split; [done|]. split; [|done].
    by intros sig []%not_elem_of_nil.
  - apply Forall_cons in Hl as [Hs Hl]. cbn [entry_kill_loop]. rewrite fmap_cons. unfold kill_line at 1.
    destruct (skipped sig) eqn:Hk.
    + erewrite hx_bind; [|apply set_action_refused; [by rewrite Hk, andb_false_r|done]]. cbv beta.
      change (-1 =? -1) with true. cbv iota. rewrite hx_say by done.
      edestruct (IH EINVAL) as (e' & s' & E & Hpr & Ha & Hk'); [done| |exists e', s'; split; [exact E|]].
      { destruct Hi as [? ? ?]. by constructor. }
      rewrite Hpr. simpl. rewrite <- app_assoc. split; [done|]. split; [|done].
      intros x [->|Hx]%elem_of_cons Hkx; [congruence|by apply Ha].
    + unfold signal_to. rewrite hx_set_action by done. change (0 =? -1) with false. cbv iota. rewrite hx_getpid by done.
      change (Sigact (SIG_HANDLER _) SA_RESTART (sigbit sig)) with (removing_act "named_handler" sig).
      pose proof (idle_with_handler sig (removing_act "named_handler" sig) s Hi) as Hi0.
      pose proof (with_handler_actions sig (removing_act "named_handler" sig) s) as Ha0.
      rewrite (kill_removal _ "named_handler" named) by done. change (negb (0 =? 0)) with false. cbv iota.
      destruct (after_removal_shows named _ sig SI_USER _ Hi0 Ha0) as (Hi1 & Hp1 & Hg1 & Hk1). set (s1 := after_removal _ _ _ _) in *.
      destruct (IH e s1) as (e' & s' & E & Hpr & Ha & Hk'); [done|done|]. exists e', s'. split; [exact E|].
      rewrite Hpr, Hp1, <- app_assoc. split; [done|]. split.
      * intros x [->|Hx]%elem_of_cons Hkx; [apply Hk'; by rewrite Hg1|by apply Ha].
      * intros x Hx. apply Hk'. destruct (Z.eq_dec x sig) as [->|Hne]; [by rewrite Hg1|].
        rewrite Hk1 by done. simpl. unfold upd. by replace (x =? sig) with false by lia.
Qed.

Definition end_line : string := "end of user program." +:+ nl.
Lemma entry_kill_single_runs fuel e s :
  idle s ->
  exists e' s', hx (S (S fuel)) entry_kill_single_main e s = Some (Returned 0, e', s') /\
    printed s' = printed s ++ [received numbered SIGILL; end_line].
Proof.
  intros Hi. unfold entry_kill_single_main, signal_to. rewrite hx_set_action by (done || apply quiet_zero, Hi).
  change (0 =? -1) with false. cbv iota. change (Sigact _ _ _) with (removing_act "numbered_handler" SIGILL).
  pose proof (idle_with_handler SIGILL (removing_act "numbered_handler" SIGILL) s Hi) as Hi0.
  pose proof (with_handler_actions SIGILL (removing_act "numbered_handler" SIGILL) s) as Ha0.
  rewrite hx_getpid by apply quiet_zero, Hi0. rewrite (kill_removal _ "numbered_handler" numbered) by done.
  change (negb (0 =? 0)) with false. cbv iota.
  destruct (after_removal_shows numbered _ SIGILL SI_USER _ Hi0 Ha0) as (Hi1 & Hp1 & _). set (s1 := after_removal _ _ _ _) in *.
  clearbody s1. rewrite hx_say by apply quiet_zero, Hi1. eexists _, _. split; [reflexivity|]. cbn [printed set_printed].
  rewrite Hp1, <- app_assoc. done.
Qed.

(** The access that faulted is made again, with the default action: the process is killed, and does not
    come to its last line. *)
Lemma entry_segv_killed fuel spins e s :
  idle s ->
  exists e' s', hx (S (S fuel)) (entry_segv_main (S spins)) e s = Some (Signalled SIGSEGV SIG_DFL, e', s') /\
    printed s' = printed s ++ [received numbered SIGSEGV].
Proof.
  intros Hi. unfold entry_segv_main, signal_to. rewrite hx_set_action by (done || apply quiet_zero, Hi).
  change (0 =? -1) with false. cbv iota. change (Sigact _ _ _) with (removing_act "numbered_handler" SIGSEGV).
  pose proof (idle_with_handler SIGSEGV (removing_act "numbered_handler" SIGSEGV) s Hi) as Hi0.
  pose proof (with_handler_actions SIGSEGV (removing_act "numbered_handler" SIGSEGV) s) as Ha0.
  unfold aabbcc. cbn [copy_again store_again]. unfold trigger. cbn [mbind prog_mbind bind].
  erewrite (removal_runs _ "numbered_handler" numbered SIGSEGV SI_KERNEL); [|reflexivity|done..].
  destruct (after_removal_shows numbered _ SIGSEGV SI_KERNEL _ Hi0 Ha0) as (Hi1 & Hp1 & Hg1 & _). set (s1 := after_removal _ _ _ _) in *.
  clearbody s1. cbn [mbind prog_mbind bind].
  destruct spins as [|spins]; cbn [store_again]; unfold trigger; cbn [mbind prog_mbind bind];
    (edestruct hx_killed as (s2 & -> & Hl); [reflexivity|simpl; by rewrite (idle_pending _ Hi1)|done|exact (idle_mask _ Hi1 SIGSEGV)|
      simpl; by rewrite Hg1|done|]; eexists _, _; split; [reflexivity|]; rewrite Hl; exact Hp1).
Qed.

(** lv15: the handlers of all signals that can have one, then one signal. *)
Definition set_line (sig : Z) : list string :=
  if skipped sig then [(("signal function set failed. " +:+ named sig) +:+ nl)%string] else [].
Lemma set_handlers_runs fuel l e s :
  Forall (fun sig => is_signal sig = true) l -> idle s ->
  exists e' s', hx (S fuel) (set_handlers l) e s = Some (Returned tt, e', s') /\ idle s' /\
    printed s' = printed s ++ concat (set_line <$> l) /\
    (forall sig, sig ∈ l -> skipped sig = false -> actions s' sig = removing_act "named_handler" sig) /\
    (forall sig, actions s sig = removing_act "named_handler" sig -> actions s' sig = removing_act "named_handler" sig).
Proof.
  revert e s. induction l as [|sig l IH]; intros e s Hl Hi; assert (quiet s) as Hq by apply quiet_zero, Hi.
  - exists e, s. split; [done|]. split; [done|]. split; [by rewrite app_nil_r|]. split; [|done]. by intros sig []%not_elem_of_nil.
  - apply Forall_cons in Hl as [Hs Hl]. cbn [set_handlers]. rewrite fmap_cons. cbn [concat]. unfold set_line at 1.
    destruct (skipped sig) eqn:Hk.
    + erewrite hx_bind; [|apply set_action_refused; [by rewrite Hk, andb_false_r|done]]. cbv beta.
      change (-1 =? -1) with true. cbv iota. rewrite hx_say by done.
      edestruct (IH EINVAL) as (e' & s' & E & Hi' & Hpr & Ha & Hk'); [done| |exists e', s'; split; [exact E|]].
      { destruct Hi as [? ? ?]. by constructor. }
      split; [done|]. rewrite Hpr. simpl. rewrite <- app_assoc. split; [done|]. split; [|done].
      intros x [->|Hx]%elem_of_cons Hkx; [congruence|by apply Ha].
    + unfold signal_to. rewrite hx_set_action by done. change (0 =? -1) with false. cbv iota.
      change (Sigact (SIG_HANDLER _) SA_RESTART (sigbit sig)) with (removing_act "named_handler" sig).
      edestruct (IH e) as (e' & s' & E & Hi' & Hpr & Ha & Hk'); [done|by apply idle_with_handler|]. exists e', s'. split; [exact E|].
      split; [done|]. split; [done|]. split.
      * intros x [->|Hx]%elem_of_cons Hkx; [|by apply Ha]. apply Hk', with_handler_actions.
      * intros x Hx. apply Hk'. destruct (Z.eq_dec x sig) as [->|Hne]; [apply with_handler_actions|].
        simpl. unfold upd. by replace (x =? sig) with false by lia.
Qed.
Definition chosen (rand : Z) : Z := default 0 (sig_num !! Z.to_nat (rand mod 32)).
Lemma sig_num_signals : Forall (fun sig => is_signal sig = true) sig_num.
Proof. by apply (bool_decide_unpack _); vm_compute. Qed.
Lemma chosen_in rand : chosen rand ∈ sig_num.
Proof.
  unfold chosen. assert (Z.to_nat (rand mod 32) < length sig_num)%nat as Hl
    by (change (length sig_num) with 34%nat; pose proof (Z.mod_pos_bound rand 32); lia).
  destruct (lookup_lt_is_Some_2 _ _ Hl) as [x Hx]. rewrite Hx. by eapply list_elem_of_lookup_2.
Qed.
Lemma lv15_kill_process_runs fuel rand beyond e s :
  idle s -> skipped (chosen rand) = false ->
  exists e' s', hx (S (S fuel)) (lv15_kill_process_main rand beyond) e s = Some (Returned 0, e', s') /\
    printed s' = printed s ++ concat (set_line <$> sig_num) ++ [received named (chosen rand); end_line].
Proof.
  intros Hi Hk. unfold lv15_kill_process_main.
  destruct (set_handlers_runs (S fuel) sig_num e s sig_num_signals Hi) as (e1 & s1 & E & Hi1 & Hp1 & Ha1 & _).
  erewrite hx_bind; [|exact E]. cbv beta. rewrite hx_getpid by apply quiet_zero, Hi1. fold (chosen rand).
  assert (is_signal (chosen rand) = true) as Hs.
  { pose proof sig_num_signals as Hf. rewrite Forall_forall in Hf. apply Hf, chosen_in. }
  pose proof (Ha1 _ (chosen_in rand) Hk) as Ha.
  rewrite (kill_removal _ "named_handler" named) by done. change (negb (0 =? 0)) with false. cbv iota.
  destruct (after_removal_shows named _ _ SI_USER _ Hi1 Ha) as (Hi2 & Hp2 & _). set (s2 := after_removal _ _ _ _) in *.
  clearbody s2. rewrite hx_say by apply quiet_zero, Hi2. eexists _, _. split; [reflexivity|]. cbn [printed set_printed].
  rewrite Hp2, Hp1, <- !app_assoc. done.
Qed.

End tests.
(** ** siginfo/001 waits for exactly the signals of its list *)

(** A bit that is set stays set. *)
Lemma s32_testbit x i : 0 <= i < 31 -> Z.testbit (s32 x) i = Z.testbit x i.
Proof.
  intros Hi. assert (s32 x = x + (- ((x + 2 ^ 31) / 2 ^ 32)) * 2 ^ 32) as ->.
  { unfold wrap_s. change (32 - 1) with 31. pose proof (Z.div_mod (x + 2 ^ 31) (2 ^ 32)). lia. }
  rewrite <- (Z.mod_pow2_bits_low _ 32) by lia. rewrite Z.mod_add by done. by rewrite Z.mod_pow2_bits_low by lia.
Qed.
Lemma delivered_keeps v sig i : 0 <= i < 31 -> Z.testbit v i = true -> Z.testbit (s32 (v .| int_bit sig)) i = true.
Proof. intros Hi Hv. by rewrite s32_testbit, Z.lor_spec, Hv by done. Qed.

(** On every kernel: as long as a bit that is not expected is set, the loop of siginfo/001 goes on. *)
Lemma siginfo_001_waits spins i e tr o e' :
  Z.testbit SIGNAL_EXPECT_TO_DELIVER i = false ->
  run (wait_for spins (fun v => v =? SIGNAL_EXPECT_TO_DELIVER) delivered_signal) e tr o e' ->
  (forall v, ev (VAR_load delivered_signal) v ∈ tr -> Z.testbit v i = true) -> o = Signalled SIGKILL SIG_DFL.
Proof.
  intros Hi. revert tr. induction spins as [|spins IH]; intros tr (v & tr' & -> & Hr) Hv;
    assert (Z.testbit v i = true) as Hb by (apply Hv; by left);
    assert ((v =? SIGNAL_EXPECT_TO_DELIVER) = false) as Hne by (apply Z.eqb_neq; intros ->; congruence);
    cbn -[Z.eqb SIGNAL_EXPECT_TO_DELIVER wait_for] in Hr; rewrite Hne in Hr; cbn -[wait_for] in Hr.
  - by destruct Hr as (_ & -> & _).
  - apply (IH tr'); [exact Hr|]. intros x Hx. apply Hv. by right.
Qed.

(** SIGCHLD, for one, is not in its list, and siginfo/000 has it delivered. *)
Example siginfo_lists_differ :
  Z.testbit SIGNAL_EXPECT_TO_DELIVER SIGCHLD = false /\ Z.testbit delivered_all SIGCHLD = true.
Proof. by vm_compute. Qed.

(** ** On every kernel *)

Section kernel.
Context (pid tid heap new_fd stack frame_size : Z) (garbage : siginfo) `{SigKernel} (view : kstate -> sstate).
Context `{!SigMeets (sigstep pid tid heap new_fd stack) (sigdeliver stack frame_size) sigret view} (fd_ok : 0 <= new_fd).
Notation run_on := (kexec (handlers garbage)).

Lemma hx_on fuel {A} (p : prog A) e s o e' t :
  hx pid tid heap new_fd stack frame_size (handlers garbage) fuel p e (view s) = Some (o, e', t) ->
  exists s', run_on fuel p (Mach e s) = Some (o, e', s') /\ view s' = t.
Proof. apply hexec_kexec. done. Qed.

(** C28: The tests of rt_sigaction on every kernel with the signals of signal(7): inside a handler that was
    installed with SA_RESETHAND the flags of the action are still set, the signal is blocked, and there is
    a siginfo_t, so 000 to 003 pass and leave the default action and the old mask.  004 is ended by its
    second signal, after the lines that it prints; 005 passes. *)
Theorem rt_sigaction_verdicts fuel flags m e s :
  (2 <= fuel)%nat -> fresh new_fd (view s) ->
  (forall p, p ∈ rt_sigaction_tests -> exists e' s', run_on fuel p (Mach e s) = Some (Returned None, e', s') /\
     left_clean (view s) (view s')) /\
  (exists e' s', run_on fuel rt_sigaction_004 (Mach e s) = Some (Signalled SIGUSR1 SIG_DFL, e', s') /\
     printed (view s') = printed (view s) ++ lines_004) /\
  (exists e' s', run_on fuel (rt_sigaction_005 flags m) (Mach e s) = Some (Returned None, e', s') /\
     printed (view s') = printed (view s) ++ (line_005 <$> err_sig)).
Proof.
  intros Hf Hs. destruct fuel as [|[|fuel]]; [lia|lia|]. split; [|split].
  - intros p Hp. edestruct rt_sigaction_tests_pass as (e' & t & E & Hl); [exact Hp|exact Hs|].
    destruct (hx_on _ _ _ _ _ _ _ E) as (s' & E' & <-). eauto.
  - edestruct rt_sigaction_004_killed as (e' & t & E & Hl); [exact Hs|].
    destruct (hx_on _ _ _ _ _ _ _ E) as (s' & E' & <-). eauto.
  - edestruct rt_sigaction_005_passes as (e' & E); [exact Hs|].
    destruct (hx_on _ _ _ _ _ _ _ E) as (s' & E' & Hv). exists e', s'. by rewrite Hv.
Qed.

(** C29: siginfo/000: each of the 29 signals that can have a handler is caught once, right when it is raised,
    and shown with its number, no error and SI_TKILL; its bit is set, its handler is gone, the mask is the
    one before, and the test passes. *)
Theorem siginfo_000_verdict fuel e s :
  (2 <= fuel)%nat -> pending (view s) = 0 -> suspended (view s) = None ->
  Forall (fun sig => in_set (mask (view s)) sig = false) signums ->
  exists s', run_on fuel siginfo_000 (Mach e s) = Some (Returned None, e, s') /\
    printed (view s') = printed (view s) ++ raised_lines signums /\
    vars (view s') delivered_signal = delivered_all /\ mask (view s') = mask (view s) /\
    forall sig, sig ∈ signums -> skipped sig = false -> sa_handler (actions (view s') sig) = SIG_DFL.
Proof.
  intros Hf Hp Hn Hm. destruct fuel as [|[|fuel]]; [lia|lia|].
  edestruct siginfo_000_catches as (t & E & Ht); [exact Hp|exact Hn|exact Hm|].
  destruct (hx_on _ _ _ _ _ _ _ E) as (s' & E' & <-). eauto.
Qed.

(** C30: sigaltstack/001 does not see where its second handler ran: the verdict is that on the first one, and
    the test passes with the second frame at any distance from the alternate stack. *)
Theorem sigaltstack_001_verdict fuel spins p flags m e s :
  (2 <= fuel)%nat -> fresh new_fd (view s) -> frames (view s) = [] -> altstack (view s) = None ->
  0 <= heap <= 2 ^ 64 - SIGSTKSZ - 1 ->
  exists e' s', run_on fuel (sigaltstack_001 spins p flags m) (Mach e s) =
      Some (Returned (sigaltstack_001_ends heap stack frame_size), e', s') /\
    vars (view s') sigaltstack1_sigstack_addr = heap + SIGSTKSZ - frame_size.
Proof.
  intros Hf Hs Hfr Ha Hh. destruct fuel as [|[|fuel]]; [lia|lia|].
  edestruct sigaltstack_001_runs as (e' & t & E & Ht); [exact Hs|exact Hfr|exact Ha|exact Hh|].
  destruct (hx_on _ _ _ _ _ _ _ E) as (s' & E' & <-). eauto.
Qed.

(** C31: The programs of lv12 and lv15 whose handler removes itself, with what they print: entry-kill goes
    through its table, entry-kill-single sends one signal, entry-segv is killed when its access faults
    again, and lv15_kill_process handles the signal that it chooses. *)
Theorem signal_programs_print fuel spins rand beyond e s :
  (2 <= fuel)%nat -> idle (view s) ->
  (exists e' s', run_on fuel entry_kill_main (Mach e s) = Some (Returned 0, e', s') /\
     printed (view s') = printed (view s) ++ (kill_line <$> sig_num) ++ [end_line]) /\
  (exists e' s', run_on fuel entry_kill_single_main (Mach e s) = Some (Returned 0, e', s') /\
     printed (view s') = printed (view s) ++ [received numbered SIGILL; end_line]) /\
  (exists e' s', run_on fuel (entry_segv_main (S spins)) (Mach e s) = Some (Signalled SIGSEGV SIG_DFL, e', s') /\
     printed (view s') = printed (view s) ++ [received numbered SIGSEGV]) /\
  (skipped (chosen rand) = false ->
   exists e' s', run_on fuel (lv15_kill_process_main rand beyond) (Mach e s) = Some (Returned 0, e', s') /\
     printed (view s') = printed (view s) ++ concat (set_line <$> sig_num) ++ [received named (chosen rand); end_line]).
Proof.
  intros Hf Hi. destruct fuel as [|[|fuel]]; [lia|lia|]. repeat split.
  - edestruct entry_kill_loop_runs as (e' & t & E & Hl & _); [exact sig_num_signals|exact Hi|].
    destruct (hx_on _ _ _ _ _ _ _ E) as (s' & E' & <-). eauto.
  - edestruct entry_kill_single_runs as (e' & t & E & Hl); [exact Hi|].
    destruct (hx_on _ _ _ _ _ _ _ E) as (s' & E' & <-). eauto.
  - edestruct entry_segv_killed as (e' & t & E & Hl); [exact Hi|].
    destruct (hx_on _ _ _ _ _ _ _ E) as (s' & E' & <-). eauto.
  - intros Hk. edestruct lv15_kill_process_runs as (e' & t & E & Hl); [exact Hi|exact Hk|].
    destruct (hx_on _ _ _ _ _ _ _ E) as (s' & E' & <-). eauto.
Qed.

(** The tests that pass without looking at more than a reply or two. *)
Definition small_tests (spins : nat) (sp : Z) (w : list Z) : list (prog verdict) :=
  [tgkill_000; tgkill_001; tkill_000 spins; rt_sigpending_000; rt_sigprocmask_000; rt_sigqueueinfo_000;
   rt_sigtimedwait_000 w; sigaltstack_000 sp].
(** The other suites on signals, on every such kernel: they pass; rt_sigsuspend and pause return behind the
    handler of the alarm, which printed its line, with EINTR and the mask of before; the tests of signalfd4
    leave no descriptor open. *)
Theorem signal_tests_pass fuel e s :
  (2 <= fuel)%nat -> fresh new_fd (view s) ->
  (forall spins sp w p, p ∈ small_tests spins sp w -> exists e' s', run_on fuel p (Mach e s) = Some (Returned None, e', s')) /\
  (exists e' s', run_on fuel rt_sigsuspend_000 (Mach e s) = Some (Returned None, e', s') /\
     printed (view s') = printed (view s) ++ suspend_lines /\ mask (view s') = mask (view s)) /\
  (exists e' s', run_on fuel pause_000 (Mach e s) = Some (Returned None, e', s') /\
     printed (view s') = printed (view s) ++ pause_lines /\ mask (view s') = mask (view s)) /\
  (forall p, p ∈ signalfd_tests -> exists e' s', run_on fuel p (Mach e s) = Some (Returned None, e', s') /\
     fds (view s') = fds (view s)).
Proof.
  intros Hf Hs. destruct fuel as [|[|fuel]]; [lia|lia|]. split; [|split; [|split]].
  - intros spins sp w p Hp.
    assert (passes pid tid heap new_fd stack frame_size garbage fuel p e (view s)) as (e' & t & E).
    { unfold small_tests in Hp. rewrite !elem_of_cons in Hp.
      destruct Hp as [->|[->|[->|[->|[->|[->|[->|[->|[]%not_elem_of_nil]]]]]]]].
      - by apply tgkill_000_passes.
      - by apply tgkill_001_passes.
      - by apply tkill_000_passes.
      - by apply rt_sigpending_000_passes.
      - by apply rt_sigprocmask_000_passes.
      - by apply rt_sigqueueinfo_000_passes.
      - by apply rt_sigtimedwait_000_passes.
      - by apply sigaltstack_000_passes. }
    destruct (hx_on _ _ _ _ _ _ _ E) as (s' & E' & _). eauto.
  - edestruct rt_sigsuspend_000_passes as (e' & t & E & Hl); [exact Hs|].
    destruct (hx_on _ _ _ _ _ _ _ E) as (s' & E' & <-). eauto.
  - edestruct pause_000_passes as (e' & t & E & Hl); [exact Hs|].
    destruct (hx_on _ _ _ _ _ _ _ E) as (s' & E' & <-). eauto.
  - intros p Hp. edestruct signalfd_tests_pass as (e' & t & E & Hl); [exact fd_ok|exact Hp|exact Hs|].
    destruct (hx_on _ _ _ _ _ _ _ E) as (s' & E' & <-). eauto.
Qed.

End kernel.
(** ** The specification as a kernel, and the runs of the log *)

Definition ref_step := sigstep 4740 4740 0x650010 3 0x7efffffffb60.
Definition ref_deliver := sigdeliver 0x7efffffffb60 0x1e4.
#[local] Instance SigRef : Kernel :=
  {| kstate := sstate; kstep c t := default (no_reply c, t) (ref_step c t) |}.
#[local] Instance SigRef_signals : SigKernel := {| k_deliver := ref_deliver; k_sigreturn := sigret |}.
Definition ref_view (t : @kstate SigRef) : sstate := t.
#[local] Instance SigRef_meets : SigMeets ref_step ref_deliver sigret ref_view.
Proof.
  split.
  - intros c s r t E. exists t. unfold ref_view in E. cbn. by rewrite E.
  - intros s. unfold ref_view. cbn. by destruct (ref_deliver s).
  - done.
Qed.
Definition no_info : siginfo := Siginfo 0 0 0 0.
Definition ref_start : sstate :=
  SState (fun _ => Sigact SIG_DFL 0 0) 0 0 (fun _ => no_info) [] None false None (fun _ => 0) ∅ [].
Lemma ref_fresh : fresh 3 ref_start.
Proof. by constructor. Qed.
Lemma ref_idle : idle ref_start.
Proof. constructor; [done|done|]. intros sig. apply Z.bits_0. Qed.
Definition ref_mach : @mach SigRef := @Mach SigRef 0 ref_start.
(** What a run printed. *)
Definition shown {A} (r : option (outcome A * Z * @kstate SigRef)) : option (outcome A * list string) :=
  '(o, _, s) ← r; Some (o, printed s).
Definition ref_run {A} (p : prog A) := shown (kexec (handlers no_info) 2 p ref_mach).
Definition ln (t : string) : string := t +:+ nl.

Lemma rt_sigaction_verdicts_witness :
  exists e' s', kexec (handlers no_info) 2 rt_sigaction_001 ref_mach = Some (Returned None, e', s') /\
    left_clean ref_start s'.
Proof.
  destruct (rt_sigaction_verdicts 4740 4740 0x650010 3 0x7efffffffb60 0x1e4 no_info ref_view 2 0 0 0 ref_start (le_n 2) ref_fresh)
    as (H & _). apply H. right. left.
Defined.

(** The lines of src/log/run_test_x86_log.txt. *)
Definition log_siginfo : list string :=
  [ln "=== raise signal #1 ==="; ln "Catch signal #1
  siginfo->si_signo = 1
  siginfo->si_errno = 0
  siginfo->si_code  = 0xfffffffa"].
Lemma siginfo_000_verdict_witness :
  (exists s', kexec (handlers no_info) 2 siginfo_000 ref_mach = Some (Returned None, 0, s') /\
     printed s' = raised_lines signums) /\ take 2 (raised_lines signums) = log_siginfo.
Proof.
  split; [|vm_compute; reflexivity].
  destruct (siginfo_000_verdict 4740 4740 0x650010 3 0x7efffffffb60 0x1e4 no_info ref_view 2 0 ref_start (le_n 2)) as (s' & E & Hp & _).
  - reflexivity.
  - reflexivity.
  - by repeat constructor.
  - exists s'. split; [exact E|exact Hp].
Defined.

Lemma sigaltstack_001_verdict_witness :
  (exists e' s', kexec (handlers no_info) 2 (sigaltstack_001 3 (fun x => ("0x" +:+ hex x)%string) 0 0) ref_mach =
     Some (Returned None, e', s') /\ vars s' sigaltstack1_sigstack_addr = 0x651e2c) /\
  ref_run (sigaltstack_001 3 (fun x => ("0x" +:+ hex x)%string) 0 0) =
    Some (Returned None, [ln "alternate stack settings = {"; ln "  ss_sp   = 0x650010"; ln "  ss_size = 0x2000"; ln "};";
      ln "Actual altternalte stack = 0x651e2c"; ln "Actual main stack        = 0x7efffffff97c"]).
Proof.
  split; [|vm_compute; reflexivity].
  apply (sigaltstack_001_verdict 4740 4740 0x650010 3 0x7efffffffb60 0x1e4 no_info ref_view 2 3
    (fun x => ("0x" +:+ hex x)%string) 0 0 0 ref_start (le_n 2) ref_fresh eq_refl eq_refl).
  vm_compute. split; discriminate.
Defined.

Definition log_entry_kill : list string :=
  [ln "sig_num = 1, sig_name:SIGHUP received."; ln "sig_num = 2, sig_name:SIGINT received.";
   ln "sig_num = 3, sig_name:SIGQUIT received."; ln "sig_num = 4, sig_name:SIGILL received.";
   ln "sig_num = 5, sig_name:SIGTRAP received."; ln "sig_num = 6, sig_name:SIGABRT / SIGIOT received.";
   ln "sig_num = 6, sig_name:SIGABRT / SIGIOT received."; ln "sig_num = 7, sig_name:SIGBUS received.";
   ln "sig_num = 8, sig_name:SIGFPE received."; ln "signal function set failed. sig_num = 9, sig_name:SIGKILL";
   ln "sig_num = 10, sig_name:SIGUSR1 received."].
Lemma signal_programs_print_witness :
  (exists e' s', kexec (handlers no_info) 2 entry_kill_main ref_mach = Some (Returned 0, e', s') /\
     printed s' = (kill_line <$> sig_num) ++ [end_line]) /\ take 11 (kill_line <$> sig_num) = log_entry_kill.
Proof.
  split; [|vm_compute; reflexivity].
  destruct (signal_programs_print 4740 4740 0x650010 3 0x7efffffffb60 0x1e4 no_info ref_view 2 1 5 "" 0 ref_start (le_n 2) ref_idle)
    as (H & _). exact H.
Defined.

Lemma signal_tests_pass_witness :
  exists e' s', kexec (handlers no_info) 2 rt_sigsuspend_000 ref_mach = Some (Returned None, e', s') /\
    printed s' = [ln "(sig_handler)sig_num=14"; ln "sys_rt_sigsuspend()=-1, errno=4"] /\ mask s' = 0.
Proof.
  destruct (signal_tests_pass 4740 4740 0x650010 3 0x7efffffffb60 0x1e4 no_info ref_view) with (fuel := 2%nat) (e := 0) (s := ref_start)
    as (_ & H & _).
  - discriminate.
  - exact (le_n 2).
  - exact ref_fresh.
  - exact H.
Defined.

End SignalProofs.
