(* ===== verification/Tasks.v ===== *)
(** * Threads and processes on CPUs

    ProcSpec.v extended by what the affinity and thread suites rely on: every task, a process or a
    thread, has a CPU it runs on and a mask of those it may run on (sched_setaffinity(2)); a thread acts
    on the memory, the descriptors and the process table entry of its process (pthreads(7)); words of
    shared mappings, semaphores in private memory, limits, a timer that is over at once, files and
    handlers that leave.  The scheduler may move a task within its mask between two looks at its CPU, to
    the CPUs in [drift].  [TaskSpec] is the executable kernel; requests that are not [task_specified] it
    leaves open.  [TaskLaws] is the interface: a kernel that answers like [TaskSpec] what is specified. *)
From S2P Require Import Prelude CMachine Procs ProcSpec AffinityProofs Time.
Import Procs ProcSpec AffinityProofs.
#[local] Open Scope Z_scope.

Module Tasks.

(** ** State *)

(** What does not change: the CPUs there is room for and those that may be used; the CPU that a new task
    of this number would be started on; whether a thread can be created; the limit on processes; whether
    files can be written; the handlers that leave, with the status. *)
Record config := Config {
  cpus : Z;
  online : Z;
  birth : Z -> Z;
  may_start : bool;
  nproc : Z;
  writable : bool;
  leaves : string -> option Z
}.

(** [owner]: the process of a thread; [place]: the mask and the CPU of every task; [ended]: what the
    threads that have ended returned; [drift]: the CPUs the scheduler moves a task to before its next
    looks at the CPU it runs on. *)
Record tasks := TaskState {
  sys : kern;
  owner : gmap Z Z;
  place : gmap Z (Z * Z);
  ended : gmap Z (Z + string);
  drift : gmap Z (list Z);
  tconf : config
}.
Definition with_sys (s : kern) (t : tasks) : tasks :=
  TaskState s (owner t) (place t) (ended t) (drift t) (tconf t).
Definition with_place (f : gmap Z (Z * Z) -> gmap Z (Z * Z)) (t : tasks) : tasks :=
  TaskState (sys t) (owner t) (f (place t)) (ended t) (drift t) (tconf t).
Definition with_ended (tid : Z) (v : Z + string) (t : tasks) : tasks :=
  TaskState (sys t) (owner t) (place t) (<[tid := v]> (ended t)) (drift t) (tconf t).
Definition with_owner (tid p : Z) (t : tasks) : tasks :=
  TaskState (sys t) (<[tid := p]> (owner t)) (place t) (ended t) (drift t) (tconf t).
Definition with_drift (f : gmap Z (list Z) -> gmap Z (list Z)) (t : tasks) : tasks :=
  TaskState (sys t) (owner t) (place t) (ended t) (f (drift t)) (tconf t).

(** ** CPUs *)

Definition place_of (me : Z) (t : tasks) : Z * Z := default (online (tconf t), 0) (place t !! me).

(** A new task inherits the mask; it starts on the CPU [birth] says, or on that of its creator. *)
Definition born (me new : Z) (t : tasks) : tasks :=
  let '(mask, cpu) := place_of me t in
  let c := birth (tconf t) new in
  with_place <[new := (mask, if Z.testbit mask c then c else cpu)]> t.

(** A task may find itself on any CPU of its mask (sched(7)): it is moved to the next CPU of its [drift]
    that its mask allows, or stays where it was. *)
Definition getcpu_call (me : Z) (t : tasks) : Z * tasks :=
  let '(mask, cpu) := place_of me t in
  match drift t !! me with
  | Some (c :: l) =>
      let c := if Z.testbit mask c then c else cpu in
      (c, with_drift <[me := l]> (with_place <[me := (mask, c)]> t))
  | _ => (cpu, t)
  end.

Definition is_task (t : tasks) (pid : Z) : bool := bool_decide (is_Some (place t !! pid)).
Definition named (me pid : Z) : Z := if pid =? 0 then me else pid.
Definition setaffinity_call (me pid size : Z) (mask : option Z) (t : tasks) : Z * tasks :=
  let on := online (tconf t) in
  match set_refused on (is_task t) pid size mask with
  | Some e => (- e, t)
  | None => (0, with_place (alter (move (granted on size mask)) (named me pid)) t)
  end.
Definition getaffinity_call (me pid size : Z) (valid : bool) (t : tasks) : Z * Z :=
  match get_refused (cpus (tconf t)) (is_task t) pid size valid with
  | Some e => (- e, 0)
  | None => (8, (place_of (named me pid) t).1)
  end.

(** ** Memory *)

(** A word of a shared mapping is shared; any other variable is the process's own, and so is a
    semaphore outside of shared mappings. *)
Definition var_value (b : pcb) (a : Z) (s : kern) : Z :=
  if mapped a b then sem_value a s else default 0 (vars b !! a).
Definition set_var (p : Z) (b : pcb) (a v : Z) (s : kern) : kern :=
  if mapped a b then set_sem a v s else upd p (with_vars (<[a := v]> (vars b))) s.
Definition bad_address (a : Z) : bool := (a =? NULL) || (a =? MAP_FAILED).

Definition is_awaited (w : awaited) (v : Z) : bool :=
  match w with NONZERO => negb (v =? 0) | EQUALS x => v =? x | NOTHING => false end.

(** A new mapping, or a block of memory, of whole pages. *)
Definition allocate (p : Z) (b : pcb) (map : bool) (size : Z) (s : kern) : Z * kern :=
  let a := next_addr s in
  (a, Kern (if map then <[p := with_maps (a :: maps b) b]> (procs s) else procs s) (sems s) (next_pid s)
        (a + page * (size / page + 1)) (pipes s) (conf s)).

(** ** Requests of the task [me] of the process [p], which is [b] *)

Definition thread_start (me p : Z) (t : tasks) : Z * tasks :=
  let s := sys t in
  if negb (may_start (tconf t)) then (- EAGAIN, t) else
  let c := Z.max (next_pid s) (main_pid + 1) in
  (c, born me c (with_owner c p (with_sys
        (Kern (procs s) (sems s) (c + 1) (next_addr s) (pipes s) (conf s)) t))).

Definition task_request (me p : Z) (b : pcb) (c : cmd) (t : tasks) : option (reply c * tasks) :=
  let s := sys t in
  match c with
  | SYS_gettid => Some (me, t)
  | SYS_getcpu => Some (getcpu_call me t)
  | SYS_sched_setaffinity pid size mask => Some (setaffinity_call me pid size mask t)
  | SYS_sched_getaffinity pid size valid => Some (getaffinity_call me pid size valid t, t)
  | SYS_sched_yield => Some (0, t)
  | SYS_fork => let '(r, s) := fork_call p b s in Some (r, if 0 <? r then born me r (with_sys s t) else t)
  | LIBC_thread_start => Some (thread_start me p t)
  | LIBC_thread_end v => Some (tt, with_ended me v t)
  | LIBC_thread_join tid =>
      match ended t !! tid, owner t !! tid with
      | Some v, _ => Some ((0, v), t)
      | None, Some _ => None
      | None, None => Some ((ESRCH, inl 0), t)
      end
  | SYS_tgkill _ tid sig | SYS_tkill tid sig =>
      if tid <=? 0 then Some (- EINVAL, t)
      else if is_task t tid
      then let '(r, s) := kill_call p (pgid (jobs b)) (default tid (owner t !! tid)) sig s in Some (r, with_sys s t)
      else Some (- ESRCH, t)
  | TLS_address a => Some (a + page * me, t)
  | VAR_load a => Some (var_value b a s, t)
  | VAR_store a v => Some (tt, with_sys (set_var p b a v s) t)
  | VAR_await a w => let v := var_value b a s in if is_awaited w v then Some (v, t) else None
  | LIBC_sem_init a _ v =>
      Some (if bad_address a then (@bad_access Z, t) else (Ok 0, with_sys (set_var p b a v s) t))
  | LIBC_sem_wait a =>
      if bad_address a then Some (@bad_access Z, t)
      else let v := var_value b a s in
           if 0 <? v then Some (Ok 0, with_sys (set_var p b a (v - 1) s) t) else None
  | LIBC_sem_post a =>
      Some (if bad_address a then (@bad_access Z, t)
            else (Ok 0, with_sys (set_var p b a (var_value b a s + 1) s) t))
  | LIBC_sem_destroy a => Some (Ok 0, t)
  | SYS_mmap addr len _ flags _ _ =>
      if (addr =? 0) && ((flags =? MAP_SHARED .| MAP_ANONYMOUS) || (flags =? MAP_PRIVATE .| MAP_ANONYMOUS))
      then let '(a, s) := allocate p b true len s in Some (a, with_sys s t) else Some (- EINVAL, t)
  | MEM_set a _ _ => Some (if mapped (a - a mod page) b then Ok tt else bad_access, t)
  | LIBC_malloc size => let '(a, s) := allocate p b false size s in Some (Some (a, 0), with_sys s t)
  | LIBC_calloc size => let '(a, s) := allocate p b false size s in Some (Some a, with_sys s t)
  | SYS_getrlimit _ => Some ((0, (nproc (tconf t), nproc (tconf t))), t)
  | SYS_setrlimit _ cur max => Some (if (cur <=? max) && (max <=? nproc (tconf t)) then 0 else - EPERM, t)
  | SYS_getrusage _ _ => Some ((0, replicate 18 0), t)
  | LIBC_alarm _ => Some (0, with_sys (upd p (send (PendSignal Time.SIGALRM 0)) s) t)
  | FILE_fopen _ _ => Some (if writable (tconf t) then Some 1 else None, t)
  | FILE_fprintf _ _ => Some (tt, t)
  | FILE_fclose _ => Some (0, t)
  | c => match request p b c s with Some (r, s) => Some (r, with_sys s t) | None => None end
  end.

(** ** Scheduling *)

(** The requests that are specified besides those of processes.  Memory is filled, but never read: what is
    in it is not kept. *)
Definition task_specified (b : pcb) (c : cmd) : bool :=
  match c with
  | SYS_getcpu | SYS_sched_setaffinity _ _ _ | SYS_sched_getaffinity _ _ _ | SYS_sched_yield
  | LIBC_thread_start | LIBC_thread_end _ | LIBC_thread_join _ | SYS_tgkill _ _ _ | SYS_tkill _ _
  | TLS_address _ | VAR_await _ _ | LIBC_sem_init _ _ _ | LIBC_sem_wait _ | LIBC_sem_post _
  | LIBC_sem_destroy _ | LIBC_calloc _ | SYS_getrlimit _ | SYS_setrlimit _ _ _ | SYS_getrusage _ _
  | LIBC_alarm _ | MEM_set _ _ _ | FILE_fopen _ _ | FILE_fprintf _ _ | FILE_fclose _ => true
  | SYS_mmap addr _ _ flags _ _ =>
      (addr =? 0) && ((flags =? MAP_SHARED .| MAP_ANONYMOUS) || (flags =? MAP_PRIVATE .| MAP_ANONYMOUS))
  | SYS_vfork => false
  | c => specified b c
  end.

(** A handler that leaves ends the process. *)
Definition leaving (b : pcb) (x : pend) (t : tasks) : option Z :=
  match x with
  | PendSignal sig _ => '(fn, _) ← actions (jobs b) !! sig; leaves (tconf t) fn
  | PendStop _ => None
  end.

(** What the first signal of the process [p] does. *)
Definition task_hit {a : action} (p : Z) (b : pcb) (t : tasks) (x : pend) (l : list pend) : response a * tasks :=
  match leaving b x t with
  | Some st => (Killed SIGKILL, with_place (delete p) (with_sys (die p (exit_status st) (sys t)) t))
  | None => let '(r, s) := deliver p b x l (sys t) in (r, with_sys s t)
  end.

(** The request of a task that is up; the first thread of a process can fall asleep in it. *)
Definition task_answer (me p : Z) (b : pcb) (c : cmd) (t : tasks) : option (response (Request c) * tasks) :=
  if negb (task_specified b c) then Some (Unspecified, t) else
  match task_request me p b c t with
  | Some (r, t) => Some (@Replied (Request c) r, t)
  | None =>
      if (me =? p) && interruptible b c
      then Some (Delayed, with_sys (upd p (with_state Asleep) (sys t)) t) else None
  end.

Definition task_leave (me p status : Z) (t : tasks) : response (Leave status) * tasks :=
  (@Replied (Leave status) tt, with_place (delete me) (if me =? p then with_sys (die me status (sys t)) t else t)).

(** The signals of a process are taken by its first thread, which is the one that is asleep when the
    process is. *)
Definition task_sched (me : Z) (a : action) (t : tasks) : option (response a * tasks) :=
  let p := default me (owner t !! me) in
  b ← procs (sys t) !! p;
  match state b, pending b, a with
  | Running, x :: l, _ => if negb (me =? p) then None else Some (task_hit p b t x l)
  | Running, [], Request c => task_answer me p b c t
  | Running, [], Leave status => Some (task_leave me p status t)
  | Asleep, l, Request c =>
      if me =? p then
        let b := with_state Running b in
        let t := with_sys (upd p (with_state Running) (sys t)) t in
        wake (answer_first (conf (sys t))) b c (task_request me p b c t) (task_hit p b t)
      else match l with [] => task_answer me p b c t | _ => None end
  | Asleep, [], Leave status => if me =? p then None else Some (task_leave me p status t)
  | _, _, _ => None
  end.

Definition TaskSpec : ProcKernel := {| pstate := tasks; psched := task_sched |}.

(** The test process, on the CPU [cpu], with the mask of all CPUs. *)
Definition boot_task (image : list Z) (cpu : Z) (c : config) (sc : ProcSpec.config) : tasks :=
  TaskState (boot_in main_pid image sc) ∅ {[ main_pid := (online c, cpu) ]} ∅ ∅ c.

(** ** The interface *)

Class TaskLaws (K : ProcKernel) := {
  task_view : @pstate K -> tasks;
  task_view_sched : forall pid a s,
    (exists k, task_sched pid a (task_view s) = Some (Unspecified, k)) \/
    prod_map id task_view <$> @psched K pid a s = task_sched pid a (task_view s)
}.

Lemma task_spec_view pid a s :
  (exists k, task_sched pid a (id s) = Some (Unspecified, k)) \/
  prod_map id id <$> @psched TaskSpec pid a s = task_sched pid a (id s).
Proof. right. simpl. by destruct (task_sched pid a s) as [[? ?]|]. Qed.
Definition TaskSpecLaws : TaskLaws TaskSpec :=
  {| task_view := id : @pstate TaskSpec -> tasks; task_view_sched := task_spec_view |}.

Section laws.
Context `{TaskLaws}.

(** A computed table on the specification. *)
Lemma task_results n p s t l : task_view s = t -> results_b n (@start TaskSpec p t) l = true -> results (start p s) l.
Proof.
  intros E Hb. apply (sim_results (K' := TaskSpec) task_view task_view_sched).
  - exact (results_b_specified (K := TaskSpec) _ _ _ Hb).
  - rewrite (sim_start (K' := TaskSpec) _ _ _ _ E). exact (results_b_sound (K := TaskSpec) _ _ _ Hb).
Qed.

Lemma task_may p s t o : o <> unspecified -> task_view s = t -> may (eq o) (@start TaskSpec p t) -> may (eq o) (start p s).
Proof.
  intros Ho E Hm. apply (sim_may (K' := TaskSpec) task_view task_view_sched); [done|].
  by rewrite (sim_start (K' := TaskSpec) _ _ _ _ E).
Qed.

(** The tasks act in the order of a list; the test is then over with the result [o]. *)
Lemma task_scheduled p s t l o (Q : @world TaskSpec -> bool) :
  Some o <> unspecified -> task_view s = t ->
  match follow l (@start TaskSpec p t) with
  | Some w => outcome_eqb (result w) (Some o) && Q w
  | None => false
  end = true ->
  exists w tr, steps (start p s) tr w /\ result w = Some o /\ Q (sim_world (K' := TaskSpec) task_view w) = true.
Proof. apply (sim_scheduled (K' := TaskSpec) task_view task_view_sched). Qed.
End laws.

End Tasks.
