(* ===== verification/CpuTests.v ===== *)
(** * Affinity between processes, sched_yield and the limit on processes

    src/src/test_mck/src/: sched_setaffinity 008 to 010, sched_getaffinity 005 and 006, sched_yield/000,
    cpu_proc_limits/000.  The parent moves its child to another CPU, or finds out where it is; they wait
    for one another with signals, pipes and semaphores.  A loop that only looks at the variable a
    handler sets is one request ([VAR_await] of CMachine.v). *)
From S2P Require Import Prelude CMachine Libc Affinity Fork Exec.
Import Libc Affinity Fork Exec.
#[local] Open Scope Z_scope.

Module CpuTests.

(** Where the static variables are: [sig_count], and those of 010; [stale]: what an integer that was
    never written holds; [behind]: the bytes behind the literal of a [write]. *)
Record statics := Statics {
  sig_count : Z; sig_count_parent : Z; sig_count_child1 : Z; sig_count_child2 : Z;
  stale : Z -> Z; behind : list Z
}.

(** [while (v == 0) cpu_pause()], and [while (1) cpu_pause()]. *)
Definition await_signal (v : Z) : prog unit := _ ← trigger (VAR_await v NONZERO); Ret tt.
Definition spin_forever {A} (k : prog A) : prog A := _ ← trigger (VAR_await NULL NOTHING); k.

(** An [int] through a pipe. *)
Definition write_int (fd v : Z) : prog unit := _ ← write fd (pid_bytes v); Ret tt.
Definition read_int (fd old : Z) : prog Z := '(_, l) ← read fd 4; Ret (bytes_pid l old).

(** [CPU_ALLOC] with a check. *)
Definition alloc_or (n : Z) (msg : string) (k : cpu_set -> prog verdict) : prog verdict :=
  r ← CPU_ALLOC n;
  match r with None => Ret (Some msg) | Some set => k set end.
Definition alloc_child (n : Z) (k : cpu_set -> prog verdict) : prog verdict :=
  alloc_or n "(child process) alloc failed." k.

Section suites.
Context (st : statics).

(** What the handlers do to the static variables; the one of sched_getaffinity/005 leaves. *)
Definition count (v : Z) (vars : gmap Z Z) : gmap Z Z := <[v := s32 (default 0 (vars !! v) + 1)]> vars.
Definition handlers (fn : string) (vars : gmap Z Z) : gmap Z Z :=
  if String.eqb fn "child_sig_hadl" then count (sig_count st) vars
  else if String.eqb fn "child_sig_hadl_p" then count (sig_count_parent st) vars
  else if String.eqb fn "child_sig_hadl_c1" then count (sig_count_child1 st) vars
  else if String.eqb fn "child_sig_hadl_c2" then count (sig_count_child2 st) vars
  else vars.
Definition leaving_handlers (fn : string) : option Z :=
  if String.eqb fn "getaffinity_005_sig_hadl" then Some 0 else None.

(** ** sched_setaffinity/008 and 009 *)

Definition MANDATORY_3 : verdict := Some "mandatory parameter '-p <num_of_cpus(3 or more)>'".

(** The part of the parent behind [fork] that both tests share: wait for the child, move it to the CPU
    [target] chooses, wake it, and compare where it was with where it is; [check]: 008 checks the target;
    [say_end] is what 009 prints. *)
Definition migrate_parent (num_cpus child_pid c2p_read c2p_write : Z) (target : Z -> Z -> Z) (check : bool)
    (say_end : prog unit) : prog verdict :=
  parent_cpu ← get_cpu_id;
  await_signal (sig_count st);;
  c_cpuid_before_migreate ← read_int c2p_read (stale st 0);
  let size := CPU_ALLOC_SIZE num_cpus in
  alloc_child num_cpus (fun cpusetp_child =>
  cpusetp_child ← CPU_ZERO_S size cpusetp_child;
  let migrate_cpu := target parent_cpu c_cpuid_before_migreate in
  TP_ASSERT negb check || (0 <=? migrate_cpu), Some "Bad target to migrate child process." ;;
  cpusetp_child ← CPU_SET_S migrate_cpu size cpusetp_child;
  result ← set_affinity child_pid size cpusetp_child;
  CPU_FREE cpusetp_child;;
  kill child_pid SIGUSR1;;
  c_cpuid_after_migreate ← read_int c2p_read (stale st 1);
  waitpid child_pid 0;;
  say_end;;
  close c2p_read;;
  close c2p_write;;
  TP_ASSERT negb (c_cpuid_before_migreate =? c_cpuid_after_migreate), Some "Really process running there?" ;;
  TP_ASSERT negb (result =? -1), Some "sched_setaffinity failed to child affinity." ;;
  Ret None).

(** The frame: the handler of the parent, the pipe, the child. *)
Definition migrate_frame (args : sched_setaffinity_args) (child : Z -> prog verdict)
    (parent : Z -> Z -> Z -> prog verdict) : prog verdict :=
  TP_ASSERT 3 <=? num_of_cpus args, MANDATORY_3 ;;
  sigaction SIGUSR2 "child_sig_hadl" SA_RESETHAND;;
  '(ret, c2p) ← pipe;
  TP_ASSERT ret =? 0, Some "pipe() Failed." ;;
  child_pid ← fork;
  if child_pid =? -1 then TP_ASSERT false, Some "fork() Failed." ;; Ret None
  else if child_pid =? 0 then child c2p.2
  else parent child_pid c2p.1 c2p.2.

(** The child tells its CPU, wakes the parent, waits for it, and tells its CPU again. *)
Definition wake_parent : prog unit := ppid ← getppid; kill ppid SIGUSR2;; Ret tt.
Definition sched_setaffinity_008_child (write_fd : Z) : prog verdict :=
  sigaction SIGUSR1 "child_sig_hadl" SA_RESETHAND;;
  cpuid_before_migreate ← get_cpu_id;
  say ("[child] before migrate cpuid=" +:+ d cpuid_before_migreate);;
  write_int write_fd cpuid_before_migreate;;
  wake_parent;;
  await_signal (sig_count st);;
  cpuid_after_migreate ← get_cpu_id;
  say ("[child] after migrate cpuid=" +:+ d cpuid_after_migreate);;
  write_int write_fd cpuid_after_migreate;;
  exit 0.
Definition sched_setaffinity_008 (args : sched_setaffinity_args) : prog verdict :=
  migrate_frame args sched_setaffinity_008_child (fun child_pid r w =>
  migrate_parent (num_of_cpus args) child_pid r w
    (fun parent child => get_migrate_target_cpuid parent child (num_of_cpus args - 1)) true (Ret tt)).

(** 009 shows the registers before and after; it has no check of the target. *)
Definition show_f (who values : string) : prog unit := say (who +:+ values);; show_extended_registers.
Definition floats1 : string := "f0 = 3.140000, f1 = 42.195000, f2 = 53.849998, f3 = 909.908997".
Definition floats2 : string := "f0 = 6.280000, f1 = 84.390999, f2 = 106.161003, f3 = 99.999901".
Definition sched_setaffinity_009_child (write_fd : Z) : prog verdict :=
  sigaction SIGUSR1 "child_sig_hadl" SA_RESETHAND;;
  write_xg;; write_xf;;
  cpuid_before_migreate ← get_cpu_id;
  write_int write_fd cpuid_before_migreate;;
  say "==before migrate child process==";;
  show_f "" floats1;;
  wake_parent;;
  await_signal (sig_count st);;
  cpuid_after_migreate ← get_cpu_id;
  write_int write_fd cpuid_after_migreate;;
  say "==after migrate child process==";;
  show_f "" floats1;;
  exit 0.
Definition migrate_target_009 (num_cpus parent_cpu c_cpuid_before_migreate : Z) : Z :=
  let migrate_cpu := num_cpus - 1 in
  if migrate_cpu =? c_cpuid_before_migreate then
    let migrate_cpu := migrate_cpu - 1 in
    if migrate_cpu =? parent_cpu then migrate_cpu - 1 else migrate_cpu
  else migrate_cpu.
Definition sched_setaffinity_009 (args : sched_setaffinity_args) : prog verdict :=
  migrate_frame args sched_setaffinity_009_child (fun child_pid r w =>
  migrate_parent (num_of_cpus args) child_pid r w (migrate_target_009 (num_of_cpus args)) false
    (say "==Please check migrated child process keep datas==")).

(** ** sched_setaffinity/010 *)

Definition show_child (who when : string) (cur_pid cpu : Z) (values : string) : prog unit :=
  say ("==[" +:+ who +:+ ":" +:+ d cur_pid +:+ " on cpu" +:+ d cpu +:+ "] " +:+ when +:+ " migrate==");;
  say ("[pid:" +:+ d cur_pid +:+ "] " +:+ values);;
  show_extended_registers.
Definition child1_fn (notify_fd : Z) : prog unit :=
  cur_pid ← getpid;
  sigaction SIGUSR1 "child_sig_hadl_c1" SA_RESETHAND;;
  write_xg;; write_xf;;
  cpu ← get_cpu_id;
  show_child "child1" "before" cur_pid cpu floats1;;
  cur_cpu ← get_cpu_id;
  write_int notify_fd cur_cpu;;
  await_signal (sig_count_child1 st);;
  cpu ← get_cpu_id;
  show_child "child1" "after" cur_pid cpu floats1.
Definition child2_fn : prog unit :=
  cur_pid ← getpid;
  sigaction SIGUSR1 "child_sig_hadl_c2" SA_RESETHAND;;
  write_xg;; write_xf;;
  cpu ← get_cpu_id;
  show_child "child2" "before" cur_pid cpu floats2;;
  wake_parent;;
  await_signal (sig_count_child2 st);;
  cpu ← get_cpu_id;
  show_child "child2" "after" cur_pid cpu floats2.

(** The check of a [setpgid]: when it fails both children are killed. *)
Definition setpgid_or_kill (pid pgid child_pid1 child_pid2 : Z) (msg : string) (k : prog verdict) : prog verdict :=
  result ← setpgid pid pgid;
  if result =? -1 then
    kill child_pid1 SIGKILL;; kill child_pid2 SIGKILL;;
    TP_ASSERT false, Some msg ;; Ret None
  else k.
Definition parent_010 (num_cpus child_pid1 child_pid2 cpuid_child1 : Z) : prog verdict :=
  setpgid_or_kill child_pid1 child_pid1 child_pid1 child_pid2 "[parent] setpgid to child1 faild." (
  setpgid_or_kill child_pid2 child_pid1 child_pid1 child_pid2 "[parent] setpgid child2 faild." (
  let size := CPU_ALLOC_SIZE num_cpus in
  alloc_child num_cpus (fun cpusetp_child =>
  cpusetp_child ← CPU_ZERO_S size cpusetp_child;
  cpusetp_child ← CPU_SET_S cpuid_child1 size cpusetp_child;
  await_signal (sig_count_parent st);;
  var_store (sig_count_parent st) 0;;
  result ← set_affinity child_pid2 size cpusetp_child;
  CPU_FREE cpusetp_child;;
  if result =? -1 then
    kill (- child_pid2) SIGUSR1;;
    TP_ASSERT negb (result =? -1), Some "sched_setaffinity failed from to process." ;;
    Ret None
  else
  kill child_pid2 SIGUSR1;;
  kill child_pid1 SIGUSR1;;
  waitpid child_pid1 0;;
  waitpid child_pid2 0;;
  say "==Please check migrated child process keep datas==";;
  TP_ASSERT negb (result =? -1), Some "sched_setaffinity failed to child process." ;;
  Ret None))).
Definition sched_setaffinity_010 (args : sched_setaffinity_args) : prog verdict :=
  TP_ASSERT negb (num_of_cpus args =? 0), MANDATORY ;;
  sigaction SIGUSR2 "child_sig_hadl_p" 0;;
  '(result, pipe_fd) ← pipe;
  TP_ASSERT negb (result =? -1), Some "make pipe failed" ;;
  child_pid1 ← fork;
  if child_pid1 =? -1 then TP_ASSERT false, Some "child 1 fork() Failed." ;; Ret None
  else if child_pid1 =? 0 then
    child1_fn pipe_fd.2;; close pipe_fd.1;; close pipe_fd.2;; exit 0
  else
    cpuid_child1 ← read_int pipe_fd.1 0;
    close pipe_fd.1;;
    close pipe_fd.2;;
    child_pid2 ← fork;
    if child_pid2 =? -1 then
      kill child_pid1 SIGUSR1;; TP_ASSERT false, Some "child 2 fork() Failed." ;; Ret None
    else if child_pid2 =? 0 then child2_fn;; exit 0
    else parent_010 (num_of_cpus args) child_pid1 child_pid2 cpuid_child1.

(** ** sched_getaffinity/005 and 006 *)

(** [CPU_EQUAL_S]: [memcmp] of [size] bytes. *)
Definition CPU_EQUAL_S (size : Z) (a b : cpu_set) : bool :=
  Z.land (cs_bits a) (Z.ones (8 * size)) =? Z.land (cs_bits b) (Z.ones (8 * size)).

(** The child waits for the signal whose handler leaves; nobody waits for the child. *)
Definition sched_getaffinity_005 (args : sched_getaffinity_args) : prog verdict :=
  TP_ASSERT negb (ga_num_of_cpus args =? 0), MANDATORY ;;
  child_pid ← fork;
  if child_pid =? -1 then TP_ASSERT false, Some "fork() Failed." ;; Ret None
  else if child_pid =? 0 then
    sigaction SIGUSR1 "getaffinity_005_sig_hadl" 0;; spin_forever (Ret None)
  else
    let num_cpus := ga_num_of_cpus args in
    let size := CPU_ALLOC_SIZE num_cpus in
    alloc_or num_cpus "(parent process) alloc failed." (fun cpusetp_parent =>
    cpusetp_parent ← CPU_ZERO_S size cpusetp_parent;
    '(result, cpusetp_parent) ← get_affinity 0 size cpusetp_parent;
    if result =? -1 then
      CPU_FREE cpusetp_parent;; TP_ASSERT false, Some "(parent process) sched_getaffinity failed." ;; Ret None
    else
    r ← CPU_ALLOC num_cpus;
    match r with
    | None => CPU_FREE cpusetp_parent;; TP_ASSERT false, Some "(child process) alloc failed." ;; Ret None
    | Some cpusetp_child =>
    cpusetp_child ← CPU_ZERO_S size cpusetp_child;
    '(result, cpusetp_child) ← get_affinity child_pid size cpusetp_child;
    if result =? -1 then
      CPU_FREE cpusetp_parent;; CPU_FREE cpusetp_child;;
      TP_ASSERT false, Some "(child process) sched_getaffinity failed." ;; Ret None
    else
    let result := CPU_EQUAL_S size cpusetp_parent cpusetp_child in
    CPU_FREE cpusetp_parent;;
    CPU_FREE cpusetp_child;;
    kill child_pid SIGUSR1;;
    TP_ASSERT result, Some "child process is not taking over the parent cpu affinity." ;;
    Ret None
    end).

(** The child of 006 writes its CPUs to a file and gives its place to the program named with [-f]; a
    failed check of the child returns from the test in the child.  [undefined]: the vector of arguments
    does not fit (Exec.v). *)
Definition PATH_MANDATORY : verdict := Some "mandatory parameter '-p <num_of_cpus> -f <show_affinity_app_path>'".
Definition sched_getaffinity_006_child (undefined : prog verdict) (args : sched_getaffinity_args) (path cpuset_path : string) :
    prog verdict :=
  r ← fopen cpuset_path "w";
  match r with
  | None => Ret (Some "fopen failed.")
  | Some fp =>
      let num_cpus := ga_num_of_cpus args in
      alloc_or num_cpus "alloc failed." (fun cpusetp =>
      let size := CPU_ALLOC_SIZE num_cpus in
      cpusetp ← CPU_ZERO_S size cpusetp;
      '(result, cpusetp) ← get_affinity 0 size cpusetp;
      if result =? -1 then
        CPU_FREE cpusetp;; TP_ASSERT false, Some "sched_getaffinity failed." ;; Ret None
      else
      print_set (Z.to_nat num_cpus) fp 0 cpusetp;;
      fclose fp;;
      CPU_FREE cpusetp;;
      with_execve undefined path (ExecArgs (Some path) (ga_argv args)) (Ret tt) returned)
  end.
Definition sched_getaffinity_006 (undefined : prog verdict) (args : sched_getaffinity_args) : prog verdict :=
  match Affinity.file_path args with
  | None => Ret PATH_MANDATORY
  | Some path =>
      TP_ASSERT negb (ga_num_of_cpus args =? 0), PATH_MANDATORY ;;
      match cpuset_path args with
      | None => Ret (Some "mandatory parameter '-o <cpuset_path>'")
      | Some cpuset_path =>
          child_pid ← fork;
          if child_pid =? -1 then TP_ASSERT false, Some "fork() Failed." ;; Ret None
          else if child_pid =? 0 then sched_getaffinity_006_child undefined args path cpuset_path
          else
            say "==waiting for child process finish..==";;
            waitpid child_pid 0;;
            say "==Please check affinity is taken over after execve==";;
            Ret None
      end
  end.

(** ** sched_yield/000 *)

(** An [int] in a shared mapping; [MAP_FAILED] is no address. *)
Definition load_int (p : Z) : prog Z := if p =? MAP_FAILED then Trap SIGSEGV SIG_DFL else var_load p.
Definition store_int (p v : Z) : prog unit := if p =? MAP_FAILED then Trap SIGSEGV SIG_DFL else var_store p v.

(** [CPU_ZERO] and [CPU_SET] on a local [cpu_set_t]. *)
Definition cpuset_of (cpu : Z) : Z := if u64 cpu / 8 <? sizeof_cpu_set_t then Z.setbit 0 (u64 cpu) else 0.

Definition sizeof_sem_t : Z := 32.
Definition map_shared (size : Z) : prog Z :=
  mmap NULL size (PROT_READ .| PROT_WRITE) (MAP_SHARED .| MAP_ANONYMOUS) (-1) 0.

Definition sched_yield_child (sync_sem1 sync_sem2 parent_core : Z) : prog verdict :=
  old_mycore ← sched_getcpu;
  say ("[child] running core " +:+ d old_mycore);;
  sem_post sync_sem1;;
  sem_wait sync_sem2;;
  new_mycore ← sched_getcpu;
  core ← load_int parent_core;
  (if negb (core =? old_mycore) then
     say ("[child] before migrate prevcore " +:+ d old_mycore +:+ ", nowcore " +:+ d new_mycore);;
     if old_mycore =? new_mycore then say "TP failed, not migrate child process.";; exit (-1) else Ret tt
   else say "[child] migrate not required.");;
  say "[child] End process.";;
  exit 0.

(** The check of a [sched_setaffinity]. *)
Definition bind_or (result : Z) (msg : string) (k : prog verdict) : prog verdict :=
  if result =? -1 then
    e ← get_errno; say ("errno = " +:+ d e);; TP_ASSERT false, Some msg ;; Ret None
  else k.
Definition sched_yield_parent (sync_sem1 sync_sem2 parent_core pid : Z) (k : prog verdict) : prog verdict :=
  sem_wait sync_sem1;;
  cpu ← sched_getcpu;
  store_int parent_core cpu;;
  core ← load_int parent_core;
  say ("[parent] running core " +:+ d core);;
  core ← load_int parent_core;
  say ("[parent] child process migrate/bind to core " +:+ d core);;
  core ← load_int parent_core;
  let cpuset := cpuset_of core in
  result ← sched_setaffinity pid sizeof_cpu_set_t (Some cpuset);
  bind_or result "child migrate/bind sched_setaffinity failed." (
  core ← load_int parent_core;
  say ("[parent] parent process bind to core " +:+ d core);;
  result ← sched_setaffinity 0 sizeof_cpu_set_t (Some cpuset);
  bind_or result "parent bind sched_setaffinity failed." (
  _ ← trigger (LIBC_sleep 10000);
  say "[parent] send sched_yield.";;
  sem_post sync_sem2;;
  result ← (r ← trigger SYS_sched_yield; syscall_ret r);
  TP_ASSERT negb (result =? -1), Some "sched_yield failed." ;;
  say "[parent] End process.";;
  k)).
Definition END_ORDER : verdict := Some "check end order, [end child] -> [end parent]".
Definition sched_yield_wait (pid : Z) : prog verdict :=
  '(ret_pid, status) ← wait;
  if ret_pid =? pid then
    TP_ASSERT negb (WIFEXITED status && negb (WEXITSTATUS status =? 0)), Some "TP failed, child migrate fail." ;;
    Ret END_ORDER
  else TP_ASSERT false, Some "TP failed, child process wait() fail." ;; Ret END_ORDER.
Definition sched_yield_run (sync_sem1 sync_sem2 parent_core : Z) : prog verdict :=
  TP_ASSERT negb (sync_sem1 =? NULL) && negb (sync_sem2 =? NULL) && negb (parent_core =? NULL), Some "mmap() Failed." ;;
  sem_init sync_sem1 1 0;;
  sem_init sync_sem2 1 0;;
  pid ← fork;
  if pid =? -1 then TP_ASSERT false, Some "fork() Failed." ;; Ret None
  else if pid =? 0 then sched_yield_child sync_sem1 sync_sem2 parent_core
  else sched_yield_parent sync_sem1 sync_sem2 parent_core pid (sched_yield_wait pid).
Definition unmap_if (p size : Z) : prog unit := if negb (p =? NULL) then munmap p size;; Ret tt else Ret tt.
Definition sched_yield_000 : prog verdict :=
  sync_sem1 ← map_shared sizeof_sem_t;
  sync_sem2 ← map_shared sizeof_sem_t;
  parent_core ← map_shared 4;
  v ← sched_yield_run sync_sem1 sync_sem2 parent_core;
  unmap_if sync_sem1 sizeof_sem_t;;
  unmap_if sync_sem2 sizeof_sem_t;;
  unmap_if parent_core 4;;
  Ret v.

(** ** cpu_proc_limits/000 *)

Record limits_args := LimitsArgs { proc_num : Z; cpu_num : Z }.
Definition set_limits_arg (c : ascii) (optarg : string) (a : limits_args) : limits_args :=
  if Ascii.eqb c "p" then LimitsArgs (atoi optarg) (cpu_num a)
  else if Ascii.eqb c "c" then LimitsArgs (proc_num a) (atoi optarg) else a.
Definition cpu_proc_limits_setup (argv : list string) : prog limits_args :=
  getopt_loop set_limits_arg
    (events (scan (default "" (argv !! 0%nat)) (with_arguments ["p"; "c"]%char) [] (drop 1 argv))) (LimitsArgs 0 0).

(** The number of the process in ten digits, in a cleared buffer. *)
Definition pid_text (pid : Z) : list Z :=
  let l := chr <$> chars (pretty pid) in
  take 16 (replicate (10 - length l) (chr "0") ++ l ++ replicate 16 0).
Definition CHILD_SLEEP_SEC : Z := 3.
Definition limits_child_fn (read_fd write_fd : Z) : prog unit :=
  '(r, _) ← read read_fd PIPE_BUF_SIZE;
  if r <=? 0 then Ret tt
  else
    _ ← trigger (LIBC_sleep (CHILD_SLEEP_SEC * 1000000));
    pid ← getpid;
    write write_fd (pid_text pid);; Ret tt.

(** The pipes of a child, to it and from it. *)
Definition proc_pipes : Set := (Z * Z) * (Z * Z).
Fixpoint close_parent_ends (pp : list proc_pipes) : prog unit :=
  match pp with
  | [] => Ret tt
  | (p2c, c2p) :: pp => close p2c.2;; close c2p.1;; close_parent_ends pp
  end.
Definition close_both (ret : Z) (fds : Z * Z) : prog unit :=
  if negb (ret =? -1) then close fds.1;; close fds.2;; Ret tt else Ret tt.

(** From the label [forkone]: [n] children are wanted besides those of [pp]; [k] gets all pipes. *)
Fixpoint forkone (n : nat) (p : Z) (pp : list proc_pipes) (k : list proc_pipes -> prog verdict) : prog verdict :=
  match n with
  | O => k pp
  | S n =>
      '(p2c_ret, p2c) ← pipe;
      '(c2p_ret, c2p) ← pipe;
      if (p2c_ret =? -1) || (c2p_ret =? -1) then
        close_parent_ends pp;; close_both p2c_ret p2c;; close_both c2p_ret c2p;;
        free p;; TP_ASSERT false, Some ("pipe open faild!!" +:+ nl) ;; Ret None
      else
      pid1 ← fork;
      let pp := pp ++ [(p2c, c2p)] in
      if negb (pid1 =? 0) then
        if negb (pid1 =? -1) && negb (Nat.eqb n 0) then
          close p2c.1;; close c2p.2;; forkone n p pp k
        else if pid1 <? 0 then
          close_parent_ends pp;; free p;; TP_ASSERT false, Some "fork() Failed." ;; Ret None
        else k pp
      else
        close p2c.2;; close c2p.1;;
        limits_child_fn p2c.1 c2p.2;;
        close p2c.1;; close c2p.2;;
        free p;;
        exit 0
  end.

(** [write(..., "1234567890", PIPE_BUF_SIZE+1)] reads six bytes behind the literal. *)
Definition sync_data : list Z := take 17 (literal ++ behind st).
Fixpoint kick_children (pp : list proc_pipes) : prog unit :=
  match pp with
  | [] => Ret tt
  | (p2c, _) :: pp => write p2c.2 sync_data;; kick_children pp
  end.
Fixpoint await_children (pp : list proc_pipes) : prog unit :=
  match pp with
  | [] => Ret tt
  | (p2c, c2p) :: pp => read c2p.1 PIPE_BUF_SIZE;; close p2c.2;; close c2p.1;; await_children pp
  end.

Definition RLIMIT_NPROC : Z := 6.

(** The limit is set to the number of CPUs; a failed [getrlimit] leaves what was there. *)
Definition limit_processes (cpu_num : Z) (k : prog verdict) : prog verdict :=
  '(ret, lim) ← getrlimit RLIMIT_NPROC;
  let rlim_max := if ret =? -1 then stale st 0 else lim.2 in
  TP_ASSERT cpu_num <=? rlim_max, Some "-c <num cpus> is larger than hard limit" ;;
  ret ← setrlimit RLIMIT_NPROC cpu_num rlim_max;
  TP_ASSERT ret =? 0, Some "setrlimit error" ;;
  k.
Definition cpu_proc_limits_000 (args : limits_args) : prog verdict :=
  TP_ASSERT 0 <? proc_num args, Some "-p <child proc num> invalid argument." ;;
  TP_ASSERT 0 <? cpu_num args, Some "-c <num cpus> invalid argument." ;;
  limit_processes (cpu_num args) (
  r ← trigger (LIBC_calloc (16 * proc_num args));
  match r with
  | None => Ret (Some "calloc error.")
  | Some p =>
      forkone (Z.to_nat (proc_num args)) p [] (fun pp =>
      _ ← getpid;
      kick_children pp;;
      say ("Wait children's process will be finished. (about " +:+ d CHILD_SLEEP_SEC +:+ "sec...)");;
      await_children pp;;
      free p;;
      Ret None)
  end).

End suites.
End CpuTests.
