(* ===== verification/Threads.v ===== *)
(** * Tests with threads

    src/src/test_mck/src/: gettid 001 and 002, tls 000 and 001, nfo 001 and 002, pthread_getaffinity,
    pthread_setaffinity, cpu_thread_limits/000, sched_setaffinity/011, getrusage/002, tgkill/002,
    tkill/001.  A thread is the rest of the program with the reply 0 of [LIBC_thread_start]
    ([pthread_create]); what threads share lies in variables at addresses, the fields of a structure at
    their offsets. *)
From S2P Require Import Prelude CMachine Align Libc Affinity Fork Exec CpuTests Time MemSys.
Import Align Libc Affinity Fork CpuTests.
#[local] Open Scope Z_scope.

Module Threads.

(** ** POSIX threads *)

(** [NULL], and a function that returns a message or [NULL]. *)
Definition void_NULL : Z + string := inl 0.
Definition as_pointer (v : verdict) : Z + string := match v with Some msg => inr msg | None => void_NULL end.
Definition as_verdict (v : Z + string) : verdict :=
  match v with inr msg => Some msg | inl n => if n =? 0 then None else Some (pretty n) end.

(** [pthread_create]: the new thread runs [body]; [k] gets the error number and the thread, whose
    variable keeps the 0 of [calloc] when there is none. *)
Definition pthread_create (body : prog (Z + string)) (k : Z -> Z -> prog verdict) : prog verdict :=
  r ← trigger LIBC_thread_start;
  if r =? 0 then v ← body; trigger (LIBC_thread_end v);; Ret None
  else if r <? 0 then k (- r) 0 else k 0 r.
Definition pthread_join (tid : Z) : prog (Z * (Z + string)) := trigger (LIBC_thread_join tid).

(** A thread is named by its number; these calls return the error number. *)
Definition pthread_self : prog Z := gettid.
Definition pthread_setaffinity_np (thread size : Z) (mask : option Z) : prog Z :=
  r ← trigger (SYS_sched_setaffinity thread size mask); Ret (if is_error r then - r else 0).
Definition pthread_getaffinity_np (thread size : Z) (set : cpu_set) : prog (Z * cpu_set) :=
  '(r, mask) ← trigger (SYS_sched_getaffinity thread size true);
  if is_error r then Ret (- r, set)
  else Ret (0, with_bits set (Z.lor (Z.land mask (Z.ones (8 * Z.min r size)))
                                    (Z.ldiff (cs_bits set) (Z.ones (8 * size))))).

Definition calloc (n size : Z) : prog (option Z) := trigger (LIBC_calloc (n * size)).

(** Where the static and thread variables are, and the local variables of the function that starts
    threads. *)
Record statics := Statics {
  child_cpu : Z; tls : Z; notls : Z; sync : Z; start : Z; threads_barrier : Z; sig_count : Z; frame : Z
}.

(** [show_p] is the text of [%p]. *)
Section suites.
Context (st : statics) (show_p : Z -> string).

(** ** gettid *)

(** [process_id_t] of 001, at [frame]. *)
Definition id_pid (a : Z) : Z := a.
Definition id_tid (a : Z) : Z := a + 4.
Definition child_thread_func (c_args : Z) : prog (Z + string) :=
  pid ← getpid;
  var_store (id_pid c_args) pid;;
  tid ← gettid;
  var_store (id_tid c_args) tid;;
  Ret void_NULL.
Definition gettid_001 : prog verdict :=
  pthread_create (child_thread_func (frame st)) (fun ret child_thread =>
  TP_ASSERT ret =? 0, Some "pthread_create error!!" ;;
  pid ← getpid;
  tid ← gettid;
  say ("[parent] pid=" +:+ d pid +:+ ", tid=" +:+ d tid);;
  TP_ASSERT tid =? pid, Some "TID of the parent thread is not equal to the PID!" ;;
  '(ret, _) ← pthread_join child_thread;
  TP_ASSERT ret =? 0, Some "pthread_join error!!" ;;
  child_pid ← var_load (id_pid (frame st));
  child_tid ← var_load (id_tid (frame st));
  say ("[child ] pid=" +:+ d child_pid +:+ ", tid=" +:+ d child_tid);;
  TP_ASSERT negb (tid =? child_tid), Some "Child tid is not a unique!" ;;
  Ret None).

(** The argument of 002 and of tls/001: [-t n]; any other option yields 0, and -1 is the default. *)
Fixpoint thread_count_opts (evs : list opt_event) (t : Z) : prog Z :=
  match evs with
  | [] => Ret t
  | Opt "t" (Some optarg) :: evs => thread_count_opts evs (c_value (strtoll optarg 10))
  | Bad msg :: _ => fprintf_stderr msg;; Ret 0
  | _ => Ret 0
  end.
Definition thread_count_setup (argv : list string) : prog Z :=
  thread_count_opts (events (scan (default "" (argv !! 0%nat)) (with_arguments ["t"%char]) [] (drop 1 argv))) (-1).

(** [struct child_thread] of 002: 104 bytes. *)
Definition ct_size : Z := 104.
Definition ct_num (a : Z) : Z := a.
Definition ct_pre_pid (a : Z) : Z := a + 16.
Definition ct_post_pid (a : Z) : Z := a + 20.
Definition ct_pre_tid (a : Z) : Z := a + 24.
Definition ct_post_tid (a : Z) : Z := a + 28.
Definition ct_pre_cpu (a : Z) : Z := a + 32.
Definition ct_post_cpu (a : Z) : Z := a + 36.
Definition ct_sync (a : Z) : Z := a + 40.
Definition ct_start (a : Z) : Z := a + 72.
Definition elem (p size i : Z) : Z := p + size * i.

Definition gettid_002_after (data : Z) : prog (Z + string) :=
  sem_wait (ct_start data);;
  cpu ← sched_getcpu; var_store (ct_post_cpu data) cpu;;
  pid ← getpid; var_store (ct_post_pid data) pid;;
  tid ← gettid; var_store (ct_post_tid data) tid;;
  num ← var_load (ct_num data);
  pre_cpu ← var_load (ct_pre_cpu data); post_cpu ← var_load (ct_post_cpu data);
  pre_pid ← var_load (ct_pre_pid data); post_pid ← var_load (ct_post_pid data);
  pre_tid ← var_load (ct_pre_tid data); post_tid ← var_load (ct_post_tid data);
  say ("child#" +:+ d num +:+ " cpu:" +:+ d pre_cpu +:+ "," +:+ d post_cpu +:+ " pid:" +:+ d pre_pid +:+ ","
       +:+ d post_pid +:+ " tid:" +:+ d pre_tid +:+ "," +:+ d post_tid);;
  Ret void_NULL.
Definition gettid_002_func (data : Z) : prog (Z + string) :=
  cpu ← sched_getcpu; var_store (ct_pre_cpu data) cpu;;
  pid ← getpid; var_store (ct_pre_pid data) pid;;
  tid ← gettid; var_store (ct_pre_tid data) tid;;
  c ← var_load (child_cpu st);
  if c =? -1 then
    cpu ← sched_getcpu;
    var_store (child_cpu st) cpu;;
    sem_post (ct_sync data);;
    gettid_002_after data
  else
    thread ← pthread_self;
    c ← var_load (child_cpu st);
    sem_post (ct_sync data);;
    stat ← pthread_setaffinity_np thread sizeof_cpu_set_t (Some (cpuset_of c));
    if negb (stat =? 0) then Ret (inr "pthread_setaffinity_np error."%string) else gettid_002_after data.

(** The loops over the children: [n] turns from [i], then [k]. *)
Fixpoint gettid_002_init (n : nat) (i children : Z) (k : prog verdict) : prog verdict :=
  match n with
  | O => k
  | S n =>
      let c := elem children ct_size i in
      var_store (ct_num c) i;;
      sem_init (ct_sync c) 0 0;;
      sem_init (ct_start c) 0 0;;
      gettid_002_init n (i + 1) children k
  end.
Fixpoint gettid_002_create (n : nat) (i children : Z) (tids : list Z) (k : list Z -> prog verdict) : prog verdict :=
  match n with
  | O => k tids
  | S n =>
      let c := elem children ct_size i in
      pthread_create (gettid_002_func c) (fun state tid =>
      TP_ASSERT state =? 0, Some "pthread_create error." ;;
      sem_wait (ct_sync c);;
      _ ← trigger (LIBC_sleep 1000000);
      gettid_002_create n (i + 1) children (tids ++ [tid]) k)
  end.
Fixpoint post_starts (start_of : Z -> Z) (n : nat) (i : Z) : prog unit :=
  match n with O => Ret tt | S n => sem_post (start_of i);; post_starts start_of n (i + 1) end.

(** [pthread_join] of each, and the end of its semaphores. *)
Fixpoint join_all (sync_of start_of : Z -> Z) (i : Z) (tids : list Z) : prog unit :=
  match tids with
  | [] => Ret tt
  | tid :: tids =>
      pthread_join tid;;
      sem_destroy (sync_of i);;
      sem_destroy (start_of i);;
      join_all sync_of start_of (i + 1) tids
  end.

(** The comparison of the child [i] with the children from [j], and of the children from [i] that have
    a later one: [n] turns. *)
Fixpoint gettid_002_inner (n : nat) (ci j children : Z) (k : prog verdict) : prog verdict :=
  match n with
  | O => k
  | S n =>
      let cj := elem children ct_size j in
      pre_pid ← var_load (ct_pre_pid ci); post_pid ← var_load (ct_post_pid cj);
      TP_ASSERT pre_pid =? post_pid, Some "PID is not match." ;;
      pre_tid ← var_load (ct_pre_tid ci); post_tid ← var_load (ct_post_tid cj);
      TP_ASSERT negb (pre_tid =? post_tid), Some "Detected TID collision." ;;
      gettid_002_inner n ci (j + 1) children k
  end.
Fixpoint gettid_002_check (n : nat) (i children : Z) (k : prog verdict) : prog verdict :=
  match n with
  | O => k
  | S n =>
      let ci := elem children ct_size i in
      pre_pid ← var_load (ct_pre_pid ci); post_pid ← var_load (ct_post_pid ci);
      TP_ASSERT pre_pid =? post_pid, Some "PID is not match." ;;
      pre_tid ← var_load (ct_pre_tid ci); post_tid ← var_load (ct_post_tid ci);
      TP_ASSERT pre_tid =? post_tid, Some "TID is not match." ;;
      gettid_002_inner (S n) ci (i + 1) children (gettid_002_check n (i + 1) children k)
  end.
Definition COUNT_MANDATORY : verdict := Some ("mandatory parameter '-t <child_thread_count>'" +:+ nl).
Definition gettid_002 (child_count : Z) : prog verdict :=
  TP_ASSERT 0 <? child_count, COUNT_MANDATORY ;;
  let n := Z.to_nat child_count in
  r ← calloc child_count ct_size;
  match r with
  | None => Ret (Some "calloc error.")
  | Some children =>
      let elem i := elem children ct_size i in
      gettid_002_init n 0 children (
      gettid_002_create n 0 children [] (fun tids =>
      post_starts (fun i => ct_start (elem i)) n 0;;
      join_all (fun i => ct_sync (elem i)) (fun i => ct_start (elem i)) 0 tids;;
      gettid_002_check (n - 1) 0 children (
      free children;;
      Ret None)))
  end.

(** ** tls *)

(** [v++] on a [long]. *)
Definition increment (a : Z) : prog unit := v ← var_load a; var_store a (s64 (v + 1)).

(** Every thread has a [tls] of its own and shares [notls]. *)
Definition tls_000_func (value : Z) : prog (Z + string) :=
  at_tls ← trigger (TLS_address (tls st));
  increment at_tls;;
  increment (notls st);;
  t ← var_load at_tls;
  n ← var_load (notls st);
  say ("[" +:+ d value +:+ "] tls=" +:+ d t +:+ ", notls=" +:+ d n);;
  t ← var_load at_tls;
  Ret (inl t).
Fixpoint tls_000_loop (n : nat) (i : Z) : prog verdict :=
  match n with
  | O => Ret None
  | S n =>
      pthread_create (tls_000_func i) (fun _ tid =>
      '(ret, value) ← pthread_join tid;
      let rc := if ret =? 0 then value else void_NULL in
      TP_ASSERT bool_decide (rc = inl 1), Some "invalid TLS value." ;;
      tls_000_loop n (i + 1))
  end.
Definition tls_000 : prog verdict := tls_000_loop 2 0.

(** [struct child_thread] of 001: 88 bytes. *)
Definition INC_COUNT : Z := 10000.
Definition tl_size : Z := 88.
Definition tl_num (a : Z) : Z := a.
Definition tl_sync (a : Z) : Z := a + 16.
Definition tl_start (a : Z) : Z := a + 48.
Definition tl_tls (a : Z) : Z := a + 80.

Fixpoint tls_001_count (n : nat) (at_tls : Z) : prog unit :=
  match n with
  | O => Ret tt
  | S n => increment at_tls;; increment (notls st);; tls_001_count n at_tls
  end.
Definition tls_001_func (data : Z) : prog (Z + string) :=
  at_tls ← trigger (TLS_address (tls st));
  sem_post (tl_sync data);;
  num ← var_load (tl_num data);
  say ("[" +:+ d num +:+ "] wait");;
  sem_wait (tl_start data);;
  num ← var_load (tl_num data);
  say ("[" +:+ d num +:+ "] start");;
  tls_001_count (Z.to_nat INC_COUNT) at_tls;;
  t ← var_load at_tls;
  var_store (tl_tls data) t;;
  num ← var_load (tl_num data);
  t ← var_load (tl_tls data);
  n ← var_load (notls st);
  say ("[" +:+ d num +:+ "] tls=" +:+ d t +:+ ", notls=" +:+ d n);;
  Ret void_NULL.
Fixpoint tls_001_create (n : nat) (i children : Z) (tids : list Z) (k : list Z -> prog verdict) : prog verdict :=
  match n with
  | O => k tids
  | S n =>
      let c := elem children tl_size i in
      var_store (tl_num c) i;;
      sem_init (tl_sync c) 0 0;;
      sem_init (tl_start c) 0 0;;
      pthread_create (tls_001_func c) (fun _ tid => tls_001_create n (i + 1) children (tids ++ [tid]) k)
  end.
Fixpoint sync_waits (sync_of : Z -> Z) (n : nat) (i : Z) : prog unit :=
  match n with O => Ret tt | S n => sem_wait (sync_of i);; sync_waits sync_of n (i + 1) end.
Fixpoint tls_001_check (n : nat) (i children : Z) (k : prog verdict) : prog verdict :=
  match n with
  | O => k
  | S n =>
      t ← var_load (tl_tls (elem children tl_size i));
      TP_ASSERT t =? INC_COUNT, Some "invalid TLS value." ;;
      tls_001_check n (i + 1) children k
  end.
Definition tls_001 (child_count : Z) : prog verdict :=
  TP_ASSERT 0 <? child_count, COUNT_MANDATORY ;;
  let n := Z.to_nat child_count in
  r ← calloc child_count tl_size;
  match r with
  | None => Ret (Some "calloc error.")
  | Some children =>
      let elem i := elem children tl_size i in
      tls_001_create n 0 children [] (fun tids =>
      sync_waits (fun i => tl_sync (elem i)) n 0;;
      post_starts (fun i => tl_start (elem i)) n 0;;
      join_all (fun i => tl_sync (elem i)) (fun i => tl_start (elem i)) 0 tids;;
      tls_001_check n 0 children (
      free children;;
      Ret None))
  end.

(** ** nfo *)

(** The mappings of a thread; [buf] is a variable of its own. *)
Fixpoint nfo_thread_map (n : nat) (buf : list Z) (k : list Z -> prog verdict) : prog verdict :=
  match n with
  | O => k buf
  | S n =>
      a ← mmap NULL PAGE_SIZE PROT_READ (MAP_PRIVATE .| MAP_ANONYMOUS) (-1) 0;
      TP_ASSERT negb (a =? MAP_FAILED), Some "out of memory.(mmap)" ;;
      say ("mmap:buf[" +:+ d (Z.of_nat (length buf)) +:+ "]=" +:+ show_p a);;
      nfo_thread_map n (buf ++ [a]) k
  end.
Definition nfo_func : prog verdict :=
  nfo_thread_map MemSys.NFO_LEN [] (fun buf => MemSys.nfo_loads buf;; Ret None).
Definition nfo_thread : prog (Z + string) := v ← nfo_func; Ret (as_pointer v).
Definition nfo_join (thread : Z) : prog verdict :=
  '(state, value) ← pthread_join thread;
  TP_ASSERT state =? 0, Some "pthread_join error." ;;
  TP_ASSERT is_NULL (as_verdict value), as_verdict value ;;
  Ret None.
Definition nfo_001 : prog verdict :=
  ret ← nfo_func;
  TP_ASSERT is_NULL ret, ret ;;
  pthread_create nfo_thread (fun state thread =>
  TP_ASSERT state =? 0, Some "pthread_create error." ;;
  nfo_join thread).
Definition nfo_002_child : prog (Z + string) := sem_post (sync st);; sem_wait (start st);; nfo_thread.
Definition nfo_002 : prog verdict :=
  sem_init (sync st) 0 0;;
  sem_init (start st) 0 0;;
  pthread_create nfo_002_child (fun state thread =>
  TP_ASSERT state =? 0, Some "pthread_create error." ;;
  sem_wait (sync st);;
  ret ← nfo_func;
  TP_ASSERT is_NULL ret, ret ;;
  sem_post (start st);;
  nfo_join thread).

(** ** pthread_getaffinity and pthread_setaffinity *)

(** [pthread_getaffinity_parse_args] and [pthread_setaffinity_parse_args]. *)
Definition pthread_affinity_parse_args (argv : list string) : prog sched_setaffinity_args :=
  sched_setaffinity_parse_args argv.

(** The steps of both threads: [CPU_ALLOC] and [CPU_ZERO_S], with the check; then a query of the own
    affinity that must succeed. *)
Definition cleared_set (n : Z) (msg : string) (k : cpu_set -> prog verdict) : prog verdict :=
  alloc_or n msg (fun set => set ← CPU_ZERO_S (CPU_ALLOC_SIZE n) set; k set).
Definition own_affinity (n tid : Z) (msg : string) (k : cpu_set -> prog verdict) : prog verdict :=
  cleared_set n msg (fun set =>
  '(status, set) ← get_affinity tid (CPU_ALLOC_SIZE n) set;
  TP_ASSERT status =? 0, Some "sched_getaffinity error." ;;
  k set).
Definition own_cpu : prog Z := vcpu ← get_cpu_id; Ret (if vcpu <? 0 then 0 else vcpu).

(** [tid] is asked of the kernel, [self] is [pthread_self()]. *)
Definition pthread_getaffinity_func (num_cpus : Z) : prog verdict :=
  vcpu ← own_cpu;
  tid ← gettid;
  self ← pthread_self;
  let size := CPU_ALLOC_SIZE num_cpus in
  cleared_set num_cpus "CPU_ALLOC error.(sched_set)" (fun sched_set_cpu =>
  sched_set_cpu ← CPU_SET_S vcpu size sched_set_cpu;
  status ← set_affinity tid size sched_set_cpu;
  TP_ASSERT status =? 0, Some "sched_setaffinity error." ;;
  own_affinity num_cpus tid "CPU_ALLOC error.(sched_get)" (fun sched_get_cpu =>
  TP_ASSERT CPU_EQUAL_S size sched_set_cpu sched_get_cpu, Some "invalid affinity(sched_get)" ;;
  cleared_set num_cpus "CPU_ALLOC error.(pthread_get)" (fun pthread_get_cpu =>
  '(status, pthread_get_cpu) ← pthread_getaffinity_np self size pthread_get_cpu;
  TP_ASSERT status =? 0, Some "pthread_getaffinity_np error." ;;
  TP_ASSERT CPU_EQUAL_S size sched_set_cpu pthread_get_cpu, Some "invalid affinity(pthread_get)" ;;
  Ret None))).
Definition pthread_setaffinity_func (num_cpus : Z) : prog verdict :=
  vcpu ← own_cpu;
  tid ← gettid;
  self ← pthread_self;
  let size := CPU_ALLOC_SIZE num_cpus in
  own_affinity num_cpus tid "CPU_ALLOC error.(orig_cpu)" (fun orig_cpu =>
  cleared_set num_cpus "CPU_ALLOC error.(pthread_set)" (fun pthread_set_cpu =>
  pthread_set_cpu ← CPU_SET_S vcpu size pthread_set_cpu;
  TP_ASSERT negb (CPU_EQUAL_S size orig_cpu pthread_set_cpu), Some "invalid affinity(pthread_set)" ;;
  status ← pthread_setaffinity_np self size (Some (cs_bits pthread_set_cpu));
  TP_ASSERT status =? 0, Some "pthread_setaffinity_np error." ;;
  own_affinity num_cpus tid "CPU_ALLOC error.(sched_get)" (fun sched_get_cpu =>
  TP_ASSERT CPU_EQUAL_S size pthread_set_cpu sched_get_cpu, Some "invalid affinity(sched_get)" ;;
  Ret None))).

(** [struct child]: [num_cpus] at offset 8 of 24 bytes; there is one child, and its message is the
    verdict.  A failed [pthread_create] leaves the thread and the message 0. *)
Definition sizeof_child : Z := 24.
Definition child_num_cpus (a : Z) : Z := a + 8.
Definition pthread_affinity_test (func : Z -> prog verdict) (args : sched_setaffinity_args) : prog verdict :=
  TP_ASSERT 0 <? num_of_cpus args, MANDATORY ;;
  r ← calloc 1 sizeof_child;
  match r with
  | None => Ret (Some "calloc error.")
  | Some children =>
      var_store (child_num_cpus children) (num_of_cpus args);;
      pthread_create (num_cpus ← var_load (child_num_cpus children); v ← func num_cpus; Ret (as_pointer v)) (fun _ tid =>
      '(ret, value) ← pthread_join tid;
      let errmsg := as_verdict (if ret =? 0 then value else void_NULL) in
      TP_ASSERT is_NULL errmsg, errmsg ;;
      Ret None)
  end.
Definition pthread_getaffinity_000 (args : sched_setaffinity_args) : prog verdict :=
  pthread_affinity_test pthread_getaffinity_func args.
Definition pthread_setaffinity_000 (args : sched_setaffinity_args) : prog verdict :=
  pthread_affinity_test pthread_setaffinity_func args.

(** ** cpu_thread_limits/000 *)

(** The arguments are [-t] and [-c]; [proc_num] is [thread_num] here. *)
Definition set_thread_limits_arg (c : ascii) (optarg : string) (a : limits_args) : limits_args :=
  if Ascii.eqb c "t" then LimitsArgs (atoi optarg) (cpu_num a)
  else if Ascii.eqb c "c" then LimitsArgs (proc_num a) (atoi optarg) else a.
Definition cpu_thread_limits_get_param (argv : list string) : prog limits_args :=
  getopt_loop set_thread_limits_arg
    (events (scan (default "" (argv !! 0%nat)) (with_arguments ["t"; "c"]%char) [] (drop 1 argv))) (LimitsArgs 0 0).

(** [child_thread_t]: 24 bytes; [child_arg_t] lies at offset 12. *)
Definition lt_size : Z := 24.
Definition lt_args (a : Z) : Z := a + 12.
Definition arg_local_id (a : Z) : Z := a.
Definition arg_waiting (a : Z) : Z := a + 4.
Definition child_func (c_arg : Z) : prog (Z + string) :=
  var_store (arg_waiting c_arg) 1;;
  await_signal (threads_barrier st);;
  tid ← gettid;
  local_id ← var_load (arg_local_id c_arg);
  say ("[tid=" +:+ d tid +:+ "] from child thread.(local_id=" +:+ d local_id +:+ ")");;
  Ret void_NULL.
Fixpoint limits_create (n : nat) (ith child : Z) (thr : list (Z * Z)) (k : list (Z * Z) -> prog verdict) : prog verdict :=
  match n with
  | O => k thr
  | S n =>
      let c := lt_args (elem child lt_size ith) in
      var_store (arg_local_id c) (ith + 1);;
      var_store (arg_waiting c) 0;;
      pthread_create (child_func c) (fun iret tid => limits_create n (ith + 1) child (thr ++ [(iret, tid)]) k)
  end.
Fixpoint limits_check (ith child : Z) (thr : list (Z * Z)) (k : prog verdict) : prog verdict :=
  match thr with
  | [] => k
  | (iret, _) :: thr =>
      if negb (iret =? 0) then
        say ("failed to create thread[" +:+ d ith +:+ "]: " +:+ d iret);;
        free child;;
        TP_ASSERT false, Some "pthread_create failed." ;; Ret None
      else limits_check (ith + 1) child thr k
  end.

(** From the label [retry]: a flag that is set stays set, so that going back to the first one comes to
    waiting for the one that is 0. *)
Fixpoint limits_retry (n : nat) (ith child : Z) : prog unit :=
  match n with
  | O => Ret tt
  | S n => await_signal (arg_waiting (lt_args (elem child lt_size ith)));; limits_retry n (ith + 1) child
  end.
Fixpoint limits_join (thr : list (Z * Z)) : prog unit :=
  match thr with [] => Ret tt | (_, tid) :: thr => pthread_join tid;; limits_join thr end.
Definition cpu_thread_limits_000 (cst : CpuTests.statics) (args : limits_args) : prog verdict :=
  TP_ASSERT 0 <? proc_num args, Some "-t <child thread num> invalid argument." ;;
  TP_ASSERT 0 <? cpu_num args, Some "-c <num cpus> invalid argument." ;;
  let n := Z.to_nat (proc_num args) in
  r ← calloc (proc_num args) lt_size;
  match r with
  | None => Ret (Some "calloc error.")
  | Some child =>
      limit_processes cst (cpu_num args) (
      limits_create n 0 child [] (fun thr =>
      limits_check 0 child thr (
      limits_retry n 0 child;;
      var_store (threads_barrier st) 1;;
      limits_join thr;;
      free child;;
      Ret None)))
  end.

(** ** sched_setaffinity/011 *)

(** [struct child_thread] of 011, 88 bytes, in a local array; the other fields are as in tls/001. *)
Definition c11_read_fd (a : Z) : Z := a + 80.
Definition c11_write_fd (a : Z) : Z := a + 84.
Definition show_task (tid cpu : Z) : prog unit :=
  say ("==[tid:" +:+ d tid +:+ " on cpu" +:+ d cpu +:+ "]==");; show_extended_registers.
Definition child_fn_common (data : Z) : prog unit :=
  cpuid ← get_cpu_id;
  tid ← gettid;
  fd ← var_load (c11_write_fd data);
  write fd (pid_bytes cpuid ++ pid_bytes tid);;
  show_task tid cpuid;;
  sem_post (tl_sync data);;
  sem_wait (tl_start data);;
  tid ← gettid;
  cpuid ← get_cpu_id;
  show_task tid cpuid;;
  fd ← var_load (c11_read_fd data);
  close fd;;
  fd ← var_load (c11_write_fd data);
  close fd;;
  Ret tt.

(** [func_c1] and [func_c2], which differ in the values of the registers only. *)
Definition func_c (data : Z) : prog (Z + string) :=
  write_xg;; write_xf;; child_fn_common data;; Ret void_NULL.

(** [child_info[i]], zeros when the read fails.  [pthr] is not set when there is no thread; it is joined
    then only if there was no pipe either, since otherwise the read does not end, and is taken for 0. *)
Definition child_info (l : list Z) : Z * Z := (bytes_pid (take 4 l) 0, bytes_pid (drop 4 l) 0).
Fixpoint create_011 (n : nat) (i : Z) (acc : list (Z * (Z * Z))) (k : list (Z * (Z * Z)) -> prog verdict) : prog verdict :=
  match n with
  | O => k acc
  | S n =>
      let c := elem (frame st) tl_size i in
      '(_, pipe_fd) ← pipe;
      var_store (tl_num c) i;;
      var_store (c11_read_fd c) pipe_fd.1;;
      var_store (c11_write_fd c) pipe_fd.2;;
      sem_init (tl_sync c) 0 0;;
      sem_init (tl_start c) 0 0;;
      pthread_create (func_c c) (fun _ pthr =>
      '(_, l) ← read pipe_fd.1 8;
      close pipe_fd.1;;
      close pipe_fd.2;;
      create_011 n (i + 1) (acc ++ [(pthr, child_info l)]) k)
  end.
Definition sched_setaffinity_011 (args : sched_setaffinity_args) : prog verdict :=
  TP_ASSERT 0 <? num_of_cpus args, MANDATORY ;;
  let num_cpus := num_of_cpus args in
  let elem i := elem (frame st) tl_size i in
  create_011 2 0 [] (fun children =>
  let info i := default (0, (0, 0)) (children !! i) in
  alloc_child num_cpus (fun cpusetp_child =>
  let size := CPU_ALLOC_SIZE num_cpus in
  cpusetp_child ← CPU_ZERO_S size cpusetp_child;
  cpusetp_child ← CPU_SET_S (info 0%nat).2.1 size cpusetp_child;
  sync_waits (fun i => tl_sync (elem i)) 2 0;;
  result ← set_affinity (info 1%nat).2.2 size cpusetp_child;
  CPU_FREE cpusetp_child;;
  sem_post (tl_start (elem 1));;
  sem_post (tl_start (elem 0));;
  join_all (fun i => tl_sync (elem i)) (fun i => tl_start (elem i)) 0 children.*1;;
  TP_ASSERT negb (result =? -1), Some "sched_setaffinity failed from to process." ;;
  Ret None)).

(** ** getrusage/002 *)

Definition RUSAGE_THREAD : Z := 1.

(** The thread; its failures are not told. *)
Definition getrusage002_child (fuel : nat) : prog (Z + string) :=
  var_store (sig_count st) 0;;
  say "[child before]";;
  ret ← Time.send_and_show_rusage RUSAGE_THREAD;
  if negb (ret =? 0) then Ret void_NULL else
  r ← Time.signal Time.SIGALRM "getrusage002_sig_handle";
  if r =? -1 then say "signal(SIGALRM) failed.";; Ret void_NULL else
  Time.use_memory fuel (sig_count st) (say "mmap() failed.";; Ret void_NULL) (fun tmp_buf =>
  say ("free memory " +:+ Time.kib);;
  munmap tmp_buf Time.TEMP_BUF_SIZE;;
  say "[child after]";;
  Time.send_and_show_rusage RUSAGE_THREAD;;
  Ret void_NULL).
Definition getrusage_002 (fuel : nat) : prog verdict :=
  say "[parent before]";;
  ret ← Time.send_and_show_rusage RUSAGE_THREAD;
  TP_ASSERT ret =? 0, Some "getrusage() failed." ;;
  pthread_create (getrusage002_child fuel) (fun status child_th =>
  TP_ASSERT status =? 0, Some "failed to create thread" ;;
  pthread_join child_th;;
  say "[parent after]";;
  ret ← Time.send_and_show_rusage RUSAGE_THREAD;
  TP_ASSERT ret =? 0, Some "getrusage() failed." ;;
  Ret Time.NEED_CHECK).

(** ** tgkill/002 and tkill/001 *)

(** The thread tells its number, at [frame], and waits; so does the test after it has sent the signal. *)
Definition kill_child_func (c_tid : Z) : prog (Z + string) :=
  tid ← gettid;
  var_store c_tid tid;;
  pid ← getpid;
  tid ← var_load c_tid;
  say ("[child]pid=" +:+ d pid +:+ ", tid=" +:+ d tid);;
  spin_forever (Ret void_NULL).
Definition kill_thread_test (send : Z -> prog Z) : prog verdict :=
  var_store (frame st) 0;;
  pthread_create (kill_child_func (frame st)) (fun status _ =>
  TP_ASSERT status =? 0, Some "failed to create thread" ;;
  say "[parent]sleep a few sec...";;
  _ ← trigger (LIBC_sleep 5000000);
  say "[parent]wake up";;
  child_tid ← var_load (frame st);
  r ← send child_tid;
  TP_ASSERT r =? 0, Some "tgkill failed" ;;
  spin_forever (Ret None)).
Definition tgkill_002 : prog verdict :=
  kill_thread_test (fun tid => pid ← getpid; r ← trigger (SYS_tgkill pid tid SIGUSR1); syscall_ret r).
Definition tkill_001 : prog verdict :=
  kill_thread_test (fun tid => r ← trigger (SYS_tkill tid SIGUSR1); syscall_ret r).

End suites.
End Threads.
