(* ===== verification/TaskRuns.v ===== *)
(** * The affinity and thread tests in every interleaving

    The tests of CpuTests.v and Threads.v on kernels that behave as documented (Tasks.v). *)
From S2P Require Import Prelude CMachine Procs ProcSpec Libc Affinity Fork Exec PtraceRuns ForkRuns AffinityProofs Tasks CpuTests Time Threads.
Import Procs ProcSpec PtraceRuns Affinity Exec Tasks CpuTests.
#[local] Open Scope Z_scope.

Module TaskRuns.

Definition failed (msg : string) : option (outcome verdict) := Some (Returned (Some msg)).

(** ** Moving a child *)

Definition sig_count_at : list Z := [0x601000; 0x601010; 0x601020; 0x601030].
Definition placed (stale : Z -> Z) (b1 b2 b3 b4 b5 b6 : Z) : CpuTests.statics :=
  CpuTests.Statics 0x601000 0x601010 0x601020 0x601030 stale [b1; b2; b3; b4; b5; b6].

(** A machine with room for 128 CPUs, of which those in [on] can be used; the test runs on [c0] and its
    children start on [c]; [ok]: processes can be created. *)
Definition cpu_boot (st : CpuTests.statics) (ok : bool) (on c0 c : Z) : tasks :=
  boot_task sig_count_at c0
    (Tasks.Config 64 on (fun _ => c) true 100 true leaving_handlers)
    (ProcSpec.Config true true ok true true [] (fun _ => Some EXIT_SUCCESS) (CpuTests.handlers st)).

(** The same, where the scheduler moves tasks: the test looks once at its CPU, and finds itself on [c0];
    the child looks twice, and finds itself on [c], and, unless its mask then forbids it, on [c']. *)
Definition moving (st : CpuTests.statics) (on c0 c c' : Z) : tasks :=
  with_drift (fun _ => {[ main_pid := [c0]; main_pid + 1 := [c; c'] ]}) (cpu_boot st true on c0 c).

(** 008 and 009, where they move the child, and their verdict: when the CPU cannot be used the child is
    not moved by the test, and what the test says depends on whether the scheduler has moved it. *)
Definition migrate_test (st : CpuTests.statics) (nine : bool) (n : Z) : prog verdict :=
  if nine then sched_setaffinity_009 st (SetArgs n) else sched_setaffinity_008 st (SetArgs n).
Definition migrate_to (nine : bool) (n parent child : Z) : Z :=
  if nine then migrate_target_009 n parent child else get_migrate_target_cpuid parent child (n - 1).
Definition migrate_verdict (nine : bool) (n on c0 c c' : Z) : option (outcome verdict) :=
  if Z.testbit on (migrate_to nine n c0 c) then pass
  else if c' =? c then failed "Really process running there?"
  else failed "sched_setaffinity failed to child affinity.".

Definition three : list Z := [0; 1; 2].
Lemma in_three c : 0 <= c < 3 -> In c three.
Proof. intros Hc. unfold three. simpl. lia. Qed.
Definition sets_of_three : list Z := Z.of_nat <$> seq 1 7.
Lemma in_sets on : 0 < on < 8 -> In on sets_of_three.
Proof. intros Hc. apply in_map_iff. exists (Z.to_nat on). split; [lia|]. apply in_seq. lia. Qed.

Definition migrations_hold (st : CpuTests.statics) : bool :=
  forallb (fun on => forallb (fun c0 => forallb (fun c => forallb (fun c' =>
    negb (Z.testbit on c0 && Z.testbit on c && Z.testbit on c') ||
    forallb (fun nine =>
      results_b depth (@Procs.start TaskSpec (migrate_test st nine 3) (moving st on c0 c c'))
        [migrate_verdict nine 3 on c0 c c']) [false; true]) three) three) three) sets_of_three.

Lemma migrations_computed stale b1 b2 b3 b4 b5 b6 : migrations_hold (placed stale b1 b2 b3 b4 b5 b6) = true.
Proof. vm_compute. reflexivity. Qed.

(** ** The other tests with one child, or one thread *)

(** The tests of CpuTests.v with their verdicts where processes can be created and where they cannot,
    and where the child can write its file and where not; none of sched_getaffinity/006 and
    sched_yield/000 depends on what the child finds. *)
Definition fork_failed : option (outcome verdict) := failed "fork() Failed.".
Definition order : option (outcome verdict) := Some (Returned END_ORDER).
Definition get_args (path : string) (l : list string) : sched_getaffinity_args :=
  GetArgs 3 (Some path) (Some "cpuset"%string) l.
Definition cpu_table (st : CpuTests.statics) (undefined : prog verdict) (path : string) (l : list string) :
    list (prog verdict * option (outcome verdict) * option (outcome verdict)) :=
  [(sched_getaffinity_005 (GetArgs 3 None None []), pass, fork_failed);
   (sched_getaffinity_006 undefined (get_args path l), pass, fork_failed);
   (sched_yield_000, order, fork_failed);
   (cpu_proc_limits_000 st (LimitsArgs 1 100), pass, fork_failed);
   (cpu_proc_limits_000 st (LimitsArgs 1 101), failed "-c <num cpus> is larger than hard limit",
    failed "-c <num cpus> is larger than hard limit")].

(** The tests of Threads.v, where threads can be created and where they cannot. *)
Definition thread_statics : Threads.statics :=
  Threads.Statics 0x601000 0x601010 0x601020 0x601030 0x601040 0x601050 0x601060 0x7ff000000000.
Definition thread_handlers (fn : string) (vars : gmap Z Z) : gmap Z Z :=
  if String.eqb fn "getrusage002_sig_handle" then <[0x601060 := 1]> vars else vars.
Definition thread_boot (ok : bool) (on c0 c : Z) : tasks :=
  let t := boot_task [] c0 (Tasks.Config 64 on (fun _ => c) ok 100 true (fun _ => None))
             (ProcSpec.Config true true true true true [] (fun _ => None) thread_handlers) in
  with_sys (upd main_pid (with_vars {[ 0x601000 := -1 ]}) (sys t)) t.
Definition killed_by_usr1 : option (outcome verdict) := Some (Signalled Fork.SIGUSR1 SIG_DFL).
Definition thread_table (cst : CpuTests.statics) :
    list (prog verdict * list (option (outcome verdict)) * list (option (outcome verdict))) :=
  let st := thread_statics in
  [(Threads.gettid_001 st, [pass], [failed "pthread_create error!!"]);
   (Threads.gettid_002 st 1, [pass], [failed "pthread_create error."]);
   (Threads.cpu_thread_limits_000 st cst (LimitsArgs 1 100), [pass], [failed "pthread_create failed."]);
   (Threads.getrusage_002 st 0, [Some (Returned Time.NEED_CHECK)], [failed "failed to create thread"]);
   (Threads.tgkill_002 st, [killed_by_usr1; failed "tgkill failed"], [failed "failed to create thread"]);
   (Threads.tkill_001 st, [killed_by_usr1; failed "tgkill failed"], [failed "failed to create thread"])].

(** Those that do not look whether the thread was created: sched_setaffinity/011 and tls/001 then wait
    for ever. *)
Definition pass_with_threads (on c0 : Z) : list (prog verdict * option (outcome verdict)) :=
  let a := SetArgs 3 in
  [(Threads.tls_000 thread_statics, pass);
   (Threads.pthread_getaffinity_000 a, pass);
   (Threads.pthread_setaffinity_000 a, if on =? 2 ^ c0 then failed "invalid affinity(pthread_set)" else pass)].
Definition hang_without_threads : list (prog verdict) :=
  [Threads.sched_setaffinity_011 thread_statics (SetArgs 3); Threads.tls_001 thread_statics 1; Threads.tls_001 thread_statics 2].

Section computed.
Context (stale : Z -> Z) (b1 b2 b3 b4 b5 b6 : Z).
Let st := placed stale b1 b2 b3 b4 b5 b6.

Definition table_b (s : bool -> tasks) (p : prog verdict) (l1 l2 : list (option (outcome verdict))) : bool :=
  results_b depth (@Procs.start TaskSpec p (s true)) l1 && results_b depth (@Procs.start TaskSpec p (s false)) l2.

Lemma cpu_table_computed undefined path l b :
  argv_block path (ExecArgs (Some path) l) = Some b ->
  forallb (fun '(p, o1, o2) => table_b (fun ok => cpu_boot st ok 7 0 1) p [o1] [o2]) (cpu_table st undefined path l) = true.
Proof.
  intros Hb. unfold cpu_table, sched_getaffinity_006, sched_getaffinity_006_child, get_args, with_execve.
  cbn [Affinity.file_path cpuset_path ga_argv ga_num_of_cpus]. rewrite Hb. vm_compute. reflexivity.
Qed.

Lemma thread_table_computed :
  forallb (fun '(p, l1, l2) => table_b (fun ok => thread_boot ok 7 0 1) p l1 l2) (thread_table st) = true.
Proof. vm_compute. reflexivity. Qed.
End computed.

Lemma pass_with_threads_computed :
  forallb (fun on => forallb (fun c0 => negb (Z.testbit on c0) ||
    forallb (fun '(p, o) => results_b depth (@Procs.start TaskSpec p (thread_boot true on c0 c0)) [o])
      (pass_with_threads on c0)) three) sets_of_three = true.
Proof. vm_compute. reflexivity. Qed.

Lemma hang_without_threads_computed :
  forallb (fun p => results_b depth (@Procs.start TaskSpec p (thread_boot false 7 0 0)) [None]) (hang_without_threads) = true.
Proof. vm_compute. reflexivity. Qed.

(** ** On every kernel *)

Section kernel.
Context `{TaskLaws} (stale : Z -> Z) (b1 b2 b3 b4 b5 b6 : Z).
Let st := placed stale b1 b2 b3 b4 b5 b6.

(** A computed table. *)
Lemma task_table_sound (t : bool -> tasks) p l1 l2 (ok : bool) s :
  task_view s = t ok -> table_b t p l1 l2 = true -> results (Procs.start p s) (if ok then l1 else l2).
Proof. intros E [H1 H2]%andb_true_iff. apply (task_results depth _ _ _ _ E). by destruct ok. Qed.

(** C34: On every kernel that answers like [TaskSpec], on a machine of which any of the first three CPUs
    can be used, wherever the test and its child find themselves when they look, for the scheduler may
    move them: sched_setaffinity/008 and 009, run with [-p 3], end in every interleaving of the two
    processes, their signals and the pipe, without deadlock.  They pass when the CPU they choose can be
    used; otherwise they say that the child did not move, or, when the scheduler has moved it, that
    sched_setaffinity failed. *)
Theorem migration_verdicts (nine : bool) on c0 c c' s :
  0 < on < 8 -> 0 <= c0 < 3 -> 0 <= c < 3 -> 0 <= c' < 3 ->
  Z.testbit on c0 = true -> Z.testbit on c = true -> Z.testbit on c' = true ->
  task_view s = moving st on c0 c c' ->
  results (Procs.start (migrate_test st nine 3) s) [migrate_verdict nine 3 on c0 c c'].
Proof.
  intros Hon Hc0 Hc Hc' H0 H1 H2 E. apply (task_results depth _ _ _ _ E).
  pose proof (migrations_computed stale b1 b2 b3 b4 b5 b6) as Hall. unfold migrations_hold in Hall.
  rewrite forallb_forall in Hall. specialize (Hall on (in_sets on Hon)).
  rewrite forallb_forall in Hall. specialize (Hall c0 (in_three c0 Hc0)).
  rewrite forallb_forall in Hall. specialize (Hall c (in_three c Hc)).
  rewrite forallb_forall in Hall. specialize (Hall c' (in_three c' Hc')).
  rewrite H0, H1, H2 in Hall. cbn [andb negb orb] in Hall.
  rewrite forallb_forall in Hall. apply Hall. destruct nine; simpl; auto.
Qed.

(** The other tests with one child: sched_getaffinity/006 passes although nobody looks at its child,
    and sched_yield/000 ends with its message in every case. *)
Theorem cpu_test_verdicts undefined path l (ok : bool) p o1 o2 s :
  8 <= Z.of_nat (length l) < 2 ^ 60 -> task_view s = cpu_boot st ok 7 0 1 ->
  (p, o1, o2) ∈ cpu_table st undefined path l ->
  results (Procs.start p s) [if ok then o1 else o2].
Proof.
  intros Hl E Hin. pose proof (ForkRuns.argv_block_fits path (ExecArgs (Some path) l)) as Hb.
  unfold argc in Hb. simpl in Hb. destruct (argv_block _ _) as [b|] eqn:Eb; [|lia].
  pose proof (cpu_table_computed stale b1 b2 b3 b4 b5 b6 undefined path l b Eb) as Hall.
  rewrite forallb_forall in Hall. apply list_elem_of_In in Hin. specialize (Hall _ Hin).
  pose proof (task_table_sound (fun ok => cpu_boot st ok 7 0 1) p [o1] [o2] ok s E Hall) as Hr. by destruct ok.
Qed.

(** C35: On every kernel that answers like [TaskSpec], the tests of [thread_table] end in every
    interleaving of the test and its thread with one of the verdicts given, and each of these occurs:
    gettid/001, gettid/002 and cpu_thread_limits/000 with one thread pass; getrusage/002 always ends
    with its message; tgkill/002 and tkill/001 are killed by their own signal, or fail when the thread
    has not told its number in time; without a thread all six fail. *)
Theorem thread_verdicts (ok : bool) p l1 l2 s :
  task_view s = thread_boot ok 7 0 1 -> (p, l1, l2) ∈ thread_table st ->
  results (Procs.start p s) (if ok then l1 else l2).
Proof.
  intros E Hin%list_elem_of_In. apply (task_table_sound (fun ok => thread_boot ok 7 0 1) _ _ _ _ _ E).
  pose proof (thread_table_computed stale b1 b2 b3 b4 b5 b6) as Hall. rewrite forallb_forall in Hall.
  apply (Hall _ Hin).
Qed.

(** tls/000 passes and so do both tests of the affinity of a thread, wherever the test starts, but
    pthread_setaffinity/000 fails where only one CPU can be used. *)
Theorem threads_pass on c0 p o s :
  0 < on < 8 -> 0 <= c0 < 3 -> Z.testbit on c0 = true -> task_view s = thread_boot true on c0 c0 ->
  (p, o) ∈ pass_with_threads on c0 -> results (Procs.start p s) [o].
Proof.
  intros Hon Hc0 H0 E Hin%list_elem_of_In. apply (task_results depth _ _ _ _ E).
  pose proof pass_with_threads_computed as Hall.
  rewrite forallb_forall in Hall. specialize (Hall on (in_sets on Hon)).
  rewrite forallb_forall in Hall. specialize (Hall c0 (in_three c0 Hc0)).
  rewrite H0 in Hall. cbn [negb orb] in Hall. rewrite forallb_forall in Hall. apply (Hall _ Hin).
Qed.

(** sched_setaffinity/011 and tls/001 do not look whether their threads were created: where they
    cannot be, the test waits for ever. *)
Theorem hang_without_thread p s :
  p ∈ hang_without_threads -> task_view s = thread_boot false 7 0 0 -> results (Procs.start p s) [None].
Proof.
  intros Hin%list_elem_of_In E. apply (task_results depth _ _ _ _ E).
  pose proof hang_without_threads_computed as Hall. rewrite forallb_forall in Hall. apply (Hall _ Hin).
Qed.

(** The children of 010 still wait for their signals, and none is on its way. *)
Definition waits (w : @world TaskSpec) (pid v : Z) : bool :=
  match threads w !! pid, procs (sys (kst w)) !! pid with
  | Some (Vis (VAR_await a NONZERO) _, _), Some b =>
      (a =? v) && alive b && bool_decide (length (pending b) = 0%nat)
  | _, _ => false
  end.
Definition stranded (w : @world TaskSpec) : bool :=
  waits w 101 (sig_count_child1 st) && waits w 102 (sig_count_child2 st).

(** sched_setaffinity/010 can pass; but when the child is on a CPU that the mask made for [-p] has no
    room for, the call fails, and the test then signals a process group that does not exist: it is over
    while both children go on waiting in their loops. *)
Theorem sched_setaffinity_010_strands s1 s2 :
  task_view s1 = cpu_boot st true 7 0 1 -> task_view s2 = cpu_boot st true (2 ^ 70 + 1) 0 70 ->
  may (eq pass) (Procs.start (sched_setaffinity_010 st (SetArgs 3)) s1) /\
  exists w tr, steps (Procs.start (sched_setaffinity_010 st (SetArgs 64)) s2) tr w /\
    result w = failed "sched_setaffinity failed from to process." /\
    stranded (sim_world (K' := TaskSpec) task_view w) = true.
Proof.
  intros E1 E2. split.
  - refine (task_may _ _ _ _ _ E1 _); [done|].
    apply (may_scheduled (K := TaskSpec)
      [100; 100; 100; 101; 101; 101; 101; 101; 100; 100; 100; 100; 100; 100; 100; 102; 102; 102; 102; 102; 100;
       100; 100; 100; 100; 100; 100; 102; 102; 102; 102; 101; 101; 101; 101; 101; 101; 100; 100; 100]).
    by vm_compute.
  - apply (task_scheduled _ _ (cpu_boot st true (2 ^ 70 + 1) 0 70)
      [100; 100; 100; 101; 101; 101; 101; 101; 100; 100; 100; 100; 100; 100; 100; 102; 102; 102; 102; 102; 100;
       100; 100; 100; 100; 100; 100]
      (Returned (Some "sched_setaffinity failed from to process."%string)) stranded); [done|done|by vm_compute].
Qed.

End kernel.

(** ** The theorems at work *)

Lemma migration_verdicts_witness :
  let st := placed (fun _ => 0) 0 0 0 0 0 0 in
  results (@Procs.start TaskSpec (migrate_test st true 3) (moving st 5 0 2 2)) [failed "Really process running there?"] /\
  results (@Procs.start TaskSpec (migrate_test st true 3) (moving st 5 0 2 0))
    [failed "sched_setaffinity failed to child affinity."].
Proof.
  cbv zeta. split.
  - apply (@migration_verdicts TaskSpec TaskSpecLaws (fun _ => 0) 0 0 0 0 0 0 true 5 0 2 2); [lia..|done|done|done|done].
  - apply (@migration_verdicts TaskSpec TaskSpecLaws (fun _ => 0) 0 0 0 0 0 0 true 5 0 2 0); [lia..|done|done|done|done].
Defined.

Lemma thread_verdicts_witness :
  let st := thread_statics in
  results (@Procs.start TaskSpec (Threads.tgkill_002 st) (thread_boot true 7 0 1)) [killed_by_usr1; failed "tgkill failed"] /\
  results (@Procs.start TaskSpec (Threads.gettid_001 st) (thread_boot false 7 0 1)) [failed "pthread_create error!!"].
Proof.
  cbv zeta. split.
  - apply (@thread_verdicts TaskSpec TaskSpecLaws (fun _ => 0) 0 0 0 0 0 0 true _ _ [failed "failed to create thread"]); [done|].
    apply list_elem_of_In. simpl. auto 7.
  - apply (@thread_verdicts TaskSpec TaskSpecLaws (fun _ => 0) 0 0 0 0 0 0 false _ [pass]); [done|].
    apply list_elem_of_In. simpl. auto 7.
Defined.

End TaskRuns.
