(* ===== verification/TaskProofs.v ===== *)
(** * What the affinity and thread tests show on any kernel

    Properties of all runs of the tests of CpuTests.v and Threads.v, whatever is replied to them. *)
From S2P Require Import Prelude CMachine Libc Affinity AffinityRuns Fork Exec CpuTests Time Threads.
Import Libc Affinity Fork CpuTests Threads.
#[local] Open Scope Z_scope.

Module TaskProofs.

(** ** What a program can return *)

(** If [p] returns, then a value with [Q]. *)
Definition yields {A} (p : prog A) (Q : A -> Prop) : Prop :=
  forall e tr a e', run p e tr (Returned a) e' -> Q a.

Section yields.
Context {A B : Type} (Q : B -> Prop).

Lemma yields_ret (b : B) : Q b -> yields (Ret b) Q.
Proof. by intros HQ e tr a e' (_ & [= ->] & _). Qed.
Lemma yields_exit n : yields (Exit n) Q.
Proof. by intros e tr a e' (_ & ? & _). Qed.
Lemma yields_trap sig disp : yields (Trap sig disp) Q.
Proof. by intros e tr a e' (_ & ? & _). Qed.
Lemma yields_bind (p : prog A) (f : A -> prog B) : (forall a, yields (f a) Q) -> yields (p ≫= f) Q.
Proof. intros Hf e tr b e' (a & e1 & tr1 & tr2 & _ & Hr & _)%run_bind_returned. by apply (Hf a) in Hr. Qed.
Lemma yields_if (b : bool) (p q : prog B) : yields p Q -> yields q Q -> yields (if b then p else q) Q.
Proof. by destruct b. Qed.

(** When the first part matters. *)
Lemma yields_bind_first (P : A -> Prop) (p : prog A) (f : A -> prog B) :
  yields p P -> (forall a, P a -> yields (f a) Q) -> yields (p ≫= f) Q.
Proof.
  intros Hp Hf e tr b e' (a & e1 & tr1 & tr2 & H1 & Hr & _)%run_bind_returned.
  apply Hp in H1. by apply (Hf a H1) in Hr.
Qed.
End yields.

Lemma yields_assert (b : bool) msg (k : prog verdict) Q : Q msg -> yields k Q -> yields (TP_ASSERT b, msg ;; k) Q.
Proof. intros Hm Hk. destruct b; [done|by apply yields_ret]. Qed.

Create HintDb yields.
#[export] Hint Resolve yields_ret yields_exit yields_trap yields_bind yields_if yields_assert : yields.

(** Walks through a program down to its leaves. *)
Ltac walk :=
  repeat first
    [ match goal with |- yields (tp_assert false _ _) _ => apply yields_ret end | apply yields_assert | apply yields_exit | apply yields_trap | apply yields_if
    | apply yields_bind; intro | apply yields_ret
    | match goal with |- yields (let '(_, _) := ?x in _) _ => destruct x end
    | match goal with |- yields (match ?x with _ => _ end) _ => destruct x end ].

(** ** sched_yield/000 *)

Definition reports (v : verdict) : Prop := v <> None.

Lemma sched_yield_wait_reports pid : yields (sched_yield_wait pid) reports.
Proof. unfold sched_yield_wait. walk; done. Qed.

Lemma sched_yield_parent_reports s1 s2 core pid : yields (sched_yield_parent s1 s2 core pid (sched_yield_wait pid)) reports.
Proof.
  unfold sched_yield_parent, bind_or. walk; done.
Qed.

(** sched_yield/000 never passes, whatever the kernel does: where everything is as expected it ends
    with the message that tells what to look at, which the harness reports as a failure. *)
Theorem sched_yield_never_passes : yields sched_yield_000 reports.
Proof.
  unfold sched_yield_000. do 3 (apply yields_bind; intro).
  apply (yields_bind_first _ reports).
  - unfold sched_yield_run. walk; done.
  - intros v Hv. walk; done.
Qed.

(** ** gettid/002 *)

(** With one child the loop over the pairs has no round: gettid/002 with [-t 1] can only fail for want of
    memory or of the thread, whatever the numbers are that the kernel gives. *)
Theorem gettid_002_one_unchecked st :
  yields (gettid_002 st 1) (.∈ [None; Some "calloc error."; Some "pthread_create error."]%string).
Proof.
  unfold gettid_002, tp_assert. change (Z.to_nat 1) with 1%nat. cbn [Z.ltb Z.compare].
  cbn [gettid_002_init gettid_002_create gettid_002_check post_starts join_all Nat.sub app].
  unfold pthread_create. walk; set_solver.
Qed.

(** ** tls/001 *)

(** The variable at [a] is stored by the calling thread only: a load yields what was stored last, [v] at
    the start. *)
Definition after (a v : Z) (x : event) : Z :=
  match x with existT (VAR_store b n) _ => if b =? a then n else v | _ => v end.
Definition sees (a v : Z) (x : event) : Prop :=
  match x with existT (VAR_load b) r => b = a -> r = v | _ => True end.
Fixpoint own (a v : Z) (tr : list event) : Prop :=
  match tr with [] => True | x :: tr => sees a v x /\ own a (after a v x) tr end.
Definition final (a v : Z) (tr : list event) : Z := fold_left (after a) tr v.

Lemma own_app a v tr1 tr2 : own a v (tr1 ++ tr2) <-> own a v tr1 /\ own a (final a v tr1) tr2.
Proof. revert v. induction tr1 as [|x tr1 IH]; intros v; simpl; [naive_solver|]. rewrite IH. unfold final. simpl. tauto. Qed.
Lemma final_cons a v x tr : final a v (x :: tr) = final a (after a v x) tr.
Proof. done. Qed.
Lemma final_app a v tr1 tr2 : final a v (tr1 ++ tr2) = final a (final a v tr1) tr2.
Proof. apply fold_left_app. Qed.

(** [v++] on a variable of one's own, and on another one. *)
Lemma run_increment a e tr o e' :
  run (increment a) e tr o e' -> exists v, tr = [ev (VAR_load a) v; ev (VAR_store a (s64 (v + 1))) tt].
Proof. intros (v & tr1 & -> & (x & tr2 & -> & (-> & _))). destruct x. by exists v. Qed.

Lemma increment_own a v e tr o e' :
  run (increment a) e tr o e' -> own a v tr -> final a v tr = s64 (v + 1).
Proof. intros (x & ->)%run_increment (Hs & _). cbn in Hs. rewrite Hs by done. unfold final. cbn. by rewrite Z.eqb_refl. Qed.
Lemma increment_other a b v e tr o e' : a <> b -> run (increment b) e tr o e' -> final a v tr = v.
Proof. intros Hab (x & ->)%run_increment. unfold final. cbn. by replace (b =? a) with false by lia. Qed.

(** The loop adds its rounds to the variable of the thread, whatever happens to [notls]. *)
Lemma tls_001_count_own st n at_tls v e tr u e' :
  at_tls <> notls st -> 0 <= v -> v + Z.of_nat n < 2 ^ 63 ->
  run (tls_001_count st n at_tls) e tr (Returned u) e' -> own at_tls v tr -> final at_tls v tr = v + Z.of_nat n.
Proof.
  intros Hne. revert v e tr. induction n as [|n IH]; intros v e tr Hv Hn.
  - intros (-> & _) _. unfold final. simpl. lia.
  - cbn [tls_001_count]. intros (u1 & e1 & tr1 & tr2 & H1 & Hr & ->)%run_bind_returned.
    apply run_bind_returned in Hr as (u2 & e2 & tr3 & tr4 & H2 & H3 & ->).
    rewrite !own_app, !final_app. intros (Ho1 & Ho2 & Ho3).
    rewrite (increment_own _ _ _ _ _ _ H1 Ho1) in *. rewrite (increment_other _ _ _ _ _ _ _ Hne H2) in *.
    rewrite wrap_s_small in * by lia. rewrite (IH (v + 1) e2 tr4) by (lia || done). lia.
Qed.

(** Parts that store nothing. *)
Definition silent {A} (p : prog A) : Prop :=
  forall a v e tr b e', run p e tr (Returned b) e' -> final a v tr = v.
Lemma silent_trigger c : (forall a v r, after a v (ev c r) = v) -> silent (trigger c).
Proof. intros Hc a v e tr b e' (r & tr' & -> & (-> & _)). exact (Hc a v r). Qed.
Lemma silent_syscall_ret r : silent (syscall_ret r).
Proof. intros a v e tr b e' H. unfold syscall_ret in H. by destruct (is_error r), H as (-> & _). Qed.
Lemma silent_bind {A B} (p : prog A) (f : A -> prog B) : silent p -> (forall a, silent (f a)) -> silent (p ≫= f).
Proof.
  intros Hp Hf a v e tr b e' (x & e1 & tr1 & tr2 & H1 & H2 & ->)%run_bind_returned.
  rewrite final_app, (Hp a v _ _ _ _ H1). exact (Hf x a v _ _ _ _ H2).
Qed.
Lemma silent_sem_ret r : silent (sem_ret r).
Proof.
  intros a v e tr b e' H. destruct r as [x|sig disp]; [|by destruct H as (_ & ? & _)].
  exact (silent_syscall_ret x a v _ _ _ _ H).
Qed.
Lemma silent_sem_post x : silent (sem_post x).
Proof. apply silent_bind; [by apply (silent_trigger (LIBC_sem_post x))|intros; apply silent_sem_ret]. Qed.
Lemma silent_sem_wait x : silent (sem_wait x).
Proof. apply silent_bind; [by apply (silent_trigger (LIBC_sem_wait x))|intros; apply silent_sem_ret]. Qed.
Lemma silent_load x : silent (var_load x).
Proof. by apply (silent_trigger (VAR_load x)). Qed.
Lemma silent_say s : silent (say s).
Proof. by apply (silent_trigger (OUT _)). Qed.

Lemma tls_001_count_other st n at_tls a v e tr u e' :
  a <> at_tls -> a <> notls st -> run (tls_001_count st n at_tls) e tr (Returned u) e' -> final a v tr = v.
Proof.
  intros H1 H2. revert v e tr. induction n as [|n IH]; intros v e tr; [by intros (-> & _)|].
  cbn [tls_001_count]. intros (u1 & e1 & tr1 & tr2 & Ha & Hr & ->)%run_bind_returned.
  apply run_bind_returned in Hr as (u2 & e2 & tr3 & tr4 & Hb & Hc & ->).
  rewrite !final_app, (increment_other _ _ _ _ _ _ _ H1 Ha), (increment_other _ _ _ _ _ _ _ H2 Hb). by eapply IH.
Qed.

(** The next part of a run, whose trace is split off. *)
Ltac next_part H :=
  let u := fresh "u" in let e1 := fresh "e" in let tr1 := fresh "tr" in let tr2 := fresh "tr" in let H1 := fresh "Hp" in
  apply run_bind_returned in H as (u & e1 & tr1 & tr2 & H1 & H & ->).

(** C36: However the other threads are scheduled: a thread of tls/001 that comes to its end, and whose
    [tls] only it stores to, counts exactly 10000, and 10000 is what it leaves for the test in its
    [data->tls], whatever has become of the shared [notls] in the meantime. *)
Theorem tls_001_counts st data at_tls x e tr r e' :
  at_tls <> notls st -> tl_tls data <> at_tls -> tl_tls data <> notls st ->
  run (tls_001_func st data) e (ev (TLS_address (tls st)) at_tls :: tr) (Returned r) e' ->
  own at_tls 0 tr -> final (tl_tls data) x tr = INC_COUNT /\ final at_tls 0 tr = INC_COUNT.
Proof.
  intros Hn Hd Hdn Hr Ho. unfold tls_001_func in Hr. apply run_vis in Hr. cbn [bind] in Hr.
  do 8 next_part Hr. destruct Hr as ([] & tr9 & -> & Hr). cbn [bind] in Hr.
  assert (forall a v, final a v tr9 = v) as Hq.
  { intros a v. refine (silent_bind _ _ (silent_load _) _ a v _ _ _ _ Hr). intros num.
    apply silent_bind; [apply silent_load|]. intros t. apply silent_bind; [apply silent_load|]. intros n.
    apply silent_bind; [apply silent_say|]. by intros ? ? ? ? ? ? ? (-> & _). }
  rewrite !own_app in Ho. destruct Ho as (_ & _ & _ & _ & _ & _ & Ho & Hl & _).
  rewrite !final_app, !final_cons, !Hq. clear Hr Hq.
  repeat match goal with
  | H : run (sem_post _) _ ?t _ _ |- _ => rewrite !(fun a v => silent_sem_post _ a v _ _ _ _ H) in *; clear H
  | H : run (sem_wait _) _ ?t _ _ |- _ => rewrite !(fun a v => silent_sem_wait _ a v _ _ _ _ H) in *; clear H
  | H : run (say _) _ ?t _ _ |- _ => rewrite !(fun a v => silent_say _ a v _ _ _ _ H) in *; clear H
  end.
  rewrite !(fun a v => silent_load _ a v _ _ _ _ Hp0), !(fun a v => silent_load _ a v _ _ _ _ Hp3) in *.
  assert (final at_tls 0 tr5 = INC_COUNT) as Hc.
  { eapply (tls_001_count_own st (Z.to_nat INC_COUNT) at_tls 0); [done..|by vm_compute|exact Hp5|done]. }
  destruct Hp6 as (y & tr' & -> & (-> & [= ->] & _)). destruct Hl as (Hy & _). cbn in Hy. rewrite Hy by done.
  unfold after, ev. rewrite Z.eqb_refl. replace (tl_tls data =? at_tls) with false by lia. done.
Qed.

(** ** The theorem at work *)

(** A run of a thread alone, in which another thread keeps setting [notls] back to 0. *)
Definition st0 : statics := Statics 0 8 16 24 32 40 48 56.
Fixpoint counting (n : nat) (at_tls v : Z) : list event :=
  match n with
  | O => []
  | S n => [ev (VAR_load at_tls) v; ev (VAR_store at_tls (s64 (v + 1))) tt;
            ev (VAR_load (notls st0)) 0; ev (VAR_store (notls st0) (s64 1)) tt] ++ counting n at_tls (s64 (v + 1))
  end.
Lemma counting_runs n at_tls v e : run (tls_001_count st0 n at_tls) e (counting n at_tls v) (Returned tt) e.
Proof.
  revert v. induction n as [|n IH]; intros v; [done|].
  cbn [tls_001_count counting increment var_load var_store trigger mbind prog_mbind bind app]. by do 4 apply run_vis.
Qed.
Lemma counting_own n at_tls v : at_tls <> notls st0 -> own at_tls v (counting n at_tls v).
Proof.
  intros Hn. revert v. induction n as [|n IH]; intros v; [done|]. cbn [counting app own sees after ev].
  rewrite Z.eqb_refl. replace (notls st0 =? at_tls) with false by lia. by repeat split.
Qed.
Lemma counting_final n at_tls v :
  at_tls <> notls st0 -> 0 <= v -> v + Z.of_nat n < 2 ^ 63 -> final at_tls v (counting n at_tls v) = v + Z.of_nat n.
Proof.
  intros Hn Hv Hm. apply (tls_001_count_own st0 n at_tls v 0 _ tt 0); [done..|apply counting_runs|by apply counting_own].
Qed.

Definition thread_trace : list event :=
  [ev (LIBC_sem_post (tl_sync 1000)) (Ok 0); ev (VAR_load (tl_num 1000)) 5; ev (OUT ("[5] wait" +:+ nl)) tt;
   ev (LIBC_sem_wait (tl_start 1000)) (Ok 0); ev (VAR_load (tl_num 1000)) 5; ev (OUT ("[5] start" +:+ nl)) tt] ++
  counting (Z.to_nat INC_COUNT) 4096 0 ++
  [ev (VAR_load 4096) INC_COUNT; ev (VAR_store (tl_tls 1000) INC_COUNT) tt; ev (VAR_load (tl_num 1000)) 5;
   ev (VAR_load (tl_tls 1000)) INC_COUNT; ev (VAR_load (notls st0)) 1;
   ev (OUT ("[5] tls=10000, notls=1" +:+ nl)) tt].
Lemma thread_trace_runs e :
  run (tls_001_func st0 1000) e (ev (TLS_address (tls st0)) 4096 :: thread_trace) (Returned void_NULL) e.
Proof.
  unfold tls_001_func, thread_trace. apply run_vis.
  do 6 (cbn [app]; apply run_vis; cbn [mbind prog_mbind bind]).
  apply run_bind. left. exists tt, e, (counting (Z.to_nat INC_COUNT) 4096 0). eexists.
  split; [apply counting_runs|]. split; [|reflexivity]. do 6 apply run_vis. done.
Qed.
Lemma thread_trace_own : own 4096 0 thread_trace.
Proof.
  unfold thread_trace. apply own_app. split; [by repeat split|]. apply own_app. split; [by apply counting_own|].
  rewrite counting_final by (done || lia). by repeat split.
Qed.

Lemma tls_001_counts_witness : final (tl_tls 1000) 77 thread_trace = INC_COUNT /\ final 4096 0 thread_trace = INC_COUNT.
Proof.
  apply (tls_001_counts st0 1000 4096 77 3 thread_trace void_NULL 3);
    [discriminate..|apply thread_trace_runs|apply thread_trace_own].
Defined.

End TaskProofs.
