(* ===== verification/PvM.v ===== *)
(** * The process_vm_readv and process_vm_writev suites

    src/src/test_mck/src/process_vm_readv/ and process_vm_writev/: 000 executes the harness again in a
    child, with the case 999 and the address of a buffer of its own on the command line; 999 reads or
    writes this buffer of its parent. *)
From S2P Require Import Prelude CMachine Libc TestMck Affinity Fork MemSys.
Import Libc.
#[local] Open Scope Z_scope.

Module PvM.

(** ** 999 *)

(** [struct process_vm_readv_args] and [struct process_vm_writev_args], which are alike. *)
Record pv_args := PvArgs { pv_addr : Z; pv_size : Z; pv_expr : Z }.

(** The loop over getopt; [optarg[0]] of an empty argument is its end. *)
Definition first_char (s : string) : Z := match s with EmptyString => 0 | String c _ => chr c end.
Definition set_pv_arg (c : ascii) (optarg : string) (a : pv_args) : pv_args :=
  if Ascii.eqb c "a" then PvArgs (c_value (strtoul optarg 0)) (pv_size a) (pv_expr a)
  else if Ascii.eqb c "s" then PvArgs (pv_addr a) (c_value (strtoul optarg 0)) (pv_expr a)
  else if Ascii.eqb c "e" then PvArgs (pv_addr a) (pv_size a) (first_char optarg)
  else a.
Definition pv_setup (argv : list string) : prog pv_args :=
  Affinity.getopt_loop set_pv_arg
    (events (scan (default "" (argv !! 0%nat)) (Affinity.with_arguments ["a"; "s"; "e"]%char) [] (drop 1 argv)))
    (PvArgs 0 0 0).

(** One element of each [iovec]. *)
Definition call_process_vm_readv (pid local remote len : Z) : prog Z :=
  r ← trigger (SYS_process_vm false pid local remote len); syscall_ret r.
Definition call_process_vm_writev (pid local remote len : Z) : prog Z :=
  r ← trigger (SYS_process_vm true pid local remote len); syscall_ret r.

(** [at_buf] and [at_expr]: where the static pointers [read_buf] or [write_buf], and [expr_buf] are. *)
Section suites.
Context (at_buf at_expr : Z).

(** [p = malloc(size)], with the check. *)
Definition alloc_static (at_p size : Z) (msg : string) (k : Z -> prog verdict) : prog verdict :=
  r ← malloc size;
  let p := match r with Some (p, _) => p | None => NULL end in
  var_store at_p p;;
  TP_ASSERT negb (p =? NULL), Some msg ;;
  k p.

(** The check of the number of bytes: [ssize_t] against [size_t]. *)
Definition check_size (n size : Z) (k : prog verdict) : prog verdict :=
  TP_ASSERT negb (n =? -1), Some "process_vm_readv error." ;;
  TP_ASSERT u64 n =? size, Some "invalid read size." ;;
  k.

Definition process_vm_readv_999 (args : pv_args) : prog verdict :=
  let size := pv_size args in
  alloc_static at_buf size "malloc error(read)." (fun read_buf =>
  pid ← getppid;
  nread ← call_process_vm_readv pid read_buf (pv_addr args) size;
  check_size nread size (
  alloc_static at_expr size "malloc error(expr)." (fun expr_buf =>
  memset expr_buf (pv_expr args) size;;
  cmp ← MemSys.memcmp (Z.to_nat size) read_buf expr_buf;
  TP_ASSERT cmp =? 0, Some "memcmp error." ;;
  Ret None))).
Definition process_vm_writev_999 (args : pv_args) : prog verdict :=
  let size := pv_size args in
  alloc_static at_buf size "malloc error(read)." (fun write_buf =>
  memset write_buf (pv_expr args) size;;
  pid ← getppid;
  nwrite ← call_process_vm_writev pid write_buf (pv_addr args) size;
  check_size nwrite size (Ret None)).

Definition free_static (at_p : Z) : prog unit :=
  p ← var_load at_p; if negb (p =? NULL) then free p else Ret tt.
Definition process_vm_readv_teardown : prog unit := free_static at_buf;; free_static at_expr.
Definition process_vm_writev_teardown : prog unit := free_static at_buf.

Definition CHILD_PROCESS_TP_NUM : Z := 999.
Definition readv_case : TestMck.test_case :=
  TestMck.TestCase "process_vm_readv" CHILD_PROCESS_TP_NUM pv_args (fun _ => pv_setup)
    (fun _ => process_vm_readv_999) (fun _ _ => process_vm_readv_teardown).
Definition writev_case : TestMck.test_case :=
  TestMck.TestCase "process_vm_writev" CHILD_PROCESS_TP_NUM pv_args (fun _ => pv_setup)
    (fun _ => process_vm_writev_999) (fun _ _ => process_vm_writev_teardown).

End suites.

(** ** 000 *)

Definition BUF_SIZE : Z := 100.

(** [snprintf(addr, sizeof(addr), "0x%lx", buf)]: the text fits. *)
Definition addr_text (buf : Z) : string := "0x" +:+ hex buf.
Definition child_argv (suite : string) (buf : Z) (expr : string) : list string :=
  ["-s"; suite; "-n"; pretty CHILD_PROCESS_TP_NUM; "--"; "-a"; addr_text buf; "-s"; pretty BUF_SIZE; "-e"; expr]%string.

(** What both tests do with the child; [k] is what follows. *)
Definition with_child (the_app suite : string) (buf : Z) (expr : string) (k : prog verdict) : prog verdict :=
  pid ← fork;
  TP_ASSERT negb (pid =? -1), Some "fork error." ;;
  if pid =? 0 then
    execve the_app (the_app :: child_argv suite buf expr);;
    TP_ASSERT false, Some "execve error." ;; Ret None
  else
    '(result, status) ← wait4 pid 0;
    TP_ASSERT negb (result =? -1), Some "wait4 error." ;;
    TP_ASSERT status =? 0, Some "invalid exit code." ;;
    k.
Definition process_vm_readv_000 (the_app : string) : prog verdict :=
  buf ← trigger LOCAL_address;
  memset buf (chr "0") BUF_SIZE;;
  with_child the_app "process_vm_readv" buf "0" (Ret None).

(** [memcmp(buf, expr_buf, BUF_SIZE)], where [expr_buf] holds BUF_SIZE times the character. *)
Fixpoint memcmp_char (n : nat) (a c : Z) : prog Z :=
  match n with
  | O => Ret 0
  | S n => x ← load a; if x =? c then memcmp_char n (u64 (a + 1)) c else Ret (x - c)
  end.
Definition process_vm_writev_000 (the_app : string) : prog verdict :=
  buf ← trigger LOCAL_address;
  memset buf (chr "0") BUF_SIZE;;
  with_child the_app "process_vm_writev" buf "1" (
  cmp ← memcmp_char (Z.to_nat BUF_SIZE) buf (chr "1");
  TP_ASSERT cmp =? 0, Some "memcmp error." ;;
  Ret None).

End PvM.
