(* ===== verification/PvMProofs.v ===== *)
(** * One process in the memory of another

    The suites of PvM.v on kernels that keep to process_vm_readv(2) and fork: the parent, the command line
    it hands to its child, the harness that the child runs with it, and the copy between the two
    memories. *)
From S2P Require Import Prelude CMachine Procs Libc TestMck TestMckProofs MemSys PvM.
Import Procs Libc TestMck PvM.
#[local] Open Scope Z_scope.

Module PvMProofs.

(** ** Memory *)

(** What is mapped where; the bytes at [a], and a store of bytes. *)
Definition memory : Type := Z -> option Z.
Definition bytes_at (m : memory) (a : Z) (n : nat) : option (list Z) := mapM m (seqZ a (Z.of_nat n)).
Definition put_bytes (a : Z) (l : list Z) (m : memory) : memory :=
  fun x => if in_range a (Z.of_nat (length l)) x then l !! Z.to_nat (x - a) else m x.

Lemma bytes_at_Some m a n l :
  length l = n -> (forall i, (i < n)%nat -> m (a + Z.of_nat i) = l !! i) -> bytes_at m a n = Some l.
Proof.
  intros <- Hm. unfold bytes_at. apply mapM_Some. apply Forall2_same_length_lookup. split.
  - rewrite length_seqZ. lia.
  - intros i x y Hx Hy. apply lookup_seqZ in Hx as [-> Hi]. rewrite Hm by lia. done.
Qed.

Lemma bytes_at_lookup m a n l i : bytes_at m a n = Some l -> (i < n)%nat -> m (a + Z.of_nat i) = l !! i.
Proof.
  unfold bytes_at. intros H%mapM_Some Hi. pose proof (Forall2_length _ _ _ H) as Hl. rewrite length_seqZ in Hl.
  destruct (lookup_lt_is_Some_2 l i) as [y Hy]; [lia|]. rewrite Hy.
  eapply Forall2_lookup_lr in H; [exact H| |exact Hy]. apply lookup_seqZ. lia.
Qed.

Lemma put_bytes_in a l m i : (i < length l)%nat -> put_bytes a l m (a + Z.of_nat i) = l !! i.
Proof.
  intros Hi. unfold put_bytes, in_range. replace (a <=? a + Z.of_nat i) with true by lia.
  replace (a + Z.of_nat i <? a + Z.of_nat (length l)) with true by lia. cbn. f_equal. lia.
Qed.
Lemma put_bytes_out a l m x : x < a \/ a + Z.of_nat (length l) <= x -> put_bytes a l m x = m x.
Proof. intros Hx. unfold put_bytes, in_range. by replace ((a <=? x) && (x <? a + Z.of_nat (length l))) with false by lia. Qed.

Lemma bytes_at_put a l m : bytes_at (put_bytes a l m) a (length l) = Some l.
Proof. apply bytes_at_Some; [done|]. intros i Hi. by apply put_bytes_in. Qed.
Lemma bytes_at_put_other a l m b n :
  b + Z.of_nat n <= a \/ a + Z.of_nat (length l) <= b -> bytes_at (put_bytes a l m) b n = bytes_at m b n.
Proof.
  intros Hd. unfold bytes_at. apply Forall_mapM_ext, Forall_forall. intros x [i [-> Hi]%lookup_seqZ]%list_elem_of_lookup.
  apply put_bytes_out. lia.
Qed.
Lemma bytes_at_length m a n l : bytes_at m a n = Some l -> length l = n.
Proof. intros H%length_mapM. rewrite length_seqZ in H. lia. Qed.

(** ** The kernel of the child *)

(** The memory of the process and of its parent, where the next block of [malloc] lies, and the static
    variables. *)
Record child := Child { own : memory; parents : memory; brk_at : Z; statics : Z -> Z }.
Definition with_own (m : memory) (s : child) : child := Child m (parents s) (brk_at s) (statics s).
Definition with_parents (m : memory) (s : child) : child := Child (own s) m (brk_at s) (statics s).

(** [junk]: what a new block holds; [vm]: the reply of process_vm_readv or process_vm_writev when it is
    to transfer these bytes, and the bytes that arrive; the documented behaviour is [transfers]. *)
Definition transfers (l : list Z) : Z * list Z := (Z.of_nat (length l), l).

Section kernels.
Context (ppid : Z) (junk : Z -> Z) (vm : list Z -> Z * list Z).

Definition copy (src dst : memory) (from to len : Z) : option (Z * memory) :=
  l ← bytes_at src from (Z.to_nat len);
  old ← bytes_at dst to (Z.to_nat len);
  let '(r, l') := vm l in Some (r, put_bytes to (take (length old) l') dst).

Definition cstep (c : cmd) (s : child) : option (reply c * child) :=
  match c return option (reply c * child) with
  | OUT _ | ERR _ | LIBC_release _ => Some (tt, s)
  | LIBC_malloc n =>
      let p := brk_at s in
      Some (Some (p, 0), Child (put_bytes p (junk <$> seqZ p n) (own s)) (parents s) (p + n) (statics s))
  | VAR_load a => Some (statics s a, s)
  | VAR_store a v => Some (tt, Child (own s) (parents s) (brk_at s) (fun x => if x =? a then v else statics s x))
  | SYS_getppid => Some (ppid, s)
  | MEM_load a => v ← own s a; Some (Ok v, s)
  | MEM_set a v n => l ← bytes_at (own s) a (Z.to_nat n); Some (Ok tt, with_own (put_bytes a (replicate (length l) v) (own s)) s)
  | SYS_process_vm w pid local remote len =>
      if pid =? ppid then
        if w then '(r, m) ← copy (own s) (parents s) local remote len; Some (r, with_parents m s)
        else '(r, m) ← copy (parents s) (own s) remote local len; Some (r, with_own m s)
      else None
  | _ => None
  end.

(** ** The kernel of the parent *)

(** The memory and where the local variable lies; the child is the process [cpid], and when it is waited
    for the harness has run in it, with the arguments [args]. *)
Context (cases : list test_case) (suites : list string) (app : string) (args : list string).
Context (at_brk cpid buf : Z).

Definition pstep (c : cmd) (m : memory) : option (reply c * memory) :=
  match c return option (reply c * memory) with
  | LOCAL_address => Some (buf, m)
  | MEM_load a => v ← m a; Some (Ok v, m)
  | MEM_set a v n => l ← bytes_at m a (Z.to_nat n); Some (Ok tt, put_bytes a (replicate (length l) v) m)
  | SYS_fork => Some (cpid, m)
  | SYS_wait4 pid 0 =>
      if pid =? cpid then
        match sexec cstep (main cases suites app args) 0 (Child (fun _ => None) m at_brk (fun _ => 0)) with
        | Some (Returned st, _, s) => Some ((cpid, exit_status st), parents s)
        | _ => None
        end
      else None
  | _ => None
  end.

(** ** The child *)

Notation cx := (sexec cstep).

Lemma cx_bind {A B} (p : prog A) (f : A -> prog B) e s a e1 s1 :
  cx p e s = Some (Returned a, e1, s1) -> cx (p ≫= f) e s = cx (f a) e1 s1.
Proof. apply sexec_bind. Qed.
Lemma cx_printf t {A} (k : unit -> prog A) e s : cx (printf t ≫= k) e s = cx (k tt) e s.
Proof. done. Qed.
Lemma cx_print_args t {A} (k : unit -> prog A) e s : cx (print_args t ≫= k) e s = cx (k tt) e s.
Proof.
  apply cx_bind. revert e s. induction t as [|a t IH]; intros e s; [done|]. cbn [print_args]. by rewrite cx_printf.
Qed.

(** Two blocks are compared. *)
Lemma memcmp_runs n a b la lb e s :
  length la = n -> length lb = n -> 0 <= a -> a + Z.of_nat n < 2 ^ 64 -> 0 <= b -> b + Z.of_nat n < 2 ^ 64 ->
  bytes_at (own s) a n = Some la -> bytes_at (own s) b n = Some lb ->
  exists z, cx (MemSys.memcmp n a b) e s = Some (Returned z, e, s) /\ (z = 0 <-> la = lb).
Proof.
  intros Hla Hlb Ha1 Ha2 Hb1 Hb2 Ha Hb.
  assert (forall i, (i < n)%nat -> own s (a + Z.of_nat i) = la !! i) as Ha' by (intros; by eapply bytes_at_lookup).
  assert (forall i, (i < n)%nat -> own s (b + Z.of_nat i) = lb !! i) as Hb' by (intros; by eapply bytes_at_lookup).
  clear Ha Hb. revert a b la lb Hla Hlb Ha1 Ha2 Hb1 Hb2 Ha' Hb'.
  induction n as [|n IH]; intros a b la lb Hla Hlb Ha1 Ha2 Hb1 Hb2 Ha Hb.
  - destruct la, lb; [|done..]. by exists 0.
  - destruct la as [|x la], lb as [|y lb]; try done. pose proof (Ha 0%nat ltac:(lia)) as Hx.
    pose proof (Hb 0%nat ltac:(lia)) as Hy. rewrite Z.add_0_r in Hx, Hy. cbn in Hx, Hy.
    cbn. rewrite Hx. cbn. rewrite Hy. cbn. destruct (Z.eqb_spec x y) as [->|Hne].
    + rewrite !wrap_u_small by lia.
      destruct (IH (a + 1) (b + 1) la lb) as (z & E & Hz); try (simpl in *; lia).
      * intros i Hi. etrans; [|exact (Ha (S i) ltac:(lia))]. f_equal. lia.
      * intros i Hi. etrans; [|exact (Hb (S i) ltac:(lia))]. f_equal. lia.
      * exists z. split; [exact E|]. rewrite Hz. naive_solver.
    + exists (x - y). split; [done|]. split; [lia|]. intros [= -> _]. done.
Qed.

(** The steps of the test cases. *)
Definition allocated (at_p n : Z) (s : child) : child :=
  let p := brk_at s in
  Child (put_bytes p (junk <$> seqZ p n) (own s)) (parents s) (p + n) (fun x => if x =? at_p then p else statics s x).
Lemma alloc_static_runs at_p n msg k e s :
  brk_at s <> 0 -> cx (alloc_static at_p n msg k) e s = cx (k (brk_at s)) e (allocated at_p n s).
Proof. intros Hp. cbn. by replace (brk_at s =? NULL) with false by (unfold NULL; lia). Qed.

Lemma memset_runs a v n l {A} (k : unit -> prog A) e s :
  bytes_at (own s) a (Z.to_nat n) = Some l ->
  cx (memset a v n ≫= k) e s = cx (k tt) e (with_own (put_bytes a (replicate (length l) v) (own s)) s).
Proof. intros Hl. cbn. by rewrite Hl. Qed.

Lemma free_static_runs at_p {A} (k : unit -> prog A) e s : cx (free_static at_p ≫= k) e s = cx (k tt) e s.
Proof. cbn. by destruct (statics s at_p =? NULL). Qed.

Lemma getppid_runs {A} (k : Z -> prog A) e s : cx (getppid ≫= k) e s = cx (k ppid) e s.
Proof. done. Qed.

Definition good (r : Z) : bool := negb (is_error r) && (u64 r =? BUF_SIZE).
Lemma check_size_runs r k e s :
  exists e', cx (n ← syscall_ret r; check_size n BUF_SIZE k) e s =
    if good r then cx k e' s
    else Some (Returned (Some (if is_error r then "process_vm_readv error." else "invalid read size.")%string), e', s).
Proof.
  unfold syscall_ret, good. destruct (is_error r) eqn:Er; [by exists (- r)|]. exists e. cbn [mbind prog_mbind bind].
  unfold check_size. assert (r <> -1) as Hr by (unfold is_error in Er; lia).
  replace (r =? -1) with false by lia. cbn [negb tp_assert andb]. by destruct (u64 r =? BUF_SIZE).
Qed.

(** ** The test cases 999 *)

(** The call transfers as many bytes as it was to. *)
Hypothesis vm_length : forall l, length (vm l).2 = length l.
Definition N : nat := Z.to_nat BUF_SIZE.
Definition filled (c : Z) : list Z := replicate N c.

Lemma allocated_block at_p n s :
  bytes_at (own (allocated at_p n s)) (brk_at s) (Z.to_nat n) = Some (junk <$> seqZ (brk_at s) n).
Proof.
  cbn. pose proof (bytes_at_put (brk_at s) (junk <$> seqZ (brk_at s) n) (own s)) as H.
  by rewrite length_fmap, length_seqZ in H.
Qed.

Lemma process_vm_runs (w : bool) local remote l old s e (k : Z -> prog verdict) :
  bytes_at (if w then own s else parents s) (if w then local else remote) N = Some l ->
  bytes_at (if w then parents s else own s) (if w then remote else local) N = Some old ->
  cx ((if w then call_process_vm_writev else call_process_vm_readv) ppid local remote BUF_SIZE ≫= k) e s =
  cx (syscall_ret (vm l).1 ≫= k) e (if w then with_parents (put_bytes remote (vm l).2 (parents s)) s
                     else with_own (put_bytes local (vm l).2 (own s)) s).
Proof.
  intros Hl Ho.
  pose proof (bytes_at_length _ _ _ _ Hl) as Ll. pose proof (bytes_at_length _ _ _ _ Ho) as Lo.
  pose proof (vm_length l) as Hv. destruct (vm l) as [r l'] eqn:Ev. cbn in Hv.
  destruct w; cbn -[N bytes_at put_bytes]; unfold copy; fold N; rewrite Z.eqb_refl, Hl; cbn -[N bytes_at put_bytes];
    rewrite Ho; cbn -[N bytes_at put_bytes]; by rewrite Ev, take_ge by lia.
Qed.

Definition read_good (data : list Z) (c : Z) : bool := good (vm data).1 && bool_decide ((vm data).2 = filled c).

Lemma readv_999_runs at_buf at_expr addr c data e s :
  0 < brk_at s -> brk_at s + 2 * BUF_SIZE < 2 ^ 64 -> bytes_at (parents s) addr N = Some data ->
  exists v e' s', cx (process_vm_readv_999 at_buf at_expr (PvArgs addr BUF_SIZE c)) e s = Some (Returned v, e', s') /\
    parents s' = parents s /\ is_NULL v = read_good data c.
Proof.
  intros Hp1 Hp2 Hd. unfold process_vm_readv_999. cbn [pv_size pv_addr pv_expr].
  rewrite alloc_static_runs by lia. set (s1 := allocated at_buf BUF_SIZE s).
  rewrite getppid_runs.
  assert (bytes_at (own s1) (brk_at s) N = Some (junk <$> seqZ (brk_at s) BUF_SIZE)) as H1 by apply allocated_block.
  assert (bytes_at (parents s1) addr N = Some data) as H2 by exact Hd.
  rewrite (process_vm_runs false (brk_at s) addr data (junk <$> seqZ (brk_at s) BUF_SIZE) s1 e _ H2 H1).
  pose proof (vm_length data) as Hv. pose proof (bytes_at_length _ _ _ _ Hd) as Ld. rewrite Ld in Hv.
  unfold read_good. destruct (vm data) as [r l]. cbn [fst snd] in *.
  set (s2 := with_own (put_bytes (brk_at s) l (own s1)) s1).
  edestruct (check_size_runs r) as [e' ->]. destruct (good r); [|by eexists _, e', s2].
  rewrite alloc_static_runs by (change (brk_at s + BUF_SIZE <> 0); unfold BUF_SIZE; lia). set (s3 := allocated at_expr BUF_SIZE s2).
  assert (bytes_at (own s3) (brk_at s2) N = Some (junk <$> seqZ (brk_at s2) BUF_SIZE)) as H3 by apply allocated_block.
  rewrite (memset_runs _ _ _ _ _ _ _ H3), (bytes_at_length _ _ _ _ H3).
  set (s4 := with_own _ s3). fold N.
  assert (brk_at s2 = brk_at s + BUF_SIZE) as Hb by done.
  assert (bytes_at (own s4) (brk_at s2) N = Some (filled c)) as H5.
  { subst s4. cbn [own with_own]. pose proof (bytes_at_put (brk_at s2) (filled c) (own s3)) as H.
    unfold filled in *. by rewrite length_replicate in H. }
  assert (bytes_at (own s4) (brk_at s) N = Some l) as H4.
  { subst s4. cbn [own with_own]. rewrite bytes_at_put_other by (rewrite length_replicate; unfold N, BUF_SIZE in *; lia).
    subst s3. unfold allocated. cbn [own].
    rewrite bytes_at_put_other by (unfold N, BUF_SIZE in *; lia). subst s2. cbn [own with_own].
    rewrite <- Hv. apply bytes_at_put. }
  destruct (memcmp_runs N (brk_at s) (brk_at s2) l (filled c) e' s4) as (z & Ez & Hz);
    [done|apply length_replicate|unfold N, BUF_SIZE in *; lia..|done|done|].
  rewrite (cx_bind _ _ _ _ _ _ _ Ez). exists (if z =? 0 then None else Some "memcmp error."%string), e', s4.
  split; [by destruct (z =? 0)|]. split; [done|].
  cbn [andb]. destruct (Z.eqb_spec z 0); [rewrite bool_decide_true by tauto|rewrite bool_decide_false by tauto]; done.
Qed.

Lemma writev_999_runs at_buf addr c old e s :
  0 < brk_at s -> bytes_at (parents s) addr N = Some old ->
  exists v e' s', cx (process_vm_writev_999 at_buf (PvArgs addr BUF_SIZE c)) e s = Some (Returned v, e', s') /\
    parents s' = put_bytes addr (vm (filled c)).2 (parents s) /\ is_NULL v = good (vm (filled c)).1.
Proof.
  intros Hp1 Hd. unfold process_vm_writev_999. cbn [pv_size pv_addr pv_expr].
  rewrite alloc_static_runs by lia. set (s1 := allocated at_buf BUF_SIZE s).
  assert (bytes_at (own s1) (brk_at s) N = Some (junk <$> seqZ (brk_at s) BUF_SIZE)) as H1 by apply allocated_block.
  rewrite (memset_runs _ _ _ _ _ _ _ H1), (bytes_at_length _ _ _ _ H1).
  set (s2 := with_own _ s1). rewrite getppid_runs.
  assert (bytes_at (parents s2) addr N = Some old) as H2 by exact Hd.
  assert (bytes_at (own s2) (brk_at s) N = Some (filled c)) as H3.
  { subst s2. cbn [own with_own]. pose proof (bytes_at_put (brk_at s) (filled c) (own s1)) as H.
    unfold filled in *. by rewrite length_replicate in H. }
  rewrite (process_vm_runs true (brk_at s) addr (filled c) old s2 e _ H3 H2).
  edestruct (check_size_runs (vm (filled c)).1) as [e' ->].
  destruct (good (vm (filled c)).1); by eexists _, e', _.
Qed.

(** ** The harness in the child *)

Definition rest (a : Z) (expr : string) : list string :=
  ["-a"; addr_text a; "-s"; pretty BUF_SIZE; "-e"; expr]%string.

(** The address on the command line is the address the setup gets. *)
Lemma pv_setup_args a expr :
  0 <= a < 2 ^ 64 -> pv_setup (app :: rest a expr) = Ret (PvArgs a BUF_SIZE (first_char expr)).
Proof.
  intros Ha. transitivity (Ret (A := pv_args) (PvArgs (c_value (strtoul (addr_text a) 0)) BUF_SIZE (first_char expr)));
    [reflexivity|]. unfold addr_text. by rewrite strtoul_0x_hex.
Qed.

(** The harness runs the chosen case with what its setup makes of the rest of the command line. *)
Lemma harness_runs tc a expr arg v e s e' s' :
  find_test_case cases (test_suite tc) CHILD_PROCESS_TP_NUM = Some tc -> test_suite tc <> ""%string ->
  setup tc (num tc) (app :: rest a expr) = Ret arg ->
  cx (run_tc tc (num tc) arg) e s = Some (Returned v, e', s') ->
  (forall k : unit -> prog verdict, cx (teardown tc (num tc) arg ≫= k) e' s' = cx (k tt) e' s') ->
  cx (main cases suites app (child_argv (test_suite tc) a expr)) e s =
    Some (Returned (verdict_status v), e', s').
Proof.
  intros Hf Hn Hs Hr Ht.
  assert (0 <= CHILD_PROCESS_TP_NUM < 2 ^ 31) as H9 by (unfold CHILD_PROCESS_TP_NUM; lia).
  destruct (TestMckProofs.plain_command_line cases suites app (test_suite tc) CHILD_PROCESS_TP_NUM (rest a expr) H9 Hn) as [Hm _].
  rewrite Hm by (unfold TestMckProofs.plain_forms; left). rewrite Hf.
  assert (cx (run_test_case tc (app :: rest a expr)) e s = Some (Returned v, e', s')) as E.
  { unfold run_test_case. rewrite Hs. erewrite cx_bind by reflexivity. rewrite (cx_bind _ _ _ _ _ _ _ Hr).
    by rewrite Ht. }
  assert (forall k : unit -> prog Z, cx (print_info tc (app :: rest a expr) ≫= k) e s = cx (k tt) e s) as ->.
  { intros k. apply cx_bind. unfold print_info. by rewrite !cx_printf, cx_print_args. }
  rewrite (cx_bind _ _ _ _ _ _ _ E). by destruct v.
Qed.

(** ** The parent *)

(** Which suite: [w] is process_vm_writev. *)
Definition pv_test (w : bool) : prog verdict := if w then process_vm_writev_000 app else process_vm_readv_000 app.
Definition pv_case (w : bool) (at_b at_e : Z) : test_case := if w then writev_case at_b else readv_case at_b at_e.
Definition pv_suite (w : bool) : string := if w then "process_vm_writev" else "process_vm_readv".
Definition pv_char (w : bool) : string := if w then "1" else "0".
Definition pv_verdict (w : bool) : verdict :=
  let c := if w then chr "1" else chr "0" in
  let '(r, l) := vm (filled c) in
  if w then
    if good r then if bool_decide (l = filled c) then None else Some "memcmp error."%string
    else Some "invalid exit code."%string
  else if good r && bool_decide (l = filled c) then None else Some "invalid exit code."%string.

Hypothesis at_brk_range : 0 < at_brk /\ at_brk + 2 * BUF_SIZE < 2 ^ 64.

(** What the child leaves, and the memory of the parent then. *)
Definition after_child (w : bool) (m : memory) : memory :=
  if w then put_bytes buf (vm (filled (chr "1"))).2 m else m.
Definition child_good (w : bool) : bool :=
  if w then good (vm (filled (chr "1"))).1 else read_good (filled (chr "0")) (chr "0").
Lemma child_runs w at_b at_e m :
  0 <= buf < 2 ^ 64 ->
  find_test_case cases (pv_suite w) CHILD_PROCESS_TP_NUM = Some (pv_case w at_b at_e) ->
  bytes_at m buf N = Some (filled (chr "0")) ->
  exists e' s', cx (main cases suites app (child_argv (pv_suite w) buf (pv_char w))) 0
      (Child (fun _ => None) m at_brk (fun _ => 0)) =
    Some (Returned (if child_good w then EXIT_SUCCESS else EXIT_FAILURE), e', s') /\ parents s' = after_child w m.
Proof.
  intros Hb Hf Hm. set (s0 := Child _ m at_brk _). destruct at_brk_range as [Hk1 Hk2]. destruct w.
  - destruct (writev_999_runs at_b buf (chr "1") (filled (chr "0")) 0 s0 Hk1 Hm) as (v & e' & s' & E & Hp & Hv).
    exists e', s'. split; [|done].
    pose proof (harness_runs (writev_case at_b) buf "1" (PvArgs buf BUF_SIZE (chr "1")) v 0 s0 e' s' Hf) as Hh.
    cbn [child_good]. rewrite <- Hv. apply Hh; [done|by apply (pv_setup_args buf "1")|exact E|].
    intros k. apply free_static_runs.
  - destruct (readv_999_runs at_b at_e buf (chr "0") (filled (chr "0")) 0 s0 Hk1 Hk2 Hm) as (v & e' & s' & E & Hp & Hv).
    exists e', s'. split; [|done].
    pose proof (harness_runs (readv_case at_b at_e) buf "0" (PvArgs buf BUF_SIZE (chr "0")) v 0 s0 e' s' Hf) as Hh.
    cbn [child_good]. rewrite <- Hv. apply Hh; [done|by apply (pv_setup_args buf "0")|exact E|].
    intros k. cbn [teardown readv_case process_vm_readv_teardown].
    transitivity (cx (free_static at_b ≫= (fun _ => free_static at_e ≫= k)) e' s'); [|by rewrite !free_static_runs].
    unfold process_vm_readv_teardown, free_static. cbn. by destruct (statics s' at_b =? NULL).
Qed.

(** The last comparison of process_vm_writev/000, on a memory. *)
Lemma memcmp_char_runs n a c l e m :
  length l = n -> 0 <= a -> a + Z.of_nat n < 2 ^ 64 -> bytes_at m a n = Some l ->
  exists z, sexec pstep (memcmp_char n a c) e m = Some (Returned z, e, m) /\ (z = 0 <-> l = replicate n c).
Proof.
  intros Hl Ha1 Ha2 Hm.
  assert (forall i, (i < n)%nat -> m (a + Z.of_nat i) = l !! i) as Hm' by (intros; by eapply bytes_at_lookup).
  clear Hm. revert a l Hl Ha1 Ha2 Hm'. induction n as [|n IH]; intros a l Hl Ha1 Ha2 Hm.
  - destruct l; [|done]. by exists 0.
  - destruct l as [|x l]; [done|]. pose proof (Hm 0%nat ltac:(lia)) as Hx. rewrite Z.add_0_r in Hx. cbn in Hx.
    cbn. rewrite Hx. cbn. destruct (Z.eqb_spec x c) as [->|Hne].
    + rewrite wrap_u_small by lia. destruct (IH (a + 1) l) as (z & E & Hz); try (simpl in *; lia).
      * intros i Hi. etrans; [|exact (Hm (S i) ltac:(lia))]. f_equal. lia.
      * exists z. split; [exact E|]. rewrite Hz. cbn. split; [by intros ->|by intros [=]].
    + exists (x - c). split; [done|]. split; [lia|]. cbn. intros [= -> _]. done.
Qed.

Lemma parent_runs w at_b at_e e m old :
  0 <= buf -> buf + BUF_SIZE < 2 ^ 64 -> 0 < cpid ->
  args = child_argv (pv_suite w) buf (pv_char w) ->
  find_test_case cases (pv_suite w) CHILD_PROCESS_TP_NUM = Some (pv_case w at_b at_e) ->
  bytes_at m buf N = Some old ->
  exists e' m', sexec pstep (pv_test w) e m = Some (Returned (pv_verdict w), e', m').
Proof.
  intros Hb1 Hb2 Hc Ha Hf Hm. pose proof (bytes_at_length _ _ _ _ Hm) as Lo.
  set (m1 := put_bytes buf (filled (chr "0")) m).
  assert (bytes_at m1 buf N = Some (filled (chr "0"))) as Hm1.
  { pose proof (bytes_at_put buf (filled (chr "0")) m) as H. unfold filled in *. by rewrite length_replicate in H. }
  destruct (child_runs w at_b at_e m1) as (e1 & s1 & E & Hp); [unfold BUF_SIZE in *; lia|done|done|].
  assert (forall k, exists e2, sexec pstep (with_child app (pv_suite w) buf (pv_char w) k) e m1 =
    if child_good w then sexec pstep k e2 (after_child w m1)
    else Some (Returned (Some "invalid exit code."%string), e2, after_child w m1)) as Hk.
  { intros k. exists e. unfold with_child, fork, wait4, syscall_ret, is_error. cbn -[main].
    replace (cpid <=? -1) with false by lia. rewrite andb_false_r. cbn -[main].
    replace (cpid =? -1) with false by lia. replace (cpid =? 0) with false by lia. cbn -[main].
    rewrite Z.eqb_refl, Ha, E. cbn -[main]. replace (cpid <=? -1) with false by lia. rewrite andb_false_r.
    cbn -[main]. replace (cpid =? -1) with false by lia. rewrite Hp. by destruct (child_good w). }
  assert (forall k : unit -> prog verdict,
    sexec pstep (memset buf (chr "0") BUF_SIZE ≫= k) e m = sexec pstep (k tt) e m1) as Hset.
  { intros k. cbn -[N bytes_at put_bytes]. fold N. rewrite Hm. cbn -[N bytes_at put_bytes]. by rewrite Lo. }
  destruct w; cbn [pv_test pv_suite pv_char] in *; unfold process_vm_writev_000, process_vm_readv_000;
    (erewrite sexec_bind; [|reflexivity]); rewrite Hset.
  - destruct (Hk (cmp ← memcmp_char (Z.to_nat BUF_SIZE) buf (chr "1"); TP_ASSERT cmp =? 0, Some "memcmp error." ;; Ret None))
      as (e2 & ->).
    cbn [pv_verdict child_good after_child]. pose proof (vm_length (filled (chr "1"))) as Hl.
    unfold pv_verdict. destruct (vm (filled (chr "1"))) as [r l]. cbn [fst snd] in *.
    destruct (good r); [|by eexists _, _]. unfold filled in Hl. rewrite length_replicate in Hl.
    destruct (memcmp_char_runs N buf (chr "1") l e2 (put_bytes buf l m1)) as (z & Ez & Hz);
      [done..|unfold N, BUF_SIZE in *; lia|rewrite <- Hl; apply bytes_at_put|].
    fold N. rewrite (sexec_bind _ _ _ _ _ _ _ _ Ez). exists e2, (put_bytes buf l m1).
    destruct (Z.eqb_spec z 0); [rewrite bool_decide_true by tauto|rewrite bool_decide_false by tauto]; done.
  - destruct (Hk (Ret None)) as (e2 & ->). unfold pv_verdict, child_good, read_good.
    destruct (vm (filled (chr "0"))) as [r l]. cbn [fst snd]. by destruct (good r && _); eexists _, _.
Qed.

End kernels.

(** C37: process_vm_readv/000 and process_vm_writev/000 find out exactly whether the call works.  On any
    kernel with the memory and the processes of [pstep], whatever its process_vm_readv or process_vm_writev
    makes of the 100 bytes ([vm]): the child runs the harness with the command line the parent built,
    so that case 999 gets the address of the buffer of its parent, and the parent passes if and only if
    the call replied 100 and all the bytes arrived; otherwise it fails with the message of [pv_verdict]. *)
Theorem process_vm_verdicts (w : bool) ppid junk vm cases suites app at_brk cpid buf at_b at_e `{K : Kernel}
    (view : kstate -> memory) :
  (forall l, length (vm l).2 = length l) -> 0 < at_brk /\ at_brk + 2 * BUF_SIZE < 2 ^ 64 ->
  0 <= buf -> buf + BUF_SIZE < 2 ^ 64 -> 0 < cpid ->
  find_test_case cases (pv_suite w) CHILD_PROCESS_TP_NUM = Some (pv_case w at_b at_e) ->
  Meets (pstep ppid junk vm cases suites app (child_argv (pv_suite w) buf (pv_char w)) at_brk cpid buf) view ->
  forall e s old, bytes_at (view s) buf N = Some old ->
  exists e' s', exec (pv_test app w) (Mach e s) = (Returned (pv_verdict vm w), Mach e' s').
Proof.
  intros Hv Hk Hb1 Hb2 Hc Hf HM e s old Hm.
  destruct (parent_runs ppid junk vm cases suites app _ at_brk cpid buf Hv Hk w at_b at_e e (view s) old Hb1 Hb2 Hc
              eq_refl Hf Hm) as (e' & m' & E).
  destruct (sexec_exec _ _ _ _ _ _ _ E) as (s' & E' & _). exists e', s'. exact E'.
Qed.

(** The child of 000 executes the harness with this command line. *)
Theorem process_vm_child (w : bool) app buf e tr o e' :
  run (pv_test app w) e (ev LOCAL_address buf :: ev (MEM_set buf (chr "0") BUF_SIZE) (Ok tt) :: ev SYS_fork 0 :: tr) o e' ->
  exists r tr', tr = ev (SYS_execve app (app :: child_argv (pv_suite w) buf (pv_char w))) r :: tr'.
Proof.
  destruct w; cbn [pv_test]; unfold process_vm_writev_000, process_vm_readv_000; intros H%run_vis%run_vis%run_vis;
    destruct H as (r & tr' & -> & _); eauto.
Qed.

(** ** The theorem at work *)

(** A kernel that keeps to [pstep], with both suites in the table of the harness. *)
Definition cases0 : list test_case := [readv_case 1 2; writev_case 3].
Definition pv_kernel (vm : list Z -> Z * list Z) (w : bool) : Kernel :=
  {| kstate := memory;
     kstep := fun c m => match pstep 100 (fun _ => 7) vm cases0 [] "test_mck" (child_argv (pv_suite w) 4096 (pv_char w)) 65536
                                 101 4096 c m with Some p => p | None => (no_reply c, m) end |}.
Lemma pv_kernel_meets vm w :
  Meets (H := pv_kernel vm w) (pstep 100 (fun _ => 7) vm cases0 [] "test_mck" (child_argv (pv_suite w) 4096 (pv_char w)) 65536 101 4096)
    (id : @kstate (pv_kernel vm w) -> memory).
Proof. intros c s r t E. exists t. cbn. unfold id in *. by rewrite E. Qed.

Definition fresh_memory : memory := put_bytes 4096 (replicate 100 7) (fun _ => None).

Definition ends_with (vm : list Z -> Z * list Z) (w : bool) (v : verdict) : Prop :=
  exists e' s', exec (H := pv_kernel vm w) (pv_test "test_mck" w) (@Mach (pv_kernel vm w) 0 fresh_memory) =
    (Returned v, @Mach (pv_kernel vm w) e' s').
Lemma process_vm_verdicts_witness :
  ends_with transfers true None /\ ends_with (fun l => (99, l)) false (Some "invalid exit code."%string).
Proof.
  split.
  - apply (@process_vm_verdicts true 100 (fun _ => 7) transfers cases0 [] "test_mck" 65536 101 4096 3 0 (pv_kernel transfers true) id
             (fun _ => eq_refl) ltac:(unfold BUF_SIZE; lia) ltac:(lia) ltac:(unfold BUF_SIZE; lia) ltac:(lia) eq_refl
             (pv_kernel_meets transfers true) 0 fresh_memory (replicate 100 7)). by vm_compute.
  - apply (@process_vm_verdicts false 100 (fun _ => 7) (fun l => (99, l)) cases0 [] "test_mck" 65536 101 4096 1 2
             (pv_kernel (fun l => (99, l)) false) id
             (fun _ => eq_refl) ltac:(unfold BUF_SIZE; lia) ltac:(lia) ltac:(unfold BUF_SIZE; lia) ltac:(lia) eq_refl
             (pv_kernel_meets (fun l => (99, l)) false) 0 fresh_memory (replicate 100 7)). by vm_compute.
Defined.

End PvMProofs.
